(* ===== verification/_CoqProject ===== *)
-Q . S2P
Prelude.v
Posix.v
Wire.v
SockBuffer.v
Poller.v
Subpoll.v
Spec.v
Options.v
Magic.v
Tunnel.v
Connection.v
Sblist.v
Socks5.v
Local.v
Remote.v
Behaviour.v
Protocol.v
Links.v
Handshake.v
Main.v
Session.v
Memory.v
Ends.v
Hearing.v
Pipes.v
System.v
Running.v
Agreement.v
Startup.v
Phases.v
Serving.v
Passing.v
Setup.v
Loops.v
Socks5Service.v
Diagnostics.v
