(* ===== verification/Prelude.v ===== *)
(** * StdioTunnel: a verification development

    StdioTunnel forwards TCP connections over the standard input and output
    of a command such as ssh.  The local process runs the command, passes the
    terminal through until the remote process has printed a magic string,
    then sends it the list of connections; from then on the two processes
    speak a message protocol over the pipe, in which every forwarded socket is
    a link of one of the connections.  The program is src/src/com/antlersoft
    (C++) with the sockets helper of src/src/microsocks (C).

    ** The files

    - Prelude: bytes, machine integers with their conversions, the effect
      monad [M], parts of a state ([lens], [zoom]), the relation [moves] on
      what a computation does to its state, tactics, list and byte-order
      lemmas.
    - Posix: the operating system as a class [Posix] of system calls over a
      state [os] of its own, the documented behaviour the theorems rely on
      ([PosixLaws], [SocketLaws]), and a scripted system for examples.
    - Wire: net/ReadStream and net/WriteStream, the framing of messages.
    - SockBuffer: net/SockBuffer, the two-stage buffer of a socket.
    - Poller: net/Poller, the event loop, with the entries under the names
      the code has for them ([m_polled], [m_index], [m_orig_size]).
    - Subpoll: the emulation of poll by select at the top of net/Poller.cpp.
    - Spec: ConnectionSpec with its wire form and its command line form
      (parseConnection).
    - Options: the two walks over the command line.
    - Magic: MagicStringDetector.
    - Tunnel: the state StdioTunnel's two ends share, its constructor and
      destructor, the terminal; objects shared by pointer live in two heaps,
      and an object that has been freed is no longer there.
    - Connection: CustomWriteStream, ConnectionLink, TunnelConnection,
      ListenSide and ConnectSide.
    - Sblist, Socks5: microsocks' list and server, Socks5Server and its
      client threads.
    - Local, Remote: StdioTunnelLocal and StdioTunnelRemote.
    - Main: CreateTunnel, startFinish and main.
    - Diagnostics: Trace, MyException and StderrEndl.
    - Behaviour, Protocol, Links, Handshake, Socks5Service: theorems about
      the components together.
    - Session, Memory, Ends, Hearing, System, Agreement, Startup: the two
      processes with the channels between them.  Session has the automaton of
      one link and the pairs of states its two ends can be in ([pair_ok]);
      Memory the shared objects of an end without dangling pointers
      ([typed]); Ends and Hearing show that a callback, and the hearing of a
      message, is a step of the automaton for every link; System composes two
      such ends over the interface [Hearer] into transitions of a [world];
      Agreement discharges the interface for the two programs, and Startup
      shows that the handshake ends where a session begins.
    - Pipes, Running, Phases, Serving, Passing, Setup, Loops: the loops of
      both programs joined by their two pipes.  Pipes says what a system does
      with the pipe ([PipeLaws]) and that only a process's own callbacks touch
      it ([undisturbed]); Running shows that every callback and every round
      keeps what holds between two callbacks ([live]), for either process;
      Phases has the worlds the two may come to from the handshake on
      ([phase]: the list is on its way, the answer is, a session runs);
      Serving has the callbacks of the two processes themselves in these
      worlds, Passing what they do before, while the local process passes its
      input and output through and the remote one waits ([passing],
      [expectant]), Setup what [start_tunnel] of each makes, and Loops the
      system of the two loops ([loop_step]).

    A C++ member function is a definition of the same name.  It is a
    computation in [M S]: it returns, throws (keeping the state it has
    reached), or is [Undef], which stands for what the language gives no
    meaning to: an empty deque, an iterator out of range, a null or dangling
    pointer, a buffer overrun, an indeterminate value.  A theorem that a
    definition returns therefore also says that it is memory safe.  Virtual
    functions are fields of classes ([Polled], [Registers], [Role]); the two
    ends are their instances.

    ** What the theorems show

    - Wire: messages cross the pipe whole and in order however reads and
      writes are cut ([channel_fifo]); typed values are read back
      ([values_roundtrip]); reading keeps to its buffer and delivers whole
      packets only ([fill_memory_safe]); which bytes behind a small packet
      are overwritten when it is made, and where an end of file is missed
      ([WritePacket_overrun], and the lemma [fill_ignores_eof_in_payload]).
    - SockBuffer: a lossless queue ([SockBuffer_fifo]); reading goes on until
      less than a block comes ([readData_drains]).
    - Poller and Behaviour: a round is the traversal of the entries
      registered when it began, although callbacks add and remove entries
      ([pollOnce_visits]), in both programs ([tunnel_rounds]).
    - Spec, Options, Magic: exactly which specifications are accepted and
      with which text the others are refused ([parse_accepts]), what else is
      on the command line, and what on the terminal.
    - Protocol and Links: callbacks say whole messages only
      ([callbacks_speak]); data, acknowledgement and closing across the two
      ends of a link, creation at both ends or, whichever system call fails,
      at neither ([link_creation]), and the messages that cannot be served.
    - Handshake and Startup: the table of connections is the same at both
      ends, and a session can start ([handshake_roundtrip],
      [handshake_starts]).
    - The session: in every reachable state no pointer dangles
      ([session_typed]), the next message is taken without an exception and
      the ends of every link are in states that go together
      ([session_takes]); left to read what is on its way, the ends come to
      agree on which links there are ([session_settles]).
    - The loops: [start_tunnel] of both programs comes to the beginning of
      the event loops ([tunnels_open]).  However these run from there, the
      local process waits for the magic string, or they have come to the states
      of the handshake and of a session, with the payloads on their way in the
      pipes as whole packets ([loops_refine_session]); no iteration does
      anything undefined or runs out of fuel ([loops_safe]); when the pipes are
      empty the session has begun and the ends have the same links
      ([loops_agree]).
    - Subpoll: what select is asked and what the event loop gets in place of
      poll ([poll_meets_contract]).
    - Diagnostics: what is printed when an exception is made, and which
      error's text it has ([exception_report]).
    - Sblist, Socks5Service: requests of RFC 1928, the conversation with a
      client, the copying of data, the threads and what is closed at their
      end.
    - Main: the terminal is restored on every way out ([main_restores_terminal]),
      and with which status a run ends ([main_status]).

    ** Bounds and fuel

    The machine is little-endian with 64-bit long and size_t.  The loops
    whose number of turns the environment decides take fuel: the event loop
    ([rounds]), [SockBuffer.readData] (the blocks a descriptor delivers in one
    go), [copyloop]; their theorems say how much is enough.  The loops the
    program bounds itself (the traversal of a round, the handshake of a SOCKS
    client, the collection of its threads) have that bound for fuel and are
    proved not to run out of it.

    ** What the session takes for granted

    The channels of System hold the payloads of messages in order, which is
    what the streams provide ([channel_fifo]).  A payload holds one message,
    as the callbacks write them ([callbacks_speak]); for the loops of Loops
    both are proved, not assumed.  A listener of System gives the next
    accepted socket an id no link of its connection has.  In Loops this
    follows by counting: ids start at 501 and the listeners have ids left for
    the round ([roomy]); they are shorts and come round after 65536 sockets,
    and [listen_polled_reuse] of Ends shows what happens then.  Until the
    magic string has come nobody types and no client connects ([unattended]):
    what is typed goes to the command as it is, and a client that connects
    before the handshake makes the remote end throw.  There is no login
    command and no daemon ([plain_config]), nothing but what the remote system
    has printed is in the pipes at the start ([fresh_pipes]), and the magic
    string comes in fewer than [blocks] full reads.  The loops run without a
    SOCKS server, while neither has been asked to finish; what the remote
    process does when its standard output goes is in Running ([leaving]).  The
    pipe is read and written only by its two ends, and accept and socket make
    descriptors that are not open already.  The session starts from a table
    of connections without links, the same at both ends, as the handshake
    leaves it.  A connection may be for either end to listen for: the remote
    end throws when it cannot bind a port it is told to listen on, and leaves
    a connection out whose socket it cannot make; the local end announces the
    connections it could make, less than 32768 of them, with hosts whose texts
    fit the 32-bit lengths of the wire.

    ** Not modelled

    Trace and the text of an exception are not threaded through the other
    components (an exception is its message or its errno, and [what()] is a
    parameter of [main]); the debugging output under COM_OUT, [umask] and the
    signal dispositions (a signal that has come is an answer of
    [sys_signal]), and the functions of server.c nothing calls are left out. *)

From stdpp Require Import base tactics list gmap strings pretty.
From Stdlib Require Import ZArith Lia.
From Stdlib Require Export Strings.Byte.

Open Scope Z_scope.

(** ** Bytes and machine integers

    A [char] of the program is a [byte]; the program only ever looks at it
    through [& 0xff].  Integers are [Z] with the conversion to the C++ type
    written out. *)

#[export] Instance byte_eq_decision : EqDecision byte := Byte.byte_eq_dec.

(** [b & 0xff] for a [char b]. *)
Definition Z_of_byte (b : byte) : Z := Z.of_N (Byte.to_N b).

(** Conversion of an integer to [char]: the low eight bits. *)
Definition byte_of_Z (z : Z) : byte :=
  default x00 (Byte.of_N (Z.to_N (z mod 256))).

(** Conversion to [short], [int], [unsigned short], [uint32_t], [size_t]. *)
Definition i16 (z : Z) : Z := (z + 32768) mod 65536 - 32768.
Definition i32 (z : Z) : Z := (z + 2147483648) mod 4294967296 - 2147483648.
Definition u16 (z : Z) : Z := z mod 65536.
Definition u32 (z : Z) : Z := z mod 4294967296.
Definition u64 (z : Z) : Z := z mod 18446744073709551616.

(** Byte string literals. *)
Definition bytes_of (s : string) : list byte := String.list_byte_of_string s.
Arguments bytes_of s%_string_scope.

(** The C string at the start of an array: up to the first null character. *)
Fixpoint c_string (bs : list byte) : list byte :=
  match bs with
  | [] => []
  | b :: bs => if bool_decide (b = x00) then [] else b :: c_string bs
  end.

(** A bit test [x & m] used as a condition. *)
Definition has_bit (x m : Z) : bool := negb (Z.land x m =? 0).

Lemma Z_of_byte_range b : 0 <= Z_of_byte b < 256.
Proof.
  unfold Z_of_byte. pose proof (Byte.to_N_bounded b). lia.
Qed.

Lemma Z_of_byte_of_Z z : Z_of_byte (byte_of_Z z) = z mod 256.
Proof.
  unfold Z_of_byte, byte_of_Z.
  pose proof (Z.mod_pos_bound z 256 ltac:(lia)).
  destruct (Byte.of_N (Z.to_N (z mod 256))) as [b|] eqn:E; simpl.
  - apply Byte.to_of_N in E. rewrite E. lia.
  - apply Byte.of_N_None_iff in E. lia.
Qed.

Lemma byte_of_Z_of_byte b : byte_of_Z (Z_of_byte b) = b.
Proof.
  unfold byte_of_Z. rewrite Z.mod_small by apply Z_of_byte_range.
  unfold Z_of_byte. rewrite N2Z.id, Byte.of_to_N. reflexivity.
Qed.

Lemma byte_of_Z_mod a b : a mod 256 = b mod 256 -> byte_of_Z a = byte_of_Z b.
Proof. unfold byte_of_Z. intros ->. reflexivity. Qed.

Lemma i16_range z : -32768 <= i16 z < 32768.
Proof. unfold i16. pose proof (Z.mod_pos_bound (z + 32768) 65536 ltac:(lia)). lia. Qed.

Lemma i16_id z : -32768 <= z < 32768 -> i16 z = z.
Proof. intros. unfold i16. rewrite Z.mod_small by lia. lia. Qed.

Lemma i16_mod z : i16 z mod 65536 = z mod 65536.
Proof.
  unfold i16. rewrite Zminus_mod_idemp_l. f_equal. lia.
Qed.

Lemma i16_cong a b : a mod 65536 = b mod 65536 -> i16 a = i16 b.
Proof.
  intros H. unfold i16. f_equal.
  rewrite (Z.add_mod a), (Z.add_mod b), H by lia. reflexivity.
Qed.

Lemma i16_idemp z : i16 (i16 z) = i16 z.
Proof. apply i16_id, i16_range. Qed.

Lemma u16_i16 z : u16 (i16 z) = u16 z.
Proof. apply i16_mod. Qed.

Lemma i16_u16 z : i16 (u16 z) = i16 z.
Proof. apply i16_cong. unfold u16. apply Z.mod_mod. lia. Qed.

Lemma u32_id z : 0 <= z < 4294967296 -> u32 z = z.
Proof. apply Z.mod_small. Qed.

(** ** The effect monad

    A C++ member function is a function of the state it can reach.  It
    returns, throws (keeping the state reached so far), or does something
    the language gives no meaning to.  Loops whose number of turns is up to
    the environment run on fuel. *)

(** What is thrown: a [MyException] built from a message or from [errno],
    or a [const char*].  [ProcessEnds] is no exception: the process has
    called [exit], and no handler sees it. *)
Inductive exn : Type :=
| ExnMsg (msg : string)
| ExnErrno (errno : Z)
| ExnStr (s : string)
| ProcessEnds (code : Z).
Arguments ExnMsg msg%_string_scope.
Arguments ExnStr s%_string_scope.

Inductive ub : Type :=
| EmptyDeque        (* front/pop_front of an empty deque *)
| OutOfRange        (* an iterator or an index outside its container *)
| NullDeref         (* a call through a null pointer *)
| Dangling          (* an object that is no longer there *)
| BufferOverrun     (* a store or a read(2) past the end of an array *)
| Indeterminate.    (* the value of an uninitialised variable *)

Inductive outcome (S A : Type) : Type :=
| Ret (a : A) (s : S)
| Throw (e : exn) (s : S)
| Undef (u : ub)
| NoFuel.
Arguments Ret {S A} a s.
Arguments Throw {S A} e s.
Arguments Undef {S A} u.
Arguments NoFuel {S A}.

Definition M (S A : Type) : Type := S -> outcome S A.

#[export] Instance M_ret {S} : MRet (M S) := fun A a s => Ret a s.
#[export] Instance M_bind {S} : MBind (M S) := fun A B f m s =>
  match m s with
  | Ret a s' => f a s'
  | Throw e s' => Throw e s'
  | Undef u => Undef u
  | NoFuel => NoFuel
  end.

Definition throw {S A} (e : exn) : M S A := fun s => Throw e s.
Definition undefined {S A} (u : ub) : M S A := fun _ => Undef u.
Definition out_of_fuel {S A} : M S A := fun _ => NoFuel.
Definition gets {S A} (f : S -> A) : M S A := fun s => Ret (f s) s.
Definition modify {S} (f : S -> S) : M S unit := fun s => Ret tt (f s).
Definition when {S} (b : bool) (m : M S unit) : M S unit := if b then m else mret tt.
(** The value of an option, undefined behaviour without one. *)
Definition deref {S A} (u : ub) (o : option A) : M S A :=
  match o with Some a => mret a | None => undefined u end.

(** Part of a state: a member of the object, or several of them. *)
Record lens (S T : Type) : Type := Lens { view : S -> T; update : T -> S -> S }.
Arguments Lens {S T} _ _.
Arguments view {S T} _ _.
Arguments update {S T} _ _ _.

Definition lens_pair {S A B} (l : lens S A) (k : lens S B) : lens S (A * B) :=
  Lens (fun s => (view l s, view k s)) (fun ab s => update k ab.2 (update l ab.1 s)).

Definition lens_comp {S A B} (l : lens S A) (k : lens A B) : lens S B :=
  Lens (fun s => view k (view l s)) (fun b s => update l (update k b (view l s)) s).

Definition lens_snd {A B} : lens (A * B) B := Lens snd (fun b p => (p.1, b)).
Definition lens_fst {A B} : lens (A * B) A := Lens fst (fun a p => (a, p.2)).

(** A member function of a part, called from the whole. *)
Definition zoom {S T A} (l : lens S T) (m : M T A) : M S A := fun s =>
  match m (view l s) with
  | Ret a t => Ret a (update l t s)
  | Throw e t => Throw e (update l t s)
  | Undef u => Undef u
  | NoFuel => NoFuel
  end.

(** The laws a part of a state obeys. *)
Class LensLaws {S T} (l : lens S T) : Prop := {
  view_update t s : view l (update l t s) = t;
  update_view s : update l (view l s) s = s;
  update_update t t' s : update l t (update l t' s) = update l t s
}.

#[export] Instance lens_fst_laws {A B} : LensLaws (@lens_fst A B).
Proof. split; [done | by intros [] | done]. Qed.
#[export] Instance lens_snd_laws {A B} : LensLaws (@lens_snd A B).
Proof. split; [done | by intros [] | done]. Qed.

Lemma bind_ret {S A B} (a : A) (f : A -> M S B) s : (mret a ≫= f) s = f a s.
Proof. reflexivity. Qed.

Lemma bind_inv {S A B} (m : M S A) (f : A -> M S B) s b s' :
  (m ≫= f) s = Ret b s' -> exists a s1, m s = Ret a s1 /\ f a s1 = Ret b s'.
Proof. unfold mbind, M_bind. destruct (m s); intros; simplify_eq; eauto. Qed.

Lemma bind_step {S A B} (m : M S A) (f : A -> M S B) s a s' :
  m s = Ret a s' -> (m ≫= f) s = f a s'.
Proof. intros E. unfold mbind, M_bind. by rewrite E. Qed.

Lemma bind_gets {S A B} (g : S -> A) (f : A -> M S B) s : (gets g ≫= f) s = f (g s) s.
Proof. reflexivity. Qed.

Lemma bind_throw {S A B} (m : M S A) (f : A -> M S B) s e s' :
  m s = Throw e s' -> (m ≫= f) s = Throw e s'.
Proof. intros E. unfold mbind, M_bind. by rewrite E. Qed.

Lemma bind_ext {S A B} (m : M S A) (f g : A -> M S B) s :
  (forall a s', f a s' = g a s') -> (m ≫= f) s = (m ≫= g) s.
Proof. intros H. unfold mbind, M_bind. destruct (m s); auto. Qed.

Lemma bind_assoc {S A B C} (m : M S A) (f : A -> M S B) (g : B -> M S C) s :
  ((m ≫= f) ≫= g) s = (m ≫= fun a => f a ≫= g) s.
Proof. unfold mbind, M_bind. destruct (m s); reflexivity. Qed.

(** Running a computation on concrete states. *)
Definition final {S A} (x : outcome S A) (d : S) : S :=
  match x with Ret _ s | Throw _ s => s | _ => d end.

(** ** What a computation may do to its state

    [moves R m]: whenever [m] returns or throws, the state it started in and
    the state it left are related by [R].  With a preorder this composes. *)

Definition moves {S A} (R : S -> S -> Prop) (m : M S A) : Prop := forall s,
  match m s with Ret _ s' | Throw _ s' => R s s' | _ => True end.

Section Moves.
Context {S : Type} (R : S -> S -> Prop) `{!PreOrder R}.

Lemma moves_ret {A} (a : A) : moves R (mret a).
Proof. intros s. simpl. reflexivity. Qed.
Lemma moves_throw {A} e : moves R (throw (A:=A) e).
Proof. intros s. simpl. reflexivity. Qed.
Lemma moves_undefined {A} u : moves R (undefined (A:=A) u).
Proof. intros s. exact I. Qed.
Lemma moves_out_of_fuel {A} : moves R (out_of_fuel (A:=A)).
Proof. intros s. exact I. Qed.
Lemma moves_gets {A} (f : S -> A) : moves R (gets f).
Proof. intros s. simpl. reflexivity. Qed.
Lemma moves_modify (f : S -> S) : (forall s, R s (f s)) -> moves R (modify f).
Proof. intros H s. apply H. Qed.
Lemma moves_when b m : moves R m -> moves R (when b m).
Proof. destruct b; [done | intros _; apply moves_ret]. Qed.
Lemma moves_deref {A} u (o : option A) : moves R (deref u o).
Proof. destruct o; [apply moves_ret | apply moves_undefined]. Qed.
Lemma moves_bind {A B} (m : M S A) (f : A -> M S B) :
  moves R m -> (forall a, moves R (f a)) -> moves R (m ≫= f).
Proof.
  intros Hm Hf s. unfold mbind, M_bind. specialize (Hm s).
  destruct (m s) as [a s1| | |]; try done.
  specialize (Hf a s1). destruct (f a s1); try done; by etransitivity.
Qed.
Lemma moves_if {A} (b : bool) (m k : M S A) :
  moves R m -> moves R k -> moves R (if b then m else k).
Proof. destruct b; auto. Qed.
End Moves.

Lemma moves_at {S A} (R : S -> S -> Prop) (m : M S A) s a s' : moves R m -> m s = Ret a s' -> R s s'.
Proof. intros H E. specialize (H s). by rewrite E in H. Qed.

Lemma moves_impl {S A} (R R' : S -> S -> Prop) (m : M S A) :
  (forall s s', R s s' -> R' s s') -> moves R m -> moves R' m.
Proof. intros H Hm s. specialize (Hm s). destruct (m s); eauto. Qed.

Lemma moves_zoom {S T A} (R : S -> S -> Prop) (l : lens S T) (m : M T A) :
  (forall s t, R s (update l t s)) -> moves R (zoom l m).
Proof. intros H s. unfold zoom. destruct (m (view l s)); auto. Qed.

Lemma moves_zoom_rel {S T A} (R : S -> S -> Prop) (Q : T -> T -> Prop) (l : lens S T) (m : M T A) :
  moves Q m -> (forall s t, Q (view l s) t -> R s (update l t s)) -> moves R (zoom l m).
Proof.
  intros Hm H s. unfold zoom. specialize (Hm (view l s)).
  destruct (m (view l s)); auto.
Qed.

(** A relation on a part, as a relation on the whole. *)
#[export] Instance preorder_on {S T} (f : S -> T) (R : T -> T -> Prop) `{!PreOrder R} :
  PreOrder (fun s s' => R (f s) (f s')).
Proof. split; [intros s; reflexivity | intros s1 s2 s3; apply transitivity]. Qed.

(** A relation on a part of the state, as a relation on the whole. *)
Definition on {S T} (k : lens S T) (R : T -> T -> Prop) (s s' : S) : Prop := R (view k s) (view k s').
#[export] Instance on_preorder {S T} (k : lens S T) (R : T -> T -> Prop) `{!PreOrder R} : PreOrder (on k R).
Proof. unfold on. apply _. Qed.

(** Two parts that do not overlap. *)
Class Apart {S A B} (l : lens S A) (k : lens S B) : Prop :=
  view_apart a s : view k (update l a s) = view k s.
#[export] Hint Extern 0 (Apart _ _) => (intros ? ?; reflexivity) : typeclass_instances.

#[export] Instance apart_pair {S A B C} (l : lens S A) (l' : lens S B) (k : lens S C)
  `{!Apart l k} `{!Apart l' k} : Apart (lens_pair l l') k.
Proof. intros ab s. cbn. by rewrite !view_apart. Qed.
#[export] Instance apart_comp {S A B C} (l : lens S A) (l' : lens A B) (k : lens S C)
  `{!Apart l k} : Apart (lens_comp l l') k.
Proof. intros b s. cbn. apply view_apart. Qed.

Lemma moves_apart {S A T X} (l : lens S A) (k : lens S T) (R : T -> T -> Prop) `{!PreOrder R}
    `{!Apart l k} (m : M A X) : moves (on k R) (zoom l m).
Proof. apply moves_zoom. intros s t. unfold on. rewrite view_apart. reflexivity. Qed.

Lemma moves_zoom_on {S A X} (l : lens S A) `{!LensLaws l} (R : A -> A -> Prop) (m : M A X) :
  moves R m -> moves (on l R) (zoom l m).
Proof. intros H. eapply moves_zoom_rel; [exact H|]. intros s t. unfold on. by rewrite view_update. Qed.

Create HintDb tunnel discriminated.
Create Rewrite HintDb tunnel.
#[export] Hint Resolve moves_ret moves_throw moves_undefined moves_out_of_fuel
  moves_gets moves_when moves_deref moves_bind moves_if : tunnel.
#[export] Hint Rewrite Z_of_byte_of_Z byte_of_Z_of_byte i16_idemp u16_i16 i16_u16 : tunnel.

(** ** Tactics *)

(** Run the monad in the goal one step further. *)
Ltac mstep := cbn [mret mbind M_ret M_bind throw undefined out_of_fuel gets modify when deref
                   view update lens_pair lens_comp lens_snd lens_fst zoom fst snd].
Ltac munfold := unfold mret, mbind, M_ret, M_bind, throw, undefined, out_of_fuel, gets, modify,
                   when, deref, zoom.

(** ** Lists *)

Section Lists.
Context {A : Type}.
Implicit Types l k : list A.

Lemma take_app_exact l k n : n = length l -> take n (l ++ k) = l.
Proof. intros ->. apply take_app_length. Qed.

Lemma drop_app_exact l k n : n = length l -> drop n (l ++ k) = k.
Proof. intros ->. apply drop_app_length. Qed.

Lemma app_prefix_split l1 l2 k1 k2 :
  (length l1 <= length k1)%nat -> l1 ++ l2 = k1 ++ k2 -> exists m, k1 = l1 ++ m /\ l2 = m ++ k2.
Proof.
  revert k1. induction l1 as [|x l1 IH]; intros [|y k1] Hlen E; simpl in *; try lia.
  - exists []. done.
  - exists (y :: k1). done.
  - simplify_eq. destruct (IH k1 ltac:(lia) H0) as (m & -> & ->). by exists m.
Qed.
End Lists.

Lemma filter_ext_in {A} (Q1 Q2 : A -> Prop) `{!forall x, Decision (Q1 x), !forall x, Decision (Q2 x)} (l : list A) :
  (forall x, x ∈ l -> Q1 x <-> Q2 x) -> filter Q1 l = filter Q2 l.
Proof.
  induction l as [|x l IH]; intros HQ; [done|].
  rewrite !filter_cons. rewrite IH by (intros; apply HQ; by right).
  specialize (HQ x ltac:(left)). repeat case_decide; tauto.
Qed.

(** [l.size()] as an integer. *)
Abbreviation zlen l := (Z.of_nat (length l)).

(** ** Byte order

    The model is of a little-endian machine with 64-bit [long] and [size_t]. *)

Fixpoint le_combine (bs : list byte) : Z :=
  match bs with [] => 0 | b :: r => Z_of_byte b + 256 * le_combine r end.

Fixpoint le_split (n : nat) (z : Z) : list byte :=
  match n with O => [] | S n => byte_of_Z z :: le_split n (z / 256) end.

(** [htonl] and [ntohl] on a [uint32_t] argument. *)
Definition htonl (z : Z) : Z :=
  let w := u32 z in
  le_combine (rev (le_split 4 w)).

(** Four bytes in network order. *)
Definition be32 (z : Z) : list byte := rev (le_split 4 z).
Definition be_value (bs : list byte) : Z := le_combine (rev bs).

Lemma length_le_split n z : length (le_split n z) = n.
Proof. revert z. induction n; intros; simpl; auto. Qed.

Lemma le_combine_split n z : le_combine (le_split n z) = z mod 256 ^ Z.of_nat n.
Proof.
  revert z. induction n as [|n IH]; intros z.
  - simpl. symmetry. apply Z.mod_1_r.
  - cbn [le_combine le_split]. rewrite IH, Z_of_byte_of_Z.
    replace (Z.of_nat (S n)) with (1 + Z.of_nat n) by lia.
    rewrite Z.pow_add_r, Z.pow_1_r by lia.
    rewrite Z.rem_mul_r by (try apply Z.pow_pos_nonneg; lia). lia.
Qed.

Lemma le_split_combine bs : le_split (length bs) (le_combine bs) = bs.
Proof.
  induction bs as [|b bs IH]; [done|]. cbn [length le_split le_combine]. f_equal.
  - rewrite <- (byte_of_Z_of_byte b) at 2. apply byte_of_Z_mod.
    rewrite Z.mul_comm, Z_mod_plus_full. done.
  - rewrite Z.mul_comm, Z_div_plus_full by lia.
    rewrite Z.div_small by apply Z_of_byte_range. done.
Qed.

Lemma le_combine_range bs : 0 <= le_combine bs < 256 ^ zlen bs.
Proof.
  rewrite <- (le_split_combine bs) at 1 2. rewrite le_combine_split.
  apply Z.mod_pos_bound, Z.pow_pos_nonneg; lia.
Qed.

Lemma length_be32 z : length (be32 z) = 4%nat.
Proof. unfold be32. by rewrite length_rev, length_le_split. Qed.

Lemma be_value_be32 z : be_value (be32 z) = u32 z.
Proof. unfold be_value, be32. rewrite rev_involutive, le_combine_split. done. Qed.

Lemma be32_be_value bs : length bs = 4%nat -> be32 (be_value bs) = bs.
Proof.
  intros H. unfold be_value, be32.
  replace 4%nat with (length (rev bs)) by (by rewrite length_rev).
  by rewrite le_split_combine, rev_involutive.
Qed.

Lemma le_split_take n m z : (n <= m)%nat -> take n (le_split m z) = le_split n z.
Proof.
  revert m z. induction n as [|n IH]; intros [|m] z H; try lia; [done|done|].
  cbn [le_split take]. rewrite IH by lia. done.
Qed.

Lemma le_split_mod n z : le_split n (z mod 256 ^ Z.of_nat n) = le_split n z.
Proof.
  rewrite <- le_combine_split. rewrite <- (length_le_split n z) at 1. apply le_split_combine.
Qed.

(** The first four bytes in memory of [htonl z], stored in a wider integer,
    are [z] in network order. *)
Lemma le_split_htonl n z : (4 <= n)%nat -> take 4 (le_split n (htonl z)) = be32 z.
Proof.
  intros H. rewrite le_split_take by done. unfold htonl.
  set (bs := rev (le_split 4 (u32 z))).
  replace 4%nat with (length bs) by (by unfold bs; rewrite length_rev, length_le_split).
  rewrite le_split_combine. unfold bs, be32. f_equal. apply (le_split_mod 4).
Qed.

Lemma le_split_drop n m z : drop n (le_split (n + m) z) = le_split m (z / 256 ^ Z.of_nat n).
Proof.
  revert z. induction n as [|n IH]; intros z; [by rewrite Z.div_1_r|].
  cbn [Nat.add le_split drop]. rewrite IH, Nat2Z.inj_succ, Z.pow_succ_r, Z.div_div by lia. done.
Qed.

(** Stored as eight bytes, [htonl z] has zeros in the other four. *)
Lemma le_split_htonl_high z : le_split 8 (htonl z) = be32 z ++ replicate 4 x00.
Proof.
  rewrite <- (take_drop 4 (le_split 8 (htonl z))), le_split_htonl, (le_split_drop 4 4) by lia. f_equal.
  rewrite Z.div_small; [done|]. unfold htonl. pose proof (le_combine_range (rev (le_split 4 (u32 z)))) as R.
  by rewrite length_rev, length_le_split in R.
Qed.

(** [ntohl] of a [long] whose low four bytes in memory are [bs]: the value
    of [bs] in network order, whatever the upper half of the [long] holds. *)
Lemma ntohl_load bs hi : length bs = 4%nat ->
  htonl (le_combine bs + 4294967296 * hi) = be_value bs.
Proof.
  intros H. unfold htonl, be_value. f_equal. f_equal.
  pose proof (le_combine_range bs) as R. rewrite H in R. change (256 ^ Z.of_nat 4) with 4294967296 in R.
  unfold u32. rewrite Z.mul_comm, Z_mod_plus_full, Z.mod_small by lia.
  rewrite <- (le_split_combine bs) at 2. by rewrite H.
Qed.
