(* ===== verification/Posix.v ===== *)
(** * The operating system the program runs on

    System calls and the C library's network functions are not part of the
    program; [Posix] is what the program calls of them, over a state [os] of
    their own.  [PosixLaws] states the documented behaviour the theorems rely
    on.  [ScriptOS] is a concrete system whose answers are given in advance,
    for running the definitions. *)

From stdpp Require Import base list.
From Stdlib Require Import ZArith Lia.
From S2P Require Import Prelude.

(** Result of a call that returns -1 and sets [errno] on failure. *)
Inductive sysres (A : Type) : Type :=
| SysOk (a : A)
| SysErr (errno : Z).
Arguments SysOk {A} a.
Arguments SysErr {A} errno.

#[export] Instance sysres_eq_decision {A} `{EqDecision A} : EqDecision (sysres A).
Proof. solve_decision. Defined.

Definition EINTR : Z := 4.
Definition EAGAIN : Z := 11.
Definition EBADF : Z := 9.
Definition EADDRINUSE : Z := 98.
Definition EPROTOTYPE : Z := 91.
Definition EPROTONOSUPPORT : Z := 93.
Definition EAFNOSUPPORT : Z := 97.
Definition ENETDOWN : Z := 100.
Definition ENETUNREACH : Z := 101.
Definition ETIMEDOUT : Z := 110.
Definition ECONNREFUSED : Z := 111.
Definition ECONNRESET : Z := 104.
Definition EHOSTUNREACH : Z := 113.

(** [poll(2)] flags, with the values PollConfig.h gives them. *)
Definition POLLIN : Z := 1.
Definition POLLOUT : Z := 4.
Definition POLLERR : Z := 8.
Definition POLLHUP : Z := 16.
Definition POLLNVAL : Z := 32.

(** [struct pollfd]. *)
Record pollfd : Type := Pollfd { fd : Z; events : Z; revents : Z }.

#[export] Instance pollfd_eq_decision : EqDecision pollfd.
Proof. solve_decision. Defined.

(** [struct termios], its four sets of flags. *)
Record termios : Type := Termios { c_iflag : Z; c_oflag : Z; c_lflag : Z; c_cflag : Z }.

(** When [tcsetattr] takes effect. *)
Inductive tc_action : Type := TCSANOW | TCSAFLUSH.

(** One result of [getaddrinfo]. *)
Record addrinfo : Type := Addrinfo { ai_family : Z; ai_addr : list byte }.

Class Posix : Type := {
  os : Type;
  (** [read(fd, buf, n)]: the bytes stored in [buf]. *)
  sys_read : Z -> Z -> os -> sysres (list byte) * os;
  (** [write(fd, buf, n)] on the [n] bytes given. *)
  sys_write : Z -> list byte -> os -> sysres Z * os;
  sys_close : Z -> os -> os;
  (** [poll(fds, n, timeout)]: its result and the [revents] it stored. *)
  sys_poll : list (Z * Z) -> Z -> os -> sysres (Z * list Z) * os;
  sys_accept : Z -> os -> sysres Z * os;
  (** [fcntl(fd, F_SETFL, O_NONBLOCK)]. *)
  sys_nonblock : Z -> os -> sysres unit * os;
  (** [socket(PF_INET, SOCK_STREAM, IPPROTO_TCP)]. *)
  sys_socket : os -> sysres Z * os;
  (** [bind] to INADDR_ANY (true) or INADDR_LOOPBACK, at a [sin_port]. *)
  sys_bind : Z -> bool -> Z -> os -> sysres unit * os;
  sys_listen : Z -> Z -> os -> sysres unit * os;
  (** [gethostbyname]: the first address. *)
  sys_gethostbyname : list byte -> os -> option (list byte) * os;
  sys_connect : Z -> list byte -> Z -> os -> sysres unit * os;
  (** The port of [getsockname]. *)
  sys_getsockname : Z -> os -> sysres Z * os;
  (** Output on the standard error stream. *)
  sys_cerr : list byte -> os -> os;
  (** Whether SIGHUP, SIGINT, SIGTERM or SIGQUIT has come since it was last
      asked. *)
  sys_signal : os -> bool * os;
  sys_tcgetattr : Z -> os -> sysres termios * os;
  sys_tcsetattr : Z -> tc_action -> termios -> os -> os;
  (** [fcntl(fd, F_SETFL, 0)]. *)
  sys_blocking : Z -> os -> os;
  (** Processes.  [fork] returns 0 in the child. *)
  sys_pipe : os -> sysres (Z * Z) * os;
  sys_fork : os -> sysres Z * os;
  sys_dup : Z -> os -> sysres Z * os;
  sys_dup2 : Z -> Z -> os -> os;
  (** [forkpty(&master, NULL, termios, NULL)]: the pid and the master. *)
  sys_forkpty : option termios -> os -> sysres (Z * Z) * os;
  (** [execvp]; it returns only when it fails. *)
  sys_execvp : list (list byte) -> os -> os;
  sys_chdir : list byte -> os -> sysres unit * os;
  (** [getaddrinfo] for a stream socket to listen on. *)
  sys_getaddrinfo : list byte -> Z -> os -> option (list addrinfo) * os;
  sys_socket_ai : addrinfo -> os -> sysres Z * os;
  sys_reuseaddr : Z -> os -> os;
  sys_bind_ai : Z -> addrinfo -> os -> sysres unit * os;
  sys_connect_ai : Z -> addrinfo -> os -> sysres unit * os;
  (** [inet_ntop], from an address family and the bytes of an address. *)
  inet_ntop : Z -> list byte -> option (list byte);
  (** [pthread_create]: the thread's identifier. *)
  sys_thread_create : os -> sysres Z * os;
  sys_thread_join : Z -> os -> os;
  (** Whether [malloc] or [realloc] of so many bytes succeeds, and where. *)
  sys_malloc : Z -> os -> option Z * os;
  sys_free : Z -> os -> os
}.

(** A system call in a state that holds the operating system. *)
Definition syscall {P : Posix} {S A} (l : lens S os) (call : os -> A * os) : M S A := fun s =>
  let '(a, o) := call (view l s) in Ret a (update l o s).
Definition syscall_ {P : Posix} {S} (l : lens S os) (call : os -> os) : M S unit := fun s =>
  Ret tt (update l (call (view l s)) s).

Lemma syscall_step {P : Posix} {S A} (l : lens S os) (call : os -> A * os) a o' s :
  call (view l s) = (a, o') -> syscall l call s = Ret a (update l o' s).
Proof. intros E. unfold syscall. by rewrite E. Qed.

Lemma syscall_step_ {P : Posix} {S} (l : lens S os) (call : os -> os) s :
  syscall_ l call s = Ret tt (update l (call (view l s)) s).
Proof. done. Qed.

Lemma moves_syscall {P : Posix} {S T A} (l : lens S os) (k : lens S T) (R : T -> T -> Prop)
    `{!PreOrder R} `{!Apart l k} (call : os -> A * os) : moves (on k R) (syscall l call).
Proof. intros s. unfold syscall. destruct (call _). unfold on. rewrite view_apart. reflexivity. Qed.
Lemma moves_syscall_ {P : Posix} {S T} (l : lens S os) (k : lens S T) (R : T -> T -> Prop)
    `{!PreOrder R} `{!Apart l k} (call : os -> os) : moves (on k R) (syscall_ l call).
Proof. intros s. unfold syscall_, on. rewrite view_apart. reflexivity. Qed.

(** Prove [moves R m] along the structure of [m], with the lemmas of the
    database for the operations it calls. *)
Ltac walk :=
  repeat first
    [ solve [eauto 2 with tunnel]
    | first [apply moves_ret | apply moves_throw | apply moves_undefined | apply moves_out_of_fuel
            | apply moves_gets | apply moves_deref]; apply _
    | apply moves_syscall; apply _ | apply moves_syscall_; apply _
    | apply moves_bind; [apply _| |intros ?]
    | apply moves_when; [apply _|]
    | apply moves_zoom_on; [apply _|solve [eauto with tunnel]]
    | apply moves_apart; apply _
    | match goal with |- moves _ (match ?x with _ => _ end) => destruct x end ].

(** What has gone through the descriptors so far. *)
Record traffic (P : Posix) : Type := Traffic {
  sent : os -> Z -> list byte;
  received : os -> Z -> list byte
}.
Arguments sent {P} _ _ _.
Arguments received {P} _ _ _.

Class PosixLaws {P : Posix} (T : traffic P) : Prop := {
  read_ok f n o bs o' : sys_read f n o = (SysOk bs, o') ->
    Z.of_nat (length bs) <= Z.max 0 n /\ received T o' f = received T o f ++ bs;
  read_err f n o e o' : sys_read f n o = (SysErr e, o') -> received T o' f = received T o f;
  write_ok f bs o k o' : sys_write f bs o = (SysOk k, o') ->
    0 <= k <= Z.of_nat (length bs) /\ sent T o' f = sent T o f ++ take (Z.to_nat k) bs;
  write_err f bs o e o' : sys_write f bs o = (SysErr e, o') -> sent T o' f = sent T o f;
  poll_ok fds t o k rs o' : sys_poll fds t o = (SysOk (k, rs), o') -> length rs = length fds
}.

(** The calls the SOCKS server makes on sockets leave the traffic of every
    other descriptor alone; a write that does not fail writes something, and
    a new descriptor is not negative. *)
Definition quiet {P : Posix} (T : traffic P) (o o' : os) : Prop := forall g,
  sent T o' g = sent T o g /\ received T o' g = received T o g.

Class SocketLaws {P : Posix} (T : traffic P) : Prop := {
  read_quiet f n o r o' : sys_read f n o = (r, o') ->
    (forall g, sent T o' g = sent T o g) /\ forall g, g <> f -> received T o' g = received T o g;
  write_quiet f bs o r o' : sys_write f bs o = (r, o') ->
    (forall g, received T o' g = received T o g) /\ forall g, g <> f -> sent T o' g = sent T o g;
  poll_quiet fds t o r o' : sys_poll fds t o = (r, o') -> quiet T o o';
  close_quiet f o : quiet T o (sys_close f o);
  getaddrinfo_quiet host port o r o' : sys_getaddrinfo host port o = (r, o') -> quiet T o o';
  socket_ai_quiet ai o r o' : sys_socket_ai ai o = (r, o') -> quiet T o o';
  connect_ai_quiet f ai o r o' : sys_connect_ai f ai o = (r, o') -> quiet T o o';
  write_progress f bs o k o' : sys_write f bs o = (SysOk k, o') -> bs <> [] -> 0 < k;
  socket_ai_fd ai o f o' : sys_socket_ai ai o = (SysOk f, o') -> 0 <= f
}.

(** ** A scripted system *)

Inductive answer : Type :=
| Data (bs : list byte)            (* what a read delivers, at most what was asked for *)
| Num (z : Z)                      (* a count or a descriptor *)
| Err (errno : Z)
| Ready (k : Z) (rs : list Z).     (* a poll *)

Inductive call : Type :=
| CRead (fd : Z) (bs : list byte)
| CWrite (fd : Z) (bs : list byte)
| CClose (fd : Z)
| CCerr (bs : list byte)
| CTty (t : termios)
| CExec (command : list (list byte))
| COther.

Record script : Type := Script { answers : list answer; calls : list call }.

Definition pop (o : script) : answer * list answer :=
  match answers o with [] => (Err 5, []) | a :: r => (a, r) end.
Definition log (c : call) (r : list answer) (o : script) : script := Script r (calls o ++ [c]).

Definition on_unit (o : script) : sysres unit * script :=
  let '(a, r) := pop o in
  (match a with Err e => SysErr e | _ => SysOk tt end, log COther r o).
Definition on_num (o : script) : sysres Z * script :=
  let '(a, r) := pop o in
  (match a with Num z => if z <? 0 then SysErr 5 else SysOk z | Err e => SysErr e | _ => SysErr 5 end,
   log COther r o).

#[export] Instance ScriptOS : Posix := {|
  os := script;
  sys_read f n o := let '(a, r) := pop o in
    match a with
    | Data bs => let bs' := take (Z.to_nat n) bs in (SysOk bs', log (CRead f bs') r o)
    | Err e => (SysErr e, log (CRead f []) r o)
    | _ => (SysErr 5, log (CRead f []) r o)
    end;
  sys_write f bs o := let '(a, r) := pop o in
    match a with
    | Num z => let n := Z.of_nat (length bs) in
               let k := Z.max (Z.min 1 n) (Z.min z n) in
               (SysOk k, log (CWrite f (take (Z.to_nat k) bs)) r o)
    | Err e => (SysErr e, log (CWrite f []) r o)
    | _ => (SysErr 5, log (CWrite f []) r o)
    end;
  sys_close f o := log (CClose f) (answers o) o;
  sys_poll fds t o := let '(a, r) := pop o in
    match a with
    | Ready k rs => (SysOk (k, take (length fds) (rs ++ replicate (length fds) 0)), log COther r o)
    | Err e => (SysErr e, log COther r o)
    | _ => (SysErr 5, log COther r o)
    end;
  sys_accept f o := on_num o;
  sys_nonblock f o := on_unit o;
  sys_socket o := on_num o;
  sys_bind f any port o := on_unit o;
  sys_listen f n o := on_unit o;
  sys_gethostbyname name o := let '(a, r) := pop o in
    (match a with Data bs => Some bs | _ => None end, log COther r o);
  sys_connect f addr port o := on_unit o;
  sys_getsockname f o := on_num o;
  sys_cerr bs o := log (CCerr bs) (answers o) o;
  sys_signal o := match answers o with Num 0 :: r => (true, log COther r o) | _ => (false, o) end;
  sys_tcgetattr f o := let '(a, r) := pop o in
    match a with
    | Num z => (SysOk (Termios z z z z), log COther r o)
    | Err e => (SysErr e, log COther r o)
    | _ => (SysErr 25, log COther r o)
    end;
  sys_tcsetattr f act t o := log (CTty t) (answers o) o;
  sys_blocking f o := o;
  sys_pipe o := let '(r, o') := on_num o in
    (match r with SysOk z => SysOk (z, z + 1) | SysErr e => SysErr e end, o');
  sys_fork o := on_num o;
  sys_dup f o := on_num o;
  sys_dup2 f g o := log COther (answers o) o;
  sys_forkpty t o := let '(r, o') := on_num o in
    (match r with SysOk z => SysOk (z, z + 1) | SysErr e => SysErr e end, o');
  sys_execvp command o := log (CExec command) (answers o) o;
  sys_chdir d o := on_unit o;
  sys_getaddrinfo host port o := let '(a, r) := pop o in
    (match a with Data bs => Some [Addrinfo 2 bs] | _ => None end, log COther r o);
  sys_socket_ai ai o := on_num o;
  sys_reuseaddr f o := o;
  sys_bind_ai f ai o := on_unit o;
  sys_connect_ai f ai o := on_unit o;
  inet_ntop af bs := Some bs;
  sys_thread_create o := on_num o;
  sys_thread_join pt o := log COther (answers o) o;
  sys_malloc n o := let '(a, r) := pop o in
    (match a with Num z => Some z | _ => None end, log COther r o);
  sys_free p o := log COther (answers o) o
|}.

Definition script_sent (o : script) (f : Z) : list byte :=
  concat (map (fun c => match c with CWrite g bs => if f =? g then bs else [] | _ => [] end) (calls o)).
Definition script_received (o : script) (f : Z) : list byte :=
  concat (map (fun c => match c with CRead g bs => if f =? g then bs else [] | _ => [] end) (calls o)).

Definition script_traffic : traffic ScriptOS := Traffic ScriptOS script_sent script_received.

Lemma script_sent_log o f c r :
  script_sent (log c r o) f =
  script_sent o f ++ match c with CWrite g bs => if f =? g then bs else [] | _ => [] end.
Proof. unfold script_sent, log. simpl. by rewrite map_app, concat_app; simpl; rewrite app_nil_r. Qed.

Lemma script_received_log o f c r :
  script_received (log c r o) f =
  script_received o f ++ match c with CRead g bs => if f =? g then bs else [] | _ => [] end.
Proof. unfold script_received, log. simpl. by rewrite map_app, concat_app; simpl; rewrite app_nil_r. Qed.

#[export] Instance script_laws : PosixLaws script_traffic.
Proof.
  split; simpl.
  - intros f n o bs o'. destruct (pop o) as [[] r]; intros; simplify_eq.
    rewrite length_take, script_received_log, Z.eqb_refl. split; [lia|done].
  - intros f n o e o'. destruct (pop o) as [[] r]; intros; simplify_eq;
      rewrite script_received_log, Z.eqb_refl; apply app_nil_r.
  - intros f bs o k o'. destruct (pop o) as [[] r]; intros; simplify_eq.
    rewrite script_sent_log, Z.eqb_refl. split; [lia|done].
  - intros f bs o e o'. destruct (pop o) as [[] r]; intros; simplify_eq;
      rewrite script_sent_log, Z.eqb_refl; apply app_nil_r.
  - intros fds t o k rs o'. destruct (pop o) as [[] r]; intros; simplify_eq.
    rewrite length_take, length_app, length_replicate. lia.
Qed.

Lemma script_quiet_log c r o :
  match c with CRead _ _ | CWrite _ _ => False | _ => True end -> quiet script_traffic o (log c r o).
Proof.
  intros H g. simpl. rewrite script_sent_log, script_received_log.
  destruct c; try done; by rewrite !app_nil_r.
Qed.

#[export] Instance script_quiet_laws : SocketLaws script_traffic.
Proof.
  split; simpl.
  - intros f n o r o'. destruct (pop o) as [[] r0]; intros; simplify_eq;
      (split; intros g; [by rewrite script_sent_log, app_nil_r|intros Hg; rewrite script_received_log;
       destruct (Z.eqb_spec g f); [done|by rewrite app_nil_r]]).
  - intros f bs o r o'. destruct (pop o) as [[] r0]; intros; simplify_eq;
      (split; intros g; [by rewrite script_received_log, app_nil_r|intros Hg; rewrite script_sent_log;
       destruct (Z.eqb_spec g f); [done|by rewrite app_nil_r]]).
  - intros fds t o r o'. destruct (pop o) as [[] r0]; intros; simplify_eq; by apply script_quiet_log.
  - intros f o. by apply script_quiet_log.
  - intros host port o r o'. destruct (pop o) as [[] r0]; intros; simplify_eq; by apply script_quiet_log.
  - intros ai o r o'. unfold on_num. destruct (pop o) as [[] r0]; intros; simplify_eq; by apply script_quiet_log.
  - intros f ai o r o'. unfold on_unit. destruct (pop o) as [[] r0]; intros; simplify_eq; by apply script_quiet_log.
  - intros f bs o k o'. destruct (pop o) as [[] r]; intros; simplify_eq. destruct bs; [done|]. cbn [length]. lia.
  - intros ai o f o'. unfold on_num. destruct (pop o) as [[bs|z|e|k rs] r0]; try (intros; simplify_eq; fail).
    destruct (Z.ltb_spec z 0); intros; simplify_eq; lia.
Qed.
