(* ===== verification/Wire.v ===== *)
(** * The byte streams between the two processes

    [ReadStream] and [WriteStream] of src/src/com/antlersoft/net: a sender
    queues values, [send] turns the queue into a packet (a length in network
    order, then the bytes), [empty] writes packets out as the descriptor
    takes them; [fill] reads packets back and hands whole payloads to the
    reading operations. *)

From stdpp Require Import base list tactics strings.
From Stdlib Require Import ZArith Lia.
From S2P Require Import Prelude Posix.

(** ** ReadStream *)

Module ReadStream.

Definition BUFFER_SIZE : Z := 4096.

(** [m_read_buf] holds [m_read_size] bytes, of which the first
    [m_read_count] have been read: those are the list. *)
Record t : Type := Mk {
  m_queue : list byte;
  m_read_buf : list byte;
  m_read_size : Z
}.

Definition m_read_count (s : t) : Z := zlen (m_read_buf s).

Definition init : t := Mk [] [] BUFFER_SIZE.

Definition set_queue (q : list byte) (s : t) : t := Mk q (m_read_buf s) (m_read_size s).
Definition set_buf (b : list byte) (s : t) : t := Mk (m_queue s) b (m_read_size s).
Definition set_size (n : Z) (s : t) : t := Mk (m_queue s) (m_read_buf s) n.

Definition available (s : t) : bool := negb (zlen (m_queue s) =? 0).

(** [m_queue.front()] then [m_queue.pop_front()]. *)
Definition pop_front : M t byte := fun s =>
  match m_queue s with
  | [] => Undef EmptyDeque
  | b :: q => Ret b (set_queue q s)
  end.

Definition readShort : M t Z :=
  x ← pop_front;
  y ← pop_front;
  mret (i16 (Z.shiftl (Z_of_byte x) 8 + Z_of_byte y)).

(** The upper half of [result] is never written; [ntohl] takes its
    argument as a [uint32_t] and does not see it ([ntohl_load]). *)
Definition readLong : M t Z :=
  b0 ← pop_front;
  b1 ← pop_front;
  b2 ← pop_front;
  b3 ← pop_front;
  mret (htonl (le_combine [b0; b1; b2; b3])).

(** Copy out and erase the first [length] bytes of the queue. *)
Definition take_front (length : Z) : M t (list byte) := fun s =>
  if (length <? 0) || (zlen (m_queue s) <? length) then Undef OutOfRange
  else Ret (take (Z.to_nat length) (m_queue s))
           (set_queue (drop (Z.to_nat length) (m_queue s)) s).

Definition readString : M t (list byte) :=
  length ← readLong;
  take_front length.

Definition readBytes (length : Z) : M t (list byte) := take_front length.

Section Fill.
Context {P : Posix}.

(** [read(fd, m_read_buf + m_read_count, n)]; the bytes are appended to
    what the buffer holds. *)
Definition read_more (f n : Z) : M (t * os) (sysres Z) := fun '(s, o) =>
  if m_read_size s <? m_read_count s + n then Undef BufferOverrun
  else match sys_read f n o with
       | (SysOk bs, o') => Ret (SysOk (zlen bs)) (set_buf (m_read_buf s ++ bs) s, o')
       | (SysErr e, o') => Ret (SysErr e) (s, o')
       end.

(** The first part of [fill]: the four bytes of the length.  False when
    they are not all there yet. *)
Definition fill_header (f : Z) : M (t * os) bool :=
  count ← gets (fun so => m_read_count so.1);
  if count <? 4 then
    r ← read_more f (4 - count);
    match r with
    | SysErr e => throw (ExnErrno e)
    | SysOk read_len =>
        if read_len =? 0 then throw (ExnMsg "End of file in ReadStream::fill")
        else mret (negb (count + read_len <? 4))
    end
  else mret true.

(** The rest: the payload, delivered when complete. *)
Definition fill_body (f : Z) : M (t * os) unit :=
  s ← gets fst;
  let length := htonl (le_combine (take 4 (m_read_buf s))) in
  if 50000000 <? length then throw (ExnMsg "Bad read length")
  else
    when (m_read_size s <? length + 4) (modify (fun so => (set_size (length + 4) so.1, so.2)));;
    r ← read_more f (u64 (length + 4 - m_read_count s));
    match r with
    | SysErr e => if e =? EAGAIN then mret tt else throw (ExnErrno e)
    | SysOk _ => mret tt
    end;;
    modify (fun '(s, o) =>
      if m_read_count s =? length + 4
      then (Mk (m_queue s ++ drop 4 (m_read_buf s)) [] (m_read_size s), o)
      else (s, o)).

Definition fill (poll_struct : pollfd) : M (t * os) unit :=
  if has_bit (revents poll_struct) POLLIN then
    more ← fill_header (fd poll_struct);
    if more : bool then fill_body (fd poll_struct) else mret tt
  else mret tt.
End Fill.
End ReadStream.

(** ** WriteStream *)

Module WriteStream.

(** [m_size] is the length of [m_buf]. *)
Record WritePacket : Type := Packet {
  m_buf : list byte;
  m_written : Z
}.

Definition m_size (p : WritePacket) : Z := zlen (m_buf p).

(** The constructor works on memory through a pointer: [mem] is the memory
    from [m_buf] on, the bytes of the array and then those behind it, and a
    store at an offset puts its bytes in place of the ones that are there,
    whichever they are. *)
Definition store (offset : Z) (bs mem : list byte) : list byte :=
  take (Z.to_nat offset) mem ++ bs ++ drop (Z.to_nat offset + length bs) mem.

(** What the body of the constructor makes of that memory: the length is
    stored as a [size_t], eight bytes, and the payload copied behind its
    first four. *)
Definition construct (queue mem : list byte) : list byte :=
  let m_size := zlen queue + 4 in
  let mem := store 0 (le_split 8 (htonl (m_size - 4))) mem in
  store 4 queue mem.

(** The array is [m_size] bytes of fresh memory, with what the allocator has
    behind it; none of the bytes there before is left in it
    ([construct_array]), so that they may be taken as zeros here. *)
Definition new_WritePacket (queue : list byte) : WritePacket :=
  let m_size := zlen queue + 4 in
  let mem := replicate (Z.to_nat m_size) x00 ++ replicate 8 x00 in
  Packet (take (Z.to_nat m_size) (construct queue mem)) 0.

Record t : Type := Mk {
  m_queue : list byte;
  m_packet_queue : list WritePacket
}.

Definition init : t := Mk [] [].

Definition pendingWrite (s : t) : bool := 0 <? zlen (m_packet_queue s).

Definition enqueue (bs : list byte) : M t unit :=
  modify (fun s => Mk (m_queue s ++ bs) (m_packet_queue s)).

(** The argument of [writeShort] is converted to [short]. *)
Definition writeShort (v : Z) : M t unit :=
  let s := i16 v in
  enqueue [byte_of_Z (Z.shiftr s 8); byte_of_Z (Z.land s 255)].

Definition writeLong (v : Z) : M t unit := enqueue (take 4 (le_split 8 (htonl v))).

Definition writeString (message : list byte) : M t unit :=
  writeLong (zlen message);;
  enqueue message.

Definition writeBytes (buffer : list byte) : M t unit := enqueue buffer.

Definition send : M t unit :=
  modify (fun s => if 0 <? zlen (m_queue s)
                   then Mk [] (m_packet_queue s ++ [new_WritePacket (m_queue s)])
                   else s).

Section Empty.
Context {P : Posix}.

Definition sendPacket (socket : Z) : M (WritePacket * os) bool := fun '(p, o) =>
  match sys_write socket (drop (Z.to_nat (m_written p)) (m_buf p)) o with
  | (SysErr e, o') => Throw (ExnErrno e) (p, o')
  | (SysOk n, o') =>
      let w := m_written p + n in
      Ret (w =? m_size p) (Packet (m_buf p) w, o')
  end.

(** [m_packet_queue.front()], updated in place. *)

Definition on_front {A} (m : M (WritePacket * os) A) : M (t * os) A := fun '(s, o) =>
  match m_packet_queue s with
  | [] => Undef EmptyDeque
  | p :: q =>
      match m (p, o) with
      | Ret a (p', o') => Ret a (Mk (m_queue s) (p' :: q), o')
      | Throw e (p', o') => Throw e (Mk (m_queue s) (p' :: q), o')
      | Undef u => Undef u
      | NoFuel => NoFuel
      end
  end.

(** [empty] clears POLLOUT of the caller's [pollfd] when nothing is left. *)
Definition empty (poll_struct : pollfd) : M (t * os) pollfd :=
  pending ← gets (fun so => pendingWrite so.1);
  if has_bit (revents poll_struct) POLLOUT && pending then
    finished ← on_front (sendPacket (fd poll_struct));
    when finished (modify (fun so => (Mk (m_queue so.1) (tail (m_packet_queue so.1)), so.2)));;
    pending' ← gets (fun so => pendingWrite so.1);
    mret (if negb pending'
          then Pollfd (fd poll_struct) (Z.land (events poll_struct) (Z.lnot POLLOUT)) (revents poll_struct)
          else poll_struct)
  else mret poll_struct.
End Empty.
End WriteStream.

(** ** Encodings *)

(** The bytes [writeShort], [writeLong] and [writeString] queue. *)
Definition enc_short (z : Z) : list byte :=
  [byte_of_Z (Z.shiftr (i16 z) 8); byte_of_Z (Z.land (i16 z) 255)].
Definition enc_string (m : list byte) : list byte := be32 (zlen m) ++ m.

(** A packet on the wire. *)
Definition frame (payload : list byte) : list byte := be32 (zlen payload) ++ payload.

Section Encodings.
Import ReadStream.
Implicit Types s : ReadStream.t.

Lemma short_value z :
  i16 (Z.shiftl (Z_of_byte (byte_of_Z (Z.shiftr (i16 z) 8))) 8 +
       Z_of_byte (byte_of_Z (Z.land (i16 z) 255))) = i16 z.
Proof.
  rewrite !Z_of_byte_of_Z, Z.shiftr_div_pow2, Z.shiftl_mul_pow2 by lia.
  change 255 with (Z.ones 8). rewrite Z.land_ones by lia.
  rewrite Z.mod_mod by lia. change (2 ^ 8) with 256.
  rewrite <- (i16_idemp z) at 3. apply i16_cong. set (v := i16 z).
  rewrite (Z.div_mod v 256) at 3 by lia.
  rewrite (Z.mul_comm 256). rewrite Z.add_mod by lia.
  symmetry. rewrite Z.add_mod by lia. f_equal. f_equal.
  change 65536 with (256 * 256).
  rewrite !Zmult_mod_distr_r, Z.mod_mod by lia. done.
Qed.

Lemma readShort_enc s z q :
  m_queue s = enc_short z ++ q -> readShort s = Ret (i16 z) (set_queue q s).
Proof.
  intros E. unfold readShort, pop_front, mbind, M_bind. rewrite E. simpl.
  unfold mret, M_ret. rewrite short_value. done.
Qed.

Lemma readLong_enc s z q :
  m_queue s = be32 z ++ q -> readLong s = Ret (u32 z) (set_queue q s).
Proof.
  intros E. pose proof (length_be32 z) as L.
  assert (htonl (le_combine (be32 z)) = u32 z) as V.
  { rewrite <- be_value_be32, <- (ntohl_load _ 0) by done. f_equal. lia. }
  destruct (be32 z) as [|a [|b [|c [|d []]]]]; try discriminate L.
  unfold readLong, pop_front, mbind, M_bind. rewrite E.
  cbn [set_queue m_queue app]. unfold mret, M_ret. by rewrite V.
Qed.

Lemma take_front_app s bs q n :
  m_queue s = bs ++ q -> n = zlen bs -> take_front n s = Ret bs (set_queue q s).
Proof.
  intros E ->. unfold take_front. rewrite E.
  rewrite length_app, Nat2Z.id, take_app_length, drop_app_length.
  destruct (Z.ltb_spec (zlen bs) 0); [lia|].
  destruct (Z.ltb_spec (Z.of_nat (length bs + length q)) (zlen bs)); [lia|done].
Qed.

Lemma readString_enc s m q :
  m_queue s = enc_string m ++ q -> zlen m < 4294967296 ->
  readString s = Ret m (set_queue q s).
Proof.
  unfold enc_string. intros E L. unfold readString, mbind, M_bind.
  rewrite <- app_assoc in E. rewrite (readLong_enc _ _ _ E), u32_id by lia.
  apply (take_front_app (set_queue (m ++ q) s)); done.
Qed.

Lemma set_queue_twice q q' s : set_queue q (set_queue q' s) = set_queue q s.
Proof. done. Qed.
Lemma queue_set q s : m_queue (set_queue q s) = q.
Proof. done. Qed.
End Encodings.

Section Writing.
Import WriteStream.
Implicit Types s : WriteStream.t.

Lemma writeShort_spec z s :
  writeShort z s = Ret tt (Mk (m_queue s ++ enc_short z) (m_packet_queue s)).
Proof. done. Qed.

Lemma writeString_spec m s :
  writeString m s = Ret tt (Mk (m_queue s ++ enc_string m) (m_packet_queue s)).
Proof.
  unfold writeString, writeLong, enqueue, modify, mbind, M_bind. cbn [m_queue m_packet_queue].
  rewrite le_split_htonl by lia. unfold enc_string. by rewrite app_assoc.
Qed.

Lemma send_spec q k :
  q <> [] -> send (Mk q k) = Ret tt (Mk [] (k ++ [new_WritePacket q])).
Proof. destruct q; [done|]. intros _. reflexivity. Qed.

Lemma store_header z mem : store 0 (le_split 8 (htonl z)) mem = be32 z ++ replicate 4 x00 ++ drop 8 mem.
Proof.
  unfold store. cbn [Z.to_nat take app]. rewrite length_le_split. cbn [Nat.add].
  by rewrite le_split_htonl_high, <- app_assoc.
Qed.

(** The constructor leaves the packet in the array, and where the payload
    has less than four bytes the rest of the zeros behind it. *)
Lemma construct_array q buf behind : zlen buf = zlen q + 4 -> 4 <= zlen behind ->
  construct q (buf ++ behind) = frame q ++ replicate (4 - length q) x00 ++ drop (4 - length q) behind.
Proof.
  intros Hb Hs. unfold construct. rewrite store_header. unfold store, frame. replace (zlen q + 4 - 4) with (zlen q) by lia.
  change (Z.to_nat 4) with 4%nat. rewrite take_app_exact by (by rewrite length_be32). rewrite <- app_assoc. do 2 f_equal.
  rewrite <- drop_drop, drop_app_exact by (by rewrite length_be32).
  rewrite drop_app, drop_replicate, length_replicate. f_equal.
  rewrite drop_drop, drop_app, (drop_ge buf) by lia. cbn [app]. f_equal. lia.
Qed.

Lemma new_WritePacket_buf q : m_buf (new_WritePacket q) = frame q.
Proof.
  unfold new_WritePacket. cbn [m_buf]. rewrite construct_array by (rewrite !length_replicate; lia).
  apply take_app_exact. unfold frame. rewrite length_app, length_be32. lia.
Qed.
End Writing.

#[export] Hint Rewrite @set_queue_twice @queue_set : tunnel.

(** ** Receiving *)

Section Receiving.
Import ReadStream.
Context {P : Posix} (T : traffic P) `{!PosixLaws T}.

(** The stream between two calls: the buffer is large enough, and what is
    in it is less than one packet. *)
Definition rs_wf (s : t) : Prop :=
  4 <= m_read_size s /\ m_read_count s <= m_read_size s /\
  (m_read_count s < 4 \/ m_read_count s < be_value (take 4 (m_read_buf s)) + 4).

(** What one [fill] did: [bs] came in and stayed in the buffer, or
    completed a packet whose payload joined the queue. *)
Definition fill_effect (f : Z) (s : t) (o : os) (s' : t) (o' : os) : Prop :=
  rs_wf s' /\ exists bs, received T o' f = received T o f ++ bs /\
    ((m_queue s' = m_queue s /\ m_read_buf s' = m_read_buf s ++ bs) \/
     (exists pay, m_read_buf s ++ bs = frame pay /\ zlen pay <= 50000000 /\
                  m_queue s' = m_queue s ++ pay /\ m_read_buf s' = [])).

(** What the next read is for: the rest of the length, then the rest of the
    packet. *)
Definition wanted (s : t) : Z :=
  if m_read_count s <? 4 then 4 - m_read_count s
  else be_value (take 4 (m_read_buf s)) + 4 - m_read_count s.

(** The descriptor has been read for that, and perhaps for more. *)
Definition fill_reads (f : Z) (s : t) (o o' : os) : Prop := exists answer o1 more,
  sys_read f (wanted s) o = (answer, o1) /\ received T o' f = received T o1 f ++ more.

Lemma be_value_range bs : 0 <= be_value bs < 256 ^ zlen bs.
Proof. unfold be_value. rewrite <- length_rev. apply le_combine_range. Qed.

Lemma payload_length_range s : 4 <= m_read_count s ->
  0 <= be_value (take 4 (m_read_buf s)) < 4294967296.
Proof.
  unfold m_read_count. intros. pose proof (be_value_range (take 4 (m_read_buf s))) as R.
  rewrite length_take in R. by replace (Nat.min 4 _) with 4%nat in R by lia.
Qed.

Lemma ntohl_buf s : 4 <= m_read_count s ->
  htonl (le_combine (take 4 (m_read_buf s))) = be_value (take 4 (m_read_buf s)).
Proof.
  unfold m_read_count. intros. rewrite <- (ntohl_load _ 0); [f_equal; lia|].
  rewrite length_take. lia.
Qed.

Lemma frame_intro buf : 4 <= zlen buf -> zlen buf = be_value (take 4 buf) + 4 ->
  buf = frame (drop 4 buf).
Proof.
  intros H E. unfold frame. rewrite length_drop.
  replace (Z.of_nat (length buf - 4)) with (be_value (take 4 buf)) by lia.
  rewrite be32_be_value by (rewrite length_take; lia). by rewrite take_drop.
Qed.

Lemma read_more_spec f n s o :
  0 <= n -> m_read_count s + n <= m_read_size s ->
  exists r bs o', read_more f n (s, o) = Ret r (set_buf (m_read_buf s ++ bs) s, o') /\
    received T o' f = received T o f ++ bs /\ zlen bs <= n /\
    match r with SysOk k => k = zlen bs | SysErr _ => bs = [] end /\ exists answer, sys_read f n o = (answer, o').
Proof.
  intros Hn Hc. unfold read_more. destruct (Z.ltb_spec (m_read_size s) (m_read_count s + n)); [lia|].
  destruct (sys_read f n o) as [[bs|e] o'] eqn:E.
  - apply (read_ok (T:=T)) in E as [L R]. exists (SysOk (zlen bs)), bs, o'. split_and!; eauto; lia.
  - apply (read_err (T:=T)) in E. exists (SysErr e), [], o'.
    rewrite !app_nil_r. destruct s. split_and!; eauto; simpl; lia.
Qed.

Lemma fill_header_spec f s o : rs_wf s -> m_read_count s < 4 ->
  match fill_header f (s, o) with
  | Ret b (s', o') =>
      m_queue s' = m_queue s /\ m_read_size s' = m_read_size s /\ m_read_count s' <= 4 /\
      b = negb (m_read_count s' <? 4) /\
      (exists bs, m_read_buf s' = m_read_buf s ++ bs /\ received T o' f = received T o f ++ bs) /\ fill_reads f s o o'
  | Throw _ _ => True
  | _ => False end.
Proof.
  intros (H4 & Hc & _) Hlt. unfold fill_header, mbind, M_bind, gets. cbn [fst].
  destruct (Z.ltb_spec (m_read_count s) 4); [|lia].
  destruct (read_more_spec f (4 - m_read_count s) s o) as (r & bs & o' & -> & R & L & V & a & Ea); [lia..|].
  assert (m_read_count (set_buf (m_read_buf s ++ bs) s) = m_read_count s + zlen bs) as C
    by (unfold m_read_count; simpl; rewrite length_app; lia).
  destruct r as [k|e]; [destruct (Z.eqb_spec k 0)|]; simpl; auto.
  rewrite C, V. split_and!; eauto with lia. exists a, o', []. rewrite app_nil_r. split; [|done]. unfold wanted.
  by rewrite (proj2 (Z.ltb_lt _ _)) by lia.
Qed.

Lemma fill_body_spec f s o : 4 <= m_read_size s -> m_read_count s <= m_read_size s ->
  4 <= m_read_count s <= be_value (take 4 (m_read_buf s)) + 4 ->
  match fill_body f (s, o) with
  | Ret _ (s', o') => fill_effect f s o s' o' /\ fill_reads f s o o'
  | Throw _ _ => True
  | _ => False end.
Proof.
  intros Hs Hc Hv. unfold fill_body, mbind, M_bind, gets. cbn [fst snd]. rewrite ntohl_buf by lia.
  pose proof (payload_length_range s ltac:(lia)) as Hr.
  set (v := be_value (take 4 (m_read_buf s))) in *.
  destruct (Z.ltb_spec 50000000 v); [done|].
  set (s1 := if m_read_size s <? v + 4 then set_size (v + 4) s else s).
  match goal with |- context [when ?b ?m (s, o)] =>
    assert (when b m (s, o) = Ret tt (s1, o)) as -> by (unfold s1; by destruct b) end.
  assert (m_read_buf s1 = m_read_buf s /\ m_queue s1 = m_queue s /\ v + 4 <= m_read_size s1
          /\ m_read_count s <= m_read_size s1 /\ 4 <= m_read_size s1)
    as (B1 & Q1 & S1 & S2 & S3) by (unfold s1; destruct (Z.ltb_spec (m_read_size s) (v + 4)); simpl; repeat split; lia).
  assert (m_read_count s1 = m_read_count s) as C1 by (unfold m_read_count; by rewrite B1).
  unfold u64. rewrite Z.mod_small by lia. rewrite <- C1.
  destruct (read_more_spec f (v + 4 - m_read_count s1) s1 o) as (r & bs & o' & -> & R & L & V & a & Ea); [lia..|].
  rewrite B1. set (buf := m_read_buf s ++ bs).
  assert (zlen buf = m_read_count s + zlen bs) as Lb
    by (unfold buf, m_read_count; rewrite length_app; lia).
  assert (take 4 buf = take 4 (m_read_buf s)) as Tb
    by (unfold buf; rewrite take_app_le by (unfold m_read_count in *; lia); done).
  assert (fill_effect f s o (if zlen buf =? v + 4
            then Mk (m_queue s1 ++ drop 4 buf) [] (m_read_size s1)
            else set_buf buf s1) o') as Eff.
  { unfold fill_effect, rs_wf, m_read_count. destruct (Z.eqb_spec (zlen buf) (v + 4)); simpl.
    - split; [lia|]. exists bs. split; [done|]. right. exists (drop 4 buf).
      rewrite Q1. split_and!; [apply frame_intro; rewrite ?Tb; lia | rewrite length_drop; lia | done..].
    - rewrite Tb. fold v. split; [lia|]. exists bs. split; [done|]. left. auto. }
  assert (fill_reads f s o o') as Rd.
  { exists a, o', []. rewrite app_nil_r. split; [|done]. unfold wanted. fold v.
    destruct (Z.ltb_spec (m_read_count s) 4); [lia|]. by rewrite <- C1. }
  assert (modify (S:=t*os) (fun '(s0, o0) => if m_read_count s0 =? v + 4 then
             (Mk (m_queue s0 ++ drop 4 (m_read_buf s0)) [] (m_read_size s0), o0) else (s0, o0))
             (set_buf buf s1, o') =
          Ret tt ((if zlen buf =? v + 4 then Mk (m_queue s1 ++ drop 4 buf) [] (m_read_size s1)
                   else set_buf buf s1), o')) as Fin
    by (unfold modify, m_read_count; simpl; by destruct (zlen buf =? v + 4)).
  destruct r as [k|e]; [|destruct (e =? EAGAIN)]; cbn [mret M_ret throw]; [| |done].
  - rewrite Fin. by split.
  - rewrite Fin. by split.
Qed.
(** Whatever the reads return, [fill] on a well-formed stream returns or
    throws, never leaving its buffer. *)
Lemma fill_spec p s o : rs_wf s ->
  match fill p (s, o) with
  | Ret _ (s', o') => fill_effect (fd p) s o s' o' /\ (has_bit (revents p) POLLIN = true -> fill_reads (fd p) s o o')
  | Throw _ _ => True
  | _ => False end.
Proof.
  intros W. assert (fill_effect (fd p) s o s o) as Same.
  { split; [done|]. exists []. rewrite !app_nil_r. auto. }
  unfold fill. destruct (has_bit _ _); [|by split].
  unfold mbind, M_bind. destruct (Z_lt_ge_dec (m_read_count s) 4) as [Hlt|Hge].
  - pose proof (fill_header_spec (fd p) s o W Hlt) as Hp.
    destruct (fill_header (fd p) (s, o)) as [b [s1 o1]|e [s1 o1]| |]; try done.
    destruct Hp as (Q1 & S1 & C1 & -> & (bs & B1 & R1) & Rd), W as (W1 & W2 & _).
    destruct (Z.ltb_spec (m_read_count s1) 4) as [|H4]; simpl.
    + split; [|done]. split; [unfold rs_wf; lia|]. eauto.
    + pose proof (payload_length_range s1 H4).
      pose proof (fill_body_spec (fd p) s1 o1 ltac:(lia) ltac:(lia) ltac:(lia)) as F.
      destruct (fill_body (fd p) (s1, o1)) as [u [s2 o2]|e [s2 o2]| |]; try done.
      destruct F as [(W' & cs & R2 & D) _]. split.
      * split; [done|]. exists (bs ++ cs). by rewrite !app_assoc, <- B1, <- R1, <- Q1.
      * intros _. destruct Rd as (a & o' & more & Ea & R'). exists a, o', (more ++ cs).
        split; [done|]. by rewrite R2, R', app_assoc.
  - unfold fill_header, gets, mbind, M_bind. cbn [fst].
    destruct (Z.ltb_spec (m_read_count s) 4); [lia|]. simpl. destruct W as (W1 & W2 & W3).
    pose proof (fill_body_spec (fd p) s o ltac:(lia) ltac:(lia) ltac:(lia)) as F.
    destruct (fill_body (fd p) (s, o)) as [u [s2 o2]|e [s2 o2]| |]; try done. by destruct F.
Qed.

(** A reader: packets come in with [fill] on descriptor [f], and the
    reading operations take bytes off the front of the queue.  [c] is all
    that has been taken. *)
Inductive rx (f : Z) (start : t * os) : list byte -> t * os -> Prop :=
| rx_start : rx f start [] start
| rx_fill c so p so' :
    rx f start c so -> fd p = f -> fill p so = Ret tt so' -> rx f start c so'
| rx_take c bs q s o :
    rx f start c (s, o) -> m_queue s = bs ++ q -> rx f start (c ++ bs) (set_queue q s, o).

Lemma rs_wf_init : rs_wf init.
Proof. unfold rs_wf, m_read_count, init, BUFFER_SIZE. simpl. lia. Qed.

Lemma rx_inv f o0 c s o :
  rx f (init, o0) c (s, o) -> received T o0 f = [] ->
  rs_wf s /\ exists pays, c ++ m_queue s = concat pays /\
    received T o f = concat (map frame pays) ++ m_read_buf s /\
    Forall (fun p => zlen p <= 50000000) pays.
Proof.
  intros H H0. remember (s, o) as so eqn:E. revert s o E.
  induction H as [|c [s1 o1] p so' H IH Hf Hfill|c bs q s1 o1 H IH Hq]; intros s o E; simplify_eq.
  - split; [apply rs_wf_init|]. exists []. done.
  - destruct (IH s1 o1 eq_refl) as (W & pays & D & R & Sm).
    pose proof (fill_spec p s1 o1 W) as F. rewrite Hfill in F. apply proj1 in F.
    destruct F as (W' & bs & R' & [(Q & B)|(pay & Fr & Sp & Q & B)]); (split; [done|]).
    + exists pays. by rewrite Q, B, R', R, <- app_assoc.
    + exists (pays ++ [pay]). rewrite map_app, !concat_app. simpl.
      rewrite Q, B, R', R, !app_nil_r, app_assoc, D, <- app_assoc, Fr.
      split_and!; [done..|]. apply Forall_app. split; [done|]. by apply Forall_singleton.
  - destruct (IH s1 o eq_refl) as (W & pays & D & R & Sm). split; [done|].
    exists pays. split; [|done]. simpl. by rewrite <- app_assoc, <- Hq.
Qed.
End Receiving.

(** ** Sending *)

Section Sending.
Import WriteStream.
Context {P : Posix} (T : traffic P) `{!PosixLaws T}.

(** A writer: bytes are queued, [send] closes a packet, [empty] on
    descriptor [f] writes to the peer.  [pays] are the payloads sent. *)
Inductive tx (f : Z) (start : t * os) : list (list byte) -> t * os -> Prop :=
| tx_start : tx f start [] start
| tx_enqueue pays bs s o s' :
    tx f start pays (s, o) -> enqueue bs s = Ret tt s' -> tx f start pays (s', o)
| tx_send pays s o s' :
    tx f start pays (s, o) -> send s = Ret tt s' ->
    tx f start (pays ++ match m_queue s with [] => [] | q => [q] end) (s', o)
| tx_empty pays so p p' so' :
    tx f start pays so -> fd p = f -> empty p so = Ret p' so' -> tx f start pays so'.

(** What is still to be written of the packets. *)
Definition unwritten (s : t) : list byte :=
  concat (map (fun p => drop (Z.to_nat (m_written p)) (m_buf p)) (m_packet_queue s)).

Definition ws_wf (s : t) : Prop :=
  Forall (fun p => 0 <= m_written p <= m_size p) (m_packet_queue s).

Lemma empty_effect p s o p' s' o' :
  ws_wf s -> empty p (s, o) = Ret p' (s', o') ->
  ws_wf s' /\ m_queue s' = m_queue s /\
  sent T o' (fd p) ++ unwritten s' = sent T o (fd p) ++ unwritten s.
Proof.
  unfold empty, ws_wf, unwritten, pendingWrite. intros W.
  unfold mbind, M_bind, gets. cbn [fst].
  destruct (has_bit _ _ && _); [|by intros [= <- <- <-]].
  unfold on_front. destruct (m_packet_queue s) as [|w ws] eqn:Eq; [done|].
  unfold sendPacket. destruct (sys_write _ _ o) as [[n|e] o1] eqn:E; [|done].
  apply (write_ok (T:=T)) in E as [Hn HT]. rewrite length_drop in Hn.
  inversion W as [|? ? Hw Hws]; subst. unfold m_size in *.
  set (w1 := Packet _ _). cbn [fst snd].
  unfold when, modify. destruct (Z.eqb_spec (m_written w + n) (zlen (m_buf w))) as [Heq|];
    intros [= <- <- <-]; cbn [m_packet_queue map concat m_queue tail fst].
  - split_and!; [done..|]. rewrite HT, <- app_assoc. do 2 f_equal.
    apply firstn_all2. rewrite length_drop. lia.
  - split_and!; [|done|].
    + constructor; [simpl; lia|done].
    + rewrite HT, <- app_assoc. f_equal. rewrite app_assoc. f_equal. subst w1. cbn [m_written m_buf].
      rewrite Z2Nat.inj_add, <- drop_drop by lia. apply take_drop.
Qed.

Lemma tx_inv f o0 pays s o :
  tx f (init, o0) pays (s, o) -> sent T o0 f = [] ->
  ws_wf s /\ sent T o f ++ unwritten s = concat (map frame pays).
Proof.
  intros H H0. remember (s, o) as so eqn:E. revert s o E.
  induction H as [|pays bs s1 o1 s1' H IH He|pays s1 o1 s1' H IH He|pays [s1 o1] p p' so' H IH Hf He];
    intros s o E; simplify_eq.
  - split; [constructor|]. by rewrite H0.
  - injection He as <-. exact (IH s1 o eq_refl).
  - destruct (IH s1 o eq_refl) as [W R]. unfold send, modify in He. injection He as <-.
    destruct (m_queue s1) as [|b q] eqn:Eq; cbn [length].
    + by rewrite app_nil_r.
    + replace (0 <? Z.of_nat (S (length q))) with true by (symmetry; apply Z.ltb_lt; lia).
      split.
      * apply Forall_app. split; [done|]. apply Forall_singleton. split; [done|]. apply Nat2Z.is_nonneg.
      * unfold unwritten. cbn [m_packet_queue]. rewrite !map_app, !concat_app. cbn [map concat].
        rewrite new_WritePacket_buf, !app_nil_r. change (drop (Z.to_nat (m_written (new_WritePacket (b :: q)))) (frame (b :: q))) with (frame (b :: q)).
        rewrite app_assoc. fold (unwritten s1). by rewrite R.
  - destruct (IH s1 o1 eq_refl) as [W R].
    destruct (empty_effect _ _ _ _ _ _ W He) as (W' & _ & R'). split; [done|]. by rewrite R', R.
Qed.
End Sending.

(** ** The channel *)

Section Channel.
Lemma frame_inj p q x y :
  zlen p < 4294967296 -> zlen q < 4294967296 -> frame p ++ x = frame q ++ y -> p = q /\ x = y.
Proof.
  unfold frame. intros Hp Hq E. rewrite <- !app_assoc in E.
  apply app_inj_1 in E as [E1 E2]; [|by rewrite !length_be32].
  apply (f_equal be_value) in E1. rewrite !be_value_be32, !u32_id in E1 by lia.
  apply app_inj_1 in E2; [done|lia].
Qed.

Lemma frames_prefix ps qs rest : 
  Forall (fun p => zlen p < 4294967296) ps -> Forall (fun p => zlen p < 4294967296) qs ->
  concat (map frame ps) ++ rest `prefix_of` concat (map frame qs) ->
  exists ms, qs = ps ++ ms /\ rest `prefix_of` concat (map frame ms).
Proof.
  revert qs. induction ps as [|p ps IH]; intros qs Hp Hq Hpre; [by exists qs|].
  destruct Hpre as [tl E]. cbn [map concat] in E. inversion Hp; subst.
  destruct qs as [|q qs].
  - apply (f_equal length) in E. unfold frame in E.
    rewrite !length_app, length_be32 in E. cbn [map concat length] in E. lia.
  - inversion Hq; subst. cbn [map concat] in E. rewrite <- !app_assoc in E.
    apply frame_inj in E as [-> E]; [|done..].
    destruct (IH qs) as (ms & -> & Hr); [done..| |by exists ms].
    exists tl. by rewrite <- app_assoc.
Qed.

(** A buffer that holds less than a packet is not a packet followed by
    anything. *)
Lemma partial_not_frame s ms :
  rs_wf s -> Forall (fun p => zlen p < 4294967296) ms ->
  ReadStream.m_read_buf s = concat (map frame ms) -> ms = [].
Proof.
  intros (_ & _ & Hp) Hms E. destruct ms as [|p ms]; [done|]. exfalso.
  inversion Hms; subst. unfold ReadStream.m_read_count in Hp. rewrite E in Hp.
  cbn [map concat] in Hp. unfold frame in Hp. rewrite !length_app, length_be32 in Hp.
  rewrite <- !app_assoc in Hp.
  rewrite take_app_exact in Hp by (by rewrite length_be32).
  rewrite be_value_be32, u32_id in Hp by lia. lia.
Qed.

(** C9: the channel from one process's [WriteStream] to the other's
    [ReadStream] is a FIFO of whole messages.  However the writes and the
    reads are cut into pieces, what the receiver has taken from its stream
    followed by what it still holds is the concatenation of the first [k]
    payloads sent, in order and never a partial payload; once everything
    sent has been written and received, it is all of them. *)
Theorem channel_fifo {P1 P2 : Posix} (T1 : traffic P1) (T2 : traffic P2)
    (L1 : PosixLaws T1) (L2 : PosixLaws T2) f g
    (o1 ow : @os P1) (o2 orr : @os P2) pays w c r
    (Htx : tx (P:=P1) f (WriteStream.init, o1) pays (w, ow)) (Hs : sent T1 o1 f = [])
    (Hrx : rx (P:=P2) g (ReadStream.init, o2) c (r, orr)) (Hr : received T2 o2 g = [])
    (Hsize : Forall (fun p => zlen p < 4294967296) pays)
    (Hpipe : received T2 orr g `prefix_of` sent T1 ow f) :
  (exists k, c ++ ReadStream.m_queue r = concat (take k pays)) /\
  (received T2 orr g = sent T1 ow f -> WriteStream.m_packet_queue w = [] ->
   c ++ ReadStream.m_queue r = concat pays).
Proof.
  destruct (tx_inv T1 f o1 pays w ow Htx Hs) as [_ Es].
  destruct (rx_inv T2 g o2 c r orr Hrx Hr) as (W & ps & Ec & Er & Sm).
  assert (Forall (fun p => zlen p < 4294967296) ps) as Sm' by (eapply Forall_impl; [exact Sm|]; simpl; lia).
  rewrite Er in Hpipe.
  assert (concat (map frame ps) ++ ReadStream.m_read_buf r `prefix_of` concat (map frame pays)) as Hpre
    by (etransitivity; [exact Hpipe|]; rewrite <- Es; by apply prefix_app_r).
  destruct (frames_prefix _ _ _ Sm' Hsize Hpre) as (ms & -> & _).
  split.
  - exists (length ps). by rewrite take_app_length.
  - intros Eq Ew. unfold unwritten in Es. rewrite Ew in Es. cbn [map concat] in Es.
    rewrite app_nil_r, <- Eq, Er, map_app, concat_app in Es.
    apply app_inv_head in Es. apply Forall_app in Hsize as [_ Hms].
    rewrite (partial_not_frame r ms W Hms Es). by rewrite app_nil_r.
Qed.

(** Two messages, written in two pieces, read in three. *)
Definition demo_tx (n : nat) : WriteStream.t * script :=
  let up (m : M WriteStream.t unit) (so : WriteStream.t * script) :=
    (final (m so.1) so.1, so.2) in
  let out (so : WriteStream.t * script) := final (WriteStream.empty (P:=ScriptOS) (Pollfd 1 4 4) so) so in
  let s0 := (WriteStream.init, Script [Num 3; Num 100; Num 100] []) in
  let s1 := up (WriteStream.enqueue [x41; x42]) s0 in
  let s2 := up WriteStream.send s1 in
  let s3 := out s2 in
  let s4 := up (WriteStream.enqueue [x43]) s3 in
  let s5 := up WriteStream.send s4 in
  let s6 := out s5 in
  match n with
  | 0%nat => s0 | 1%nat => s1 | 2%nat => s2 | 3%nat => s3 | 4%nat => s4 | 5%nat => s5
  | 6%nat => s6 | _ => out s6 end.

Definition demo_rx (n : nat) : ReadStream.t * script :=
  let s0 := (ReadStream.init,
             Script [Data [x00; x00]; Data [x00; x02]; Data [x41; x42]; Data [x00; x00; x00; x01];
                     Data [x43]] []) in
  let inp so := final (ReadStream.fill (P:=ScriptOS) (Pollfd 0 1 1) so) so in
  match n with
  | 0%nat => s0 | 1%nat => inp s0 | 2%nat => inp (inp s0) | _ => inp (inp (inp s0)) end.

Lemma channel_fifo_witness :
  (exists k, [] ++ ReadStream.m_queue (demo_rx 3).1 = concat (take k [[x41; x42]; [x43]])) /\
  (received script_traffic (demo_rx 3).2 0 = sent script_traffic (demo_tx 7).2 1 ->
   WriteStream.m_packet_queue (demo_tx 7).1 = [] ->
   [] ++ ReadStream.m_queue (demo_rx 3).1 = concat [[x41; x42]; [x43]]).
Proof.
  apply (channel_fifo (P1:=ScriptOS) (P2:=ScriptOS) script_traffic script_traffic _ _ 1 0
           (demo_tx 0).2 (demo_tx 7).2 (demo_rx 0).2 (demo_rx 3).2 [[x41; x42]; [x43]]).
  - eapply (tx_empty (P:=ScriptOS) 1 _ _ (demo_tx 6) (Pollfd 1 4 4)); [|reflexivity|vm_compute; reflexivity].
    eapply (tx_empty (P:=ScriptOS) 1 _ _ (demo_tx 5) (Pollfd 1 4 4)); [|reflexivity|vm_compute; reflexivity].
    refine (tx_send (P:=ScriptOS) 1 _ [[x41; x42]] (demo_tx 4).1 _ _ _ eq_refl).
    refine (tx_enqueue (P:=ScriptOS) 1 _ _ [x43] (demo_tx 3).1 _ _ _ eq_refl).
    eapply (tx_empty (P:=ScriptOS) 1 _ _ (demo_tx 2) (Pollfd 1 4 4)); [|reflexivity|vm_compute; reflexivity].
    refine (tx_send (P:=ScriptOS) 1 _ [] (demo_tx 1).1 _ _ _ eq_refl).
    refine (tx_enqueue (P:=ScriptOS) 1 _ _ [x41; x42] (demo_tx 0).1 _ _ _ eq_refl).
    apply (tx_start (P:=ScriptOS)).
  - reflexivity.
  - eapply (rx_fill (P:=ScriptOS) 0 _ _ (demo_rx 2) (Pollfd 0 1 1)); [|reflexivity|vm_compute; reflexivity].
    eapply (rx_fill (P:=ScriptOS) 0 _ _ (demo_rx 1) (Pollfd 0 1 1)); [|reflexivity|vm_compute; reflexivity].
    eapply (rx_fill (P:=ScriptOS) 0 _ _ (demo_rx 0) (Pollfd 0 1 1)); [|reflexivity|vm_compute; reflexivity].
    apply (rx_start (P:=ScriptOS)).
  - reflexivity.
  - repeat constructor.
  - exists []. vm_compute. reflexivity.
Defined.
End Channel.

(** ** Values on the wire *)

(** A message is a sequence of these. *)
Inductive wire_value : Type :=
| VShort (z : Z)
| VLong (z : Z)
| VString (m : list byte).

Definition write_value (v : wire_value) : M WriteStream.t unit :=
  match v with
  | VShort z => WriteStream.writeShort z
  | VLong z => WriteStream.writeLong z
  | VString m => WriteStream.writeString m
  end.

Fixpoint write_values (vs : list wire_value) : M WriteStream.t unit :=
  match vs with [] => mret tt | v :: vs => write_value v;; write_values vs end.

(** Read a value of the same type as [v]. *)
Definition read_like (v : wire_value) : M ReadStream.t wire_value :=
  match v with
  | VShort _ => z ← ReadStream.readShort; mret (VShort z)
  | VLong _ => z ← ReadStream.readLong; mret (VLong z)
  | VString _ => m ← ReadStream.readString; mret (VString m)
  end.

Fixpoint read_values (vs : list wire_value) : M ReadStream.t (list wire_value) :=
  match vs with
  | [] => mret []
  | v :: vs => w ← read_like v; ws ← read_values vs; mret (w :: ws)
  end.

(** What arrives: a [short] is converted to 16 bits, a [long] to its low 32. *)
Definition received_value (v : wire_value) : wire_value :=
  match v with
  | VShort z => VShort (i16 z)
  | VLong z => VLong (u32 z)
  | VString m => VString m
  end.

Definition enc_value (v : wire_value) : list byte :=
  match v with
  | VShort z => enc_short z
  | VLong z => be32 z
  | VString m => enc_string m
  end.

Definition sendable (v : wire_value) : Prop :=
  match v with VString m => zlen m < 4294967296 | _ => True end.

Section Values.
Lemma write_values_spec vs s :
  write_values vs s =
  Ret tt (WriteStream.Mk (WriteStream.m_queue s ++ concat (map enc_value vs))
                         (WriteStream.m_packet_queue s)).
Proof.
  revert s. induction vs as [|v vs IH]; intros s; cbn [map concat].
  - rewrite app_nil_r. by destruct s.
  - cbn [write_values]. unfold mbind, M_bind.
    assert (write_value v s = Ret tt (WriteStream.Mk (WriteStream.m_queue s ++ enc_value v)
              (WriteStream.m_packet_queue s))) as ->.
    { destruct v; simpl; [apply writeShort_spec| |apply writeString_spec].
      unfold WriteStream.writeLong, WriteStream.enqueue, modify. by rewrite le_split_htonl by lia. }
    rewrite IH. cbn [WriteStream.m_queue WriteStream.m_packet_queue]. by rewrite app_assoc.
Qed.

Lemma read_like_enc v r rest : sendable v ->
  ReadStream.m_queue r = enc_value v ++ rest ->
  read_like v r = Ret (received_value v) (ReadStream.set_queue rest r).
Proof.
  intros Hv E. destruct v; simpl in *; unfold mbind, M_bind.
  - by rewrite (readShort_enc _ _ _ E).
  - by rewrite (readLong_enc _ _ _ E).
  - by rewrite (readString_enc _ _ _ E).
Qed.

(** C20: whatever sequence of shorts, longs and strings one side writes
    into its stream, the other side reads back from the bytes queued, with
    shorts reduced to 16 bits and longs to 32, and the bytes that follow
    are left untouched. *)
Theorem values_roundtrip vs w r rest
    (Hvs : Forall sendable vs) (Hw : WriteStream.m_queue w = []) :
  exists w', write_values vs w = Ret tt w' /\
    (ReadStream.m_queue r = WriteStream.m_queue w' ++ rest ->
     read_values vs r = Ret (map received_value vs) (ReadStream.set_queue rest r)).
Proof.
  rewrite write_values_spec, Hw. eexists. split; [done|]. cbn [WriteStream.m_queue app].
  revert r. induction vs as [|v vs IH]; intros r E; cbn [map concat app read_values] in *.
  - unfold mret, M_ret. rewrite <- E. by destruct r.
  - inversion Hvs; subst. rewrite <- app_assoc in E. unfold mbind, M_bind.
    rewrite (read_like_enc _ _ _ ltac:(done) E).
    by rewrite (IH ltac:(done) (ReadStream.set_queue (concat (map enc_value vs) ++ rest) r) eq_refl).
Qed.

Lemma values_roundtrip_witness :
  exists w', write_values [VShort 70000; VString [x41]; VLong (-1)] WriteStream.init = Ret tt w' /\
    (ReadStream.m_queue (ReadStream.Mk (WriteStream.m_queue w' ++ [x42]) [] 4096)
       = WriteStream.m_queue w' ++ [x42] ->
     read_values [VShort 70000; VString [x41]; VLong (-1)]
                 (ReadStream.Mk (WriteStream.m_queue w' ++ [x42]) [] 4096)
     = Ret [VShort 4464; VString [x41]; VLong 4294967295] (ReadStream.Mk [x42] [] 4096)).
Proof.
  destruct (values_roundtrip [VShort 70000; VString [x41]; VLong (-1)] WriteStream.init
              (ReadStream.Mk [x11; x70; x00; x00; x00; x01; x41; xff; xff; xff; xff; x42] [] 4096) [x42])
    as (w' & E & R); [repeat constructor|reflexivity|].
  exists w'. split; [exact E|]. vm_compute in E. injection E as <-. exact R.
Defined.

(** C39: the length is stored in a packet with an eight-byte store, so a
    payload of fewer than four bytes is written past the end of its buffer.
    Whatever memory the constructor is given, an array of the packet's size
    with other bytes behind it, it leaves the packet in the array and sets
    the first of the bytes behind to zero, as many as the payload lacks of
    four.  A lone short, which is how both processes say CMD_CREATE and
    CMD_SHUTDOWN, clears two bytes that are not the packet's; a payload of
    four bytes and more leaves what is behind it alone. *)
Theorem WritePacket_overrun q buf behind (Hbuf : zlen buf = zlen q + 4) (Hbehind : 4 <= zlen behind) :
  WriteStream.construct q (buf ++ behind) =
    WriteStream.m_buf (WriteStream.new_WritePacket q) ++ replicate (4 - length q) x00 ++ drop (4 - length q) behind /\
  WriteStream.m_buf (WriteStream.new_WritePacket q) = frame q /\
  (4 <= zlen q -> WriteStream.construct q (buf ++ behind) = frame q ++ behind) /\
  (forall v k, exists payload, zlen payload = 2 /\
     (WriteStream.writeShort v;; WriteStream.send) (WriteStream.Mk [] k) =
       Ret tt (WriteStream.Mk [] (k ++ [WriteStream.new_WritePacket payload])) /\
     forall b0 b1 b2 b3 b4 b5, WriteStream.construct payload ([b0; b1; b2; b3; b4; b5] ++ behind) =
       frame payload ++ [x00; x00] ++ drop 2 behind).
Proof.
  rewrite new_WritePacket_buf. split_and!; [by apply construct_array|done|..].
  - intros Hq. rewrite construct_array by done. by replace (4 - length q)%nat with 0%nat by lia.
  - intros v k. exists (enc_short v). split_and!; [done| |].
    + unfold mbind, M_bind. rewrite writeShort_spec. by apply send_spec.
    + intros. by apply (construct_array (enc_short v)).
Qed.

Lemma WritePacket_overrun_witness :
  WriteStream.construct [x00; x01] [xaa; xaa; xaa; xaa; xaa; xaa; x11; x22; x33; x44] =
    [x00; x00; x00; x02; x00; x01; x00; x00; x33; x44] /\
  WriteStream.m_buf (WriteStream.new_WritePacket [x00; x01]) = [x00; x00; x00; x02; x00; x01].
Proof.
  destruct (WritePacket_overrun [x00; x01] (replicate 6 xaa) [x11; x22; x33; x44] eq_refl (Z.le_refl 4)) as (E & Eb & _).
  split; [|exact Eb]. rewrite Eb in E. exact E.
Defined.
End Values.

Section FillErrors.
Import ReadStream.
Context {P : Posix} (T : traffic P) `{!PosixLaws T}.

Definition fill_exn (e : exn) : Prop :=
  (exists n, e = ExnErrno n) \/ e = ExnMsg "End of file in ReadStream::fill" \/
  e = ExnMsg "Bad read length".


Lemma fill_throws p so e so' : fill p so = Throw e so' -> fill_exn e.
Proof.
  unfold fill, fill_exn. destruct (has_bit _ _); [|done].
  unfold fill_header, fill_body, mbind, M_bind, gets, throw, when, modify.
  destruct so as [s o]. cbn [fst snd].
  assert (forall f n so e so', read_more f n so <> Throw e so') as RM
    by (intros f n [] ? ?; unfold read_more; by repeat case_match).
  repeat case_match; intros; simplify_eq; eauto; try (exfalso; by eapply RM).
Qed.

(** C21: [fill] keeps to its buffer and delivers whole packets.  From the
    empty stream, after any sequence of fills and reads and whatever the
    reads of the descriptor return, a further [fill] never reads past
    [m_read_buf].  It throws an errno exception, the end-of-file exception or
    the bad-length exception; or it returns.  Then, if the descriptor was
    readable, it has been read, for the rest of the length or of the packet;
    and the bytes that came in have either joined the buffer, which is still
    less than a packet, with the queue of delivered bytes as it was, or they
    have made the buffer exactly one packet, whose payload has joined the
    queue, and emptied it.  So an incomplete packet is never treated as a
    message, and a complete one is never kept back. *)
Theorem fill_memory_safe f o0 c s o p
    (Hrx : rx f (init, o0) c (s, o)) (H0 : received T o0 f = []) :
  match fill p (s, o) with
  | Ret _ (s', o') =>
      (m_read_count s' <= m_read_size s' /\
       (m_read_count s' < 4 \/ m_read_count s' < be_value (take 4 (m_read_buf s')) + 4)) /\
      (exists bs, received T o' (fd p) = received T o (fd p) ++ bs /\
        ((m_queue s' = m_queue s /\ m_read_buf s' = m_read_buf s ++ bs) \/
         (exists payload, m_read_buf s ++ bs = be32 (zlen payload) ++ payload /\ zlen payload <= 50000000 /\
                          m_queue s' = m_queue s ++ payload /\ m_read_buf s' = []))) /\
      (has_bit (revents p) POLLIN = true -> exists answer o1 more,
         sys_read (fd p) (wanted s) o = (answer, o1) /\ received T o' (fd p) = received T o1 (fd p) ++ more)
  | Throw e _ => fill_exn e
  | Undef _ | NoFuel => False
  end.
Proof.
  destruct (rx_inv T f o0 c s o Hrx H0) as [W _].
  pose proof (fill_spec T p s o W) as F.
  destruct (fill p (s, o)) as [u [s' o']|e so'| |] eqn:E; [|by eapply fill_throws|done..].
  destruct F as [[(_ & W') H] Hr]. split; [exact W'|]. split; [exact H|exact Hr].
Qed.

End FillErrors.

(** The second of the fills completes the first packet. *)
Lemma fill_memory_safe_witness :
  exists s' o' payload, ReadStream.fill (P:=ScriptOS) (Pollfd 0 1 1) (demo_rx 1) = Ret tt (s', o') /\
    ReadStream.m_queue s' = payload /\ exists bs, [x00; x00] ++ bs = be32 (zlen payload) ++ payload.
Proof.
  assert (rx (P:=ScriptOS) 0 (ReadStream.init, (demo_rx 0).2) [] ((demo_rx 1).1, (demo_rx 1).2)) as Hrx.
  { eapply (rx_fill (P:=ScriptOS) 0 _ _ (demo_rx 0) (Pollfd 0 1 1)); [|reflexivity|vm_compute; reflexivity].
    apply (rx_start (P:=ScriptOS)). }
  pose proof (fill_memory_safe (P:=ScriptOS) script_traffic 0 (demo_rx 0).2 [] (demo_rx 1).1 (demo_rx 1).2 (Pollfd 0 1 1) Hrx eq_refl) as H.
  change ((demo_rx 1).1, (demo_rx 1).2) with (demo_rx 1) in H.
  assert (ReadStream.m_queue (demo_rx 1).1 = []) as Q by (vm_compute; reflexivity).
  assert (ReadStream.m_read_buf (demo_rx 1).1 = [x00; x00]) as B by (vm_compute; reflexivity).
  assert (ReadStream.m_queue (final (ReadStream.fill (P:=ScriptOS) (Pollfd 0 1 1) (demo_rx 1)) (demo_rx 1)).1 <> []) as N
    by (vm_compute; discriminate).
  destruct (ReadStream.fill (P:=ScriptOS) (Pollfd 0 1 1) (demo_rx 1)) as [[] [s' o']|e so'| |] eqn:E; [|exfalso; vm_compute in E; discriminate E|destruct H..].
  destruct H as (_ & (bs & _ & [[Hq _]|(payload & Hb & _ & Hq & _)]) & _); rewrite Q in Hq; cbn [final fst] in N.
  - destruct (N Hq).
  - exists s', o', payload. split; [reflexivity|]. split; [exact Hq|]. exists bs. rewrite B in Hb. exact Hb.
Defined.

Section FillBody.
Import ReadStream.
Context {P : Posix}.

(** End of file in the middle of a packet goes unnoticed.  Once the
    four bytes of a length are there and more of the packet is due, a read
    that returns 0 leaves the stream as it is and [fill] returns normally,
    where the same read during the first four bytes throws. *)
Lemma fill_ignores_eof_in_payload f ev rev s o o'
    (Hin : has_bit rev POLLIN = true)
    (Hlen : 4 <= m_read_count s) (Hval : be_value (take 4 (m_read_buf s)) <= 50000000)
    (Hpart : m_read_count s < be_value (take 4 (m_read_buf s)) + 4)
    (Hsize : be_value (take 4 (m_read_buf s)) + 4 <= m_read_size s)
    (Heof : sys_read f (be_value (take 4 (m_read_buf s)) + 4 - m_read_count s) o = (SysOk [], o')) :
  fill (Pollfd f ev rev) (s, o) = Ret tt (s, o').
Proof.
  unfold fill. cbn [revents fd]. rewrite Hin.
  unfold fill_header, mbind, M_bind, gets. cbn [fst].
  destruct (Z.ltb_spec (m_read_count s) 4); [lia|]. cbn [mret M_ret].
  pose proof (payload_length_range s Hlen).
  unfold mret, M_ret, fill_body, mbind, M_bind, gets, when, modify, mret, M_ret. cbn [fst].
  rewrite ntohl_buf by done.
  destruct (Z.ltb_spec 50000000 (be_value (take 4 (m_read_buf s)))); [lia|].
  destruct (Z.ltb_spec (m_read_size s) (be_value (take 4 (m_read_buf s)) + 4)); [lia|].
  unfold u64. rewrite Z.mod_small by (unfold m_read_count in *; lia).
  unfold read_more. destruct (Z.ltb_spec (m_read_size s)
    (m_read_count s + (be_value (take 4 (m_read_buf s)) + 4 - m_read_count s))); [lia|].
  rewrite Heof. rewrite app_nil_r. replace (set_buf (m_read_buf s) s) with s by (by destruct s).
  destruct (Z.eqb_spec (m_read_count s) (be_value (take 4 (m_read_buf s)) + 4)); [lia|done].
Qed.

End FillBody.

Lemma fill_ignores_eof_in_payload_witness :
  let s := ReadStream.Mk [] [x00; x00; x00; x05; x41] 4096 in
  ReadStream.fill (P:=ScriptOS) (Pollfd 0 1 1) (s, Script [Data []] []) =
  Ret tt (s, Script [] [CRead 0 []]).
Proof.
  intros s. apply (fill_ignores_eof_in_payload (P:=ScriptOS) 0 1 1 s); vm_compute; congruence.
Defined.
