(* ===== verification/SockBuffer.v ===== *)
(** * SockBuffer: bytes on their way to a descriptor

    src/src/com/antlersoft/net/SockBuffer.cpp.  Bytes wait in a queue; they
    are moved in blocks to an output array, which is written from
    [m_output_position] to its end.  [readData] takes its virtual
    [processReadData] as an argument, so that [MagicStringDetector] can
    override it. *)

From stdpp Require Import base list tactics strings.
From Stdlib Require Import ZArith Lia.
From S2P Require Import Prelude Posix.

Module SockBuffer.

Definition BUFFER_SIZE : Z := 4096.

Record t : Type := Mk {
  m_queue : list byte;
  m_output_buf : list byte;        (* BUFFER_SIZE bytes *)
  m_output_position : Z
}.

(** [new char[BUFFER_SIZE]] leaves the array indeterminate; it is not read
    before it is filled ([output] below). *)
Definition init : t := Mk [] (replicate (Z.to_nat BUFFER_SIZE) x00) BUFFER_SIZE.

Definition unsentData (s : t) : bool :=
  negb (m_output_position s =? BUFFER_SIZE) || negb (bool_decide (m_queue s = [])).

Definition pushOnBuffer (bytes : list byte) : M t unit :=
  modify (fun s => Mk (m_queue s ++ bytes) (m_output_buf s) (m_output_position s)).

Definition getCopyOfBuffer : M t (list byte) := gets m_queue.

Definition clear : M t unit :=
  modify (fun s => Mk [] (m_output_buf s) BUFFER_SIZE).

Section IO.
Context {P : Posix}.

(** The refill at the top of [writeData]. *)
Definition refill (s : t) : t :=
  if m_output_position s =? BUFFER_SIZE then
    let fill_size := Z.min (zlen (m_queue s)) BUFFER_SIZE in
    Mk (drop (Z.to_nat fill_size) (m_queue s))
       (take (Z.to_nat (BUFFER_SIZE - fill_size)) (m_output_buf s)
          ++ take (Z.to_nat fill_size) (m_queue s))
       (m_output_position s - fill_size)
  else s.

(** The bytes from [m_output_position] to the end of the array. *)
Definition output (s : t) : list byte :=
  drop (Z.to_nat (m_output_position s)) (m_output_buf s).

Definition writeData (write_fd : Z) : M (t * os) Z := fun '(s, o) =>
  let s1 := refill s in
  match sys_write write_fd (output s1) o with
  | (SysErr e, o') => Throw (ExnErrno e) (s1, o')
  | (SysOk write_count, o') =>
      Ret write_count (Mk (m_queue s1) (m_output_buf s1) (m_output_position s1 + write_count), o')
  end.

(** [readData] in an object whose state is [S]: the buffer and the
    system are parts of it, and [processReadData] may change all of it.
    The loop turns while the descriptor fills the array, [fuel] times at
    most. *)
Section Read.
Context {S : Type} (buffer : lens S t) (system : lens S os)
        (processReadData : list byte -> M S unit).

Definition read_block (read_fd : Z) : M S (list byte) :=
  r ← syscall system (sys_read read_fd BUFFER_SIZE);
  match r with
  | SysOk bs => mret bs
  | SysErr e =>
      if (e =? EAGAIN) || (e =? EHOSTUNREACH) || (e =? ECONNRESET) then mret []
      else throw (ExnErrno e)
  end.

Fixpoint read_loop (fuel : nat) (read_fd read_total : Z) : M S Z :=
  match fuel with
  | O => out_of_fuel
  | Datatypes.S fuel =>
      input ← read_block read_fd;
      processReadData input;;
      zoom buffer (pushOnBuffer input);;
      if zlen input =? BUFFER_SIZE then read_loop fuel read_fd (read_total + zlen input)
      else mret (read_total + zlen input)
  end.

Definition readData (fuel : nat) (read_fd : Z) : M S Z := read_loop fuel read_fd 0.
End Read.

(** [SockBuffer]'s own [processReadData] does nothing. *)
Definition plain_readData (fuel : nat) (read_fd : Z) : M (t * os) Z :=
  readData lens_fst lens_snd (fun _ => mret tt) fuel read_fd.
End IO.
End SockBuffer.

Section SockBufferFacts.
Import SockBuffer.
Context {P : Posix} (T : traffic P) `{!PosixLaws T}.
Implicit Types s : SockBuffer.t.

(** The array has its size, and the position is in it. *)
Definition sb_wf s : Prop :=
  zlen (m_output_buf s) = BUFFER_SIZE /\ 0 <= m_output_position s <= BUFFER_SIZE.

(** The bytes that have been accepted and not yet written. *)
Definition pending s : list byte := output s ++ m_queue s.

Lemma sb_wf_init : sb_wf init.
Proof. unfold sb_wf, init, BUFFER_SIZE. cbn [m_output_buf m_output_position].
  rewrite length_replicate. lia. Qed.

Lemma pending_init : pending init = [].
Proof. reflexivity. Qed.

Lemma refill_wf s : sb_wf s -> sb_wf (refill s).
Proof.
  intros [L H]. unfold refill. destruct (Z.eqb_spec (m_output_position s) BUFFER_SIZE) as [E|]; [|done].
  unfold sb_wf, BUFFER_SIZE in *. cbn [m_output_buf m_output_position].
  rewrite length_app, !length_take. lia.
Qed.

Lemma refill_pending s : sb_wf s -> pending (refill s) = pending s.
Proof.
  intros [L H]. unfold refill. destruct (Z.eqb_spec (m_output_position s) BUFFER_SIZE) as [E|]; [|done].
  unfold pending, output, BUFFER_SIZE in *. cbn [m_output_buf m_output_position m_queue]. rewrite E.
  rewrite (drop_ge (m_output_buf s)) by lia. cbn [app].
  rewrite drop_app_exact; [apply take_drop|]. rewrite length_take. lia.
Qed.

(** Nothing is left exactly when there is nothing to send. *)
Lemma unsentData_pending s : sb_wf s -> unsentData s = negb (bool_decide (pending s = [])).
Proof.
  intros [L H]. unfold unsentData, pending, output, BUFFER_SIZE in *.
  destruct (Z.eqb_spec (m_output_position s) 4096) as [E|E].
  - rewrite drop_ge by lia. done.
  - simpl. rewrite bool_decide_eq_false_2; [done|]. intros [E' _]%app_eq_nil.
    apply (f_equal length) in E'. rewrite length_drop in E'. simpl in E'. lia.
Qed.

Lemma writeData_effect f s o : sb_wf s ->
  match writeData f (s, o) with
  | Ret n (s', o') => sb_wf s' /\ 0 <= n <= zlen (output (refill s)) /\
      sent T o' f ++ pending s' = sent T o f ++ pending s
  | Throw e (s', o') => sb_wf s' /\ pending s' = pending s /\ sent T o' f = sent T o f
  | _ => False end.
Proof.
  intros W. pose proof (refill_wf s W) as [L' H']. pose proof (refill_pending s W) as Pd.
  unfold writeData. destruct (sys_write _ _ o) as [[n|e] o'] eqn:E.
  - apply (write_ok (T:=T)) in E as [Hn HT].
    assert (n <= BUFFER_SIZE - m_output_position (refill s)) as Hb.
    { unfold output in Hn. rewrite length_drop in Hn. lia. }
    split_and!; try done; unfold sb_wf; cbn [m_output_position m_output_buf]; try lia.
    rewrite HT, <- Pd, <- !app_assoc. f_equal. unfold pending, output.
    cbn [m_output_position m_output_buf m_queue]. rewrite app_assoc. f_equal.
    rewrite Z2Nat.inj_add, <- drop_drop by lia. apply take_drop.
  - apply (write_err (T:=T)) in E. split_and!; done.
Qed.

(** A buffer in use: bytes are pushed, and written to [f]. *)
Inductive sb_run (f : Z) (start : t * os) : list byte -> t * os -> Prop :=
| sb_start : sb_run f start [] start
| sb_push acc bs s o s' :
    sb_run f start acc (s, o) -> pushOnBuffer bs s = Ret tt s' ->
    sb_run f start (acc ++ bs) (s', o)
| sb_write acc so n so' :
    sb_run f start acc so -> writeData f so = Ret n so' -> sb_run f start acc so'.

Lemma sb_run_inv f o0 acc s o : sb_run f (init, o0) acc (s, o) -> sent T o0 f = [] ->
  sb_wf s /\ sent T o f ++ pending s = acc.
Proof.
  intros H H0. remember (s, o) as so eqn:E. revert s o E.
  induction H as [|acc bs s1 o1 s1' H IH Hp|acc [s1 o1] n so' H IH Hw]; intros s o E; simplify_eq.
  - split; [apply sb_wf_init|]. by rewrite H0.
  - destruct (IH s1 o eq_refl) as [W R]. injection Hp as <-. split; [exact W|].
    rewrite <- R. unfold pending. cbn [m_queue]. unfold output. cbn [m_output_position m_output_buf].
    by rewrite !app_assoc.
  - destruct (IH s1 o1 eq_refl) as [W R]. pose proof (writeData_effect f s1 o1 W) as F.
    rewrite Hw in F. destruct F as (W' & _ & R'). split; [done|]. by rewrite R'.
Qed.

(** C22: a [SockBuffer] is a lossless FIFO.  Whatever is pushed and however
    little each [writeData] manages to write, the bytes written to the
    descriptor, followed by those in the output array and the queue, are
    the bytes pushed, in order; and [unsentData] is false exactly when all
    of them have been written. *)
Theorem SockBuffer_fifo f o0 acc s o
    (Hrun : sb_run f (init, o0) acc (s, o)) (H0 : sent T o0 f = []) :
  sent T o f ++ pending s = acc /\ (unsentData s = false <-> sent T o f = acc).
Proof.
  destruct (sb_run_inv f o0 acc s o Hrun H0) as [W <-]. split; [done|].
  rewrite unsentData_pending by done. rewrite negb_false_iff, bool_decide_eq_true.
  split; [intros ->; by rewrite app_nil_r|]. intros E.
  symmetry. apply (app_inv_head (sent T o f)). by rewrite app_nil_r.
Qed.

(** The descriptor delivers at most [n] full blocks before a short one, an
    error or nothing. *)
Fixpoint settles (n : nat) (f : Z) (o : os) : Prop :=
  match sys_read f BUFFER_SIZE o with
  | (SysOk bs, o') =>
      if zlen bs =? BUFFER_SIZE then match n with O => False | S n => settles n f o' end else True
  | (SysErr _, _) => True
  end.

Definition soft_error (e : Z) : bool := (e =? EAGAIN) || (e =? EHOSTUNREACH) || (e =? ECONNRESET).

Definition pushed (bs : list byte) s : t := Mk (m_queue s ++ bs) (m_output_buf s) (m_output_position s).

Lemma read_loop_S n f total s o :
  read_loop lens_fst lens_snd (fun _ => mret tt) (S n) f total (s, o) =
  match sys_read f BUFFER_SIZE o with
  | (SysOk bs, o') =>
      if zlen bs =? BUFFER_SIZE
      then read_loop lens_fst lens_snd (fun _ => mret tt) n f (total + zlen bs) (pushed bs s, o')
      else Ret (total + zlen bs) (pushed bs s, o')
  | (SysErr e, o') =>
      if soft_error e then Ret (total + 0) (pushed [] s, o') else Throw (ExnErrno e) (s, o')
  end.
Proof.
  cbn [read_loop]. unfold mbind, M_bind, read_block, syscall. cbn [view lens_snd snd].
  unfold mbind, M_bind. cbn [snd]. destruct (sys_read f BUFFER_SIZE o) as [[bs|e] o'].
  - cbn. destruct (zlen bs =? BUFFER_SIZE); reflexivity.
  - fold (soft_error e). destruct (soft_error e); reflexivity.
Qed.

(** What a descriptor delivers to one call: full blocks, [n] of them, and
    then less than a block, nothing because of one of the three errors that
    are passed over, or another error.  [bs] is all of it, [r] the error. *)
Inductive drains (f : Z) : nat -> os -> list byte -> option Z -> os -> Prop :=
| drains_short o bs o' :
    sys_read f BUFFER_SIZE o = (SysOk bs, o') -> zlen bs < BUFFER_SIZE -> drains f 0 o bs None o'
| drains_nothing o e o' :
    sys_read f BUFFER_SIZE o = (SysErr e, o') -> e = EAGAIN \/ e = EHOSTUNREACH \/ e = ECONNRESET -> drains f 0 o [] None o'
| drains_error o e o' :
    sys_read f BUFFER_SIZE o = (SysErr e, o') -> e <> EAGAIN -> e <> EHOSTUNREACH -> e <> ECONNRESET -> drains f 0 o [] (Some e) o'
| drains_block n o bs o1 more r o' :
    sys_read f BUFFER_SIZE o = (SysOk bs, o1) -> zlen bs = BUFFER_SIZE -> drains f n o1 more r o' ->
    drains f (S n) o (bs ++ more) r o'.

Lemma soft_error_iff e : soft_error e = true <-> e = EAGAIN \/ e = EHOSTUNREACH \/ e = ECONNRESET.
Proof. unfold soft_error. rewrite !orb_true_iff, !Z.eqb_eq. tauto. Qed.

Lemma settles_drains n f o : settles n f o -> exists m bs r o', (m <= n)%nat /\ drains f m o bs r o'.
Proof.
  revert o. induction n as [|n IH]; intros o; cbn [settles];
    (destruct (sys_read f BUFFER_SIZE o) as [[bs|e] o1] eqn:E;
     [|intros _; exists 0%nat, []; destruct (soft_error e) eqn:Es;
       [exists None, o1; split; [lia|]; eapply drains_nothing; [exact E|by apply soft_error_iff]
       |exists (Some e), o1; split; [lia|]; eapply drains_error; [exact E|..]; intros ->; discriminate Es]]);
    destruct (Z.eqb_spec (zlen bs) BUFFER_SIZE) as [Eb|Eb]; intros Hset; try done;
    try (exists 0%nat, bs, None, o1; split; [lia|]; eapply drains_short; [exact E|];
         apply (read_ok (T:=T)) in E as [L _]; unfold BUFFER_SIZE in *; lia).
  destruct (IH o1 Hset) as (m & more & r & o' & Hm & D). exists (S m), (bs ++ more), r, o'.
  split; [lia|]. by eapply drains_block.
Qed.

Lemma drains_received n f o bs r o' : drains f n o bs r o' -> received T o' f = received T o f ++ bs.
Proof.
  induction 1 as [o bs o' E|o e o' E|o e o' E|n o bs o1 more r o' E _ _ IH]; rewrite ?app_nil_r;
    [by apply (read_ok (T:=T)) in E as [_ R]|by apply (read_err (T:=T)) in E..|].
  apply (read_ok (T:=T)) in E as [_ R]. by rewrite IH, R, app_assoc.
Qed.

Lemma pushed_nil s : pushed [] s = s.
Proof. unfold pushed. rewrite app_nil_r. by destruct s. Qed.
Lemma pushed_pushed bs more s : pushed more (pushed bs s) = pushed (bs ++ more) s.
Proof. unfold pushed. cbn. by rewrite app_assoc. Qed.

(** [readData] of what a descriptor delivers. *)
Definition drained (bs : list byte) (r : option Z) total s o' : outcome (t * os) Z :=
  match r with
  | None => Ret (total + zlen bs) (pushed bs s, o')
  | Some e => Throw (ExnErrno e) (pushed bs s, o')
  end.

Lemma read_loop_drains n f o bs r o' : drains f n o bs r o' -> forall fuel total s, (n < fuel)%nat ->
  read_loop lens_fst lens_snd (fun _ => mret tt) fuel f total (s, o) = drained bs r total s o'.
Proof.
  induction 1 as [o bs o' E Hb|o e o' E He|o e o' E H1 H2 H3|n o bs o1 more r o' E Hb _ IH]; intros [|fuel] total s Hf;
    try lia; rewrite read_loop_S, E.
  - destruct (Z.eqb_spec (zlen bs) BUFFER_SIZE); [lia|done].
  - by rewrite (proj2 (soft_error_iff e) He).
  - destruct (soft_error e) eqn:Es; [|cbn; by rewrite pushed_nil]. apply soft_error_iff in Es as [|[|]]; done.
  - rewrite Hb, Z.eqb_refl, (IH fuel) by lia. unfold drained. rewrite pushed_pushed, length_app.
    destruct r; [done|]. f_equal. lia.
Qed.

(** C23: [readData] drains its descriptor, and terminates if it can be
    drained.  As long as the descriptor fills the block it reads again; it
    ends with the first read that gives less, or that fails.  If that
    happens after at most [n] full blocks, then with any more than [n] turns
    it appends to the queue all the bytes of those reads, in order, and
    returns their number, treating EAGAIN, EHOSTUNREACH and ECONNRESET as
    nothing to read, or throws the errno of any other error, keeping what
    was read before it; nothing more is read. *)
Theorem readData_drains n f s o (Hset : settles n f o) :
  exists m bs r o', (m <= n)%nat /\ drains f m o bs r o' /\ received T o' f = received T o f ++ bs /\
    forall fuel, (n < fuel)%nat ->
      plain_readData fuel f (s, o) =
      match r with
      | None => Ret (zlen bs) (Mk (m_queue s ++ bs) (m_output_buf s) (m_output_position s), o')
      | Some e => Throw (ExnErrno e) (Mk (m_queue s ++ bs) (m_output_buf s) (m_output_position s), o')
      end.
Proof.
  destruct (settles_drains n f o Hset) as (m & bs & r & o' & Hm & D). exists m, bs, r, o'.
  split_and!; [done|done|by eapply drains_received|]. intros fuel Hf. unfold plain_readData, readData.
  rewrite (read_loop_drains m f o bs r o' D) by lia. by destruct r.
Qed.
End SockBufferFacts.

(** A full block, and then one byte. *)
Lemma readData_drains_witness :
  let block := replicate 4096 x42 in
  exists bs o', SockBuffer.plain_readData (P:=ScriptOS) 2 5 (SockBuffer.init, Script [Data block; Data [x41]; Data [x43]] []) =
    Ret (zlen bs) (pushed bs SockBuffer.init, o') /\ script_received o' 5 = bs /\ zlen bs = 4097.
Proof.
  intros block. set (o := Script [Data block; Data [x41]; Data [x43]] []).
  assert (settles (P:=ScriptOS) 1 5 o) as Hset by (vm_compute; exact I).
  destruct (readData_drains (P:=ScriptOS) script_traffic 1 5 SockBuffer.init o Hset)
    as (m & bs & [e|] & o' & _ & D & R & E); specialize (E 2%nat (le_n 2)).
  - exfalso. vm_compute in E. discriminate E.
  - exists bs, o'. split; [exact E|]. split; [exact R|]. vm_compute in E. injection E as En _. exact (eq_sym En).
Defined.

Lemma SockBuffer_fifo_witness :
  let o := Script [] [CWrite 5 [x41]] in
  let s := final (SockBuffer.writeData (P:=ScriptOS) 5
             (final (SockBuffer.pushOnBuffer [x41; x42] SockBuffer.init) SockBuffer.init,
              Script [Num 1] [])) (SockBuffer.init, o) in
  sent script_traffic s.2 5 ++ pending s.1 = [x41; x42] /\
  (SockBuffer.unsentData s.1 = false <-> sent script_traffic s.2 5 = [x41; x42]).
Proof.
  intros o s. apply (SockBuffer_fifo (P:=ScriptOS) script_traffic 5 (Script [Num 1] []) [x41; x42] s.1 s.2);
    [|reflexivity].
  refine (sb_write (P:=ScriptOS) 5 _ [x41; x42] _ 1 _ _ _).
  - refine (sb_push (P:=ScriptOS) 5 _ [] [x41; x42] _ _ _ _ eq_refl). apply (sb_start (P:=ScriptOS)).
  - vm_compute. reflexivity.
Defined.
