(* ===== verification/Poller.v ===== *)
(** * Poller: the event loop

    src/src/com/antlersoft/net/Poller.h and Poller.cpp.  A poller keeps a
    vector of objects with the descriptor each watches; a round of
    [pollOnce] polls the descriptors and calls the objects that are ready.
    The objects' [polled] may add, remove and change entries of the very
    vector being traversed, and the poller keeps its place by adjusting two
    indices; [dispatch_spec] shows that this is a traversal of the entries
    there were at the start, less those removed on the way. *)

From stdpp Require Import base list tactics strings relations sorting.
From Stdlib Require Import ZArith Lia.
From S2P Require Import Prelude Posix.

(** The virtual functions of [Polled] and [PollCallback], for objects [Obj]
    of a program with state [S]: what registering an object calls, and what
    the loop calls.  [setPollfd] gives the descriptor and the events it
    stores; [polled] is given the [pollfd] of its entry and which entry it
    is. *)
Class Registers (S Obj : Type) : Type := { setPollfd : Obj -> M S (Z * Z) }.
Class Polled (S Obj : Type) : Type := {
  polled : Obj -> nat -> pollfd -> M S unit;
  cleanup : Obj -> pollfd -> M S unit;
  pollCallback : M S unit
}.

Module Poller.

Definition INITIAL_SIZE : Z := 10.

(** [PolledAndPollfd]; [e_id] stands for the identity of the shared object. *)
Record entry (Obj : Type) : Type := Entry { e_id : nat; e_polled : Obj; e_pollfd : pollfd }.
Arguments Entry {Obj} _ _ _.
Arguments e_id {Obj} _.
Arguments e_polled {Obj} _.
Arguments e_pollfd {Obj} _.

Record t (Obj : Type) : Type := Mk {
  m_polled : list (entry Obj);
  m_next : nat;                 (* the next identity *)
  m_size : Z;
  m_orig_size : Z;
  m_index : Z;
  m_timeout : Z;
  m_finishing : bool;
  m_callback : bool             (* a callback is set *)
}.
Arguments Mk {Obj} _ _ _ _ _ _ _ _.
Arguments m_polled {Obj} _.
Arguments m_next {Obj} _.
Arguments m_size {Obj} _.
Arguments m_orig_size {Obj} _.
Arguments m_index {Obj} _.
Arguments m_timeout {Obj} _.
Arguments m_finishing {Obj} _.
Arguments m_callback {Obj} _.

Section Data.
Context {Obj : Type} `{EqDecision Obj}.

(** The constructor leaves [m_orig_size] and [m_index] uninitialised:
    they are what the memory held. *)
Definition init (orig_size index : Z) : t Obj := Mk [] 0 INITIAL_SIZE orig_size index (-1) false false.

Definition set_polled (l : list (entry Obj)) (p : t Obj) : t Obj := Mk l (m_next p) (m_size p) (m_orig_size p) (m_index p) (m_timeout p) (m_finishing p) (m_callback p).
Definition set_sizes (size orig : Z) (p : t Obj) : t Obj := Mk (m_polled p) (m_next p) size orig (m_index p) (m_timeout p) (m_finishing p) (m_callback p).
Definition set_index (i : Z) (p : t Obj) : t Obj := Mk (m_polled p) (m_next p) (m_size p) (m_orig_size p) i (m_timeout p) (m_finishing p) (m_callback p).

Definition setTimeout (timeout : Z) : M (t Obj) unit := modify (fun p =>
  Mk (m_polled p) (m_next p) (m_size p) (m_orig_size p) (m_index p) timeout (m_finishing p) (m_callback p)).
Definition requestFinish : M (t Obj) unit := modify (fun p =>
  Mk (m_polled p) (m_next p) (m_size p) (m_orig_size p) (m_index p) (m_timeout p) true (m_callback p)).
Definition isFinished : M (t Obj) bool := gets m_finishing.
Definition setCallback : M (t Obj) unit := modify (fun p =>
  Mk (m_polled p) (m_next p) (m_size p) (m_orig_size p) (m_index p) (m_timeout p) (m_finishing p) true).

Definition watches (obj : Obj) (f : Z) (e : entry Obj) : bool :=
  bool_decide (e_polled e = obj) && (fd (e_pollfd e) =? f).

(** The position of the first entry of [obj] for descriptor [f]. *)
Fixpoint find_index (obj : Obj) (f : Z) (l : list (entry Obj)) : option nat :=
  match l with
  | [] => None
  | e :: l => if watches obj f e then Some O else S <$> find_index obj f l
  end.

Definition findPolled (obj : Obj) (f : Z) (p : t Obj) : option nat := find_index obj f (m_polled p).

Definition alter_pollfd (g : pollfd -> pollfd) (e : entry Obj) : entry Obj :=
  Entry (e_id e) (e_polled e) (g (e_pollfd e)).

Definition with_events (ev : Z) (pf : pollfd) : pollfd := Pollfd (fd pf) ev (revents pf).

Definition setEvents (to_set : Obj) (f ev : Z) : M (t Obj) unit := modify (fun p =>
  match findPolled to_set f p with
  | Some i => set_polled (alter (alter_pollfd (with_events ev)) i (m_polled p)) p
  | None => p
  end).

(** Erase the entry at position [i]. *)
Definition erase (i : nat) (p : t Obj) : t Obj :=
  let orig := if Z.of_nat i <? m_orig_size p then m_orig_size p - 1 else m_orig_size p in
  let idx := if Z.of_nat i <=? m_index p then m_index p - 1 else m_index p in
  Mk (delete i (m_polled p)) (m_next p) (m_size p) orig idx (m_timeout p) (m_finishing p) (m_callback p).

Definition removePolled (to_remove : Obj) (f : Z) : M (t Obj) unit := modify (fun p =>
  match findPolled to_remove f p with Some i => erase i p | None => p end).

(** A new entry; [make_shared] zeroes its [pollfd]. *)
Definition push (obj : Obj) (p : t Obj) : t Obj :=
  Mk (m_polled p ++ [Entry (m_next p) obj (Pollfd 0 0 0)]) (S (m_next p))
     (m_size p) (m_orig_size p) (m_index p) (m_timeout p) (m_finishing p) (m_callback p).

(** Change the [pollfd] of entry [id], if it is still there. *)
Definition update_entry (id : nat) (g : pollfd -> pollfd) (p : t Obj) : t Obj :=
  set_polled (map (fun e => if Nat.eqb (e_id e) id then alter_pollfd g e else e) (m_polled p)) p.

Definition lookup_id (id : nat) (p : t Obj) : option (entry Obj) :=
  snd <$> list_find (fun e => e_id e = id) (m_polled p).
Definition index_of (id : nat) (p : t Obj) : option nat :=
  fst <$> list_find (fun e => e_id e = id) (m_polled p).
End Data.

Section Loop.
Context {P : Posix} {S Obj : Type} `{EqDecision Obj} `{!Registers S Obj} `{!Polled S Obj}.
Context (poller : lens S (t Obj)) (system : lens S os).

Definition on_poller {A} (m : M (t Obj) A) : M S A := zoom poller m.

Definition addPolled (to_add : Obj) : M S unit :=
  id ← gets (fun s => m_next (view poller s));
  on_poller (modify (push to_add));;
  fe ← setPollfd to_add;
  on_poller (modify (update_entry id (fun pf => Pollfd fe.1 fe.2 (revents pf)))).

(** [while (m_size < m_orig_size) m_size *= 2;] *)
Fixpoint grow (fuel : nat) (size orig : Z) : option Z :=
  if size <? orig then match fuel with O => None | Datatypes.S n => grow n (size * 2) orig end
  else Some size.

(** Store the polled descriptors' results in the first entries. *)
Fixpoint copy_back (rs : list Z) (l : list (entry Obj)) : list (entry Obj) :=
  match rs, l with
  | r :: rs, e :: l =>
      alter_pollfd (fun pf => Pollfd (fd pf) (events pf) r) e :: copy_back rs l
  | _, _ => l
  end.

(** The entry at [m_index]. *)
Definition current (p : t Obj) : option (entry Obj) :=
  if m_index p <? 0 then None else m_polled p !! Z.to_nat (m_index p).

(** [for (m_index = 0; m_index < m_orig_size; m_index++)], from the test. *)
Fixpoint dispatch (fuel : nat) : M S unit :=
  match fuel with
  | O => out_of_fuel
  | Datatypes.S fuel =>
      p ← gets (view poller);
      if m_index p <? m_orig_size p then
        e ← deref OutOfRange (current p);
        when (negb (revents (e_pollfd e) =? 0)) (polled (e_polled e) (e_id e) (e_pollfd e));;
        on_poller (modify (fun p => set_index (m_index p + 1) p));;
        dispatch fuel
      else mret tt
  end.

Definition pollOnce : M S Z :=
  p ← gets (view poller);
  let orig := zlen (m_polled p) in
  size ← deref OutOfRange (grow (length (m_polled p)) (m_size p) orig);
  on_poller (modify (set_sizes size orig));;
  r ← syscall system (sys_poll (map (fun e => (fd (e_pollfd e), events (e_pollfd e))) (m_polled p))
                               (m_timeout p));
  match r with
  | SysErr e => if e =? EINTR then mret (-1) else throw (ExnErrno e)
  | SysOk (poll_result, rs) =>
      when (0 <? poll_result)
        (on_poller (modify (fun p => set_index 0 (set_polled (copy_back rs (m_polled p)) p)));;
         dispatch (Datatypes.S (length (m_polled p))));;
      mret poll_result
  end.

(** [while (!m_finishing)], [fuel] rounds at most; false when a round
    timed out and [start] returns at once. *)
Fixpoint rounds (fuel : nat) : M S bool :=
  p ← gets (view poller);
  if m_finishing p then mret true
  else match fuel with
       | O => out_of_fuel
       | Datatypes.S fuel =>
           r ← pollOnce;
           if r =? 0 then mret false
           else p' ← gets (view poller);
                when (m_callback p') pollCallback;; rounds fuel
       end.

(** The body of that loop: a round, and the callback unless the round timed
    out. *)
Definition iteration : M S Z :=
  r ← pollOnce;
  p ← gets (view poller);
  when (negb (r =? 0) && m_callback p) pollCallback;;
  mret r.

Lemma rounds_iteration fuel s : m_finishing (view poller s) = false ->
  rounds (Datatypes.S fuel) s = (r ← iteration; if r =? 0 then mret false else rounds fuel) s.
Proof.
  intros E. cbn [rounds]. unfold iteration, mbind, M_bind, gets. rewrite E.
  destruct (pollOnce s) as [r s1| | |]; [|done..]. unfold mret, M_ret. destruct (r =? 0) eqn:Er; cbn [negb andb when].
  - unfold mret, M_ret. by rewrite Er.
  - destruct (when _ _ s1); [by rewrite Er|done..].
Qed.

Fixpoint cleanups (fuel : nat) : M S unit :=
  match fuel with
  | O => out_of_fuel
  | Datatypes.S fuel =>
      p ← gets (view poller);
      if m_index p <? zlen (m_polled p) then
        e ← deref OutOfRange (current p);
        cleanup (e_polled e) (e_pollfd e);;
        on_poller (modify (fun p => set_index (m_index p + 1) p));;
        cleanups fuel
      else mret tt
  end.

Definition start (fuel : nat) : M S unit :=
  p ← gets (view poller);
  if zlen (m_polled p) =? 0 then mret tt
  else if m_finishing p then throw (ExnMsg "Starting while finished")
  else
    finished ← rounds fuel;
    if finished : bool then
      on_poller (modify (set_index 0));;
      p ← gets (view poller);
      cleanups (Datatypes.S (length (m_polled p)))
    else mret tt.
End Loop.
End Poller.

(** ** What objects may do to the poller while it dispatches *)

Section Operations.
Import Poller.
Context {Obj : Type} `{EqDecision Obj}.
Implicit Types (p : Poller.t Obj).

Inductive poller_op : Poller.t Obj -> Poller.t Obj -> Prop :=
| op_push obj p : poller_op p (push obj p)
| op_erase i p : (i < length (m_polled p))%nat -> poller_op p (erase i p)
| op_entries l p : map e_id l = map e_id (m_polled p) -> poller_op p (set_polled l p)
| op_flags timeout finishing callback p : (m_finishing p = true -> finishing = true) -> poller_op p
    (Mk (m_polled p) (m_next p) (m_size p) (m_orig_size p) (m_index p) timeout finishing callback).

Definition poller_ops := rtc poller_op.

#[export] Instance poller_ops_preorder : PreOrder poller_ops.
Proof. unfold poller_ops. apply _. Qed.

Lemma find_index_lt obj f (l : list (entry Obj)) i : find_index obj f l = Some i -> (i < length l)%nat.
Proof.
  revert i. induction l as [|e l IH]; intros i; simpl; [done|].
  destruct (watches obj f e); [intros; simplify_eq; lia|].
  destruct (find_index obj f l); simpl; intros; simplify_eq. specialize (IH _ eq_refl). lia.
Qed.

Lemma map_id_alter g (l : list (entry Obj)) i : map e_id (alter (alter_pollfd g) i l) = map e_id l.
Proof. revert i. induction l as [|e l IH]; intros [|i]; [done|done|done|]. simpl. f_equal. apply IH. Qed.

Lemma map_id_update id g (l : list (entry Obj)) :
  map e_id (map (fun e => if Nat.eqb (e_id e) id then alter_pollfd g e else e) l) = map e_id l.
Proof. rewrite map_map. apply map_ext. intros e. by destruct (Nat.eqb _ _). Qed.

Lemma map_id_copy_back rs (l : list (entry Obj)) : map e_id (copy_back rs l) = map e_id l.
Proof. revert rs. induction l as [|e l IH]; intros [|r rs]; simpl; f_equal; auto. Qed.

Lemma setEvents_ops obj f ev : moves poller_ops (setEvents obj f ev).
Proof.
  intros p. simpl. destruct (findPolled obj f p); [|reflexivity].
  apply rtc_once, op_entries, map_id_alter.
Qed.

Lemma removePolled_ops obj f : moves poller_ops (removePolled obj f).
Proof.
  intros p. simpl. destruct (findPolled obj f p) eqn:E; [|reflexivity].
  apply rtc_once, op_erase. by eapply find_index_lt.
Qed.

Lemma requestFinish_ops : moves poller_ops requestFinish.
Proof. intros p. by apply rtc_once, op_flags. Qed.
Lemma push_ops obj : moves poller_ops (modify (push obj)).
Proof. intros p. apply rtc_once, op_push. Qed.
Lemma update_entry_ops id g : moves poller_ops (modify (update_entry id g)).
Proof. intros p. apply rtc_once, op_entries, map_id_update. Qed.

(** A loop that has been asked to end is not asked to go on. *)
Lemma poller_ops_finishing p p' : poller_ops p p' -> m_finishing p = true -> m_finishing p' = true.
Proof. induction 1 as [|p p1 p' [] _ IH]; auto. Qed.
End Operations.

#[export] Hint Resolve setEvents_ops removePolled_ops requestFinish_ops push_ops update_entry_ops : tunnel.

(** ** The traversal *)

Section Traversal.
Import Poller.
Context {S Obj : Type} `{EqDecision Obj} `{!Polled S Obj}.
Context (poller : lens S (Poller.t Obj)) `{!LensLaws poller}.

(** The specification of a round: for each entry there was when it
    started, if it is still registered, call its object if it is ready. *)
Fixpoint visit (ids : list nat) : M S unit :=
  match ids with
  | [] => on_poller poller (modify (fun p => set_index (m_orig_size p) p))
  | id :: ids =>
      p ← gets (view poller);
      match list_find (fun e => e_id e = id) (m_polled p) with
      | Some (i, e) =>
          on_poller poller (modify (set_index (Z.of_nat i)));;
          when (negb (revents (e_pollfd e) =? 0)) (polled (e_polled e) (e_id e) (e_pollfd e));;
          visit ids
      | None => visit ids
      end
  end.

(** The objects of the program only use the poller's operations. *)
Definition well_behaved : Prop := forall obj id pf,
  moves (fun s s' => poller_ops (view poller s) (view poller s')) (polled obj id pf).

Definition ids_of (p : Poller.t Obj) : list nat := map e_id (m_polled p).
Definition present (ids : list nat) (p : Poller.t Obj) : list nat :=
  filter (fun id => id ∈ ids_of p) ids.

(** Entries in the order in which they were registered. *)
Definition ascending : list nat -> Prop := StronglySorted lt.

Lemma ascending_nodup l : ascending l -> NoDup l.
Proof.
  induction 1 as [|x l _ IH Hx]; constructor; [|done]. intros H. rewrite Forall_forall in Hx. specialize (Hx x H). lia.
Qed.
Lemma ascending_app l k : ascending l -> ascending k -> (forall x y, x ∈ l -> y ∈ k -> (x < y)%nat) -> ascending (l ++ k).
Proof.
  intros Hl Hk. induction Hl as [|x l _ IH Hx]; intros H; [done|]. cbn. constructor; [apply IH; set_solver|].
  apply Forall_app. split; [done|]. apply Forall_forall. set_solver.
Qed.
Lemma ascending_without l x k : ascending (l ++ x :: k) -> ascending (l ++ k).
Proof.
  intros H. pose proof (StronglySorted_app_1_l _ _ _ H) as Hl.
  pose proof (StronglySorted_app_1_r _ _ _ H) as [Hk _]%StronglySorted_inv.
  apply ascending_app; [done..|]. intros y z Hy Hz. eapply StronglySorted_app_1_elem_of; [exact H|done|by right].
Qed.

Lemma ascending_next l n : ascending l -> Forall (fun i => (i < n)%nat) l -> ascending (l ++ [n]).
Proof.
  intros Hl Hn. apply ascending_app; [done|repeat constructor|].
  intros x y Hx ->%list_elem_of_singleton. rewrite Forall_forall in Hn. by apply Hn.
Qed.

(** The entries of a poller are in that order, all of them before the next
    one. *)
Definition ids_wf (p : Poller.t Obj) : Prop :=
  ascending (ids_of p) /\ Forall (fun i => (i < m_next p)%nat) (ids_of p).

(** [ids] is what the traversal has yet to consider; [vis] is what is left
    of the entries it has passed, [d] of them being at hand. *)
Definition at_place (d : Z) (ids : list nat) (p : Poller.t Obj) : Prop :=
  exists vis new, ids_of p = vis ++ present ids p ++ new /\
    m_index p + d = zlen vis /\ m_orig_size p = zlen vis + zlen (present ids p) /\
    ascending (ids_of p) /\ Forall (fun i => (i < m_next p)%nat) (ids_of p) /\
    Forall (fun i => (i < m_next p)%nat) ids.

Lemma erase_ids i (p : Poller.t Obj) (l1 l2 : list nat) (x : nat) :
  ids_of p = l1 ++ x :: l2 -> length l1 = i -> ids_of (erase i p) = l1 ++ l2.
Proof.
  unfold ids_of, erase. cbn [m_polled]. intros E <-.
  apply map_eq_app in E as (k1 & k2 & Ek & <- & Ex). apply map_eq_cons in Ex as (e & k3 & -> & _ & <-).
  rewrite Ek, length_map, delete_middle. apply map_app.
Qed.

Lemma present_erase ids (p p' : Poller.t Obj) l1 x l2 :
  NoDup (ids_of p) -> ids_of p = l1 ++ x :: l2 -> ids_of p' = l1 ++ l2 ->
  present ids p' = filter (fun y => y <> x) (present ids p).
Proof.
  intros ND E E'. unfold present. rewrite list_filter_filter.
  apply filter_ext_in. intros y _. rewrite E, E'. rewrite E in ND.
  apply NoDup_app in ND as (_ & D & ND). apply NoDup_cons in ND as [Nx _].
  specialize (D x). set_solver.
Qed.

Lemma filter_absent (x : nat) (l : list nat) : x ∉ l -> filter (fun y => y <> x) l = l.
Proof.
  induction l as [|y l IH]; [done|]. intros H. rewrite filter_cons.
  rewrite IH by set_solver. rewrite decide_True; [done|]. set_solver.
Qed.

Lemma at_place_push d ids obj p : at_place d ids p -> at_place d ids (push obj p).
Proof.
  intros (vis & new & E & Hi & Ho & ND & Fr & Fi).
  assert (ids_of (push obj p) = ids_of p ++ [m_next p]) as E'
    by (unfold ids_of, push; cbn [m_polled]; by rewrite map_app).
  assert (present ids (push obj p) = present ids p) as EP.
  { unfold present. apply filter_ext_in. intros y Hy. rewrite E'.
    rewrite Forall_forall in Fi. apply Fi in Hy. rewrite elem_of_app, list_elem_of_singleton.
    split; [intros [?| ->]; [done|lia]|by left]. }
  exists vis, (new ++ [m_next p]). rewrite E', EP, E. split_and!; try done.
  - by rewrite <- !app_assoc.
  - rewrite <- E. by apply ascending_next.
  - rewrite <- E. apply Forall_app. split; [|apply Forall_singleton; simpl; lia].
    eapply Forall_impl; [exact Fr|]. simpl. lia.
  - eapply Forall_impl; [exact Fi|]. simpl. lia.
Qed.

Lemma split_at i (p : Poller.t Obj) : (i < length (m_polled p))%nat ->
  exists l1 x l2, ids_of p = l1 ++ x :: l2 /\ length l1 = i.
Proof.
  intros Hlt. destruct (lookup_lt_is_Some_2 (ids_of p) i) as [x Hx]; [by unfold ids_of; rewrite length_map|].
  exists (take i (ids_of p)), x, (drop (Datatypes.S i) (ids_of p)). split; [by rewrite take_drop_middle|].
  apply lookup_lt_Some in Hx. rewrite length_take. lia.
Qed.

Lemma ids_wf_erase i p : (i < length (m_polled p))%nat -> ids_wf p -> ids_wf (erase i p).
Proof.
  intros (l1 & x & l2 & Ex & Hl1)%split_at [As Fr].
  unfold ids_wf. rewrite (erase_ids _ _ _ _ _ Ex Hl1). rewrite Ex in As, Fr. split.
  - by eapply ascending_without.
  - apply Forall_app in Fr as [? Fr]. inversion Fr. by apply Forall_app.
Qed.

Lemma unique_id (l q1 q2 : list nat) x : NoDup l -> l = q1 ++ x :: q2 -> x ∉ q1 /\ x ∉ q2.
Proof.
  intros ND ->. apply NoDup_app in ND as (_ & D & [? _]%NoDup_cons). specialize (D x). set_solver.
Qed.

(** Where an erased entry lay: passed already, still to come, or added
    during the round. *)
Lemma place_erase i p vis new pres l1 x l2 :
  NoDup (ids_of p) -> ids_of p = vis ++ pres ++ new -> ids_of p = l1 ++ x :: l2 -> length l1 = i ->
  m_index p + 1 = zlen vis -> m_orig_size p = zlen vis + zlen pres ->
  exists vis' new', l1 ++ l2 = vis' ++ filter (fun y => y <> x) pres ++ new' /\
    m_index (erase i p) + 1 = zlen vis' /\
    m_orig_size (erase i p) = zlen vis' + zlen (filter (fun y => y <> x) pres).
Proof.
  intros ND E Ex <- Hi Ho. destruct (unique_id _ l1 l2 x ND Ex) as [U1 U2]. rewrite E in Ex. clear ND.
  set (i := length l1).
  change (m_index (erase i p)) with (if Z.of_nat i <=? m_index p then m_index p - 1 else m_index p).
  change (m_orig_size (erase i p)) with (if Z.of_nat i <? m_orig_size p then m_orig_size p - 1 else m_orig_size p).
  subst i.
  destruct (decide (length l1 < length vis)%nat) as [Hc|Hc];
    [|destruct (decide (length l1 < length vis + length pres)%nat) as [Hc'|Hc']].
  - (* an entry already passed, or the one at hand *)
    replace (l1 ++ x :: l2) with ((l1 ++ [x]) ++ l2) in Ex by (rewrite <- app_assoc; done).
    destruct (app_prefix_split (l1 ++ [x]) l2 vis (pres ++ new)) as (v2 & -> & ->);
      [rewrite length_app; simpl; lia|done|].
    rewrite filter_absent by set_solver. exists (l1 ++ v2), new.
    rewrite !length_app in *. simpl in *.
    destruct (Z.leb_spec (Z.of_nat (length l1)) (m_index p)), (Z.ltb_spec (Z.of_nat (length l1)) (m_orig_size p));
      rewrite <- ?app_assoc; split_and!; (done || lia).
  - (* an entry still to come *)
    destruct (app_prefix_split vis (pres ++ new) l1 (x :: l2)) as (q1 & -> & Eq); [lia|done|].
    replace (q1 ++ x :: l2) with ((q1 ++ [x]) ++ l2) in Eq by (rewrite <- app_assoc; done).
    rewrite !length_app in *.
    destruct (app_prefix_split (q1 ++ [x]) l2 pres new) as (q2 & Ep & ->);
      [rewrite length_app; simpl; lia|done|].
    rewrite Ep in *. rewrite !filter_app, (filter_absent x q1), (filter_absent x q2) by set_solver.
    rewrite filter_cons, decide_False, filter_nil, app_nil_r by (by intros []).
    exists vis, new. rewrite !length_app in *. simpl in *.
    destruct (Z.leb_spec (Z.of_nat (length vis + length q1)) (m_index p)),
      (Z.ltb_spec (Z.of_nat (length vis + length q1)) (m_orig_size p));
      rewrite <- ?app_assoc; split_and!; (done || lia).
  - (* an entry added during the round *)
    rewrite app_assoc in Ex.
    destruct (app_prefix_split (vis ++ pres) new l1 (x :: l2)) as (n1 & -> & ->);
      [rewrite length_app; lia|done|].
    rewrite filter_absent by set_solver. exists vis, (n1 ++ l2).
    rewrite !length_app in *.
    destruct (Z.leb_spec (Z.of_nat (length vis + length pres + length n1)) (m_index p)),
      (Z.ltb_spec (Z.of_nat (length vis + length pres + length n1)) (m_orig_size p));
      rewrite <- ?app_assoc; split_and!; (done || lia).
Qed.

Lemma at_place_erase ids i p : (i < length (m_polled p))%nat ->
  at_place 1 ids p -> at_place 1 ids (erase i p).
Proof.
  intros Hlt (vis & new & E & Hi & Ho & ND & Fr & Fi).
  destruct (ids_wf_erase i p Hlt (conj ND Fr)) as [ND' Fr']. pose proof (ascending_nodup _ ND) as Nd.
  destruct (split_at i p Hlt) as (l1 & x & l2 & Ex & Hl1).
  pose proof (erase_ids _ _ _ _ _ Ex Hl1) as E'.
  destruct (place_erase i p vis new (present ids p) l1 x l2 Nd E Ex Hl1 Hi Ho) as (vis' & new' & H1 & H2 & H3).
  exists vis', new'. rewrite (present_erase ids p (erase i p) l1 x l2 Nd Ex E').
  rewrite E' in ND', Fr' |- *. done.
Qed.

Lemma at_place_op ids p p' : poller_op p p' -> at_place 1 ids p -> at_place 1 ids p'.
Proof.
  intros [| |? ? Hl|]; [apply at_place_push|by apply at_place_erase| |done].
  intros (vis & new & HP). unfold at_place, present, ids_of in *.
  cbn [set_polled m_polled m_index m_orig_size m_next]. rewrite Hl. by exists vis, new.
Qed.

Lemma at_place_ops ids p p' : poller_ops p p' -> at_place 1 ids p -> at_place 1 ids p'.
Proof. induction 1; eauto using at_place_op. Qed.

Lemma update_place s p : view poller (update poller p s) = p.
Proof. apply view_update. Qed.

(** [visit] does not look at where the index is. *)
Lemma visit_index ids k s :
  visit ids (update poller (set_index k (view poller s)) s) = visit ids s.
Proof.
  revert s. induction ids as [|id ids IH]; intros s; cbn [visit];
    unfold mbind, M_bind, gets, on_poller, zoom, modify; rewrite ?view_update, ?update_update; [done|].
  cbn [set_index m_polled]. destruct (list_find _ _) as [[i e]|]; [|apply IH].
  by rewrite ?view_update, ?update_update.
Qed.

Lemma find_present id (p : Poller.t Obj) vis post :
  ids_of p = vis ++ id :: post -> NoDup (ids_of p) ->
  exists e, list_find (fun e => e_id e = id) (m_polled p) = Some (length vis, e) /\
            m_polled p !! length vis = Some e.
Proof.
  unfold ids_of. intros E ND. apply map_eq_app in E as (k1 & k2 & Ek & E1 & E2).
  apply map_eq_cons in E2 as (e & k3 & -> & E3 & _).
  exists e. rewrite Ek in *. rewrite <- E1, length_map, list_lookup_middle by done. split; [|done].
  apply list_find_Some. rewrite list_lookup_middle by done. split_and!; [done|done|].
  intros j e' Hj Hlt. rewrite lookup_app_l in Hj by done. rewrite map_app in ND.
  apply NoDup_app in ND as (_ & D & _). intros Eq. apply (D id); [|cbn [map]; rewrite E3; by left].
  rewrite <- Eq. apply list_elem_of_In, in_map, list_elem_of_In. by eapply list_elem_of_lookup_2.
Qed.

Lemma find_absent id (p : Poller.t Obj) :
  id ∉ ids_of p -> list_find (fun e => e_id e = id) (m_polled p) = None.
Proof.
  intros H. apply list_find_None. apply Forall_forall. intros e He Eq. apply H. rewrite <- Eq.
  unfold ids_of. apply list_elem_of_In, in_map, list_elem_of_In. done.
Qed.

Lemma on_modify g s : on_poller poller (modify g) s = Ret tt (update poller (g (view poller s)) s).
Proof. done. Qed.

(** The index loop is the traversal. *)
Lemma dispatch_visit ids fuel s (WB : well_behaved) :
  at_place 0 ids (view poller s) -> (length ids < fuel)%nat ->
  dispatch poller fuel s = visit ids s.
Proof.
  revert fuel s. induction ids as [|id ids IH]; intros [|fuel] s (vis & new & E & Hi & Ho & ND & Fr & Fi) Hf;
    cbn [length] in Hf; try lia; cbn [dispatch visit]; unfold mbind, M_bind, gets.
  - cbn [present filter list_filter length] in Ho. destruct (Z.ltb_spec (m_index (view poller s)) (m_orig_size (view poller s)));
      [simpl in Ho; lia|]. unfold on_poller, zoom, modify, mret, M_ret.
    replace (set_index _ _) with (view poller s); [by rewrite update_view|].
    destruct (view poller s) as [? ? ? ? ? ? ? ?]. cbn in *. unfold set_index. cbn. f_equal. lia.
  - apply Forall_cons in Fi as [Hid Fi].
    unfold present in *. rewrite filter_cons in E, Ho.
    destruct (decide (id ∈ ids_of (view poller s))) as [Hin|Hin].
    + cbn [app] in E. cbn [length] in Ho.
      destruct (find_present id _ _ _ E (ascending_nodup _ ND)) as (e & -> & Hl).
      destruct (Z.ltb_spec (m_index (view poller s)) (m_orig_size (view poller s))); [|lia].
      assert (current (view poller s) = Some e) as ->.
      { unfold current. destruct (Z.ltb_spec (m_index (view poller s)) 0); [lia|].
        replace (Z.to_nat _) with (length vis) by lia. done. }
      cbn [deref]. unfold mret at 1, M_ret at 1.
      rewrite (on_modify (set_index (Z.of_nat (length vis)))).
      replace (set_index (Z.of_nat (length vis)) (view poller s)) with (view poller s)
        by (destruct (view poller s) as [? ? ? ? ? ? ? ?]; cbn in *; unfold set_index; cbn; f_equal; lia).
      rewrite update_view.
      assert (at_place 1 ids (view poller s)) as AP1.
      { exists (vis ++ [id]), new. unfold present. rewrite <- app_assoc, length_app. cbn [length].
        split_and!; done || lia. }
      assert (match when (negb (revents (e_pollfd e) =? 0)) (polled (e_polled e) (e_id e) (e_pollfd e)) s with
              | Ret _ s' => at_place 1 ids (view poller s') | _ => True end) as AP.
      { unfold when. destruct (negb _); [|exact AP1].
        pose proof (WB (e_polled e) (e_id e) (e_pollfd e) s) as W.
        destruct (polled _ _ _ s); try done. by eapply at_place_ops. }
      destruct (when _ _ s) as [u s'|e' s'|u|]; [|done..].
      rewrite on_modify, <- (visit_index ids (m_index (view poller s') + 1) s').
      apply IH; [rewrite view_update|lia].
      destruct AP as (vis' & new' & E' & Hi' & Ho' & ND' & Fr' & Fi'). exists vis', new'.
      split_and!; try done. cbn. lia.
    + rewrite find_absent by done.
      rewrite <- (IH (Datatypes.S fuel) s); [done| |lia]. exists vis, new. done.
Qed.

(** The registered entries are distinct, and the array of [pollfd]s has a
    size. *)
Definition poller_wf (p : Poller.t Obj) : Prop := ids_wf p /\ 1 <= m_size p.

(** Steps that keep it. *)
Definition wf_kept (p p' : Poller.t Obj) : Prop := poller_wf p -> poller_wf p'.

#[export] Instance wf_kept_preorder : PreOrder wf_kept.
Proof. unfold wf_kept. split; [by intros p|]. intros p1 p2 p3. auto. Qed.

Lemma poller_op_wf p p' : poller_op p p' -> wf_kept p p'.
Proof.
  intros H [W Hs]. destruct H as [obj p|i p Hi|l p Hl|]; (split; [|exact Hs]).
  - destruct W as [ND Fr]. unfold ids_wf, ids_of, push. cbn [m_polled m_next]. rewrite map_app. fold (ids_of p).
    cbn [map e_id]. split.
    + by apply ascending_next.
    + apply Forall_app. split; [|apply Forall_singleton; simpl; lia].
      eapply Forall_impl; [exact Fr|]. simpl. lia.
  - by apply ids_wf_erase.
  - unfold ids_wf, ids_of in *. cbn [m_polled set_polled m_next]. by rewrite Hl.
  - exact W.
Qed.

Lemma poller_ops_wf p p' : poller_ops p p' -> wf_kept p p'.
Proof.
  induction 1 as [|p1 p2 p3 H _ IH]; [reflexivity|]. etransitivity; [by apply poller_op_wf|done].
Qed.

Lemma present_all (p : Poller.t Obj) : present (ids_of p) p = ids_of p.
Proof.
  unfold present. set (L := ids_of p).
  assert (forall k, Forall (fun id => id ∈ L) k -> filter (fun id => id ∈ L) k = k) as H.
  { induction 1 as [|x k Hx _ IH]; [done|]. by rewrite filter_cons, decide_True, IH. }
  apply H. by apply Forall_forall.
Qed.

Lemma grow_enough fuel size orig : 1 <= size -> orig <= size + Z.of_nat fuel ->
  exists size', grow fuel size orig = Some size' /\ orig <= size' /\ size <= size'.
Proof.
  revert size. induction fuel as [|fuel IH]; intros size Hs Ho; cbn [grow];
    destruct (Z.ltb_spec size orig); try (by exists size; split_and!; [done|lia..]); [lia|].
  destruct (IH (size * 2)) as (size' & E & H1 & H2); [lia..|]. exists size'. split_and!; [done|lia..].
Qed.

Context {P : Posix} (system : lens S os).

(** A round as it should be: poll every registered descriptor, record the
    results, visit the entries. *)
Definition pollRound (size : Z) : M S Z :=
  p ← gets (view poller);
  on_poller poller (modify (set_sizes size (zlen (m_polled p))));;
  r ← syscall system (sys_poll (map (fun e => (fd (e_pollfd e), events (e_pollfd e))) (m_polled p))
                               (m_timeout p));
  match r with
  | SysErr e => if e =? EINTR then mret (-1) else throw (ExnErrno e)
  | SysOk (poll_result, rs) =>
      when (0 <? poll_result)
        (on_poller poller (modify (fun p => set_index 0 (set_polled (copy_back rs (m_polled p)) p)));;
         visit (ids_of p));;
      mret poll_result
  end.

Lemma pollOnce_traverses (WB : well_behaved)
    (Hdisj : forall o s, view poller (update system o s) = view poller s)
    s (Hwf : poller_wf (view poller s)) :
  exists size, zlen (m_polled (view poller s)) <= size /\ 1 <= size /\
    pollOnce poller system s = pollRound size s.
Proof.
  destruct Hwf as ((ND & Fr) & Hsz). set (p := view poller s) in *.
  destruct (grow_enough (length (m_polled p)) (m_size p) (zlen (m_polled p))) as (size & Eg & Hsize & Hsize1);
    [lia..|].
  exists size. split; [done|]. split; [lia|].
  unfold pollOnce, pollRound, mbind, M_bind, gets. fold p. rewrite Eg.
  cbn [deref]. unfold mret at 1, M_ret at 1. rewrite !on_modify. fold p. unfold syscall.
  destruct (sys_poll _ _ _) as [[[k rs]|e] o']; [|done].
  destruct (0 <? k); [|done]. cbn [when]. unfold mbind, M_bind. rewrite !on_modify.
  rewrite !Hdisj, !view_update. cbn [set_sizes m_polled set_polled].
  rewrite (dispatch_visit (ids_of p)); [done|done| |unfold ids_of; rewrite length_map; lia].
  rewrite view_update. set (p1 := set_index 0 _).
  assert (ids_of p1 = ids_of p) as E1 by (unfold ids_of, p1; apply map_id_copy_back).
  assert (present (ids_of p) p1 = ids_of p) as E2 by (rewrite <- E1; apply present_all).
  exists [], []. rewrite E2, E1, app_nil_r. split_and!; try done.
  unfold ids_of. by rewrite length_map.
Qed.

Lemma visit_wf (WB : well_behaved) ids :
  moves (fun s s' => wf_kept (view poller s) (view poller s')) (visit ids).
Proof.
  induction ids as [|id ids IH]; cbn [visit].
  - eapply moves_zoom_rel; [apply (moves_modify wf_kept); intros p Hp; exact Hp|].
    intros s t. by rewrite view_update.
  - apply moves_bind; [apply _|apply moves_gets; apply _|intros p].
    destruct (list_find _ _) as [[i e]|]; [|done].
    apply moves_bind; [apply _| |intros _].
    { eapply moves_zoom_rel; [apply (moves_modify wf_kept); intros q Hq; exact Hq|].
      intros s t. by rewrite view_update. }
    apply moves_bind; [apply _| |done]. apply moves_when; [apply _|].
    eapply moves_impl; [|apply WB]. intros s s'. apply poller_ops_wf.
Qed.

Lemma pollRound_wf (WB : well_behaved)
    (Hdisj : forall o s, view poller (update system o s) = view poller s) size s :
  poller_wf (view poller s) -> 1 <= size ->
  match pollRound size s with
  | Ret _ s' | Throw _ s' => poller_wf (view poller s')
  | _ => True
  end.
Proof.
  intros [W Hs] Hsize. unfold pollRound, mbind, M_bind, gets. rewrite on_modify. unfold syscall.
  destruct (sys_poll _ _ _) as [[[k rs]|e] o'].
  - destruct (0 <? k); cbn [when]; [|cbn; by rewrite Hdisj, view_update].
    unfold mbind, M_bind. rewrite on_modify, Hdisj, view_update. cbn [m_polled set_sizes].
    match goal with |- context [visit ?l ?s1] => pose proof (visit_wf WB l s1) as V;
      assert (poller_wf (view poller s1)) as W1 end.
    { rewrite view_update. split; [|done]. unfold ids_wf, ids_of in *.
      cbn [m_polled set_index set_polled m_next set_sizes]. by rewrite map_id_copy_back. }
    destruct (visit _ _); try done; by apply V.
  - destruct (e =? EINTR); cbn; by rewrite Hdisj, view_update.
Qed.

(** C10: one turn of the event loop is a traversal of a snapshot.  For
    objects that use only the poller's own operations, [pollOnce] does
    exactly this: it polls every registered descriptor and then takes the
    entries there were when the round began, in order, calling each one's
    object once if it is ready and still registered when its turn comes.
    However entries are removed, added or changed on the way, the index
    arithmetic skips none, repeats none, never leaves the vector, and the
    loop ends. *)
Theorem pollOnce_visits (WB : well_behaved)
    (Hdisj : forall o s, view poller (update system o s) = view poller s)
    s (Hwf : poller_wf (view poller s)) :
  exists size, zlen (m_polled (view poller s)) <= size /\
    pollOnce poller system s = pollRound size s.
Proof. destruct (pollOnce_traverses WB Hdisj s Hwf) as (size & ? & _ & ?). by exists size. Qed.
End Traversal.

(** ** A small program on the poller

    Four objects: the first, when called, removes itself and the third and
    registers a new one; the others count their calls. *)

Module Demo.
Definition state : Type := (Poller.t nat * (list nat * script))%type.
Definition poller : lens state (Poller.t nat) := lens_fst.
Definition system : lens state (@os ScriptOS) := lens_comp lens_snd lens_snd.

#[export] Instance demo_registers : Registers state nat :=
  {| setPollfd obj := mret (10 + Z.of_nat obj, POLLIN) |}.
#[export] Instance demo_polled : Polled state nat := {|
  polled obj id pf :=
    modify (fun s => (s.1, (s.2.1 ++ [obj], s.2.2)));;
    when (Nat.eqb obj 0) (zoom poller (Poller.removePolled 0%nat 10);;
                          zoom poller (Poller.removePolled 2%nat 12);;
                          zoom poller (modify (Poller.push 7%nat)));
  cleanup obj pf := mret tt;
  pollCallback := mret tt
|}.

Lemma demo_well_behaved : well_behaved poller.
Proof.
  intros obj id pf. cbn [polled demo_polled]. apply moves_bind; [apply _|intros s; simpl; reflexivity| intros _].
  apply moves_when; [apply _|]. 
  repeat (apply moves_bind; [apply _| |intros _]);
    (eapply moves_zoom_rel; [eauto with tunnel|done]).
Qed.

Definition registered : state :=
  let add obj s := final (Poller.addPolled poller obj s) s in
  add 3%nat (add 2%nat (add 1%nat (add 0%nat (Poller.init 0 0, ([], Script [Ready 4 [1; 1; 1; 1]] []))))).

Lemma pollOnce_visits_witness :
(exists size, zlen (Poller.m_polled (view poller registered)) <= size /\
  Poller.pollOnce poller system registered =
  pollRound (P:=ScriptOS) poller system size registered) /\
(final (Poller.pollOnce poller system registered) registered).2.1 = [0; 1; 3]%nat.
Proof.
  split; [|vm_compute; reflexivity].
  apply (pollOnce_visits poller (P:=ScriptOS) system demo_well_behaved).
  - done.
  - split; [|done]. split; [|by vm_compute; repeat constructor].
    apply (bool_decide_unpack _). vm_compute. exact I.
Defined.
End Demo.

(** ** What the loop leaves alone

    A part of the state apart from the poller and the system changes only as
    the objects' own functions change it. *)
Section Kept.
Import Poller.
Context {P : Posix} {S Obj T : Type} `{EqDecision Obj} `{!Registers S Obj} `{!Polled S Obj}.
Context (poller : lens S (Poller.t Obj)) (system : lens S os) (k : lens S T) (R : T -> T -> Prop).
Context `{!PreOrder R} `{!Apart poller k} `{!Apart system k}.
Hypothesis polled_kept : forall o id pf, moves (on k R) (polled o id pf).
Hypothesis cleanup_kept : forall o pf, moves (on k R) (cleanup o pf).
Hypothesis callback_kept : moves (on k R) pollCallback.

Lemma dispatch_kept fuel : moves (on k R) (dispatch poller fuel).
Proof. induction fuel as [|fuel IH]; cbn [dispatch]; unfold on_poller; walk. Qed.
Lemma pollOnce_kept : moves (on k R) (pollOnce poller system).
Proof. unfold pollOnce, on_poller. pose proof dispatch_kept. walk. Qed.
Lemma rounds_kept fuel : moves (on k R) (rounds poller system fuel).
Proof. pose proof pollOnce_kept. induction fuel as [|fuel IH]; cbn [rounds]; walk. Qed.
Lemma cleanups_kept fuel : moves (on k R) (cleanups poller fuel).
Proof. induction fuel as [|fuel IH]; cbn [cleanups]; unfold on_poller; walk. Qed.
Lemma start_kept fuel : moves (on k R) (start poller system fuel).
Proof.
  pose proof rounds_kept. pose proof cleanups_kept. unfold start, on_poller. walk.
Qed.
End Kept.
