(* ===== verification/Subpoll.v ===== *)
(** * poll, for systems without it

    The implementation of poll(2) by select(2) at the top of
    src/src/com/antlersoft/net/Poller.cpp, compiled where the system has no
    poll.  select is a parameter; [poll_meets_contract] shows what select is
    asked, and what the event loop gets instead of poll. *)

From stdpp Require Import base list tactics gmap.
From Stdlib Require Import ZArith Lia.
From S2P Require Import Prelude Posix.

Module Subpoll.

(** An [fd_set] has room for descriptors below this. *)
Definition FD_SETSIZE : Z := 1024.

Record fd_sets : Type := FdSets { readfds : gset Z; writefds : gset Z; exceptfds : gset Z }.

(** [select]: the number of ready descriptors with the sets as it leaves
    them, or an error; the time to wait is in seconds and microseconds. *)
Class Select (os : Type) : Type := {
  sys_select : Z -> fd_sets -> option (Z * Z) -> os -> sysres (Z * fd_sets) * os
}.

(** What the first loop does with one entry: [FD_SET] of the descriptor in
    the sets of the events asked for. *)
Definition ask (pf : pollfd) (sets : fd_sets) : fd_sets :=
  FdSets (if has_bit (events pf) POLLIN then {[fd pf]} ∪ readfds sets else readfds sets)
         (if has_bit (events pf) POLLOUT then {[fd pf]} ∪ writefds sets else writefds sets)
         ({[fd pf]} ∪ exceptfds sets).

Definition in_range (f : Z) : bool := (0 <=? f) && (f <? FD_SETSIZE).

(** The first loop: the greatest descriptor and the sets, or none when a
    descriptor is outside the sets, where [FD_SET] writes past them. *)
Fixpoint ask_all (pollfds : list pollfd) (max_fd : Z) (sets : fd_sets) : option (Z * fd_sets) :=
  match pollfds with
  | [] => Some (max_fd, sets)
  | pf :: pollfds =>
      if in_range (fd pf) then ask_all pollfds (if max_fd <? fd pf then fd pf else max_fd) (ask pf sets)
      else None
  end.

Definition cleared (pf : pollfd) : pollfd := Pollfd (fd pf) (events pf) 0.

(** What the second loop does with one entry, whose [revents] is 0. *)
Definition report (sets : fd_sets) (pf : pollfd) : pollfd :=
  let add (b : bool) (bit r : Z) := if b then Z.lor r bit else r in
  Pollfd (fd pf) (events pf)
    (add (bool_decide (fd pf ∈ writefds sets)) POLLOUT
      (add (bool_decide (fd pf ∈ readfds sets)) POLLIN
        (add (bool_decide (fd pf ∈ exceptfds sets)) POLLHUP (revents pf)))).

Definition is_set (sets : fd_sets) (pf : pollfd) : bool :=
  bool_decide (fd pf ∈ exceptfds sets) || bool_decide (fd pf ∈ readfds sets) || bool_decide (fd pf ∈ writefds sets).

Definition timeout_v (timeout : Z) : option (Z * Z) :=
  if timeout <? 0 then None else Some (Z.quot timeout 1000, Z.rem timeout 1000 * 1000).

Definition poll {os : Type} `{!Select os} (pollfds : list pollfd) (timeout : Z) :
    M os (sysres Z * list pollfd) := fun o =>
  match ask_all pollfds (-1) (FdSets ∅ ∅ ∅) with
  | None => Undef BufferOverrun
  | Some (max_fd, sets) =>
      match sys_select (max_fd + 1) sets (timeout_v timeout) o with
      | (SysErr e, o') => Ret (SysErr e, map cleared pollfds) o'
      | (SysOk (result, sets'), o') =>
          if 0 <? result
          then Ret (SysOk (zlen (filter (fun pf => is_set sets' pf = true) pollfds)),
                    map (report sets') (map cleared pollfds)) o'
          else Ret (SysOk result, map cleared pollfds) o'
      end
  end.
End Subpoll.

Section SubpollFacts.
Import Subpoll.
Context {os : Type} `{!Select os}.
Implicit Types (pf : pollfd) (sets : fd_sets).

(** select leaves descriptors in its sets, it puts none there. *)
Definition within sets sets' : Prop :=
  readfds sets' ⊆ readfds sets /\ writefds sets' ⊆ writefds sets /\ exceptfds sets' ⊆ exceptfds sets.

Class SelectLaws : Prop := {
  select_within n sets t o k sets' o' : sys_select n sets t o = (SysOk (k, sets'), o') -> 0 <= k /\ within sets sets'
}.
Context `{!SelectLaws}.

(** The descriptors asked about for an event. *)
Definition asked (bit f : Z) (pollfds : list pollfd) : Prop :=
  exists pf, pf ∈ pollfds /\ fd pf = f /\ has_bit (events pf) bit = true.

Lemma asked_cons bit f pf pollfds : asked bit f (pf :: pollfds) <->
  (f = fd pf /\ has_bit (events pf) bit = true) \/ asked bit f pollfds.
Proof.
  unfold asked. split.
  - intros (q & [->|Hq]%elem_of_cons & <- & Hb); [by left|right; by exists q].
  - intros [[-> Hb]|(q & Hq & E & Hb)]; [exists pf|exists q]; rewrite elem_of_cons; auto.
Qed.
Lemma asked_nil bit f : ~ asked bit f [].
Proof. by intros (q & ?%elem_of_nil & _). Qed.

(** One entry asks for its descriptor, and for no other. *)
Lemma ask_elem pf sets f :
  (f ∈ readfds (ask pf sets) <-> (f = fd pf /\ has_bit (events pf) POLLIN = true) \/ f ∈ readfds sets) /\
  (f ∈ writefds (ask pf sets) <-> (f = fd pf /\ has_bit (events pf) POLLOUT = true) \/ f ∈ writefds sets) /\
  (f ∈ exceptfds (ask pf sets) <-> f = fd pf \/ f ∈ exceptfds sets).
Proof.
  cbn [ask readfds writefds exceptfds].
  destruct (has_bit (events pf) POLLIN), (has_bit (events pf) POLLOUT);
    rewrite ?elem_of_union, ?elem_of_singleton; naive_solver.
Qed.

(** The sets that the first loop leaves hold what it found in them and the
    descriptors asked about, and nothing else. *)
Lemma ask_all_sets pollfds m sets m' sets' : ask_all pollfds m sets = Some (m', sets') -> forall f,
  (f ∈ readfds sets' <-> f ∈ readfds sets \/ asked POLLIN f pollfds) /\
  (f ∈ writefds sets' <-> f ∈ writefds sets \/ asked POLLOUT f pollfds) /\
  (f ∈ exceptfds sets' <-> f ∈ exceptfds sets \/ f ∈ map fd pollfds).
Proof.
  revert m sets. induction pollfds as [|pf l IH]; intros m sets; cbn [ask_all map].
  - intros [= <- <-] f. pose proof (asked_nil POLLIN f). pose proof (asked_nil POLLOUT f). rewrite elem_of_nil. tauto.
  - destruct (in_range (fd pf)); [|done]. intros E f. destruct (IH _ _ E f) as (-> & -> & ->).
    destruct (ask_elem pf sets f) as (-> & -> & ->). rewrite !asked_cons, elem_of_cons. tauto.
Qed.

(** The greatest descriptor so far: it is one that was met, and there is
    none above it. *)
Lemma ask_all_max pollfds m sets m' sets' : ask_all pollfds m sets = Some (m', sets') ->
  m <= m' /\ Forall (fun pf => fd pf <= m') pollfds /\ (m' = m \/ m' ∈ map fd pollfds).
Proof.
  revert m sets. induction pollfds as [|pf l IH]; intros m sets; cbn [ask_all map].
  - intros [= <- <-]. split_and!; [lia|constructor|by left].
  - destruct (in_range (fd pf)); [|done]. intros E. destruct (IH _ _ E) as (Hm & Hl & Ho).
    rewrite elem_of_cons, Forall_cons. destruct (Z.ltb_spec m (fd pf)); split_and!; auto; try lia; destruct Ho as [->|Ho]; auto.
Qed.

(** Entries with descriptors of their own. *)
Lemma asked_self bit pf pollfds : NoDup (map fd pollfds) -> pf ∈ pollfds -> asked bit (fd pf) pollfds ->
  has_bit (events pf) bit = true.
Proof.
  intros ND Hpf (q & Hq & E & Hb). assert (q = pf) as ->; [|done].
  apply list_elem_of_lookup in Hpf as [i Hi], Hq as [j Hj].
  assert (i = j) as <-; [|congruence]. apply (NoDup_lookup _ i j (fd pf) ND).
  - change (map fd pollfds) with (fd <$> pollfds). by rewrite list_lookup_fmap, Hi.
  - change (map fd pollfds) with (fd <$> pollfds). rewrite list_lookup_fmap, Hj. cbn. by rewrite E.
Qed.

Lemma ask_all_some pollfds m sets : Forall (fun pf => in_range (fd pf) = true) pollfds ->
  exists m' sets', ask_all pollfds m sets = Some (m', sets').
Proof.
  intros Hin. revert m sets. induction Hin as [|pf l Hpf _ IH]; intros m sets; cbn [ask_all]; [eauto|]. rewrite Hpf. apply IH.
Qed.

(** ** What the event loop gets *)

(** The bits of what select left of a descriptor. *)
Definition ready_bits sets pf : Z :=
  (if bool_decide (fd pf ∈ exceptfds sets) then POLLHUP else 0) +
  (if bool_decide (fd pf ∈ readfds sets) then POLLIN else 0) +
  (if bool_decide (fd pf ∈ writefds sets) then POLLOUT else 0).

Lemma report_cleared sets pf : revents (report sets (cleared pf)) = ready_bits sets pf.
Proof. unfold report, cleared, ready_bits. cbn. by destruct (bool_decide _), (bool_decide _), (bool_decide _). Qed.

Lemma is_set_report sets pf : is_set sets pf = negb (revents (report sets (cleared pf)) =? 0).
Proof. rewrite report_cleared. unfold is_set, ready_bits. by destruct (bool_decide _), (bool_decide _), (bool_decide _). Qed.

(** The entries something is reported for. *)
Definition reported (l : list pollfd) : list pollfd := filter (fun pf => revents pf <> 0) l.

Lemma reported_cleared l : reported (map cleared l) = [].
Proof. unfold reported. induction l as [|pf l IH]; [done|]. cbn [map]. rewrite filter_cons_False; [done|]. by intros []. Qed.

Lemma reported_count sets l :
  zlen (filter (fun pf => is_set sets pf = true) l) = zlen (reported (map (report sets) (map cleared l))).
Proof.
  unfold reported. induction l as [|pf l IH]; [done|]. cbn [map]. pose proof (is_set_report sets pf) as E.
  destruct (Z.eqb_spec (revents (report sets (cleared pf))) 0) as [E0|E0]; cbn [negb] in E.
  - rewrite (filter_cons_False _ pf) by (by rewrite E). rewrite filter_cons_False by auto. exact IH.
  - rewrite (filter_cons_True _ pf) by done. rewrite filter_cons_True by done. cbn [length]. lia.
Qed.

(** The bits reported for an entry: what it asked for, and POLLHUP. *)
Definition within_events pf : Prop := exists h i w : bool,
  revents pf = (if h then POLLHUP else 0) + (if i then POLLIN else 0) + (if w then POLLOUT else 0) /\
  (i = true -> has_bit (events pf) POLLIN = true) /\ (w = true -> has_bit (events pf) POLLOUT = true).

Lemma cleared_within pf : within_events (cleared pf).
Proof. by exists false, false, false. Qed.

Lemma report_within pollfds m sets sets' pf : NoDup (map fd pollfds) -> pf ∈ pollfds ->
  ask_all pollfds (-1) (FdSets ∅ ∅ ∅) = Some (m, sets) -> within sets sets' -> within_events (report sets' (cleared pf)).
Proof.
  intros ND Hpf E (Wr & Ww & _). destruct (ask_all_sets _ _ _ _ _ E (fd pf)) as (Hr & Hw & _).
  eexists _, _, _. rewrite report_cleared. split; [reflexivity|]. cbn [report cleared events].
  split; intros Hb%bool_decide_eq_true.
  - apply (asked_self _ _ pollfds ND Hpf). apply Wr, Hr in Hb as [?%elem_of_empty|]; done.
  - apply (asked_self _ _ pollfds ND Hpf). apply Ww, Hw in Hb as [?%elem_of_empty|]; done.
Qed.

(** The time to wait is the one asked for. *)
Lemma timeout_waits timeout : match timeout_v timeout with
  | None => timeout < 0
  | Some (s, us) => 0 <= s /\ 0 <= us < 1000000 /\ s * 1000000 + us = timeout * 1000
  end.
Proof.
  unfold timeout_v. destruct (Z.ltb_spec timeout 0); [done|].
  rewrite Z.quot_div_nonneg, Z.rem_mod_nonneg by lia. pose proof (Z.mod_pos_bound timeout 1000). Z.to_euclidean_division_equations. lia.
Qed.

(** What is to be given to select for a list of entries: each descriptor in
    the sets of the events asked for and in the third, and in no other; and
    the greatest descriptor, -1 when there is none. *)
Definition asks_select (pollfds : list pollfd) (max_fd : Z) sets : Prop :=
  (forall f, (f ∈ readfds sets <-> asked POLLIN f pollfds) /\ (f ∈ writefds sets <-> asked POLLOUT f pollfds) /\
             (f ∈ exceptfds sets <-> f ∈ map fd pollfds)) /\
  Forall (fun pf => fd pf <= max_fd) pollfds /\ (max_fd = -1 /\ pollfds = [] \/ max_fd ∈ map fd pollfds).

Lemma ask_all_asks pollfds m sets : ask_all pollfds (-1) (FdSets ∅ ∅ ∅) = Some (m, sets) ->
  Forall (fun pf => in_range (fd pf) = true) pollfds -> asks_select pollfds m sets.
Proof.
  intros E Hin. pose proof (ask_all_sets _ _ _ _ _ E) as Hs. destruct (ask_all_max _ _ _ _ _ E) as (_ & Hm & Ho).
  split; [|split; [done|]].
  - intros f. destruct (Hs f) as (-> & -> & ->). cbn [readfds writefds exceptfds]. rewrite elem_of_empty. tauto.
  - destruct pollfds as [|pf l]; [left; destruct Ho as [|?%elem_of_nil]; done|]. right. destruct Ho as [->|]; [|done].
    apply Forall_cons in Hm as [Hm _], Hin as [Hin _]. unfold in_range in Hin. apply andb_prop in Hin as [?%Z.leb_le _]. lia.
Qed.

(** C40: the emulation is a poll.  For descriptors that fit in the sets and
    are all different it asks select once: for reading about exactly the
    descriptors whose entries ask for POLLIN, for writing about exactly those
    of POLLOUT, for exceptions about all of them, up to the greatest one, and
    waiting as long as it was told to.  On an error it returns the error and
    reports nothing; else it leaves the descriptors and their events alone,
    reports for each exactly what select has left of it, and that is nothing
    but events that were asked for and POLLHUP, and returns the number of
    entries it has reported something for. *)
Theorem poll_meets_contract pollfds timeout o
    (Hfds : Forall (fun pf => in_range (fd pf) = true) pollfds) (ND : NoDup (map fd pollfds)) :
  exists max_fd sets answer o', asks_select pollfds max_fd sets /\
    sys_select (max_fd + 1) sets (timeout_v timeout) o = (answer, o') /\
    match timeout_v timeout with
    | None => timeout < 0
    | Some (s, us) => 0 <= s /\ 0 <= us < 1000000 /\ s * 1000000 + us = timeout * 1000
    end /\
    match answer with
    | SysErr e => exists pollfds', poll pollfds timeout o = Ret (SysErr e, pollfds') o' /\ reported pollfds' = []
    | SysOk (k, found) => exists pollfds',
        poll pollfds timeout o = Ret (SysOk (zlen (reported pollfds')), pollfds') o' /\
        map fd pollfds' = map fd pollfds /\ map events pollfds' = map events pollfds /\
        Forall within_events pollfds' /\
        map revents pollfds' = map (fun pf => if 0 <? k then ready_bits found pf else 0) pollfds
    end.
Proof.
  destruct (ask_all_some pollfds (-1) (FdSets ∅ ∅ ∅) Hfds) as (m & sets & E).
  destruct (sys_select (m + 1) sets (timeout_v timeout) o) as [answer o'] eqn:Es.
  exists m, sets, answer, o'. split; [by apply ask_all_asks|]. split; [done|]. split; [apply timeout_waits|].
  unfold poll. rewrite E, Es. destruct answer as [[k found]|e].
  - pose proof (select_within _ _ _ _ _ _ _ Es) as [Hk Hw]. destruct (Z.ltb_spec 0 k).
    + eexists. split; [by rewrite <- reported_count|]. split_and!; [by rewrite !map_map..| |].
      * apply Forall_map, Forall_map, Forall_forall. intros pf Hpf. by eapply report_within.
      * rewrite !map_map. apply map_ext. intros pf. apply report_cleared.
    + exists (map cleared pollfds). assert (k = 0) as -> by lia.
      rewrite reported_cleared. split; [done|]. split_and!; [by rewrite map_map..| |by rewrite map_map].
      apply Forall_map, Forall_forall. intros pf _. apply cleared_within.
  - eexists. split; [reflexivity|]. apply reported_cleared.
Qed.
End SubpollFacts.

(** A select that finds descriptor 4 readable. *)
Module SubpollDemo.
Import Subpoll.

Definition answering (n : Z) (sets : fd_sets) (t : option (Z * Z)) (o : unit) : sysres (Z * fd_sets) * unit :=
  (SysOk (1, FdSets (readfds sets ∩ {[4]}) ∅ ∅), tt).
#[export] Instance demo_select : Select unit := {| sys_select := answering |}.
#[export] Instance demo_select_laws : SelectLaws (os:=unit).
Proof. split. intros n sets t o k sets' o' [= <- <- _]. split; [lia|]. split_and!; cbn; set_solver. Qed.

Lemma poll_meets_contract_witness :
  let pollfds := [Pollfd 4 POLLIN 0; Pollfd 5 POLLOUT 0] in
  (exists max_fd sets, asks_select pollfds max_fd sets) /\
  exists pollfds', poll pollfds 1500 tt = Ret (SysOk (zlen (reported pollfds')), pollfds') tt /\
    map fd pollfds' = [4; 5] /\ Forall within_events pollfds'.
Proof.
  intros pollfds. destruct (poll_meets_contract pollfds 1500 tt) as (m & sets & answer & o' & Ha & Es & _ & H).
  - repeat constructor.
  - apply (bool_decide_unpack _). vm_compute. exact I.
  - split; [by exists m, sets|]. cbn in Es. injection Es as <- <-. destruct H as (l & H1 & H2 & _ & H3 & _). exists l.
    split; [exact H1|]. split; [exact H2|exact H3].
Defined.
End SubpollDemo.
