(* ===== verification/Spec.v ===== *)
(** * ConnectionSpec: what is to be tunnelled

    The class of StdioTunnel.h with its serialization, [bindStatus], and
    [parseConnection] of StdioTunnel.cpp, which reads a specification from
    the command line. *)

From stdpp Require Import base list tactics strings.
From Stdlib Require Import ZArith Lia.
From S2P Require Import Prelude Posix Wire.

(** ** The class *)

Module ConnectionSpec.

(** [enum Direction]; what is read from the wire is cast to it unchecked. *)
Definition LISTEN : Z := 0.
Definition CONNECT : Z := 1.

Definition ACK_PACKETS : Z := 1.
Definition PROMISCUOUS : Z := 2.

Record t : Type := Mk {
  m_connection_type : Z;
  m_connect_host : list byte;
  m_connect_port : Z;
  m_listen_port : Z;
  m_flags : Z
}.

#[export] Instance spec_eq_decision : EqDecision t.
Proof. solve_decision. Defined.

Definition deserialize : M ReadStream.t t :=
  ty ← ReadStream.readShort;
  host ← ReadStream.readString;
  connect_port ← ReadStream.readShort;
  listen_port ← ReadStream.readShort;
  flags ← ReadStream.readShort;
  mret (Mk ty host connect_port listen_port flags).

Definition serialize (c : t) : M WriteStream.t unit :=
  WriteStream.writeShort (m_connection_type c);;
  WriteStream.writeString (m_connect_host c);;
  WriteStream.writeShort (m_connect_port c);;
  WriteStream.writeShort (m_listen_port c);;
  WriteStream.writeShort (m_flags c).

Definition isSocks5 (c : t) : bool :=
  (zlen (m_connect_host c) =? 0) && (m_connect_port c =? 0).

(** The result and the [errno] left: 0 when the port can be bound, 1 when
    it is in use, -1 on any other error. *)
Definition bindStatus {P : Posix} (c : t) : M os (Z * Z) := fun o =>
  match sys_socket o with
  | (SysErr e, o1) => Ret (-1, e) o1
  | (SysOk s, o1) =>
      let any := has_bit (m_flags c) PROMISCUOUS in
      let '(r, o2) := sys_bind s any (u16 (m_listen_port c)) o1 in
      let o3 := sys_close s o2 in
      match r with
      | SysOk _ => Ret (0, 0) o3
      | SysErr e => Ret ((if e =? EADDRINUSE then 1 else -1), e) o3
      end
  end.
End ConnectionSpec.

(** ** The command line form *)

Definition colon : byte := x3a.

(** [getline(input, t, ':')] until it fails: a field ends at a colon or at
    the end of the input, and the end of the input alone is not a field. *)
Fixpoint getlines (t : list byte) (input : list byte) : list (list byte) :=
  match input with
  | [] => match t with [] => [] | _ => [t] end
  | c :: input => if bool_decide (c = colon) then t :: getlines [] input else getlines (t ++ [c]) input
  end.

(** [atoi], which is [strtol] in base 10 converted to [int]. *)
Definition isspace (b : byte) : bool :=
  let z := Z_of_byte b in (z =? 32) || ((9 <=? z) && (z <=? 13)).
Definition digit (b : byte) : option Z :=
  let z := Z_of_byte b - 48 in if (0 <=? z) && (z <=? 9) then Some z else None.

Fixpoint digits (acc : Z) (s : list byte) : Z :=
  match s with
  | [] => acc
  | b :: s => match digit b with Some d => digits (acc * 10 + d) s | None => acc end
  end.

Fixpoint skip_space (s : list byte) : list byte :=
  match s with b :: r => if isspace b then skip_space r else s | [] => [] end.

Definition strtol (s : list byte) : Z :=
  let clamp z := Z.max (-9223372036854775808) (Z.min z 9223372036854775807) in
  match skip_space s with
  | x2d :: r => clamp (- digits 0 r)
  | x2b :: r => clamp (digits 0 r)
  | r => clamp (digits 0 r)
  end.

Definition atoi (s : list byte) : Z := i32 (strtol s).

Definition string_of (bs : list byte) : string := String.string_of_list_byte bs.

Definition parseConnection (direction : Z) (arg : list byte) : exn + ConnectionSpec.t :=
  let connect_params := getlines [] arg in
  let size := zlen connect_params in
  let param i := default [] (connect_params !! i) in
  if negb (size =? 3) && negb (size =? 4) then
    inl (ExnMsg ("Bad connection argument: " +:+ string_of arg))
  else
    let listen_port := atoi (param 0%nat) in
    if listen_port <=? 0 then inl (ExnMsg ("Bad listen port: " +:+ string_of (param 0%nat)))
    else
      let connect_port := atoi (param 2%nat) in
      if connect_port <? 0 then inl (ExnMsg ("Bad connect port: " +:+ string_of (param 2%nat)))
      else if ((zlen (param 1%nat) =? 0) && negb (connect_port =? 0)) &&
              ((0 <? zlen (param 1%nat)) && (connect_port =? 0)) then
        inl (ExnMsg ("Bad connect host or port: " +:+ string_of (param 2%nat)))
      else
        let result := ConnectionSpec.Mk direction (param 1%nat) connect_port listen_port 0 in
        if ConnectionSpec.isSocks5 result && negb (direction =? ConnectionSpec.CONNECT) then
          inl (ExnMsg "socks 5 can only on the remote side")
        else
          let flag c m := if bool_decide (c ∈ param 3%nat) then m else 0 in
          let flags := if size =? 4
                       then Z.lor (flag x61 ConnectionSpec.ACK_PACKETS)
                                  (flag x70 ConnectionSpec.PROMISCUOUS)
                       else 0 in
          inr (ConnectionSpec.Mk direction (param 1%nat) connect_port listen_port flags).

(** ** Theorems *)

Section SpecFacts.
Import ConnectionSpec.

Definition values_of (c : t) : list wire_value :=
  [VShort (m_connection_type c); VString (m_connect_host c); VShort (m_connect_port c);
   VShort (m_listen_port c); VShort (m_flags c)].

(** The bytes of a specification on the wire. *)
Definition enc_spec (c : t) : list byte := concat (map enc_value (values_of c)).

(** A specification as it arrives. *)
Definition received_spec (c : t) : t :=
  Mk (i16 (m_connection_type c)) (m_connect_host c) (i16 (m_connect_port c))
     (i16 (m_listen_port c)) (i16 (m_flags c)).

Lemma serialize_values c s : serialize c s = write_values (values_of c) s.
Proof. reflexivity. Qed.

Lemma serialize_spec c s :
  serialize c s = Ret tt (WriteStream.Mk (WriteStream.m_queue s ++ enc_spec c) (WriteStream.m_packet_queue s)).
Proof. rewrite serialize_values. apply write_values_spec. Qed.

Lemma deserialize_enc c r rest : zlen (m_connect_host c) < 4294967296 ->
  ReadStream.m_queue r = enc_spec c ++ rest ->
  deserialize r = Ret (received_spec c) (ReadStream.set_queue rest r).
Proof.
  unfold enc_spec. cbn [values_of map concat]. rewrite <- !app_assoc. cbn [enc_value app].
  intros Hh E. unfold deserialize, mbind, M_bind.
  rewrite (readShort_enc _ _ _ E).
  rewrite (readString_enc (ReadStream.set_queue _ r) (m_connect_host c) _ eq_refl Hh).
  rewrite (readShort_enc (ReadStream.set_queue _ _) (m_connect_port c) _ eq_refl).
  rewrite (readShort_enc (ReadStream.set_queue _ _) (m_listen_port c) _ eq_refl).
  rewrite (readShort_enc (ReadStream.set_queue _ _) (m_flags c) _ eq_refl).
  reflexivity.
Qed.

(** C26: a connection specification survives the wire.  Deserializing what
    [serialize] wrote gives back the direction, host and flags, and ports
    that are the same sixteen bits (what [htons] looks at); for ports a
    [short] can hold, it is the very same specification, and its being a
    SOCKS 5 request is unchanged. *)
Theorem spec_roundtrip c w r rest
    (Hty : 0 <= m_connection_type c <= 1) (Hfl : 0 <= m_flags c <= 3)
    (Hhost : zlen (m_connect_host c) < 4294967296) (Hw : WriteStream.m_queue w = []) :
  exists w' c', serialize c w = Ret tt w' /\
    (ReadStream.m_queue r = WriteStream.m_queue w' ++ rest ->
     deserialize r = Ret c' (ReadStream.set_queue rest r)) /\
    m_connection_type c' = m_connection_type c /\ m_connect_host c' = m_connect_host c /\
    m_flags c' = m_flags c /\
    u16 (m_connect_port c') = u16 (m_connect_port c) /\
    u16 (m_listen_port c') = u16 (m_listen_port c) /\
    (-32768 <= m_connect_port c < 32768 -> isSocks5 c' = isSocks5 c /\
     (-32768 <= m_listen_port c < 32768 -> c' = c)).
Proof.
  rewrite serialize_spec, Hw. eexists _, (received_spec c). split; [done|].
  split; [by apply deserialize_enc|]. destruct c as [ty host cp lp fl]. cbn in *.
  rewrite (i16_id ty), (i16_id fl), !u16_i16 by lia. split_and!; try done.
  intros H. unfold received_spec. cbn. rewrite (i16_id cp) by lia. split; [done|].
  intros H'. rewrite !i16_id by lia. done.
Qed.

Lemma spec_roundtrip_witness :
  let c := Mk CONNECT [x41; x42] 22 2001 3 in
  let enc := enc_spec c in
  exists w' c', serialize c WriteStream.init = Ret tt w' /\
    (ReadStream.m_queue (ReadStream.Mk enc [] 4096) = WriteStream.m_queue w' ++ [] ->
     deserialize (ReadStream.Mk enc [] 4096) = Ret c' (ReadStream.set_queue [] (ReadStream.Mk enc [] 4096))) /\
    m_connection_type c' = 1 /\ m_connect_host c' = [x41; x42] /\ m_flags c' = 3 /\
    u16 (m_connect_port c') = 22 /\ u16 (m_listen_port c') = 2001 /\
    (-32768 <= 22 < 32768 -> isSocks5 c' = false /\ (-32768 <= 2001 < 32768 -> c' = c)).
Proof.
  intros c enc. apply (spec_roundtrip c WriteStream.init (ReadStream.Mk enc [] 4096) []); cbn; done || lia.
Defined.
End SpecFacts.

(** ** Printing a specification *)

Definition digit_char (d : Z) : byte := byte_of_Z (48 + d).

(** Decimal digits of [n] in front of [l]; [fuel] digits at most. *)
Fixpoint decimal_onto (fuel : nat) (n : Z) (l : list byte) : list byte :=
  match fuel with
  | O => l
  | S fuel => if n <? 10 then digit_char n :: l
              else decimal_onto fuel (n / 10) (digit_char (n mod 10) :: l)
  end.

(** Ten digits are enough for an [int]. *)
Definition decimal (n : Z) : list byte := decimal_onto 10 n [].

#[global] Arguments decimal n : simpl never.
#[global] Arguments atoi s : simpl never.

(** listen port : connect host : connect port [: flags] *)
Definition print_spec (c : ConnectionSpec.t) : list byte :=
  let a := if has_bit (ConnectionSpec.m_flags c) ConnectionSpec.ACK_PACKETS then [x61] else [] in
  let p := if has_bit (ConnectionSpec.m_flags c) ConnectionSpec.PROMISCUOUS then [x70] else [] in
  decimal (ConnectionSpec.m_listen_port c) ++ colon :: ConnectionSpec.m_connect_host c ++
  colon :: decimal (ConnectionSpec.m_connect_port c) ++
  (if ConnectionSpec.m_flags c =? 0 then [] else colon :: a ++ p).

Section ParseFacts.
Import ConnectionSpec.

Lemma digit_digit_char d : 0 <= d <= 9 -> digit (digit_char d) = Some d.
Proof.
  intros H. unfold digit, digit_char. rewrite Z_of_byte_of_Z, Z.mod_small by lia.
  replace (48 + d - 48) with d by lia. by rewrite !(proj2 (Z.leb_le _ _)) by lia.
Qed.

Lemma digits_decimal fuel n l : 0 <= n < 10 ^ Z.of_nat fuel ->
  digits 0 (decimal_onto fuel n l) = digits n l.
Proof.
  revert n l. induction fuel as [|fuel IH]; intros n l H; cbn [decimal_onto].
  - simpl in H. by replace n with 0 by lia.
  - destruct (Z.ltb_spec n 10).
    + cbn [digits]. by rewrite digit_digit_char by lia.
    + rewrite Nat2Z.inj_succ, Z.pow_succ_r in H by lia.
      rewrite IH by (split; [apply Z.div_pos|apply Z.div_lt_upper_bound]; lia).
      cbn [digits]. pose proof (Z.mod_pos_bound n 10 ltac:(lia)).
      rewrite digit_digit_char by lia. f_equal. pose proof (Z.div_mod n 10 ltac:(lia)). lia.
Qed.

(** A list that starts with a digit, or with nothing before [l]. *)
Lemma decimal_head fuel n l : 0 <= n -> (0 < fuel)%nat ->
  exists d r, decimal_onto fuel n l = digit_char d :: r /\ 0 <= d <= 9.
Proof.
  revert n l. induction fuel as [|fuel IH]; intros n l Hn Hf; [lia|]. cbn [decimal_onto].
  destruct (Z.ltb_spec n 10); [exists n, l; split; [done|lia]|].
  destruct fuel as [|fuel].
  - exists (n mod 10), l. split; [done|]. pose proof (Z.mod_pos_bound n 10 ltac:(lia)). lia.
  - apply IH; [|lia]. apply Z.div_pos; lia.
Qed.

Lemma digit_char_class d : 0 <= d <= 9 ->
  isspace (digit_char d) = false /\ digit_char d <> x2d /\ digit_char d <> x2b /\ digit_char d <> colon.
Proof.
  intros H. assert (d = 0 \/ d = 1 \/ d = 2 \/ d = 3 \/ d = 4 \/ d = 5 \/ d = 6 \/ d = 7 \/ d = 8 \/ d = 9) as C by lia.
  repeat destruct C as [->|C]; try subst d; split_and!; done.
Qed.

Lemma atoi_decimal n : 0 <= n < 2147483648 -> atoi (decimal n) = n.
Proof.
  intros H. unfold atoi, strtol.
  assert (digits 0 (decimal n) = n) as D
    by (unfold decimal; rewrite digits_decimal; [done|change (10 ^ Z.of_nat 10) with 10000000000; lia]).
  destruct (decimal_head 10 n [] ltac:(lia) ltac:(lia)) as (d & r & E & Hd). fold (decimal n) in E.
  destruct (digit_char_class d Hd) as (Hs & Hm & Hp & _).
  rewrite E in *. cbn [skip_space]. rewrite Hs.
  assert (i32 (Z.max (-9223372036854775808) (Z.min n 9223372036854775807)) = n) as Cl.
  { rewrite Z.min_l, Z.max_r by lia. unfold i32. rewrite Z.mod_small; lia. }
  destruct (digit_char d); try congruence; by rewrite D.
Qed.

Lemma decimal_no_colon fuel n l : 0 <= n -> colon ∉ l -> colon ∉ decimal_onto fuel n l.
Proof.
  revert n l. induction fuel as [|fuel IH]; intros n l Hn Hl; cbn [decimal_onto]; [done|].
  destruct (Z.ltb_spec n 10).
  - apply not_elem_of_cons. split; [|done]. apply not_eq_sym, digit_char_class. lia.
  - apply IH; [apply Z.div_pos; lia|]. apply not_elem_of_cons. split; [|done].
    apply not_eq_sym, digit_char_class. pose proof (Z.mod_pos_bound n 10 ltac:(lia)). lia.
Qed.

Lemma getlines_field f t r : colon ∉ f -> getlines t (f ++ colon :: r) = (t ++ f) :: getlines [] r.
Proof.
  revert t. induction f as [|c f IH]; intros t H; cbn [app getlines].
  - by rewrite bool_decide_eq_true_2, app_nil_r.
  - apply not_elem_of_cons in H as [Hc Hf]. rewrite bool_decide_eq_false_2 by congruence.
    rewrite IH by done. by rewrite <- app_assoc.
Qed.

Lemma getlines_last f t : colon ∉ f -> t ++ f <> [] -> getlines t f = [t ++ f].
Proof.
  revert t. induction f as [|c f IH]; intros t H Hne; cbn [getlines].
  - rewrite app_nil_r in *. by destruct t.
  - apply not_elem_of_cons in H as [Hc Hf]. rewrite bool_decide_eq_false_2 by congruence.
    rewrite IH; rewrite <- ?app_assoc; done.
Qed.

Lemma decimal_nonempty n : 0 <= n -> decimal n <> [].
Proof. intros H. destruct (decimal_head 10 n [] H ltac:(lia)) as (d & r & E & _). unfold decimal. by rewrite E. Qed.

(** C27: parsing undoes printing.  A specification with a positive listen
    port, a non-negative connect port, a host without a colon and the two
    flags is read back exactly from its command line form
    listen:host:port[:flags], as a local (-L) connection, and as a remote
    (-R) one unless it asks for SOCKS 5. *)
Theorem parse_print c
    (Hl : 0 < m_listen_port c < 2147483648) (Hc : 0 <= m_connect_port c < 2147483648)
    (Hh : colon ∉ m_connect_host c) (Hf : 0 <= m_flags c <= 3)
    (Hd : m_connection_type c = CONNECT \/ isSocks5 c = false) :
  parseConnection (m_connection_type c) (print_spec c) = inr c.
Proof.
  destruct c as [ty host cp lp fl]. cbn in *. unfold print_spec. cbn [m_listen_port m_connect_host m_connect_port m_flags].
  assert (colon ∉ decimal lp /\ colon ∉ decimal cp) as [N1 N2]
    by (split; apply decimal_no_colon; (lia || apply not_elem_of_nil)).
  unfold parseConnection. rewrite !(getlines_field _ []) by done. cbn [app].
  assert (isSocks5 (Mk ty host cp lp 0) && negb (ty =? CONNECT) = false) as Hs.
  { destruct Hd as [-> | Hd]; [apply andb_false_r|]. unfold isSocks5 in *. cbn in *. by rewrite Hd. }
  assert (atoi (decimal lp) = lp /\ atoi (decimal cp) = cp /\ (lp <=? 0) = false /\ (cp <? 0) = false /\
     (((zlen host =? 0) && negb (cp =? 0)) && ((0 <? zlen host) && (cp =? 0))= false)) as (A1 & A2 & B1 & B2 & B3).
  { rewrite !atoi_decimal by lia. split_and!; try done; try (apply Z.leb_gt; lia); try (apply Z.ltb_ge; lia).
    destruct (Z.eqb_spec cp 0); [by rewrite andb_false_r|]. by rewrite !andb_false_r. }
  assert (fl = 0 \/ fl = 1 \/ fl = 2 \/ fl = 3) as [ -> | [ -> | [ -> | -> ] ] ] by lia.
  { cbn [Z.eqb]. rewrite app_nil_r, (getlines_last (decimal cp) []) by (done || by apply decimal_nonempty; lia).
    cbn -[atoi decimal isSocks5]. by rewrite A1, A2, B1, B2, B3, Hs. }
  all: cbn [Z.eqb]; rewrite (getlines_field (decimal cp) []) by done;
    cbn -[atoi decimal isSocks5]; by rewrite A1, A2, B1, B2, B3, Hs.
Qed.

Lemma parse_print_witness :
  parseConnection CONNECT (print_spec (Mk CONNECT (bytes_of "localhost") 22 2001 3)) =
    inr (Mk CONNECT (bytes_of "localhost") 22 2001 3) /\
  print_spec (Mk CONNECT (bytes_of "localhost") 22 2001 3) = bytes_of "2001:localhost:22:ap".
Proof.
  split; [|vm_compute; reflexivity].
  apply (parse_print (Mk CONNECT (bytes_of "localhost") 22 2001 3)); cbn; try lia; try (by left).
  apply (bool_decide_unpack _). vm_compute. exact I.
Defined.

Lemma atoi_bound s : -2147483648 <= atoi s < 2147483648.
Proof. unfold atoi, i32. pose proof (Z.mod_pos_bound (strtol s + 2147483648) 4294967296 ltac:(lia)). lia. Qed.

(** *** What [getline] makes of an argument *)

(** The fields of an argument: what stands between its colons, except that
    a colon at its end does not begin another field. *)
Definition splits_into (arg : list byte) (fields : list (list byte)) : Prop :=
  Forall (fun f => colon ∉ f) fields /\
  ((exists init last, fields = init ++ [last] /\ last <> [] /\ arg = concat (map (fun f => f ++ [colon]) init) ++ last) \/
   arg = concat (map (fun f => f ++ [colon]) fields)).

Lemma splits_getlines arg fields : splits_into arg fields -> getlines [] arg = fields.
Proof.
  intros [NC [(init & last & -> & Hne & ->)| ->]].
  - apply Forall_app in NC as [NC [Nl _]%Forall_cons].
    induction NC as [|f init Hf _ IH]; cbn [map concat app]; [by apply (getlines_last last [])|].
    rewrite <- !app_assoc. cbn [app]. rewrite (getlines_field f []) by done. by rewrite IH.
  - induction NC as [|f fields Hf _ IH]; cbn [map concat]; [done|].
    rewrite <- app_assoc. cbn [app]. rewrite (getlines_field f []) by done. by rewrite IH.
Qed.

Lemma getlines_splits_from t s : colon ∉ t -> splits_into (t ++ s) (getlines t s).
Proof.
  revert t. induction s as [|c s IH]; intros t Ht; cbn [getlines].
  - rewrite app_nil_r. destruct t as [|b t]; [split; [constructor|by right]|].
    split; [by constructor|]. left. by exists [], (b :: t).
  - destruct (bool_decide_reflect (c = colon)) as [->|Hc].
    + destruct (IH [] (not_elem_of_nil _)) as [NC Hs]. split; [by constructor|].
      change (t ++ colon :: s) with (t ++ [colon] ++ s). rewrite app_assoc.
      destruct Hs as [(init & last & E & Hne & Es)|Es]; cbn [app] in Es.
      * left. exists (t :: init), last. rewrite E. split_and!; [done|done|]. cbn [map concat]. rewrite <- !app_assoc. by rewrite Es at 1.
      * right. cbn [map concat]. by rewrite Es at 1.
    + change (c :: s) with ([c] ++ s). rewrite app_assoc. apply IH.
      rewrite elem_of_app, list_elem_of_singleton. intros [?|?]; congruence.
Qed.

Lemma getlines_splits arg fields : getlines [] arg = fields <-> splits_into arg fields.
Proof. split; [intros <-; exact (getlines_splits_from [] arg (not_elem_of_nil _))|apply splits_getlines]. Qed.

(** *** What is accepted *)

(** The flags of the fourth field, where there is one. *)
Definition flags_in (flags : list (list byte)) : Z :=
  match flags with
  | [f] => (if bool_decide (x61 ∈ f) then 1 else 0) + (if bool_decide (x70 ∈ f) then 2 else 0)
  | _ => 0
  end.

(** The argument has the fields listen port, host, connect port and perhaps
    flags. *)
Definition written_as arg (listen host connect : list byte) (flags : list (list byte)) : Prop :=
  splits_into arg (listen :: host :: connect :: flags) /\ (length flags <= 1)%nat.

(** What an argument stands for, when it is a specification. *)
Definition specifies direction arg c : Prop := exists listen host connect flags,
  written_as arg listen host connect flags /\
  0 < atoi listen /\ 0 <= atoi connect /\ (host = [] -> atoi connect = 0 -> direction = CONNECT) /\
  c = Mk direction host (atoi connect) (atoi listen) (flags_in flags).

(** What is wrong with one that is not, in the order of the checks. *)
Definition wrong direction arg (e : string) : Prop :=
  ((forall listen host connect flags, ~ written_as arg listen host connect flags) /\
     e = "Bad connection argument: " +:+ string_of arg) \/
  exists listen host connect flags, written_as arg listen host connect flags /\
    (atoi listen <= 0 /\ e = "Bad listen port: " +:+ string_of listen \/
     0 < atoi listen /\ atoi connect < 0 /\ e = "Bad connect port: " +:+ string_of connect \/
     0 < atoi listen /\ host = [] /\ atoi connect = 0 /\ direction <> CONNECT /\
       e = "socks 5 can only on the remote side").

Lemma parse_fields direction arg listen host connect flags : written_as arg listen host connect flags ->
  parseConnection direction arg =
  if atoi listen <=? 0 then inl (ExnMsg ("Bad listen port: " +:+ string_of listen))
  else if atoi connect <? 0 then inl (ExnMsg ("Bad connect port: " +:+ string_of connect))
  else if isSocks5 (Mk direction host (atoi connect) (atoi listen) 0) && negb (direction =? CONNECT) then
    inl (ExnMsg "socks 5 can only on the remote side")
  else inr (Mk direction host (atoi connect) (atoi listen) (flags_in flags)).
Proof.
  intros [Hs Hl]. apply getlines_splits in Hs. unfold parseConnection. rewrite Hs.
  assert ((((zlen host =? 0) && negb (atoi connect =? 0)) && ((0 <? zlen host) && (atoi connect =? 0))) = false) as Never
    by (destruct (atoi connect =? 0); [by rewrite andb_false_r|by rewrite !andb_false_r]).
  destruct flags as [|f [|]]; [..|cbn in Hl; lia]; cbn -[atoi isSocks5 string_of]; rewrite Never; [done|].
  by destruct (bool_decide (x61 ∈ f)), (bool_decide (x70 ∈ f)).
Qed.

(** An argument is written in three or four fields, or refused for that. *)
Lemma parse_shape direction arg :
  (exists listen host connect flags, written_as arg listen host connect flags) \/
  (forall listen host connect flags, ~ written_as arg listen host connect flags) /\
  parseConnection direction arg = inl (ExnMsg ("Bad connection argument: " +:+ string_of arg)).
Proof.
  destruct (getlines [] arg) as [|p0 [|p1 [|p2 [|p3 [|p4 l]]]]] eqn:E.
  4: left; exists p0, p1, p2, []; split; [by apply getlines_splits|cbn; lia].
  4: left; exists p0, p1, p2, [p3]; split; [by apply getlines_splits|cbn; lia].
  all: right; split;
    [intros ? ? ? flags [Hs%getlines_splits Hl]; rewrite E in Hs; simplify_eq; try (cbn in Hl; lia)|].
  all: unfold parseConnection; rewrite E; try reflexivity.
  cbv zeta. destruct (Z.eqb_spec (zlen (p0 :: p1 :: p2 :: p3 :: p4 :: l)) 3) as [E3|_]; [cbn in E3; lia|].
  destruct (Z.eqb_spec (zlen (p0 :: p1 :: p2 :: p3 :: p4 :: l)) 4) as [E4|_]; [cbn in E4; lia|]. done.
Qed.

(** One of the two holds, and it is what is returned. *)
Lemma parse_decides direction arg :
  (exists c, parseConnection direction arg = inr c /\ specifies direction arg c) \/
  (exists e, parseConnection direction arg = inl (ExnMsg e) /\ wrong direction arg e).
Proof.
  destruct (parse_shape direction arg) as [(listen & host & connect & flags & W)|[No E]];
    [|right; eexists; split; [exact E|by left]].
  rewrite (parse_fields direction arg listen host connect flags W).
  destruct (Z.leb_spec (atoi listen) 0); [right; eexists; split; [done|]; right; eauto 10|].
  destruct (Z.ltb_spec (atoi connect) 0); [right; eexists; split; [done|]; right; eauto 10|].
  assert (isSocks5 (Mk direction host (atoi connect) (atoi listen) 0) = true <-> host = [] /\ atoi connect = 0) as Socks.
  { unfold isSocks5. cbn [m_connect_host m_connect_port]. rewrite andb_true_iff, !Z.eqb_eq. destruct host; cbn; intuition (done || lia). }
  destruct (isSocks5 _ && _) eqn:Es.
  - apply andb_prop in Es as [[-> Hp]%Socks Hd%negb_true_iff%Z.eqb_neq]. right. eexists. split; [done|]. right.
    exists listen, [], connect, flags. split; [done|]. right. by right.
  - left. eexists. split; [done|]. exists listen, host, connect, flags. split_and!; try done.
    intros -> Hp. rewrite (proj2 Socks) in Es by done. by apply negb_false_iff, Z.eqb_eq in Es.
Qed.

(** An argument is not written in two ways. *)
Lemma written_as_once arg l1 h1 c1 f1 l2 h2 c2 f2 : written_as arg l1 h1 c1 f1 -> written_as arg l2 h2 c2 f2 ->
  l1 = l2 /\ h1 = h2 /\ c1 = c2 /\ f1 = f2.
Proof. intros [E1%getlines_splits _] [E2%getlines_splits _]. rewrite E1 in E2. by simplify_eq. Qed.

Lemma specifies_once direction arg c c' : specifies direction arg c -> specifies direction arg c' -> c = c'.
Proof.
  intros (? & ? & ? & ? & W & _ & _ & _ & ->) (? & ? & ? & ? & W' & _ & _ & _ & ->).
  by destruct (written_as_once _ _ _ _ _ _ _ _ _ W W') as (-> & -> & -> & ->).
Qed.
Lemma specifies_not_wrong direction arg c e : specifies direction arg c -> ~ wrong direction arg e.
Proof.
  intros (l & h & cn & f & W & Hl & Hc & Hs & _) [[No _]|(l' & h' & cn' & f' & W' & H)]; [by eapply No|].
  destruct (written_as_once _ _ _ _ _ _ _ _ _ W W') as (-> & -> & -> & ->).
  destruct H as [[? _]|[(_ & ? & _)|(_ & -> & Hp & Hd & _)]]; [lia|lia|by apply Hd, Hs].
Qed.
Lemma wrong_once direction arg e e' : wrong direction arg e -> wrong direction arg e' -> e = e'.
Proof.
  intros [[No ->]|(l & h & cn & f & W & H)] [[No' ->]|(l' & h' & cn' & f' & W' & H')]; [done|by destruct (No _ _ _ _ W')|by destruct (No' _ _ _ _ W)|].
  destruct (written_as_once _ _ _ _ _ _ _ _ _ W W') as (-> & -> & -> & ->).
  destruct H as [[? ->]|[(? & ? & ->)|(? & ? & ? & _ & ->)]], H' as [[? ->]|[(? & ? & ->)|(? & ? & ? & _ & ->)]]; done || lia.
Qed.

Definition acceptable (direction : Z) (c : t) : Prop :=
  m_connection_type c = direction /\ 0 < m_listen_port c < 2147483648 /\
  0 <= m_connect_port c < 2147483648 /\ colon ∉ m_connect_host c /\
  0 <= m_flags c <= 3 /\ (isSocks5 c = true -> direction = CONNECT).

Lemma flags_in_range flags : 0 <= flags_in flags <= 3.
Proof. destruct flags as [|f []]; cbn; [lia| |lia]. destruct (bool_decide _), (bool_decide _); lia. Qed.

Lemma specifies_acceptable direction arg c : specifies direction arg c -> acceptable direction c.
Proof.
  intros (listen & host & connect & flags & [[NC _] _] & Hl & Hc & Hs & ->).
  pose proof (atoi_bound listen). pose proof (atoi_bound connect). pose proof (flags_in_range flags).
  unfold acceptable, isSocks5. cbn [m_connection_type m_listen_port m_connect_port m_connect_host m_flags].
  split_and!; try lia; [by apply Forall_cons in NC as [_ [? _]%Forall_cons]|].
  intros [E%Z.eqb_eq Ep%Z.eqb_eq]%andb_prop. apply Hs; [|done]. destruct host; [done|cbn in E; lia].
Qed.

Lemma wrong_never direction arg e : wrong direction arg e -> forall s, ExnMsg e <> ExnMsg ("Bad connect host or port: " +:+ s).
Proof. intros [[_ ->]|(? & ? & ? & ? & _ & [[_ ->]|[(_ & _ & ->)|(_ & _ & _ & _ & ->)]])] s E; discriminate E. Qed.

Lemma parse_acceptable direction arg :
  match parseConnection direction arg with
  | inr c => acceptable direction c
  | inl e => forall s, e <> ExnMsg ("Bad connect host or port: " +:+ s)
  end.
Proof.
  destruct (parse_decides direction arg) as [(c & -> & Hc)|(e & -> & He)]; [by eapply specifies_acceptable|by eapply wrong_never].
Qed.

(** C28: exactly what [parseConnection] accepts.  An argument is accepted
    when, and only when, it is written in three or four fields (the last of
    which a colon may end), the first of them stands for a positive number,
    the third for one that is not negative, and it does not ask for SOCKS 5
    on a -R connection; it stands then for the specification with the
    direction asked for, those two ports, the second field as the host and
    the flags of the letters "a" and "p" in the fourth field.  Anything else
    is refused with the text of the first check that fails.  So a
    specification it returns has ports that are [int]s (nothing limits them
    to 65535), a host without a colon and only the two flags.  The check for
    a host without a port or a port without a host is a conjunction of two
    conditions that exclude each other: it never rejects anything, and
    "2001::5" and "2001:host:0" are accepted. *)
Theorem parse_accepts direction arg :
  (forall c, parseConnection direction arg = inr c <-> specifies direction arg c) /\
  (forall e, parseConnection direction arg = inl e <-> exists text, e = ExnMsg text /\ wrong direction arg text) /\
  match parseConnection direction arg with
  | inr c => acceptable direction c
  | inl e => forall s, e <> ExnMsg ("Bad connect host or port: " +:+ s)
  end /\
  parseConnection CONNECT (bytes_of "2001::5") = inr (Mk CONNECT [] 5 2001 0) /\
  parseConnection LISTEN (bytes_of "2001:host:0") = inr (Mk LISTEN (bytes_of "host") 0 2001 0).
Proof.
  split_and!; [| |apply parse_acceptable|vm_compute; reflexivity|vm_compute; reflexivity];
    destruct (parse_decides direction arg) as [(c & -> & Hc)|(e & -> & He)].
  - intros c'. split; [by intros [= <-]|]. intros Hc'. f_equal. by eapply specifies_once.
  - intros c'. split; [done|]. intros Hc'. by destruct (specifies_not_wrong _ _ _ _ Hc' He).
  - intros e. split; [done|]. intros (text & _ & He). by destruct (specifies_not_wrong _ _ _ _ Hc He).
  - intros e'. split; [intros [= <-]; by exists e|]. intros (text & -> & He'). do 2 f_equal. by eapply wrong_once.
Qed.
End ParseFacts.
