(* ===== verification/Options.v ===== *)
(** * The command line

    [StdioTunnel::CreateTunnel] and [StdioTunnelLocal::configure] each walk
    over [argv]: the first to find which end is wanted, the second to
    collect the local end's options.  [tokenize] is the grammar both of them
    follow; the theorems show that they agree with it, and so with each
    other, on where the options end and the connection command begins. *)

From stdpp Require Import base list tactics strings.
From Stdlib Require Import ZArith Lia.
From S2P Require Import Prelude Posix Wire Spec.

Definition arg : Type := list byte.

(** [arg[i]] of a C string: the terminator past its end. *)
Definition char_at (a : arg) (i : nat) : byte := nth i a x00.

(** [arg[0] == '-' && arg[1] != '\0'] *)
Definition is_option (a : arg) : bool :=
  bool_decide (char_at a 0 = x2d) && negb (bool_decide (char_at a 1 = x00)).

(** Nothing after the option letter. *)
Definition is_short (a : arg) : bool := bool_decide (char_at a 2 = x00).

(** ** CreateTunnel *)

Record choice : Type := Choice { c_local : bool; c_version : bool; c_print : bool }.

Definition choice_init : choice := Choice true false false.

(** The loop of [CreateTunnel] on what is left of [argv]. *)
Fixpoint scan (args : list arg) (c : choice) : exn + choice :=
  match args with
  | [] => inr c
  | a :: rest =>
      if is_option a then
        match char_at a 1 with
        | x6c => scan rest (Choice true (c_version c) (c_print c))
        | x72 => scan rest (Choice false (c_version c) (c_print c))
        | x44 => scan rest (Choice (c_local c) (c_version c) true)
        | x56 => scan rest (Choice (c_local c) true (c_print c))
        | x4c | x52 | x70 | x63 =>
            if is_short a then match rest with [] => inr c | _ :: rest' => scan rest' c end
            else scan rest c
        | x2d => inr c
        | x54 | x74 | x64 | x73 => scan rest c
        | _ => inl (ExnMsg "Unknown option")
        end
      else inr c
  end.

(** ** configure *)

(** What [configure] sets of a [StdioTunnelLocal]. *)
Record config : Type := Config {
  m_connection_specs : list ConnectionSpec.t;
  m_force_pipe : bool;
  m_expects_pipe : bool;
  m_daemon : bool;
  m_silent : bool;
  m_login_pattern : list byte;
  m_remote_cmd : list byte;
  m_command : option (list arg)      (* a pointer into [argv] *)
}.

Definition config_init : config := Config [] false false false false [] [] None.

Section Configure.
Context {P : Posix}.

Definition with_specs l (c : config) := Config l (m_force_pipe c) (m_expects_pipe c) (m_daemon c) (m_silent c) (m_login_pattern c) (m_remote_cmd c) (m_command c).
Definition with_flags fp ep d s (c : config) := Config (m_connection_specs c) fp ep d s (m_login_pattern c) (m_remote_cmd c) (m_command c).
Definition with_patterns p r (c : config) := Config (m_connection_specs c) (m_force_pipe c) (m_expects_pipe c) (m_daemon c) (m_silent c) p r (m_command c).
Definition with_command k (c : config) := Config (m_connection_specs c) (m_force_pipe c) (m_expects_pipe c) (m_daemon c) (m_silent c) (m_login_pattern c) (m_remote_cmd c) k.

Definition set_config (f : config -> config) : M (config * os) unit :=
  modify (fun co => (f co.1, co.2)).

Definition add_spec (direction : Z) (value : arg) : M (config * os) ConnectionSpec.t :=
  match parseConnection direction value with
  | inl e => throw e
  | inr spec => set_config (fun c => with_specs (m_connection_specs c ++ [spec]) c);; mret spec
  end.

(** With -s, a -L port already bound ends the program quietly. *)
Definition try_bind (spec : ConnectionSpec.t) : M (config * os) unit :=
  c ← gets fst;
  if m_silent c then
    r ← zoom lens_snd (ConnectionSpec.bindStatus spec);
    if r.1 <? 0 then throw (ExnErrno r.2)
    else if r.1 =? 1 then throw (ExnStr "Already run in background.")
    else mret tt
  else mret tt.

(** One option and its value; the result is what it adds to
    [socks5_spec_count]. *)
Definition handle_value (letter : byte) (value : arg) : M (config * os) Z :=
  match letter with
  | x52 => add_spec ConnectionSpec.LISTEN value;; mret 0
  | x4c => spec ← add_spec ConnectionSpec.CONNECT value;
           try_bind spec;;
           mret (if ConnectionSpec.isSocks5 spec then 1 else 0)
  | x70 => set_config (fun c => with_patterns value (m_remote_cmd c) c);; mret 0
  | x63 => set_config (fun c => with_patterns (m_login_pattern c) value c);; mret 0
  | _ => mret 0
  end.

Definition handle_flag (letter : byte) (c : config) : config :=
  match letter with
  | x54 => with_flags true (m_expects_pipe c) (m_daemon c) (m_silent c) c
  | x74 => with_flags (m_force_pipe c) true (m_daemon c) (m_silent c) c
  | x64 => with_flags (m_force_pipe c) (m_expects_pipe c) true (m_silent c) c
  | x73 => with_flags (m_force_pipe c) (m_expects_pipe c) (m_daemon c) true c
  | _ => c
  end.

(** The letters of the options with a value. *)
Definition takes_value (letter : byte) : bool :=
  match letter with x4c | x52 | x70 | x63 => true | _ => false end.

(** The loop of [configure] on what is left of [argv]; it stops when
    [m_command] is set. *)
Fixpoint configure_loop (args : list arg) (socks5_spec_count : Z) : M (config * os) Z :=
  match args with
  | [] => mret socks5_spec_count
  | a :: rest =>
      if is_option a then
        let letter := char_at a 1 in
        if takes_value letter then
          (* long_arg: the value is the rest of this argument *)
          match rest with
          | value :: rest' =>
              if is_short a
              then n ← handle_value letter value; configure_loop rest' (socks5_spec_count + n)
              else n ← handle_value letter (drop 2 a); configure_loop rest (socks5_spec_count + n)
          | [] => n ← handle_value letter (drop 2 a); mret (socks5_spec_count + n)
          end
        else if bool_decide (letter = x2d) then
          set_config (with_command (Some rest));; mret socks5_spec_count
        else set_config (handle_flag letter);; configure_loop rest socks5_spec_count
      else set_config (with_command (Some args));; mret socks5_spec_count
  end.

Definition configure (args : list arg) : M (config * os) unit :=
  socks5_spec_count ← configure_loop args 0;
  c ← gets fst;
  if zlen (m_connection_specs c) =? 0 then throw (ExnMsg "No connections defined")
  else match m_command c with
       | None | Some [] => throw (ExnMsg "No connection command defined")
       | Some _ =>
           if 1 <? socks5_spec_count then throw (ExnMsg "at most one socks 5 connection spec")
           else mret tt
       end.
End Configure.

(** ** The grammar *)

Inductive token : Type :=
| Flag (letter : byte)
| Value (letter : byte) (value : arg)
| Command.                            (* "--" *)

(** The options at the front of [argv], and what follows them: [None] when
    [argv] ends with the options. *)
Fixpoint tokenize (args : list arg) : list token * option (list arg) :=
  match args with
  | [] => ([], None)
  | a :: rest =>
      if is_option a then
        let letter := char_at a 1 in
        if takes_value letter then
          match rest with
          | value :: rest' =>
              if is_short a
              then let '(ts, k) := tokenize rest' in (Value letter value :: ts, k)
              else let '(ts, k) := tokenize rest in (Value letter (drop 2 a) :: ts, k)
          | [] => ([Value letter (drop 2 a)], None)
          end
        else if bool_decide (letter = x2d) then ([Command], Some rest)
        else let '(ts, k) := tokenize rest in (Flag letter :: ts, k)
      else ([], Some args)
  end.

Definition known_flag (letter : byte) : bool :=
  match letter with x6c | x72 | x44 | x56 | x54 | x74 | x64 | x73 => true | _ => false end.

Definition choose (c : choice) (letter : byte) : choice :=
  match letter with
  | x6c => Choice true (c_version c) (c_print c)
  | x72 => Choice false (c_version c) (c_print c)
  | x44 => Choice (c_local c) (c_version c) true
  | x56 => Choice (c_local c) true (c_print c)
  | _ => c
  end.

(** What the tokens ask of [CreateTunnel]. *)
Fixpoint scan_tokens (ts : list token) (c : choice) : exn + choice :=
  match ts with
  | [] => inr c
  | Flag letter :: ts => if known_flag letter then scan_tokens ts (choose c letter)
                         else inl (ExnMsg "Unknown option")
  | Value _ _ :: ts => scan_tokens ts c
  | Command :: _ => inr c
  end.

Section OptionFacts.
Context {P : Posix}.

(** What the tokens ask of [configure]. *)
Fixpoint configure_tokens (ts : list token) (n : Z) : M (config * os) Z :=
  match ts with
  | [] | Command :: _ => mret n
  | Flag letter :: ts => set_config (handle_flag letter);; configure_tokens ts n
  | Value letter value :: ts => k ← handle_value letter value; configure_tokens ts (n + k)
  end.

Definition set_command (k : option (list arg)) : M (config * os) unit :=
  match k with None => mret tt | Some _ => set_config (with_command k) end.

(** Induction on [argv] in steps of one or two arguments. *)
Lemma args_ind (Q : list arg -> Prop) :
  Q [] -> (forall a rest, Q rest -> (forall v rest', rest = v :: rest' -> Q rest') -> Q (a :: rest)) ->
  forall args, Q args.
Proof.
  intros H0 H1 args. enough (Q args /\ forall v rest', args = v :: rest' -> Q rest') as [? _] by done.
  induction args as [|a args [IH1 IH2]]; [done|]. split; [by apply H1|]. intros ?? [= -> ->]. done.
Qed.

Lemma scan_tokenize args c : scan args c = scan_tokens (tokenize args).1 c.
Proof.
  revert c. induction args as [|a rest IH1 IH2] using args_ind; intros c; [done|].
  cbn [scan tokenize]. destruct (is_option a); [|done].
  destruct (char_at a 1) eqn:E; cbn [takes_value]; try (rewrite bool_decide_eq_false_2 by done);
    try (rewrite IH1; by destruct (tokenize rest)); try (by destruct (tokenize rest)); try done.
  all: destruct rest as [|v rest']; [by destruct (is_short a)|];
    destruct (is_short a); [rewrite (IH2 v rest' eq_refl); by destruct (tokenize rest')|];
    rewrite IH1; by destruct (tokenize (v :: rest')).
Qed.

Lemma configure_tokenize args n s :
  configure_loop args n s =
  (r ← configure_tokens (tokenize args).1 n; set_command (tokenize args).2;; mret r) s.
Proof.
  revert n s. induction args as [|a rest IH1 IH2] using args_ind; intros n s; [done|].
  cbn [configure_loop tokenize]. destruct (is_option a); [|done].
  destruct (takes_value (char_at a 1)).
  - destruct rest as [|v rest']; [|destruct (is_short a)].
    + cbn [fst snd configure_tokens set_command]. rewrite bind_assoc. by apply bind_ext.
    + specialize (IH2 v rest' eq_refl). destruct (tokenize rest') as [ts k].
      cbn [fst snd configure_tokens] in *. rewrite bind_assoc. apply bind_ext. intros. apply IH2.
    + destruct (tokenize (v :: rest')) as [ts k].
      cbn [fst snd configure_tokens] in *. rewrite bind_assoc. apply bind_ext. intros. apply IH1.
  - destruct (bool_decide_reflect (char_at a 1 = x2d)); [done|].
    destruct (tokenize rest) as [ts k]. cbn [fst snd configure_tokens] in *.
    rewrite bind_assoc. apply bind_ext. intros. apply IH1.
Qed.

(** C29: the two walks over the command line agree.  [CreateTunnel]'s loop
    and [configure]'s loop are both folds over the tokens of one grammar,
    options in any order, values attached or separate, up to "--" or the
    first argument that is not an option; so they consume the same
    arguments, [configure] takes as the connection command exactly what
    follows the options [CreateTunnel] has checked, and an option is
    rejected exactly when its letter is none of l r D V T t d s L R p c. *)
Theorem command_line_agreement args c n s :
  scan args c = scan_tokens (tokenize args).1 c /\
  configure_loop args n s =
    (r ← configure_tokens (tokenize args).1 n; set_command (tokenize args).2;; mret r) s.
Proof. split; [apply scan_tokenize|apply configure_tokenize]. Qed.

(** What the specifications collected so far satisfy; [n] of them ask for
    SOCKS 5. *)
Definition asks_socks5 (l : list ConnectionSpec.t) : Z :=
  zlen (filter (fun s => ConnectionSpec.isSocks5 s = true) l).

Definition specs_ok (c : config) : Prop :=
  Forall (fun s => acceptable (ConnectionSpec.m_connection_type s) s) (m_connection_specs c).

Lemma asks_socks5_app l s :
  asks_socks5 (l ++ [s]) = asks_socks5 l + (if ConnectionSpec.isSocks5 s then 1 else 0).
Proof.
  unfold asks_socks5. rewrite filter_app, length_app, filter_cons, filter_nil.
  destruct (ConnectionSpec.isSocks5 s); simpl; lia.
Qed.

Lemma add_spec_ok direction v c o s c' o' :
  add_spec direction v (c, o) = Ret s (c', o') -> specs_ok c ->
  specs_ok c' /\ acceptable direction s /\ o' = o /\ m_command c' = m_command c /\
  m_connection_specs c' = m_connection_specs c ++ [s].
Proof.
  unfold add_spec. pose proof (parse_acceptable direction v) as A.
  destruct (parseConnection direction v) as [e|spec]; [done|]. intros [= <- <- <-] H.
  split_and!; try done. unfold specs_ok. cbn. apply Forall_app. split; [done|].
  apply Forall_singleton. destruct A as (E & A). by rewrite E.
Qed.

Lemma try_bind_same s co r co' : try_bind s co = Ret r co' -> co'.1 = co.1.
Proof.
  unfold try_bind, gets, mbind, M_bind, zoom. destruct (m_silent co.1); [|by intros [= <- <-]].
  destruct (ConnectionSpec.bindStatus s _) as [[x e] ?| | |]; try done. cbn.
  destruct (x <? 0); [done|]. destruct (x =? 1); [done|]. by intros [= <- <-].
Qed.

Lemma handle_value_ok letter v c o k c' o' :
  handle_value letter v (c, o) = Ret k (c', o') -> specs_ok c ->
  specs_ok c' /\ m_command c' = m_command c /\
  asks_socks5 (m_connection_specs c') = asks_socks5 (m_connection_specs c) + k.
Proof.
  intros H Hc.
  assert (forall x, Ret k (c', o') = Ret (S:=config * os) 0 (x, o) -> 
     specs_ok x -> m_command x = m_command c -> m_connection_specs x = m_connection_specs c ->
     specs_ok c' /\ m_command c' = m_command c /\
     asks_socks5 (m_connection_specs c') = asks_socks5 (m_connection_specs c) + k) as Other
    by (intros x [= -> -> ->] ? ? ->; split_and!; [done|done|lia]).
  unfold handle_value in H. destruct letter; try exact (Other c (eq_sym H) Hc eq_refl eq_refl).
  - apply bind_inv in H as (s & [c1 o1] & H1 & H2). apply add_spec_ok in H1 as (S1 & A1 & -> & C1 & E1); [|done].
    apply bind_inv in H2 as (u & co2 & H2 & H3). apply try_bind_same in H2. injection H3 as <- ->. cbn in H2. subst.
    rewrite E1, asks_socks5_app. done.
  - apply bind_inv in H as (s & [c1 o1] & H1 & [= <- <- <-]).
    apply add_spec_ok in H1 as (S1 & A1 & -> & C1 & E1); [|done].
    rewrite E1, asks_socks5_app. destruct A1 as (_ & _ & _ & _ & _ & A1).
    destruct (ConnectionSpec.isSocks5 s); [by specialize (A1 eq_refl)|]. done.
  - exact (Other (with_patterns (m_login_pattern c) v c) (eq_sym H) Hc eq_refl eq_refl).
  - exact (Other (with_patterns v (m_remote_cmd c) c) (eq_sym H) Hc eq_refl eq_refl).
Qed.

Lemma configure_tokens_ok ts n c o n' c' o' :
  configure_tokens ts n (c, o) = Ret n' (c', o') -> specs_ok c ->
  specs_ok c' /\ m_command c' = m_command c /\
  asks_socks5 (m_connection_specs c') - asks_socks5 (m_connection_specs c) = n' - n.
Proof.
  revert n c o. induction ts as [|[l|l v|] ts IH]; intros n c o H Hc; cbn [configure_tokens] in H.
  - injection H as <- <- <-. split_and!; [done..|lia].
  - apply bind_inv in H as (u & [c1 o1] & [= <- <- <-] & H2).
    assert (specs_ok (handle_flag l c) /\ m_command (handle_flag l c) = m_command c /\
            m_connection_specs (handle_flag l c) = m_connection_specs c) as (S1 & E1 & E2)
      by (unfold specs_ok; destruct l; done).
    destruct (IH _ _ _ H2 S1) as (S2 & E3 & E4). rewrite E3, E1, <- E4, E2. done.
  - apply bind_inv in H as (k & [c1 o1] & H1 & H2).
    apply handle_value_ok in H1 as (S1 & E1 & E2); [|done].
    destruct (IH _ _ _ H2 S1) as (S2 & E3 & E4). rewrite E3, E1. split_and!; [done..|lia].
  - injection H as <- <- <-. split_and!; [done..|lia].
Qed.

(** What a local end needs.  [configure] succeeds only with at least
    one connection, at most one of them a SOCKS 5 request, and a connection
    command, which is what follows the options on the command line; every
    specification was accepted by [parseConnection] for its direction, so
    SOCKS 5 is only asked of the remote end. *)
Theorem configure_ok args o c o'
    (H : configure args (config_init, o) = Ret tt (c, o')) :
  m_connection_specs c <> [] /\
  (exists k ks, m_command c = Some (k :: ks) /\ (tokenize args).2 = Some (k :: ks)) /\
  Forall (fun s => acceptable (ConnectionSpec.m_connection_type s) s) (m_connection_specs c) /\
  asks_socks5 (m_connection_specs c) <= 1.
Proof.
  unfold configure in H. apply bind_inv in H as (n & [c1 o1] & H1 & H2).
  rewrite configure_tokenize in H1. apply bind_inv in H1 as (n1 & [c2 o2] & H1 & H3).
  apply configure_tokens_ok in H1 as (S1 & E1 & E2); [|constructor].
  assert (n1 = n /\ m_connection_specs c1 = m_connection_specs c2 /\ m_command c1 = (tokenize args).2)
    as (-> & E3 & E4).
  { apply bind_inv in H3 as (u & [c3 o3] & H3 & [= <- <- <-]).
    destruct (tokenize args).2; injection H3 as <- <-; done. }
  unfold gets, mbind, M_bind in H2. cbn [fst] in H2.
  destruct (Z.eqb_spec (zlen (m_connection_specs c1)) 0) as [|Hne]; [done|].
  destruct (m_command c1) as [[|k ks]|] eqn:Ec; try done.
  destruct (Z.ltb_spec 1 n); [done|]. injection H2 as <- <-.
  rewrite E3. cbn in E2. split_and!; [by intros E5; rewrite E3, E5 in Hne|by exists k, ks|done|].
  change (asks_socks5 []) with 0 in E2. lia.
Qed.
End OptionFacts.

Lemma configure_ok_witness :
  let args := map bytes_of ["-L"; "2001:localhost:22:a"; "-R2002:localhost:143"; "-L"; "8080::0"; "ssh"; "host"] in
  let r := final (configure (P:=ScriptOS) args (config_init, Script [] [])) (config_init, Script [] []) in
  m_connection_specs r.1 <> [] /\
  (exists k ks, m_command r.1 = Some (k :: ks) /\ (tokenize args).2 = Some (k :: ks)) /\
  Forall (fun s => acceptable (ConnectionSpec.m_connection_type s) s) (m_connection_specs r.1) /\
  asks_socks5 (m_connection_specs r.1) <= 1.
Proof.
  intros args r. apply (configure_ok (P:=ScriptOS) args (Script [] []) r.1 r.2). vm_compute. reflexivity.
Defined.
