(* ===== verification/Magic.v ===== *)
(** * MagicStringDetector

    The local end copies what the connection command prints to standard
    output, and watches it for the remote end's magic string and for a login
    pattern.  [processReadData] overrides [SockBuffer]'s; it calls the local
    tunnel's [startHandshaking] and [remoteInit], which are arguments here. *)

From stdpp Require Import base list tactics strings.
From Stdlib Require Import ZArith Lia.
From S2P Require Import Prelude Posix SockBuffer.

Module MagicStringDetector.

Record t : Type := Mk {
  buffer : SockBuffer.t;
  m_recognized_count : Z;
  m_magic_string : list byte;
  m_recognized_login_count : Z;
  m_login_pattern : list byte;
  m_remote_cmd : list byte
}.

Definition new_MagicStringDetector (magic_string : list byte) : t :=
  Mk SockBuffer.init 0 magic_string 0 [] [].

Definition setLoginPattern (p : list byte) (d : t) : t :=
  Mk (buffer d) (m_recognized_count d) (m_magic_string d) (m_recognized_login_count d) p (m_remote_cmd d).
Definition setRemoteCmd (c : list byte) (d : t) : t :=
  Mk (buffer d) (m_recognized_count d) (m_magic_string d) (m_recognized_login_count d) (m_login_pattern d) c.
Definition set_count (n : Z) (d : t) : t :=
  Mk (buffer d) n (m_magic_string d) (m_recognized_login_count d) (m_login_pattern d) (m_remote_cmd d).
Definition set_login_count (n : Z) (d : t) : t :=
  Mk (buffer d) (m_recognized_count d) (m_magic_string d) n (m_login_pattern d) (m_remote_cmd d).
Definition set_buffer (b : SockBuffer.t) (d : t) : t :=
  Mk b (m_recognized_count d) (m_magic_string d) (m_recognized_login_count d) (m_login_pattern d) (m_remote_cmd d).

Definition buffer_of : lens t SockBuffer.t := Lens buffer set_buffer.

(** [s[i]] of a [std::string]: a null character just past its end. *)
Definition string_at (s : list byte) (i : Z) : option byte :=
  if i <? 0 then None
  else if i =? zlen s then Some x00 else s !! Z.to_nat i.

Section Process.
Context {S : Type} (detector : lens S t)
        (startHandshaking : M S unit) (remoteInit : list byte -> M S unit).

Definition on_detector (f : t -> t) : M S unit := zoom detector (modify f).

(** The first half of the loop's body; true when the handshake started
    and [processReadData] returns. *)
Definition match_magic (b : byte) : M S bool :=
  d ← gets (view detector);
  c ← deref OutOfRange (string_at (m_magic_string d) (m_recognized_count d));
  if bool_decide (b = c) then
    on_detector (set_count (m_recognized_count d + 1));;
    if zlen (m_magic_string d) <=? m_recognized_count d + 1
    then startHandshaking;; mret true
    else mret false
  else on_detector (set_count 0);; mret false.

(** The second half. *)
Definition match_login (b : byte) : M S unit :=
  d ← gets (view detector);
  let n := m_recognized_login_count d in
  let len := zlen (m_login_pattern d) in
  if (0 <? zlen (m_remote_cmd d)) && (n <? len) &&
     bool_decide (Some b = string_at (m_login_pattern d) n) then
    on_detector (set_login_count (n + 1));;
    when (len <=? n + 1) (remoteInit (m_remote_cmd d))
  else when (n <? len) (on_detector (set_login_count 0)).

Fixpoint processReadData (buf : list byte) : M S unit :=
  match buf with
  | [] => mret tt
  | b :: buf =>
      finished ← match_magic b;
      if finished : bool then mret tt
      else match_login b;; processReadData buf
  end.
End Process.
End MagicStringDetector.

(** ** The detector with its two calls recorded *)

Section Detection.
Import MagicStringDetector.
Implicit Types d : MagicStringDetector.t.

Inductive event : Type := Handshake | Login (cmd : list byte).

Definition recorded : Type := (t * list event)%type.
Definition record (e : event) : M recorded unit := modify (fun s => (s.1, s.2 ++ [e])).
Definition process : list byte -> M recorded unit :=
  processReadData lens_fst (record Handshake) (fun c => record (Login c)).

(** The string matcher: [inr rest] when the string is complete, with what
    follows it; otherwise how much of it has been matched. *)
Fixpoint matcher (magic : list byte) (k : nat) (bs : list byte) : nat + list byte :=
  match bs with
  | [] => inl k
  | b :: bs =>
      if bool_decide (magic !! k = Some b)
      then if (Datatypes.S k =? length magic)%nat then inr bs else matcher magic (Datatypes.S k) bs
      else matcher magic 0 bs
  end.

(** The login half alone, over a list of bytes. *)
Fixpoint logins (bs : list byte) d : t * list event :=
  match bs with
  | [] => (d, [])
  | b :: bs =>
      match match_login lens_fst (fun c => record (Login c)) b (d, []) with
      | Ret _ (d', ev) => let '(d'', ev') := logins bs d' in (d'', ev ++ ev')
      | _ => (d, [])
      end
  end.

(** The part of a buffer that is looked at: up to the end of the magic
    string when it completes. *)
Definition looked_at (magic : list byte) (k : nat) (bs : list byte) : list byte :=
  match matcher magic k bs with
  | inl _ => bs
  | inr rest => take (length bs - length rest - 1) bs
  end.

Lemma match_login_total b d ev :
  exists d' ev', match_login lens_fst (fun c => record (Login c)) b (d, ev) = Ret tt (d', ev ++ ev') /\
    match_login lens_fst (fun c => record (Login c)) b (d, []) = Ret tt (d', ev') /\
    m_magic_string d' = m_magic_string d /\ m_recognized_count d' = m_recognized_count d /\
    (forall k, match_login lens_fst (fun c => record (Login c)) b (set_count k d, []) = Ret tt (set_count k d', ev')).
Proof.
  unfold match_login, gets, mbind, M_bind, on_detector, zoom, modify, when, mret, M_ret, record, modify.
  cbn [view update lens_fst fst snd m_remote_cmd m_recognized_login_count m_login_pattern set_count set_login_count].
  destruct (_ && _ && _); [destruct (_ <=? _)|destruct (_ <? _)].
  - by eexists _, [_].
  - eexists _, []. by rewrite app_nil_r.
  - eexists _, []. by rewrite app_nil_r.
  - eexists _, []. by rewrite app_nil_r.
Qed.

Lemma matcher_rest magic k bs rest : matcher magic k bs = inr rest -> (length rest < length bs)%nat.
Proof.
  revert k. induction bs as [|b bs IH]; intros k; cbn [matcher length]; [done|].
  destruct (bool_decide _); [destruct (_ =? _)%nat|]; intros H; simplify_eq; [lia|..];
    apply IH in H; lia.
Qed.

(** [k] bytes matched, of a non-empty string. *)
Definition matching d (k : nat) : Prop :=
  m_recognized_count d = Z.of_nat k /\ (k < length (m_magic_string d))%nat.

Lemma match_magic_step b d ev k : matching d k ->
  match_magic lens_fst (record Handshake) b (d, ev) =
  if bool_decide (m_magic_string d !! k = Some b)
  then if (Datatypes.S k =? length (m_magic_string d))%nat
       then Ret true (set_count (Z.of_nat (Datatypes.S k)) d, ev ++ [Handshake])
       else Ret false (set_count (Z.of_nat (Datatypes.S k)) d, ev)
  else Ret false (set_count 0 d, ev).
Proof.
  intros [Hk Hlt]. unfold match_magic, gets, mbind, M_bind. cbn [view lens_fst fst].
  assert (string_at (m_magic_string d) (m_recognized_count d) = m_magic_string d !! k) as ->.
  { unfold string_at. rewrite Hk. destruct (Z.ltb_spec (Z.of_nat k) 0); [lia|].
    destruct (Z.eqb_spec (Z.of_nat k) (zlen (m_magic_string d))); [lia|]. by rewrite Nat2Z.id. }
  destruct (lookup_lt_is_Some_2 (m_magic_string d) k Hlt) as [c Hc]. rewrite Hc. cbn [deref].
  replace (m_recognized_count d + 1) with (Z.of_nat (Datatypes.S k)) by lia.
  assert (bool_decide (b = c) = bool_decide (Some c = Some b)) as E
    by (apply bool_decide_ext; split; congruence).
  unfold mret at 1, M_ret at 1. rewrite E. clear E. destruct (bool_decide _); [|done].
  destruct (Nat.eqb_spec (Datatypes.S k) (length (m_magic_string d))), (Z.leb_spec (zlen (m_magic_string d)) (Z.of_nat (Datatypes.S k)));
    try lia; done.
Qed.

Lemma logins_magic bs d : m_magic_string (logins bs d).1 = m_magic_string d.
Proof.
  revert d. induction bs as [|b bs IH]; intros d; [done|]. cbn [logins].
  destruct (match_login_total b d []) as (d' & ev' & _ & -> & M1 & _).
  specialize (IH d'). destruct (logins bs d'). cbn in *. congruence.
Qed.

Lemma logins_count bs k d :
  logins bs (set_count k d) = (set_count k (logins bs d).1, (logins bs d).2).
Proof.
  revert d. induction bs as [|b bs IH]; intros d; [done|]. cbn [logins].
  destruct (match_login_total b d []) as (d' & ev' & _ & -> & _ & _ & L). rewrite L, IH.
  by destruct (logins bs d').
Qed.

Lemma set_count_twice m n d : set_count m (set_count n d) = set_count m d.
Proof. done. Qed.

Lemma looked_at_cons magic k b bs :
  match (if bool_decide (magic !! k = Some b)
         then if (Datatypes.S k =? length magic)%nat then None else Some (Datatypes.S k)
         else Some 0%nat) with
  | None => matcher magic k (b :: bs) = inr bs /\ looked_at magic k (b :: bs) = []
  | Some k' => matcher magic k (b :: bs) = matcher magic k' bs /\
               looked_at magic k (b :: bs) = b :: looked_at magic k' bs
  end.
Proof.
  unfold looked_at. cbn [matcher].
  assert (forall k', match matcher magic k' bs with
            | inl _ => b :: bs | inr rest => take (length (b :: bs) - length rest - 1) (b :: bs) end =
          b :: match matcher magic k' bs with inl _ => bs | inr rest => take (length bs - length rest - 1) bs end) as C.
  { intros k'. destruct (matcher magic k' bs) as [?|rest] eqn:E; [done|]. apply matcher_rest in E.
    cbn [length]. replace (Datatypes.S (length bs) - length rest - 1)%nat with (Datatypes.S (length bs - length rest - 1)) by lia.
    done. }
  destruct (bool_decide _); [destruct (_ =? _)%nat|]; (split; [done|]); try apply C.
  cbn [length]. by replace (Datatypes.S (length bs) - length bs - 1)%nat with 0%nat by lia.
Qed.

(** The whole of [processReadData]: the two matchers run independently. *)
Lemma process_spec bs d ev k : matching d k ->
  process bs (d, ev) =
  let dl := logins (looked_at (m_magic_string d) k bs) d in
  match matcher (m_magic_string d) k bs with
  | inl k' => Ret tt (set_count (Z.of_nat k') dl.1, ev ++ dl.2)
  | inr _ => Ret tt (set_count (zlen (m_magic_string d)) dl.1, ev ++ dl.2 ++ [Handshake])
  end.
Proof.
  revert d ev k. induction bs as [|b bs IH]; intros d ev k Hm.
  - cbn. rewrite app_nil_r. destruct Hm as [<- _]. by destruct d.
  - unfold process in *. cbn [processReadData]. unfold mbind at 1, M_bind at 1. rewrite (match_magic_step b d ev k Hm).
    pose proof (looked_at_cons (m_magic_string d) k b bs) as LC.
    assert (forall k', (k' < length (m_magic_string d))%nat ->
      (match_login lens_fst (λ c : list byte, record (Login c)) b;;
       processReadData lens_fst (record Handshake) (λ c : list byte, record (Login c)) bs)
        (set_count (Z.of_nat k') d, ev) =
      let dl := logins (b :: looked_at (m_magic_string d) k' bs) d in
      match matcher (m_magic_string d) k' bs with
      | inl k'' => Ret tt (set_count (Z.of_nat k'') dl.1, ev ++ dl.2)
      | inr _ => Ret tt (set_count (zlen (m_magic_string d)) dl.1, ev ++ dl.2 ++ [Handshake])
      end) as Go.
    { intros k' Hk'. unfold mbind, M_bind. cbn [logins].
      destruct (match_login_total b (set_count (Z.of_nat k') d) ev) as (d1 & ev1 & -> & L1 & M1 & C1 & _).
      destruct (match_login_total b d []) as (d2 & ev2 & _ & L2 & M2 & _ & L3).
      rewrite L3 in L1. injection L1 as <- <-. rewrite L2.
      rewrite (IH _ _ k') by (split; [done|]; cbn; by rewrite M2).
      cbn [m_magic_string set_count]. rewrite M2, logins_count.
      destruct (logins _ d2) as [d3 ev3]. cbn [fst snd].
      destruct (matcher _ _ _); by rewrite set_count_twice, <- ?app_assoc. }
    destruct (bool_decide _); [destruct (_ =? _)%nat eqn:Ek|]; destruct LC as [-> ->].
    + apply Nat.eqb_eq in Ek. cbn. by rewrite Ek.
    + apply Nat.eqb_neq in Ek. destruct Hm. apply Go. lia.
    + destruct Hm. apply (Go 0%nat). lia.
Qed.

(** Matching, as seen from outside: what has been matched is a suffix of
    what has been read. *)
Lemma matcher_sound magic k bs pre :
  (k < length magic)%nat ->
  match matcher magic k bs with
  | inl k' => (k' < length magic)%nat /\ exists h, pre ++ take k magic ++ bs = h ++ take k' magic
  | inr rest => exists h, pre ++ take k magic ++ bs = h ++ magic ++ rest
  end.
Proof.
  revert k pre. induction bs as [|b bs IH]; intros k pre Hk; cbn [matcher].
  - split; [done|]. exists pre. by rewrite app_nil_r.
  - destruct (bool_decide_reflect (magic !! k = Some b)) as [Hb|_].
    + pose proof (take_S_r magic k b Hb) as T.
      destruct (Nat.eqb_spec (Datatypes.S k) (length magic)) as [E|E].
      * exists pre. rewrite E, firstn_all in T.
        replace (magic ++ bs) with ((take k magic ++ [b]) ++ bs) by (rewrite <- T; done).
        by rewrite <- app_assoc.
      * specialize (IH (Datatypes.S k) pre ltac:(lia)).
        destruct (matcher magic (Datatypes.S k) bs); rewrite T, <- !app_assoc in IH; exact IH.
    + specialize (IH 0%nat (pre ++ take k magic ++ [b]) ltac:(lia)).
      rewrite <- !app_assoc in IH. exact IH.
Qed.

Lemma matcher_complete magic k rest :
  (k < length magic)%nat -> matcher magic k (drop k magic ++ rest) = inr rest.
Proof.
  intros Hk. remember (length magic - k)%nat as n eqn:En. revert k Hk En.
  induction n as [|n IH]; intros k Hk En; [lia|].
  destruct (lookup_lt_is_Some_2 magic k Hk) as [c Hc].
  rewrite (drop_S _ _ _ Hc). cbn [app matcher]. rewrite bool_decide_eq_true_2 by done.
  destruct (Nat.eqb_spec (Datatypes.S k) (length magic)) as [E|E].
  - rewrite E, drop_all. done.
  - apply IH; lia.
Qed.

Lemma matcher_app magic k b1 b2 :
  matcher magic k (b1 ++ b2) =
  match matcher magic k b1 with inl k' => matcher magic k' b2 | inr rest => inr (rest ++ b2) end.
Proof.
  revert k. induction b1 as [|b b1 IH]; intros k; [done|]. cbn [app matcher].
  destruct (bool_decide _); [destruct (_ =? _)%nat|]; done || apply IH.
Qed.

Lemma matcher_reset magic k c : c ∉ magic -> matcher magic k [c] = inl 0%nat.
Proof.
  intros H. cbn. rewrite bool_decide_eq_false_2; [done|]. intros E. apply H.
  by eapply list_elem_of_lookup_2.
Qed.

(** The magic string [StdioTunnel::StdioTunnel] sets. *)
Definition magic_string : list byte := bytes_of "STDIO_TUNNEL MAGIC HANDSHAKE --".

Definition is_login (e : event) : bool := match e with Login _ => true | Handshake => false end.

Lemma logins_events bs d : Forall (fun e => is_login e = true) (logins bs d).2.
Proof.
  revert d. induction bs as [|b bs IH]; intros d; cbn [logins]; [constructor|].
  unfold match_login, gets, mbind, M_bind, on_detector, zoom, modify, when, mret, M_ret, record, modify.
  cbn [view update lens_fst fst snd].
  destruct (_ && _ && _); [destruct (_ <=? _)|destruct (_ <? _)];
    match goal with |- context [logins bs ?x] => specialize (IH x); destruct (logins bs x) end;
    cbn [fst snd app]; [constructor|..]; done.
Qed.

(** C24: the handshake starts only after the magic string.  For a detector
    that has matched part of its string, if processing a buffer starts the
    handshake, then what was matched before followed by the buffer contains
    the complete magic string, the handshake starts once, as the last thing
    the call does, and nothing after the string is looked at. *)
Theorem detector_sound bs d ev k d' ev'
    (Hm : matching d k) (Hrun : process bs (d, ev) = Ret tt (d', ev ++ ev'))
    (Hh : Handshake ∈ ev') :
  exists h rest logs, take k (m_magic_string d) ++ bs = h ++ m_magic_string d ++ rest /\
    ev' = logs ++ [Handshake] /\ Handshake ∉ logs.
Proof.
  rewrite (process_spec bs d ev k Hm) in Hrun. cbv zeta in Hrun.
  pose proof (logins_events (looked_at (m_magic_string d) k bs) d) as L.
  assert (Handshake ∉ (logins (looked_at (m_magic_string d) k bs) d).2) as N
    by (intros Hin; rewrite Forall_forall in L; by specialize (L _ Hin)).
  pose proof (matcher_sound (m_magic_string d) k bs [] (proj2 Hm)) as S.
  destruct (matcher _ _ _) as [k'|rest].
  - injection Hrun as _ E. apply app_inv_head in E. by rewrite <- E in Hh.
  - injection Hrun as _ E. apply app_inv_head in E. destruct S as [h Hs].
    by exists h, rest, (logins (looked_at (m_magic_string d) k bs) d).2.
Qed.

(** C25: the magic string is found after anything that ends in a character
    it does not contain (a newline, say), and in any case when nothing of
    it has been matched: however the output is cut into buffers, the
    handshake starts once the last byte of the string has been processed,
    unless it started before. *)
Theorem detector_complete pre c rest d ev k
    (Hm : matching d k) (Hc : c ∉ m_magic_string d) :
  (exists d' logs, process (pre ++ c :: m_magic_string d ++ rest) (d, ev) =
     Ret tt (d', ev ++ logs ++ [Handshake])) /\
  (k = 0%nat -> exists d' logs, process (m_magic_string d ++ rest) (d, ev) =
     Ret tt (d', ev ++ logs ++ [Handshake])) /\
  (forall b1 b2 k', matcher (m_magic_string d) k b1 = inl k' ->
     process (b1 ++ b2) (d, ev) = (process b1;; process b2) (d, ev)).
Proof.
  assert (0 < length (m_magic_string d))%nat as H0 by (destruct Hm; lia).
  pose proof (matcher_complete (m_magic_string d) 0 rest H0) as Mc. rewrite drop_0 in Mc.
  split_and!.
  - rewrite (process_spec _ _ _ k Hm). cbv zeta.
    assert (exists r, matcher (m_magic_string d) k (pre ++ c :: m_magic_string d ++ rest) = inr r) as [r ->].
    { rewrite matcher_app. destruct (matcher _ k pre) as [k'|r]; [|by eexists].
      change (c :: m_magic_string d ++ rest) with ([c] ++ m_magic_string d ++ rest).
      rewrite matcher_app, matcher_reset by done. by eexists. }
    eexists _, _. reflexivity.
  - intros ->. rewrite (process_spec _ _ _ 0 Hm). cbv zeta. rewrite Mc. eexists _, _. reflexivity.
  - intros b1 b2 k' H1. unfold process.
    assert (forall b1 k k' s, matching s.1 k -> matcher (m_magic_string s.1) k b1 = inl k' ->
      processReadData lens_fst (record Handshake) (fun c => record (Login c)) (b1 ++ b2) s =
      (processReadData lens_fst (record Handshake) (fun c => record (Login c)) b1;;
       processReadData lens_fst (record Handshake) (fun c => record (Login c)) b2) s) as G;
      [|by eapply (G b1 k k' (d, ev))].
    clear. induction b1 as [|b b1 IH]; intros k k' [d ev] Hm H; [done|]. cbn [fst] in *.
    cbn [app processReadData]. unfold mbind, M_bind in *.
    rewrite (match_magic_step b d ev k Hm). cbn [matcher] in H. destruct Hm as [Hk Hlt].
    destruct (bool_decide _); [destruct (Nat.eqb_spec (Datatypes.S k) (length (m_magic_string d)))|]; try done;
      match goal with |- context [match_login _ _ b (set_count ?n d, ev)] =>
        destruct (match_login_total b (set_count n d) ev) as (d1 & ev1 & -> & _ & M1 & C1 & _) end;
      eapply IH; cbn [fst]; rewrite ?M1; try exact H; (split; [by rewrite C1|rewrite M1; cbn; lia]).
Qed.

(** The detector misses the magic string behind a false start.  On a
    mismatch it forgets what it had matched without trying the current
    character as a first one, so the program's own magic string, preceded
    by a single "S", does not start the handshake. *)
Theorem detector_false_start d c
    (Hm : matching d 0) (Hd : m_magic_string d = magic_string) (Hc : c ∉ magic_string) :
  exists d' ev', process (c :: x53 :: magic_string) (d, []) = Ret tt (d', ev') /\ Handshake ∉ ev' /\
    matching d' 0.
Proof.
  rewrite (process_spec _ _ _ 0 Hm). cbv zeta. rewrite Hd.
  pose proof (logins_events (looked_at magic_string 0 (c :: x53 :: magic_string)) d) as L.
  pose proof (logins_magic (looked_at magic_string 0 (c :: x53 :: magic_string)) d) as LM.
  assert (matcher magic_string 0 (c :: x53 :: magic_string) = inl 0%nat) as ->.
  { change (c :: x53 :: magic_string) with ([c] ++ x53 :: magic_string).
    rewrite matcher_app, matcher_reset by done. vm_compute. reflexivity. }
  eexists _, _. split; [reflexivity|]. cbn [app]. split.
  - intros Hin. rewrite Forall_forall in L. by specialize (L _ Hin).
  - split; [done|]. change (0 < length (m_magic_string (logins (looked_at magic_string 0 (c :: x53 :: magic_string)) d).1))%nat.
    rewrite LM. by destruct Hm.
Qed.

(** One byte through the login half: the count advances, restarts or
    stays, and reaching the pattern's length is what sends the command. *)
Lemma match_login_count b d :
  0 <= m_recognized_login_count d <= zlen (m_login_pattern d) ->
  exists d' ev, match_login lens_fst (fun c => record (Login c)) b (d, []) = Ret tt (d', ev) /\
    m_login_pattern d' = m_login_pattern d /\ m_remote_cmd d' = m_remote_cmd d /\
    0 <= m_recognized_login_count d' <= zlen (m_login_pattern d) /\
    (m_recognized_login_count d = zlen (m_login_pattern d) ->
       m_recognized_login_count d' = zlen (m_login_pattern d)) /\
    (ev = [] \/ ev = [Login (m_remote_cmd d)] /\ m_remote_cmd d <> [] /\
       m_recognized_login_count d < zlen (m_login_pattern d) /\
       m_recognized_login_count d' = zlen (m_login_pattern d)).
Proof.
  intros Hn. unfold match_login, gets, mbind, M_bind, on_detector, zoom, modify, when, mret, M_ret, record, modify.
  cbn [view update lens_fst fst snd].
  destruct (Z.ltb_spec 0 (zlen (m_remote_cmd d))) as [Hc|Hc], (Z.ltb_spec (m_recognized_login_count d) (zlen (m_login_pattern d)));
    cbn [andb]; try destruct (bool_decide _);
    try destruct (Z.leb_spec (zlen (m_login_pattern d)) (m_recognized_login_count d + 1));
    eexists _, _; (split; [reflexivity|]); cbn; split_and!; try done; try lia; try (by left).
  right. split_and!; try done; try lia. intros E. by rewrite E in Hc.
Qed.

Lemma logins_once bs d :
  0 <= m_recognized_login_count d <= zlen (m_login_pattern d) ->
  (m_recognized_login_count d = zlen (m_login_pattern d) ->
     (logins bs d).2 = [] /\ m_recognized_login_count (logins bs d).1 = zlen (m_login_pattern d)) /\
  ((logins bs d).2 = [] \/ (logins bs d).2 = [Login (m_remote_cmd d)] /\ m_remote_cmd d <> [] /\
     m_recognized_login_count (logins bs d).1 = zlen (m_login_pattern d)).
Proof.
  revert d. induction bs as [|b bs IH]; intros d Hn; [by auto|]. cbn [logins].
  destruct (match_login_count b d Hn) as (d1 & ev & -> & P1 & R1 & N1 & F1 & E1).
  rewrite <- P1 in N1. destruct (IH d1 N1) as [F2 E2]. rewrite P1, R1 in *.
  destruct (logins bs d1) as [d2 ev2]. cbn [fst snd] in *. split.
  - intros E. destruct (F2 (F1 E)) as [-> ?]. destruct E1 as [-> | (_ & _ & ? & _)]; [done|lia].
  - destruct E1 as [-> | (-> & ? & _ & N2)]; [done|]. destruct (F2 N2) as [-> ?]. by right.
Qed.

(** The remote command is sent at most once.  Whatever is read, at most
    one occurrence of the login pattern is answered, with the remote
    command and only if there is one; once one has been
    ([m_recognized_login_count] at the pattern's length) no further output
    is, in this call or in later ones. *)
Theorem login_once bs d ev k d' ev'
    (Hm : matching d k)
    (Hl : 0 <= m_recognized_login_count d <= zlen (m_login_pattern d))
    (Hrun : process bs (d, ev) = Ret tt (d', ev ++ ev')) :
  let sent := filter (fun e => is_login e = true) ev' in
  (sent = [] \/ sent = [Login (m_remote_cmd d)] /\ m_remote_cmd d <> [] /\
     m_recognized_login_count d' = zlen (m_login_pattern d)) /\
  (m_recognized_login_count d = zlen (m_login_pattern d) ->
     sent = [] /\ m_recognized_login_count d' = zlen (m_login_pattern d)).
Proof.
  rewrite (process_spec bs d ev k Hm) in Hrun. cbv zeta in Hrun.
  destruct (logins_once (looked_at (m_magic_string d) k bs) d Hl) as [F E].
  destruct (logins _ d) as [d1 ev1]. cbn [fst snd] in *.
  assert (m_recognized_login_count d' = m_recognized_login_count d1 /\
          filter (fun e => is_login e = true) ev' = filter (fun e => is_login e = true) ev1) as [-> ->].
  { destruct (matcher _ _ _); injection Hrun as <- X; apply app_inv_head in X; subst ev';
      (split; [done|]); rewrite ?filter_app; cbn; by rewrite ?app_nil_r. }
  split.
  - destruct E as [-> | (-> & ? & ?)]; [by left|by right].
  - intros X. by destruct (F X) as [-> ?].
Qed.

Definition demo : t :=
  setRemoteCmd (bytes_of "tun01") (setLoginPattern (bytes_of "$ ") (new_MagicStringDetector magic_string)).

Lemma detector_sound_witness :
  exists h rest logs, take 0 magic_string ++ (bytes_of "ok" ++ magic_string ++ bytes_of "!") = h ++ magic_string ++ rest /\
    [Handshake] = logs ++ [Handshake] /\ Handshake ∉ logs.
Proof.
  apply (detector_sound (bytes_of "ok" ++ magic_string ++ bytes_of "!") demo [] 0
           (set_count 31 demo) [Handshake]).
  - by split; [|vm_compute; lia].
  - vm_compute. reflexivity.
  - by constructor.
Defined.

Lemma detector_complete_witness :
  exists d' logs, process (bytes_of "$ hi" ++ x0a :: magic_string ++ []) (demo, []) =
     Ret tt (d', [] ++ logs ++ [Handshake]).
Proof.
  apply (detector_complete (bytes_of "$ hi") x0a [] demo [] 0).
  - by split; [|vm_compute; lia].
  - apply (bool_decide_unpack _). vm_compute. exact I.
Defined.

Lemma detector_false_start_witness :
  exists d' ev', process (x0a :: x53 :: magic_string) (demo, []) = Ret tt (d', ev') /\ Handshake ∉ ev' /\
    matching d' 0.
Proof.
  apply (detector_false_start demo x0a).
  - by split; [|vm_compute; lia].
  - reflexivity.
  - apply (bool_decide_unpack _). vm_compute. exact I.
Defined.

Lemma login_once_witness :
  let sent := filter (fun e => is_login e = true) [Login (bytes_of "tun01")] in
  (sent = [] \/ sent = [Login (m_remote_cmd demo)] /\ m_remote_cmd demo <> [] /\
     m_recognized_login_count (set_login_count 2 demo) = zlen (m_login_pattern demo)) /\
  (m_recognized_login_count demo = zlen (m_login_pattern demo) ->
     sent = [] /\ m_recognized_login_count (set_login_count 2 demo) = zlen (m_login_pattern demo)).
Proof.
  apply (login_once (bytes_of "$ x$ ") demo [] 0 (set_login_count 2 demo) [Login (bytes_of "tun01")]).
  - by split; [|vm_compute; lia].
  - vm_compute. done.
  - vm_compute. reflexivity.
Defined.
End Detection.
