(* ===== verification/Tunnel.v ===== *)
(** * The tunnel: what both processes keep

    [StdioTunnel] of StdioTunnel.h with the objects it reaches: the two
    streams, the poller, the connections and their links.  Objects that are
    shared by pointer live in two heaps of the state; an object that has been
    freed is no longer in its heap.  [R] is what the derived class
    ([StdioTunnelLocal] or [StdioTunnelRemote]) adds, [O] the objects of its
    own it registers with the poller. *)

From stdpp Require Import base list tactics gmap strings.
From Stdlib Require Import ZArith Lia.
From S2P Require Import Prelude Posix Wire SockBuffer Poller Spec.

(** ** The terminal

    The replacement for [cfmakeraw] of StdioTunnel.cpp, with the values Linux
    gives the flags. *)

Module Terminal.
Definition IGNBRK : Z := 1.
Definition BRKINT : Z := 2.
Definition PARMRK : Z := 8.
Definition ISTRIP : Z := 32.
Definition INLCR : Z := 64.
Definition IGNCR : Z := 128.
Definition ICRNL : Z := 256.
Definition IXON : Z := 1024.
Definition OPOST : Z := 1.
Definition ISIG : Z := 1.
Definition ICANON : Z := 2.
Definition ECHO : Z := 8.
Definition ECHONL : Z := 64.
Definition IEXTEN : Z := 32768.
Definition CSIZE : Z := 48.
Definition PARENB : Z := 256.
Definition CS8 : Z := 48.

Definition any (l : list Z) : Z := foldr Z.lor 0 l.
Definition cleared (x m : Z) : Z := Z.land x (Z.lnot m).

Definition cfmakeraw (t : termios) : termios :=
  Termios (cleared (c_iflag t) (any [IGNBRK; BRKINT; PARMRK; ISTRIP; INLCR; IGNCR; ICRNL; IXON]))
          (cleared (c_oflag t) OPOST)
          (cleared (c_lflag t) (any [ECHO; ECHONL; ICANON; ISIG; IEXTEN]))
          (Z.lor (cleared (c_cflag t) (any [CSIZE; PARENB])) CS8).

(** [enable_sig.c_lflag |= ISIG]. *)
Definition with_isig (t : termios) : termios :=
  Termios (c_iflag t) (c_oflag t) (Z.lor (c_lflag t) ISIG) (c_cflag t).

(** [cerr_endl] of StderrEndl.h: the end of a line on the standard error
    stream, by the mode of its terminal. *)
Definition cerr_endl {P : Posix} : M os (list byte) :=
  termios_now ← syscall (Lens id (fun o _ => o)) (sys_tcgetattr 2);
  mret (match termios_now with
        | SysErr _ => [x0a]
        | SysOk t => if has_bit (c_oflag t) OPOST then [x0a] else [x0d; x0a]
        end).
End Terminal.

(** [ConnectionLink]. *)
Module ConnectionLink.
Record t : Type := Mk {
  m_connection : nat;        (* TunnelConnection& *)
  m_socket : Z;
  m_id : Z;
  m_buffer : SockBuffer.t;
  m_closing : bool;
  m_acknowledged : bool
}.

(** The constructor; [id] is converted to [short]. *)
Definition new_ConnectionLink (connection : nat) (id socket : Z) : t :=
  Mk connection socket (i16 id) SockBuffer.init false true.

Definition set_buffer (b : SockBuffer.t) (k : t) : t :=
  Mk (m_connection k) (m_socket k) (m_id k) b (m_closing k) (m_acknowledged k).
Definition set_closing (k : t) : t :=
  Mk (m_connection k) (m_socket k) (m_id k) (m_buffer k) true (m_acknowledged k).
Definition set_acknowledged (ack : bool) (k : t) : t :=
  Mk (m_connection k) (m_socket k) (m_id k) (m_buffer k) (m_closing k) ack.
End ConnectionLink.

(** [TunnelConnection] and the two classes derived from it. *)
Module TunnelConnection.
Inductive side : Type :=
| ListenSide (m_listen_socket m_next_id : Z)
| ConnectSide.

Record t : Type := Mk {
  m_spec : ConnectionSpec.t;
  m_id : Z;
  m_link_map : gmap Z nat;
  m_side : side
}.

Definition new_ListenSide (spec : ConnectionSpec.t) (id : Z) : t :=
  Mk spec id ∅ (ListenSide (-1) 501).
Definition new_ConnectSide (spec : ConnectionSpec.t) (id : Z) : t :=
  Mk spec id ∅ ConnectSide.

Definition set_links (m : gmap Z nat) (c : t) : t := Mk (m_spec c) (m_id c) m (m_side c).
Definition set_side (d : side) (c : t) : t := Mk (m_spec c) (m_id c) (m_link_map c) d.

Definition BUFFER_SIZE : Z := 4096.
Definition LINK_CREATE : Z := 387.
Definition LINK_SEND : Z := 388.
Definition LINK_CLOSE : Z := 389.
Definition LINK_SUCCESS : Z := 390.
Definition LINK_FAILURE : Z := 391.
Definition LINK_SEND_FOR_ACK : Z := 392.
Definition LINK_ACK : Z := 393.
End TunnelConnection.

(** What the poller can point at: an object of the derived class, a
    [ListenSide] or a [ConnectionLink]. *)
Inductive obj (O : Type) : Type :=
| POwn (o : O)
| PListen (c : nat)
| PLink (l : nat).
Arguments POwn {O} o.
Arguments PListen {O} c.
Arguments PLink {O} l.

#[export] Instance obj_eq_decision {O} `{EqDecision O} : EqDecision (obj O).
Proof. solve_decision. Defined.

Module StdioTunnel.
Definition CMD_ERROR : Z := 401.
Definition CMD_CREATE : Z := 402.
Definition CMD_CONNECTION : Z := 403.
Definition CMD_SHUTDOWN : Z := 404.
Definition STDIN_FD : Z := 0.
Definition STDOUT_FD : Z := 1.

Section State.
Context {P : Posix} {R O : Type}.

Record tunnel : Type := Tunnel {
  m_read_stream : ReadStream.t;
  m_write_stream : WriteStream.t;
  (** [m_poller], [m_polled] and [m_fd] of [CustomWriteStream], which
      [start] sets together. *)
  m_write_target : option (O * Z);
  m_closed_by_request : bool;
  m_termios : termios;
  m_is_terminal : bool;
  m_poller : Poller.t (obj O);
  m_connection_map : gmap Z nat;
  connections : gmap nat TunnelConnection.t;
  links : gmap nat ConnectionLink.t;
  next_object : nat;
  g_signaled : bool;
  role : R;
  system : os
}.

Definition reader : lens tunnel ReadStream.t := Lens m_read_stream (fun x s =>
  Tunnel x (m_write_stream s) (m_write_target s) (m_closed_by_request s) (m_termios s) (m_is_terminal s) (m_poller s) (m_connection_map s) (connections s) (links s) (next_object s) (g_signaled s) (role s) (system s)).
Definition writer : lens tunnel WriteStream.t := Lens m_write_stream (fun x s =>
  Tunnel (m_read_stream s) x (m_write_target s) (m_closed_by_request s) (m_termios s) (m_is_terminal s) (m_poller s) (m_connection_map s) (connections s) (links s) (next_object s) (g_signaled s) (role s) (system s)).
Definition target_of : lens tunnel (option (O * Z)) := Lens m_write_target (fun x s =>
  Tunnel (m_read_stream s) (m_write_stream s) x (m_closed_by_request s) (m_termios s) (m_is_terminal s) (m_poller s) (m_connection_map s) (connections s) (links s) (next_object s) (g_signaled s) (role s) (system s)).
Definition closed_of : lens tunnel bool := Lens m_closed_by_request (fun x s =>
  Tunnel (m_read_stream s) (m_write_stream s) (m_write_target s) x (m_termios s) (m_is_terminal s) (m_poller s) (m_connection_map s) (connections s) (links s) (next_object s) (g_signaled s) (role s) (system s)).
Definition poller : lens tunnel (Poller.t (obj O)) := Lens m_poller (fun x s =>
  Tunnel (m_read_stream s) (m_write_stream s) (m_write_target s) (m_closed_by_request s) (m_termios s) (m_is_terminal s) x (m_connection_map s) (connections s) (links s) (next_object s) (g_signaled s) (role s) (system s)).
Definition map_of : lens tunnel (gmap Z nat) := Lens m_connection_map (fun x s =>
  Tunnel (m_read_stream s) (m_write_stream s) (m_write_target s) (m_closed_by_request s) (m_termios s) (m_is_terminal s) (m_poller s) x (connections s) (links s) (next_object s) (g_signaled s) (role s) (system s)).
Definition connection_heap : lens tunnel (gmap nat TunnelConnection.t) := Lens connections (fun x s =>
  Tunnel (m_read_stream s) (m_write_stream s) (m_write_target s) (m_closed_by_request s) (m_termios s) (m_is_terminal s) (m_poller s) (m_connection_map s) x (links s) (next_object s) (g_signaled s) (role s) (system s)).
Definition link_heap : lens tunnel (gmap nat ConnectionLink.t) := Lens links (fun x s =>
  Tunnel (m_read_stream s) (m_write_stream s) (m_write_target s) (m_closed_by_request s) (m_termios s) (m_is_terminal s) (m_poller s) (m_connection_map s) (connections s) x (next_object s) (g_signaled s) (role s) (system s)).
Definition next_of : lens tunnel nat := Lens next_object (fun x s =>
  Tunnel (m_read_stream s) (m_write_stream s) (m_write_target s) (m_closed_by_request s) (m_termios s) (m_is_terminal s) (m_poller s) (m_connection_map s) (connections s) (links s) x (g_signaled s) (role s) (system s)).
Definition signaled_of : lens tunnel bool := Lens g_signaled (fun x s =>
  Tunnel (m_read_stream s) (m_write_stream s) (m_write_target s) (m_closed_by_request s) (m_termios s) (m_is_terminal s) (m_poller s) (m_connection_map s) (connections s) (links s) (next_object s) x (role s) (system s)).
Definition role_of : lens tunnel R := Lens role (fun x s =>
  Tunnel (m_read_stream s) (m_write_stream s) (m_write_target s) (m_closed_by_request s) (m_termios s) (m_is_terminal s) (m_poller s) (m_connection_map s) (connections s) (links s) (next_object s) (g_signaled s) x (system s)).
Definition system_of : lens tunnel os := Lens system (fun x s =>
  Tunnel (m_read_stream s) (m_write_stream s) (m_write_target s) (m_closed_by_request s) (m_termios s) (m_is_terminal s) (m_poller s) (m_connection_map s) (connections s) (links s) (next_object s) (g_signaled s) (role s) x).
Definition terminal_of : lens tunnel (termios * bool) := Lens (fun s => (m_termios s, m_is_terminal s)) (fun x s =>
  Tunnel (m_read_stream s) (m_write_stream s) (m_write_target s) (m_closed_by_request s) x.1 x.2 (m_poller s) (m_connection_map s) (connections s) (links s) (next_object s) (g_signaled s) (role s) (system s)).

(** The constructor.  [m_termios] and [m_is_terminal] are set only when
    standard input is a terminal, and the poller leaves two members
    unset: [memory] is what they held. *)
Definition new_StdioTunnel (r : R) (memory : (termios * bool) * (Z * Z)) (o : os) : tunnel :=
  let p := Poller.init memory.2.1 memory.2.2 in
  let p := Poller.Mk (Poller.m_polled p) (Poller.m_next p) (Poller.m_size p) (Poller.m_orig_size p)
             (Poller.m_index p) (Poller.m_timeout p) (Poller.m_finishing p) true in
  let make term o := Tunnel ReadStream.init WriteStream.init None false term.1 term.2 p ∅ ∅ ∅ 0%nat false r o in
  match sys_tcgetattr STDIN_FD o with
  | (SysOk t, o1) => make (t, true) (sys_tcsetattr STDIN_FD TCSANOW (Terminal.cfmakeraw t) o1)
  | (SysErr _, o1) => make memory.1 o1
  end.

(** The destructor. *)
Definition destroy : M tunnel unit :=
  term ← gets (view terminal_of);
  when term.2 (syscall_ system_of (sys_tcsetattr STDIN_FD TCSANOW term.1));;
  syscall_ system_of (sys_blocking STDIN_FD);;
  syscall_ system_of (sys_blocking STDOUT_FD).
End State.
Arguments tunnel {P} R O.

#[export] Instance reader_laws {P R O} : LensLaws (@reader P R O). Proof. split; [done|by intros []|done]. Qed.
#[export] Instance writer_laws {P R O} : LensLaws (@writer P R O). Proof. split; [done|by intros []|done]. Qed.
#[export] Instance poller_laws {P R O} : LensLaws (@poller P R O). Proof. split; [done|by intros []|done]. Qed.
#[export] Instance map_of_laws {P R O} : LensLaws (@map_of P R O). Proof. split; [done|by intros []|done]. Qed.
#[export] Instance connection_heap_laws {P R O} : LensLaws (@connection_heap P R O). Proof. split; [done|by intros []|done]. Qed.
#[export] Instance link_heap_laws {P R O} : LensLaws (@link_heap P R O). Proof. split; [done|by intros []|done]. Qed.
#[export] Instance role_of_laws {P R O} : LensLaws (@role_of P R O). Proof. split; [done|by intros []|done]. Qed.
#[export] Instance system_of_laws {P R O} : LensLaws (@system_of P R O). Proof. split; [done|by intros []|done]. Qed.
End StdioTunnel.

(** The virtual functions of [StdioTunnel], and [setPollfd] of the objects
    the derived class registers. *)
Class Role {P : Posix} (R O : Type) : Type := {
  reportError : list byte -> M (StdioTunnel.tunnel R O) unit;
  own_setPollfd : O -> M (StdioTunnel.tunnel R O) (Z * Z)
}.

(** ** Members and objects *)

Module Heap.
Import StdioTunnel.

Section Heap.
Context {P : Posix} {R O : Type}.
Abbreviation S := (StdioTunnel.tunnel R O).

(** Access through a pointer. *)
Definition connection_of (c : nat) : M S TunnelConnection.t :=
  h ← gets connections; deref Dangling (h !! c).
Definition link_of (l : nat) : M S ConnectionLink.t :=
  h ← gets links; deref Dangling (h !! l).

Definition set_connection (f : TunnelConnection.t -> TunnelConnection.t) (c : nat) : M S unit :=
  zoom connection_heap (modify (alter f c)).
Definition set_link (f : ConnectionLink.t -> ConnectionLink.t) (l : nat) : M S unit :=
  zoom link_heap (modify (alter f l)).

(** The buffer of a link that is there. *)
Definition buffer_of (l : nat) : lens S SockBuffer.t :=
  Lens (fun s => default SockBuffer.init (ConnectionLink.m_buffer <$> links s !! l))
       (fun b s => update link_heap (alter (ConnectionLink.set_buffer b) l (links s)) s).

(** [make_shared]. *)
Definition new_link (k : ConnectionLink.t) : M S nat :=
  l ← gets next_object;
  zoom next_of (modify Datatypes.S);;
  zoom link_heap (modify (insert l k));;
  mret l.
Definition new_connection (k : TunnelConnection.t) : M S nat :=
  c ← gets next_object;
  zoom next_of (modify Datatypes.S);;
  zoom connection_heap (modify (insert c k));;
  mret c.

(** The last pointer to an object goes. *)
Definition free_link (l : nat) : M S unit := zoom link_heap (modify (delete l)).
Definition free_connection (c : nat) : M S unit :=
  h ← gets connections;
  match h !! c with
  | Some k =>
      zoom link_heap (modify (fun m =>
        foldr delete m (map snd (map_to_list (TunnelConnection.m_link_map k)))));;
      zoom connection_heap (modify (delete c))
  | None => mret tt
  end.
End Heap.
End Heap.
