(* ===== verification/Connection.v ===== *)
(** * Connections and links

    The operations of [CustomWriteStream], [ConnectionLink],
    [TunnelConnection], [ListenSide] and [ConnectSide] of StdioTunnel.cpp,
    over the state of Tunnel.v.  A link forwards what its socket delivers as
    LINK_SEND messages and writes what such messages bring to its socket; a
    [ListenSide] accepts sockets and asks the other process for the other
    ends; a [ConnectSide] makes them. *)

From stdpp Require Import base list tactics gmap strings.
From Stdlib Require Import ZArith Lia.
From S2P Require Import Prelude Posix Wire SockBuffer Poller Spec Tunnel.

Section Operations.
Import StdioTunnel Heap TunnelConnection ConnectionLink.
Context {P : Posix} {R O : Type} `{EqDecision O} `{!Role R O}.
Abbreviation S := (StdioTunnel.tunnel R O).

(** *** CustomWriteStream *)

Definition send : M S unit :=
  target ← gets m_write_target;
  match target with
  | None => throw (ExnMsg "send uninitialized write stream")
  | Some (m_polled, m_fd) =>
      zoom writer WriteStream.send;;
      zoom poller (Poller.setEvents (POwn m_polled) m_fd POLLOUT)
  end.

Definition writeShort (z : Z) : M S unit := zoom writer (WriteStream.writeShort z).
Definition readShort : M S Z := zoom reader ReadStream.readShort.

(** *** ConnectionLink *)

Definition setAcknowledged (l : nat) (ack : bool) : M S unit :=
  set_link (set_acknowledged ack) l;;
  k ← link_of l;
  if negb (m_closing k) then
    let events := Z.lor (if ack then POLLIN else 0)
                        (if SockBuffer.unsentData (m_buffer k) then POLLOUT else 0) in
    zoom poller (Poller.setEvents (PLink l) (m_socket k) events)
  else mret tt.

Definition setClosing (l : nat) : M S unit :=
  set_link set_closing l;;
  k ← link_of l;
  syscall_ system_of (sys_close (m_socket k));;
  zoom poller (Poller.removePolled (PLink l) (m_socket k)).

(** *** TunnelConnection *)

Definition closeLink (c to_close : nat) : M S unit :=
  k ← link_of to_close;
  when (negb (m_closing k))
    (setClosing to_close;;
     n ← connection_of c;
     writeShort CMD_CONNECTION;;
     writeShort (TunnelConnection.m_id n);;
     writeShort LINK_CLOSE;;
     writeShort (ConnectionLink.m_id k);;
     send).

Definition acks (n : TunnelConnection.t) : bool :=
  has_bit (ConnectionSpec.m_flags (m_spec n)) ConnectionSpec.ACK_PACKETS.

Definition sendData (c source : nat) (bytes : list byte) : M S unit :=
  n ← connection_of c;
  k ← link_of source;
  writeShort CMD_CONNECTION;;
  writeShort (TunnelConnection.m_id n);;
  writeShort (if acks n then LINK_SEND_FOR_ACK else LINK_SEND);;
  writeShort (ConnectionLink.m_id k);;
  writeShort (zlen bytes);;
  zoom writer (WriteStream.writeBytes bytes);;
  send.

Definition receiveData (link : nat) : M S unit :=
  length ← readShort;
  if BUFFER_SIZE <? length then throw (ExnMsg "Bad receive length")
  else
    buffer ← zoom reader (ReadStream.readBytes length);
    k ← link_of link;
    when (negb (m_closing k))
      (zoom (buffer_of link) (SockBuffer.pushOnBuffer buffer);;
       zoom poller (Poller.setEvents (PLink link) (m_socket k) POLLOUT)).

(** [m_link_map.erase], which drops the map's pointer to the link. *)
Definition erase_link (c : nat) (id : Z) (l : nat) : M S unit :=
  set_connection (fun n => set_links (delete id (m_link_map n)) n) c;;
  free_link l.

Definition processLinkMessage (c : nat) (command : Z) (link : nat) : M S unit :=
  if command =? LINK_SEND then receiveData link
  else if command =? LINK_CLOSE then
    closeLink c link;;
    k ← link_of link;
    n ← connection_of c;
    match m_link_map n !! ConnectionLink.m_id k with
    | Some l => erase_link c (ConnectionLink.m_id k) l
    | None => undefined OutOfRange
    end
  else if command =? LINK_SEND_FOR_ACK then
    receiveData link;;
    k ← link_of link;
    if negb (m_closing k) then
      n ← connection_of c;
      writeShort CMD_CONNECTION;;
      writeShort (TunnelConnection.m_id n);;
      writeShort LINK_ACK;;
      writeShort (ConnectionLink.m_id k);;
      send
    else setAcknowledged link true
  else if command =? LINK_ACK then setAcknowledged link true
  else mret tt.

(** [ConnectionLink::polled]. *)
Definition link_polled (l : nat) (poll_struct : pollfd) : M S unit :=
  k ← link_of l;
  let c := m_connection k in
  closed ← (if has_bit (revents poll_struct) POLLIN then
      r ← syscall system_of (sys_read (m_socket k) BUFFER_SIZE);
      let buffer := match r with SysOk bs => bs | SysErr _ => [] end in
      if zlen buffer <=? 0 then closeLink c l;; mret true
      else
        sendData c l buffer;;
        n ← connection_of c;
        when (acks n) (setAcknowledged l false);;
        mret false
    else mret false);
  if closed : bool then mret tt
  else
    when (has_bit (revents poll_struct) POLLOUT)
      (zoom (lens_pair (buffer_of l) system_of) (SockBuffer.writeData (m_socket k));;
       k' ← link_of l;
       when (negb (SockBuffer.unsentData (m_buffer k')))
         (zoom poller (Poller.setEvents (PLink l) (m_socket k') (if m_acknowledged k' then POLLIN else 0))));;
    when (has_bit (revents poll_struct) (Z.lor POLLERR (Z.lor POLLHUP POLLNVAL)))
      (closeLink c l).

Definition link_setPollfd (l : nat) : M S (Z * Z) :=
  k ← link_of l; mret (m_socket k, POLLIN).
Definition link_cleanup (l : nat) : M S unit :=
  k ← link_of l; syscall_ system_of (sys_close (m_socket k)).

(** *** ListenSide *)

(** The members a [ListenSide] has of its own. *)
Definition listener_of (c : nat) : M S (TunnelConnection.t * (Z * Z)) :=
  n ← connection_of c;
  match m_side n with
  | ListenSide m_listen_socket m_next_id => mret (n, (m_listen_socket, m_next_id))
  | ConnectSide => undefined Dangling
  end.

Definition listen_setPollfd (c : nat) : M S (Z * Z) :=
  n ← listener_of c; mret (n.2.1, POLLIN).
Definition listen_cleanup (c : nat) : M S unit :=
  n ← listener_of c; syscall_ system_of (sys_close n.2.1).

#[export] Instance tunnel_registers : Registers S (obj O) := {|
  setPollfd o := match o with
    | POwn o => own_setPollfd o
    | PListen c => listen_setPollfd c
    | PLink l => link_setPollfd l
    end
|}.

Definition addPolled (o : obj O) : M S unit := Poller.addPolled poller o.

(** [stringstream << n] of a [short]. *)
Definition show_short (n : Z) : string :=
  if n <? 0 then "-" +:+ string_of (decimal (- n)) else string_of (decimal n).

(** [m_link_map[id] = link]; a link that was there goes. *)
Definition assign_link (c : nat) (id : Z) (link : nat) : M S unit :=
  n ← connection_of c;
  set_connection (set_links (<[id := link]> (m_link_map n))) c;;
  match m_link_map n !! id with Some l => free_link l | None => mret tt end.

(** [processMessage] once it has read the command and the link's id. *)
Definition listen_message (c : nat) (n : TunnelConnection.t) (cmd link_id : Z) : M S unit :=
  match m_link_map n !! link_id with
  | None => throw (ExnMsg ("Link: " +:+ show_short link_id +:+ " not found"))
  | Some link =>
      if cmd =? LINK_CREATE then
        result_code ← readShort;
        if result_code =? LINK_SUCCESS then addPolled (PLink link)
        else
          k ← link_of link;
          syscall_ system_of (sys_close (m_socket k));;
          erase_link c link_id link
      else processLinkMessage c cmd link
  end.

Definition listen_processMessage (c : nat) : M S unit :=
  cmd ← readShort;
  link_id ← readShort;
  n ← connection_of c;
  listen_message c n cmd link_id.

(** [initialize], of the listener [c]. *)
Definition initialize (c : nat) : M S bool :=
  n ← connection_of c;
  let any := has_bit (ConnectionSpec.m_flags (m_spec n)) ConnectionSpec.PROMISCUOUS in
  let set_socket f := set_connection (fun n =>
    match m_side n with ListenSide _ next => set_side (ListenSide f next) n | ConnectSide => n end) c in
  r ← syscall system_of sys_socket;
  match r with
  | SysErr _ => set_socket (-1);; mret false
  | SysOk f =>
      set_socket f;;
      b ← syscall system_of (sys_bind f any (u16 (ConnectionSpec.m_listen_port (m_spec n))));
      match b with
      | SysErr e => throw (ExnErrno e)
      | SysOk _ =>
          nb ← syscall system_of (sys_nonblock f);
          match nb with
          | SysErr _ => mret false
          | SysOk _ =>
              li ← syscall system_of (sys_listen f 5);
              mret (match li with SysOk _ => true | SysErr _ => false end)
          end
      end
  end.

(** [ListenSide::polled]. *)
Definition listen_polled (c : nat) : M S unit :=
  n ← listener_of c;
  r ← syscall system_of (sys_accept n.2.1);
  match r with
  | SysErr e => throw (ExnErrno e)
  | SysOk connect_sock =>
      nb ← syscall system_of (sys_nonblock connect_sock);
      match nb with
      | SysErr e => throw (ExnErrno e)
      | SysOk _ =>
          let next_id := n.2.2 in
          set_connection (set_side (ListenSide n.2.1 (next_id + 1))) c;;
          link ← new_link (new_ConnectionLink c next_id connect_sock);
          assign_link c (i16 next_id) link;;
          writeShort CMD_CONNECTION;;
          writeShort (TunnelConnection.m_id n.1);;
          writeShort LINK_CREATE;;
          writeShort next_id;;
          send
      end
  end.

(** *** ConnectSide *)

(** The inner part of LINK_CREATE: connect, or report why not. *)
Definition connect_link (c : nat) (link_id : Z) (spec : ConnectionSpec.t) : M S bool :=
  let host := ConnectionSpec.m_connect_host spec in
  host_entry ← syscall system_of (sys_gethostbyname host);
  match host_entry with
  | None => reportError (host ++ bytes_of " not found");; mret false
  | Some addr =>
      r ← syscall system_of sys_socket;
      match r with
      | SysErr _ => reportError (bytes_of "Cannot create connect socket");; mret false
      | SysOk connect_sock =>
          cn ← syscall system_of
            (sys_connect connect_sock addr (u16 (ConnectionSpec.m_connect_port spec)));
          success ← match cn with
            | SysErr _ => reportError (bytes_of "Failed to connect to " ++ host);; mret false
            | SysOk _ =>
                nb ← syscall system_of (sys_nonblock connect_sock);
                match nb with
                | SysErr _ =>
                    reportError (bytes_of "Failed to set connect socket non blocking");; mret false
                | SysOk _ =>
                    link ← new_link (new_ConnectionLink c link_id connect_sock);
                    addPolled (PLink link);;
                    assign_link c link_id link;;
                    mret true
                end
            end;
          when (negb success) (syscall_ system_of (sys_close connect_sock));;
          mret success
      end
  end.

(** [processMessage] once it has read the command and the link's id. *)
Definition connect_message (c : nat) (n : TunnelConnection.t) (command link_id : Z) : M S unit :=
  if command =? LINK_CREATE then
    success ← connect_link c link_id (m_spec n);
    writeShort CMD_CONNECTION;;
    writeShort (TunnelConnection.m_id n);;
    writeShort LINK_CREATE;;
    writeShort link_id;;
    writeShort (if success : bool then LINK_SUCCESS else LINK_FAILURE);;
    send
  else
    match m_link_map n !! link_id with
    | None => mret tt
    | Some link => processLinkMessage c command link
    end.

Definition connect_processMessage (c : nat) : M S unit :=
  command ← readShort;
  link_id ← readShort;
  n ← connection_of c;
  connect_message c n command link_id.

(** *** Dispatch *)

(** The virtual [processMessage]. *)
Definition processMessage (c : nat) : M S unit :=
  n ← connection_of c;
  match m_side n with
  | ListenSide _ _ => listen_processMessage c
  | ConnectSide => connect_processMessage c
  end.

(** [m_connection_map[id]->processMessage]: an [id] that is not in
    the map yields a null pointer. *)
Definition connection_message (id : Z) : M S unit :=
  m ← gets m_connection_map;
  c ← deref NullDeref (m !! id);
  processMessage c.

Definition CreateConnection (spec : ConnectionSpec.t) (is_local : bool) (id : Z) : M S (option nat) :=
  let ty := ConnectionSpec.m_connection_type spec in
  if (is_local && (ty =? ConnectionSpec.CONNECT)) || (negb is_local && (ty =? ConnectionSpec.LISTEN)) then
    listener ← new_connection (new_ListenSide spec id);
    ok ← initialize listener;
    if ok : bool then addPolled (PListen listener);; mret (Some listener)
    else free_connection listener;; mret None
  else
    c ← new_connection (new_ConnectSide spec id);
    mret (Some c).

(** [m_connection_map[id] = pConn]. *)
Definition assign_connection (id : Z) (c : nat) : M S unit :=
  m ← gets m_connection_map;
  zoom map_of (modify (insert id c));;
  match m !! id with Some old => free_connection old | None => mret tt end.

(** *** StdioTunnel *)

Definition setShutdownByRequest : M S unit := zoom closed_of (modify (fun _ => true)).

(** [signalHandler], run for the signals that have come. *)
Definition signalHandler : M S unit := zoom signaled_of (modify (fun _ => true)).
Definition deliver_signals : M S unit :=
  came ← syscall system_of sys_signal; when came signalHandler.

Definition poll_callback : M S unit :=
  deliver_signals;;
  signaled ← gets g_signaled;
  when signaled (zoom poller Poller.requestFinish).
End Operations.
