(* ===== verification/Sblist.v ===== *)
(** * sblist: the list of client threads

    src/src/microsocks/sblist.c and sblist_delete.c.  A growing array of
    items of [itemsize] bytes.  The memory behind [items] is a list of bytes;
    an item is the bytes at its index.  [represents] relates it to the list
    of items, and each operation to the operation on that list. *)

From stdpp Require Import base list tactics.
From Stdlib Require Import ZArith Lia.
From S2P Require Import Prelude Posix.

Module Sblist.

Record sblist : Type := Mk {
  itemsize : Z;
  blockitems : Z;
  count : Z;
  capa : Z;
  items_at : Z;             (* the pointer [items]; 0 is null *)
  items : list byte         (* [capa * itemsize] bytes there *)
}.

Definition MY_PAGE_SIZE : Z := 4096.

Definition sblist_clear (l : sblist) : sblist := Mk (itemsize l) (blockitems l) 0 0 0 [].

(** On memory whose content does not matter. *)
Definition sblist_init (isize bitems : Z) : sblist :=
  sblist_clear (Mk isize (if bitems =? 0 then MY_PAGE_SIZE / isize else bitems) 0 0 0 []).

Definition sblist_getsize (l : sblist) : Z := count l.

(** The offset of an item in the memory. *)
Definition sblist_item_from_index (l : sblist) (idx : Z) : Z := u64 (idx * itemsize l).

(** The bytes at [off], where all of them are in the memory. *)
Definition load (l : sblist) (off n : Z) : option (list byte) :=
  if (0 <=? off) && (off + n <=? zlen (items l))
  then Some (take (Z.to_nat n) (drop (Z.to_nat off) (items l))) else None.
Definition store (l : sblist) (off : Z) (bs : list byte) : option sblist :=
  if (0 <=? off) && (off + zlen bs <=? zlen (items l))
  then Some (Mk (itemsize l) (blockitems l) (count l) (capa l) (items_at l)
                (take (Z.to_nat off) (items l) ++ bs ++ drop (Z.to_nat (off + zlen bs)) (items l)))
  else None.

(** The offset of the item, or a null pointer. *)
Definition sblist_get (l : sblist) (item : Z) : option Z :=
  if item <? count l then Some (sblist_item_from_index l item) else None.

Section Effects.
Context {P : Posix}.

(** [memcpy] of an item to a position. *)
Definition sblist_set (item : list byte) (pos : Z) : M (sblist * os) bool := fun '(l, o) =>
  if count l <=? pos then Ret false (l, o)
  else match store l (sblist_item_from_index l pos) item with
       | Some l' => Ret true (l', o)
       | None => Undef BufferOverrun
       end.

(** The new part of a [realloc]ed memory is indeterminate; nothing reads
    it before it is set. *)
Definition sblist_grow_if_needed : M (sblist * os) bool := fun '(l, o) =>
  if count l =? capa l then
    let n := u64 (u64 (capa l + blockitems l) * itemsize l) in
    match sys_malloc n o with
    | (None, o') => Ret false (l, o')
    | (Some temp, o') =>
        Ret true (Mk (itemsize l) (blockitems l) (count l) (u64 (capa l + blockitems l)) temp
                     (take (Z.to_nat n) (items l ++ replicate (Z.to_nat n - length (items l)) x00)), o')
    end
  else Ret true (l, o).

Definition sblist_add (item : list byte) : M (sblist * os) bool :=
  ok ← sblist_grow_if_needed;
  if ok : bool then
    modify (fun lo => (Mk (itemsize lo.1) (blockitems lo.1) (u64 (count lo.1 + 1)) (capa lo.1) (items_at lo.1) (items lo.1), lo.2));;
    n ← gets (fun lo => count lo.1);
    sblist_set item (n - 1)
  else mret false.

(** [malloc] of the five members and [sblist_init] there; null when there is
    no memory. *)
Definition sblist_new (isize bitems : Z) : M os (option (Z * sblist)) := fun o =>
  let '(ret, o') := sys_malloc 40 o in
  Ret (p ← ret; Some (p, sblist_init isize bitems)) o'.

Definition sblist_free_items : M (sblist * os) unit :=
  a ← gets (fun lo => items_at lo.1);
  when (negb (a =? 0)) (modify (fun lo => (lo.1, sys_free a lo.2)));;
  modify (fun lo => (sblist_clear lo.1, lo.2)).

(** The list at an address, or at none. *)
Definition sblist_free (at_ : option (Z * sblist)) : M os unit := fun o =>
  match at_ with
  | None => Ret tt o
  | Some (p, l) =>
      match sblist_free_items (l, o) with
      | Ret _ (_, o') => Ret tt (sys_free p o')
      | Throw e (_, o') => Throw e o'
      | Undef u => Undef u
      | NoFuel => NoFuel
      end
  end.
End Effects.

(** [memmove] of what follows the item over it. *)
Definition sblist_delete (item : Z) : M sblist unit := fun l =>
  if negb (count l =? 0) && (item <? count l) then
    let n := u64 ((sblist_getsize l - (item + 1)) * itemsize l) in
    match load l (sblist_item_from_index l (item + 1)) n with
    | None => Undef BufferOverrun
    | Some bs =>
        match store l (sblist_item_from_index l item) bs with
        | None => Undef BufferOverrun
        | Some l' => Ret tt (Mk (itemsize l') (blockitems l') (count l' - 1) (capa l') (items_at l') (items l'))
        end
    end
  else Ret tt l.
End Sblist.

Section SblistFacts.
Import Sblist.
Implicit Types (l : sblist) (xs : list (list byte)).

(** [l] holds the items [xs]; [k] is the room of an item. *)
Definition represents l xs : Prop :=
  0 < itemsize l /\ 0 < blockitems l /\ count l = zlen xs /\ count l <= capa l /\
  zlen (items l) = capa l * itemsize l /\
  (capa l + blockitems l) * itemsize l < 18446744073709551616 /\
  Forall (fun x => zlen x = itemsize l) xs /\
  exists slack, items l = concat xs ++ slack.

Lemma length_concat_items n xs : Forall (fun x => zlen x = n) xs -> zlen (concat xs) = zlen xs * n.
Proof.
  induction 1 as [|x xs Hx _ IH]; [done|]. cbn [concat]. rewrite length_app. cbn [length]. lia.
Qed.

Lemma item_offset l i : 0 < itemsize l -> 0 <= i <= capa l -> 0 < blockitems l ->
  (capa l + blockitems l) * itemsize l < 18446744073709551616 ->
  sblist_item_from_index l i = i * itemsize l.
Proof. intros. unfold sblist_item_from_index, u64. apply Z.mod_small. nia. Qed.

Lemma represents_init isize bitems : 0 < isize -> 0 < bitems ->
  bitems * isize < 18446744073709551616 -> represents (sblist_init isize bitems) [].
Proof.
  intros. unfold represents, sblist_init, sblist_clear. destruct (Z.eqb_spec bitems 0); [lia|].
  cbn [itemsize blockitems count capa items length]. split_and!; try lia; [constructor|by exists []].
Qed.

Lemma sblist_get_spec l xs i : represents l xs -> 0 <= i ->
  match sblist_get l i with
  | Some off => load l off (itemsize l) = xs !! Z.to_nat i /\ i < zlen xs
  | None => xs !! Z.to_nat i = None
  end.
Proof.
  intros (H1 & H2 & Hc & Hcap & Hl & Ho & HF & slack & Hi) Hi0. unfold sblist_get.
  destruct (Z.ltb_spec i (count l)); [|apply lookup_ge_None; lia].
  split; [|lia]. rewrite item_offset by lia.
  destruct (lookup_lt_is_Some_2 xs (Z.to_nat i)) as [x Hx]; [lia|]. rewrite Hx.
  rewrite <- (take_drop_middle xs (Z.to_nat i) x Hx) in Hi, HF. rewrite concat_app in Hi. cbn [concat] in Hi.
  apply Forall_app in HF as [F1 F2]. inversion F2 as [|? ? Fx F3]; subst.
  apply length_concat_items in F1. rewrite length_take in F1.
  unfold load. rewrite Hl. destruct (Z.leb_spec 0 (i * itemsize l)); [|nia].
  destruct (Z.leb_spec (i * itemsize l + itemsize l) (capa l * itemsize l)); [|nia].
  cbn [andb]. f_equal. rewrite Hi, <- !app_assoc.
  rewrite drop_app_exact by nia. rewrite take_app_exact by lia. done.
Qed.

Context {P : Posix}.

Lemma grow_spec l xs o : represents l xs ->
  match sblist_grow_if_needed (l, o) with
  | Ret ok (l', o') =>
      (capa l + 2 * blockitems l) * itemsize l < 18446744073709551616 ->
      represents l' xs /\ itemsize l' = itemsize l /\ (ok = true -> count l' < capa l')
  | _ => False end.
Proof.
  intros (H1 & H2 & Hc & Hcap & Hl & Ho & HF & slack & Hi). unfold sblist_grow_if_needed.
  destruct (Z.eqb_spec (count l) (capa l)) as [E|E].
  - destruct (sys_malloc _ o) as [[p|] o']; intros Hb.
    + unfold u64. rewrite (Z.mod_small (capa l + blockitems l)) by nia. rewrite Z.mod_small by nia.
      cbn [itemsize]. split; [|split; [done|cbn; lia]].
      unfold represents. cbn [itemsize blockitems count capa items].
      set (n := Z.to_nat ((capa l + blockitems l) * itemsize l)).
      assert (length (items l) <= n)%nat by nia.
      rewrite firstn_all2 by (rewrite length_app, length_replicate; lia).
      split_and!; try done; try lia.
      * rewrite length_app, length_replicate. nia.
      * exists (slack ++ replicate (n - length (items l)) x00). rewrite Hi at 1. by rewrite app_assoc.
    + split; [|done]. unfold represents. split_and!; try done. by exists slack.
  - intros _. split; [|split; [done|lia]]. unfold represents. split_and!; try done. by exists slack.
Qed.

Lemma store_at l pre old post bs off :
  items l = pre ++ old ++ post -> zlen old = zlen bs -> off = zlen pre ->
  store l off bs = Some (Mk (itemsize l) (blockitems l) (count l) (capa l) (items_at l) (pre ++ bs ++ post)).
Proof.
  intros E Hold ->. unfold store. rewrite E, !length_app.
  destruct (Z.leb_spec 0 (zlen pre)); [|lia].
  destruct (Z.leb_spec (zlen pre + zlen bs) (Z.of_nat (length pre + (length old + length post)))); [|lia].
  cbn [andb]. rewrite take_app_exact by lia. rewrite (app_assoc pre old post), drop_app_exact by (rewrite length_app; lia).
  done.
Qed.

Lemma add_spec l xs item o : represents l xs -> zlen item = itemsize l ->
  (capa l + 2 * blockitems l) * itemsize l < 18446744073709551616 ->
  match sblist_add item (l, o) with
  | Ret true (l', _) => represents l' (xs ++ [item])
  | Ret false (l', _) => represents l' xs
  | _ => False end.
Proof.
  intros R Hitem Hb. pose proof (grow_spec l xs o R) as G. unfold sblist_add, mbind, M_bind.
  destruct (sblist_grow_if_needed (l, o)) as [[] [l1 o1]| | |]; try done;
    destruct (G Hb) as (R1 & I1 & C1); [|exact R1].
  specialize (C1 eq_refl). destruct R1 as (H1 & H2 & Hc & Hcap & Hl & Ho & HF & slack & Hi).
  unfold modify, gets, sblist_set. cbn [fst snd count].
  assert (u64 (count l1 + 1) = count l1 + 1) as -> by (unfold u64; apply Z.mod_small; nia).
  destruct (Z.leb_spec (count l1 + 1) (count l1 + 1 - 1)); [lia|].
  pose proof (length_concat_items _ _ HF) as LC.
  assert (zlen slack = (capa l1 - zlen xs) * itemsize l1) as Ls by (rewrite Hi, length_app in Hl; nia).
  erewrite (store_at _ (concat xs) (take (length item) slack) (drop (length item) slack)).
  - unfold represents. cbn [itemsize blockitems count capa items].
    assert (zlen item <= zlen slack) by nia.
    split_and!; try done; try lia.
    + rewrite length_app. cbn [length]. lia.
    + rewrite !length_app, length_drop. lia.
    + apply Forall_app. split; [done|]. apply Forall_singleton. congruence.
    + exists (drop (length item) slack). rewrite concat_app. cbn. by rewrite app_nil_r, <- app_assoc.
  - cbn [items]. by rewrite take_drop.
  - rewrite length_take. nia.
  - rewrite item_offset by (cbn; lia). cbn [itemsize]. nia.
Qed.

Lemma delete_spec l xs i : represents l xs -> 0 <= i ->
  exists l', sblist_delete i l = Ret tt l' /\ represents l' (delete (Z.to_nat i) xs).
Proof.
  intros R Hi0. pose proof R as (H1 & H2 & Hc & Hcap & Hl & Ho & HF & slack & Hi). unfold sblist_delete.
  destruct (Z.eqb_spec (count l) 0) as [E0|E0]; [|destruct (Z.ltb_spec i (count l)) as [Hlt|Hge]]; cbn [negb andb].
  - exists l. split; [done|]. destruct xs; [done|]. simpl in Hc. lia.
  - destruct (lookup_lt_is_Some_2 xs (Z.to_nat i)) as [x Hx]; [lia|].
    pose proof (take_drop_middle xs (Z.to_nat i) x Hx) as D.
    set (xs1 := take (Z.to_nat i) xs) in *.
    set (xs2 := drop (S (Z.to_nat i)) xs) in *.
    assert (length xs1 = Z.to_nat i) as L1 by (unfold xs1; rewrite length_take; lia).
    rewrite <- D in HF, Hi, Hc. apply Forall_app in HF as [F1 HF]. inversion HF as [|? ? Fx F2].
    pose proof (length_concat_items _ _ F1) as LC1. pose proof (length_concat_items _ _ F2) as LC2.
    rewrite concat_app in Hi. cbn [concat] in Hi. rewrite <- !app_assoc in Hi.
    rewrite length_app in Hc. cbn [length] in Hc.
    assert (u64 ((sblist_getsize l - (i + 1)) * itemsize l) = zlen (concat xs2)) as ->
      by (unfold u64, sblist_getsize; rewrite Z.mod_small; nia).
    rewrite !item_offset by lia.
    assert (load l ((i + 1) * itemsize l) (zlen (concat xs2)) = Some (concat xs2)) as ->.
    { unfold load. rewrite Hi, !length_app.
      destruct (Z.leb_spec 0 ((i + 1) * itemsize l)); [|nia].
      destruct (Z.leb_spec ((i + 1) * itemsize l + zlen (concat xs2))
        (Z.of_nat (length (concat xs1) + (length x + (length (concat xs2) + length slack))))); [|nia].
      cbn [andb]. f_equal. rewrite Nat2Z.id, (app_assoc (concat xs1)), drop_app_exact by (rewrite length_app; nia).
      by rewrite take_app_exact. }
    set (moved := x ++ concat xs2).
    erewrite (store_at l (concat xs1) (take (length (concat xs2)) moved) (drop (length (concat xs2)) moved ++ slack)).
    + eexists. split; [reflexivity|]. unfold represents. cbn [itemsize blockitems count capa items].
      assert (delete (Z.to_nat i) xs = xs1 ++ xs2) as -> by apply delete_take_drop.
      split_and!; try done; try lia.
      * rewrite length_app. lia.
      * rewrite Hi in Hl. unfold moved. rewrite !length_app, length_drop, !length_app in *. lia.
      * by apply Forall_app.
      * eexists. rewrite concat_app, <- app_assoc. reflexivity.
    + rewrite Hi. unfold moved. by rewrite (app_assoc (take _ _)), take_drop, <- app_assoc.
    + rewrite length_take. unfold moved. rewrite length_app. lia.
    + nia.
  - exists l. split; [done|]. by rewrite delete_take_drop, take_ge, drop_ge, app_nil_r by lia.
Qed.

(** What is freed: the items, where there are any, and the list itself. *)
Lemma free_spec p l o :
  sblist_free (Some (p, l)) o = Ret tt (sys_free p (if items_at l =? 0 then o else sys_free (items_at l) o)).
Proof.
  unfold sblist_free, sblist_free_items. rewrite bind_gets. cbn [fst].
  by destruct (Z.eqb_spec (items_at l) 0).
Qed.

(** A list is made and freed: exactly the memory it was given goes back. *)
Lemma new_free isize bitems o : exists o1 at_, sblist_new isize bitems o = Ret at_ o1 /\
  match sys_malloc 40 o with
  | (None, o') => at_ = None /\ o1 = o' /\ sblist_free at_ o1 = Ret tt o1
  | (Some p, o') => o1 = o' /\ sblist_free at_ o1 = Ret tt (sys_free p o1)
  end.
Proof.
  unfold sblist_new. destruct (sys_malloc 40 o) as [[p|] o']; eexists _, _; (split; [reflexivity|]); [|done].
  split; [done|]. apply (free_spec p (sblist_init isize bitems)).
Qed.

(** The operations keep the room of an item and of a block; only adding
    changes the capacity, by at most a block. *)
Lemma delete_shape l i l' : sblist_delete i l = Ret tt l' ->
  itemsize l' = itemsize l /\ blockitems l' = blockitems l /\ capa l' = capa l.
Proof. unfold sblist_delete, store. intros H. repeat case_match; by simplify_eq. Qed.

Lemma add_shape l item o b l' o' : sblist_add item (l, o) = Ret b (l', o') ->
  itemsize l' = itemsize l /\ blockitems l' = blockitems l.
Proof.
  unfold sblist_add, sblist_grow_if_needed, sblist_set, store, mbind, M_bind, gets, modify, mret, M_ret.
  intros H. repeat (case_match; simplify_eq; cbn [fst snd itemsize blockitems] in *); done.
Qed.

(** C30: the byte array with a capacity is a list of items.  From an empty
    list, for an array that holds the items [xs]: reading an index gives
    that item's bytes, or a null pointer past the end; adding appends the
    item, growing the memory by a block when it is full, or leaves the list
    alone when there is no memory; deleting removes exactly the item at
    the index.  No access leaves the memory, and no size wraps below 2^64. *)
Theorem sblist_refines_list l xs item i o
    (R : represents l xs) (Hitem : zlen item = itemsize l) (Hi : 0 <= i)
    (Hb : (capa l + 2 * blockitems l) * itemsize l < 18446744073709551616) :
  match sblist_get l i with
  | Some off => load l off (itemsize l) = xs !! Z.to_nat i /\ i < zlen xs
  | None => xs !! Z.to_nat i = None
  end /\
  match sblist_add item (l, o) with
  | Ret true (l', _) => represents l' (xs ++ [item])
  | Ret false (l', _) => represents l' xs
  | _ => False
  end /\
  exists l', sblist_delete i l = Ret tt l' /\ represents l' (delete (Z.to_nat i) xs).
Proof.
  split; [by apply sblist_get_spec|]. split; [by apply add_spec|by apply delete_spec].
Qed.
End SblistFacts.

(** Two items of two bytes, in blocks of one. *)
Definition demo_sblist : Sblist.sblist :=
  let add item lo := final (Sblist.sblist_add (P:=ScriptOS) item lo) lo in
  (add [x03; x04] (add [x01; x02] (Sblist.sblist_init 2 1, Script [Num 1; Num 1] []))).1.

Lemma sblist_refines_list_witness :
  exists l', Sblist.sblist_delete 0 demo_sblist = Ret tt l' /\ represents l' [[x03; x04]].
Proof.
  assert (represents demo_sblist [[x01; x02]; [x03; x04]]) as R.
  { unfold represents. split_and!; try (vm_compute; congruence).
    - repeat constructor.
    - exists []. vm_compute. reflexivity. }
  exact (proj2 (proj2 (sblist_refines_list (P:=ScriptOS) demo_sblist _ [x05; x06] 0 (Script [] []) R
                         eq_refl ltac:(lia) ltac:(vm_compute; reflexivity)))).
Defined.
