(* ===== verification/Socks5.v ===== *)
(** * The SOCKS 5 server

    Server.c of microsocks, and [Socks5Server] of StdioTunnel.cpp with the
    functions its client threads run.  A thread is a computation on the
    operating system; it tells the server it is over by its [done] flag. *)

From stdpp Require Import base list tactics gmap strings.
From Stdlib Require Import ZArith Lia.
From S2P Require Import Prelude Posix Sblist.

(** [struct server] holds one descriptor. *)
Module Server.
Section Server.
Context {P : Posix}.

(** [resolve] and the loop over what it found: the first address a
    socket can be bound to. *)
Fixpoint bind_first (l : list addrinfo) : M os (option Z) :=
  match l with
  | [] => mret None
  | p :: l =>
      r ← syscall (Lens id (fun o _ => o)) (sys_socket_ai p);
      match r with
      | SysErr _ => bind_first l
      | SysOk listenfd =>
          syscall_ (Lens id (fun o _ => o)) (sys_reuseaddr listenfd);;
          b ← syscall (Lens id (fun o _ => o)) (sys_bind_ai listenfd p);
          match b with
          | SysErr _ => syscall_ (Lens id (fun o _ => o)) (sys_close listenfd);; bind_first l
          | SysOk _ => mret (Some listenfd)
          end
      end
  end.

(** The result, and the descriptor stored when it is 0.  The backlog is
    SOMAXCONN. *)
Definition server_setup (listenip : list byte) (port : Z) : M os (Z * option Z) :=
  a ← syscall (Lens id (fun o _ => o)) (sys_getaddrinfo listenip (u16 port));
  match a with
  | None => mret (-1, None)
  | Some ainfo =>
      f ← bind_first ainfo;
      match f with
      | None => mret (-2, None)
      | Some listenfd =>
          r ← syscall (Lens id (fun o _ => o)) (sys_listen listenfd 4096);
          match r with
          | SysErr _ => syscall_ (Lens id (fun o _ => o)) (sys_close listenfd);; mret (-3, None)
          | SysOk _ => mret (0, Some listenfd)
          end
      end
  end.

(** The result, and the client's descriptor when it is 0. *)
Definition server_waitclient (f : Z) : M os (Z * Z) :=
  r ← syscall (Lens id (fun o _ => o)) (sys_accept f);
  mret (match r with SysErr _ => (-1, -1) | SysOk c => (0, c) end).
End Server.
End Server.

Module Socks5Server.

Inductive socksstate : Type := SS_1_CONNECTED | SS_2_NEED_AUTH | SS_3_AUTHED.

Definition AM_NO_AUTH : Z := 0.
Definition EC_SUCCESS : Z := 0.
Definition EC_GENERAL_FAILURE : Z := 1.
Definition EC_NET_UNREACHABLE : Z := 3.
Definition EC_HOST_UNREACHABLE : Z := 4.
Definition EC_CONN_REFUSED : Z := 5.
Definition EC_TTL_EXPIRED : Z := 6.
Definition EC_COMMAND_NOT_SUPPORTED : Z := 7.
Definition EC_ADDRESSTYPE_NOT_SUPPORTED : Z := 8.

Definition AF_INET : Z := 2.
Definition AF_INET6 : Z := 10.

(** [struct thread]. *)
Record thread : Type := Thread { pt : Z; client_fd : Z; done : bool }.

(** The server: its descriptor, the list of pointers to its threads, and
    the threads pointed at. *)
Record t : Type := Mk { fd : Z; m_threads : Sblist.sblist; threads : gmap Z thread }.

(** [sblist_new(sizeof(struct thread* ), 8)], where there is memory for the
    five members of the list: its result is not tested. *)
Definition new_Socks5Server : t := Mk 0 (Sblist.sblist_init 8 8) ∅.

Definition set_fd (f : Z) (s : t) : t := Mk f (m_threads s) (threads s).

Definition pointer (p : Z) : list byte := le_split 8 p.

Section Requests.
Context {P : Posix}.
Abbreviation whole := (Lens id (fun (o _ : os) => o)).

(** A byte of [buf]; the code reads only where it has checked. *)
Definition byte_at (buf : list byte) (i : Z) : M os Z :=
  deref OutOfRange (Z_of_byte <$> (if i <? 0 then None else buf !! Z.to_nat i)).

Definition slice (buf : list byte) (off n : Z) : M os (list byte) :=
  if (0 <=? off) && (0 <=? n) && (off + n <=? zlen buf)
  then mret (take (Z.to_nat n) (drop (Z.to_nat off) buf)) else undefined OutOfRange.

(** The address part of a request: what is left in [namebuf] and [minlen],
    or an error code. *)
Definition request_address (buf : list byte) : M os (Z + list byte * Z) :=
  let n := zlen buf in
  ty ← byte_at buf 3;
  if (ty =? 4) || (ty =? 1) then
    let '(af, len, minlen) := if ty =? 4 then (AF_INET6, 16, 4 + 2 + 16) else (AF_INET, 4, 4 + 4 + 2) in
    if n <? minlen then mret (inl EC_GENERAL_FAILURE)
    else
      addr ← slice buf 4 len;
      mret (match inet_ntop af addr with
            | None => inl EC_GENERAL_FAILURE
            | Some namebuf => inr (namebuf, minlen)
            end)
  else if ty =? 3 then
    l ← byte_at buf 4;
    let minlen := 4 + 2 + l + 1 in
    if n <? minlen then mret (inl EC_GENERAL_FAILURE)
    else
      namebuf ← slice buf (4 + 1) l;
      mret (inr (c_string namebuf, minlen))
  else mret (inl EC_ADDRESSTYPE_NOT_SUPPORTED).

(** [eval_errno]. *)
Definition eval_errno (errno : Z) : Z :=
  if errno =? ETIMEDOUT then EC_TTL_EXPIRED
  else if (errno =? EPROTOTYPE) || (errno =? EPROTONOSUPPORT) || (errno =? EAFNOSUPPORT)
  then EC_ADDRESSTYPE_NOT_SUPPORTED
  else if errno =? ECONNREFUSED then EC_CONN_REFUSED
  else if (errno =? ENETDOWN) || (errno =? ENETUNREACH) then EC_NET_UNREACHABLE
  else if errno =? EHOSTUNREACH then EC_HOST_UNREACHABLE
  else EC_GENERAL_FAILURE.

(** The end of [connect_socks_target]: the connection to the first address
    of the name.  [errno] is the one the failed call left. *)
Definition dial (namebuf : list byte) (port : Z) : M os Z :=
  remote ← syscall whole (sys_getaddrinfo namebuf port);
  match remote with
  | None | Some [] => mret (- EC_GENERAL_FAILURE)
  | Some (ai :: _) =>
      r ← syscall whole (sys_socket_ai ai);
      match r with
      | SysErr errno => mret (- eval_errno errno)
      | SysOk f =>
          c ← syscall whole (sys_connect_ai f ai);
          match c with
          | SysErr errno => syscall_ whole (sys_close f);; mret (- eval_errno errno)
          | SysOk _ => mret f
          end
      end
  end.

(** A descriptor, or minus an error code. *)
Definition connect_socks_target (buf : list byte) : M os Z :=
  let n := zlen buf in
  if n <? 5 then mret (- EC_GENERAL_FAILURE)
  else
    b0 ← byte_at buf 0;
    b1 ← byte_at buf 1;
    b2 ← byte_at buf 2;
    if negb (b0 =? 5) then mret (- EC_GENERAL_FAILURE)
    else if negb (b1 =? 1) then mret (- EC_COMMAND_NOT_SUPPORTED)
    else if negb (b2 =? 0) then mret (- EC_GENERAL_FAILURE)
    else
      a ← request_address buf;
      match a with
      | inl code => mret (- code)
      | inr (namebuf, minlen) =>
          hi ← byte_at buf (minlen - 2);
          lo ← byte_at buf (minlen - 1);
          dial namebuf (u16 (Z.lor (Z.shiftl hi 8) lo))
      end.

(** [write(fd, buf, n) != n], false. *)
Definition write_all (f : Z) (bs : list byte) : M os bool :=
  r ← syscall whole (sys_write f bs);
  mret (match r with SysOk k => k =? zlen bs | SysErr _ => false end).

(** The reply, with its error code. *)
Definition reply (ret : Z) : list byte :=
  [x05; byte_of_Z (if ret <? 0 then ret * -1 else EC_SUCCESS); x00; x01; x00; x00; x00; x00; x00; x00].

(** [recv] on [buf], 1024 bytes. *)
Fixpoint socks5_handshake (fuel : nat) (client : Z) (state : socksstate) : M os Z :=
  match fuel with
  | O => out_of_fuel
  | S fuel =>
      r ← syscall whole (sys_read client 1024);
      match r with
      | SysErr _ | SysOk [] => mret (-1)
      | SysOk buf =>
          match state with
          | SS_1_CONNECTED =>
              ok ← write_all client [x05; byte_of_Z AM_NO_AUTH];
              if ok : bool then socks5_handshake fuel client SS_3_AUTHED else mret (-1)
          | SS_2_NEED_AUTH =>
              ok ← write_all client [x01; byte_of_Z EC_SUCCESS];
              if ok : bool then socks5_handshake fuel client SS_3_AUTHED else mret (-1)
          | SS_3_AUTHED =>
              ret ← connect_socks_target buf;
              ok ← write_all client (reply ret);
              if ok : bool then mret (if ret <? 0 then -1 else ret) else mret (-1)
          end
      end
  end.

(** [while (sent < n)], as many turns as writes; a write takes one byte at
    least, so that there are no more turns than bytes. *)
Fixpoint write_out (fuel : nat) (outfd : Z) (bs : list byte) : M os bool :=
  match bs with
  | [] => mret true
  | _ =>
      match fuel with
      | O => out_of_fuel
      | S fuel =>
          m ← syscall whole (sys_write outfd bs);
          match m with
          | SysErr _ => mret false
          | SysOk m => write_out fuel outfd (drop (Z.to_nat m) bs)
          end
      end
  end.

Definition COPY_SIZE : Z := 16384.

(** A turn of [copyloop]; true when there is another one.  The events asked
    for never change. *)
Definition copy_turn (fuel : nat) (fd1 fd2 : Z) : M os bool :=
  r ← syscall whole (sys_poll [(fd1, POLLIN); (fd2, POLLIN)] (60 * 15 * 1000));
  match r with
  | SysErr e => mret ((e =? EINTR) || (e =? EAGAIN))
  | SysOk (k, rs) =>
      if k =? 0 then mret false
      else
        let infd := if has_bit (nth 0 rs 0) POLLIN then fd1 else fd2 in
        let outfd := if infd =? fd2 then fd1 else fd2 in
        n ← syscall whole (sys_read infd COPY_SIZE);
        match n with
        | SysErr _ | SysOk [] => mret false
        | SysOk buf => write_out fuel outfd buf
        end
  end.

Fixpoint copyloop (fuel : nat) (fd1 fd2 : Z) : M os unit :=
  match fuel with
  | O => out_of_fuel
  | S fuel =>
      more ← copy_turn (Z.to_nat COPY_SIZE) fd1 fd2;
      if more : bool then copyloop fuel fd1 fd2 else mret tt
  end.

(** What a thread does before it sets [done]; a handshake never takes more
    than two messages. *)
Definition socks5_clientthread (fuel : nat) (client : Z) : M os unit :=
  remotefd ← socks5_handshake 2 client SS_1_CONNECTED;
  when (negb (remotefd =? -1))
    (copyloop fuel client remotefd;;
     syscall_ whole (sys_close remotefd));;
  syscall_ whole (sys_close client).
End Requests.

Section Threads.
Context {P : Posix}.
Abbreviation threads_of := (Lens (fun so : t * os => threads so.1)
                          (fun m so => (Mk (fd so.1) (m_threads so.1) m, so.2))).
Abbreviation list_of := (Lens (fun so : t * os => (m_threads so.1, so.2))
                       (fun lo so => (Mk (fd so.1) lo.1 (threads so.1), lo.2))).
Abbreviation system := (@lens_snd t os).

(** The pointer at an index of the list. *)
Definition thread_at (i : Z) : M (t * os) Z :=
  l ← gets (fun so => m_threads so.1);
  off ← deref NullDeref (Sblist.sblist_get l i);
  bs ← deref BufferOverrun (Sblist.load l off 8);
  mret (le_combine bs).

Fixpoint collect_from (fuel : nat) (i : Z) : M (t * os) unit :=
  match fuel with
  | O => out_of_fuel
  | S fuel =>
      size ← gets (fun so => Sblist.sblist_getsize (m_threads so.1));
      if i <? size then
        p ← thread_at i;
        m ← gets (fun so => threads so.1);
        th ← deref Dangling (m !! p);
        if done th then
          syscall_ system (sys_thread_join (pt th));;
          zoom list_of (zoom lens_fst (Sblist.sblist_delete i));;
          syscall_ system (sys_free p);;
          zoom threads_of (modify (delete p));;
          collect_from fuel i
        else collect_from fuel (i + 1)
      else mret tt
  end.

Definition collect : M (t * os) unit :=
  size ← gets (fun so => Sblist.sblist_getsize (m_threads so.1));
  collect_from (S (Z.to_nat size)) 0.

(** [sizeof(struct thread)] on a 64-bit machine. *)
Definition THREAD_SIZE : Z := 48.

Definition polled : M (t * os) unit :=
  collect;;
  curr ← syscall system (sys_malloc THREAD_SIZE);
  match curr with
  | None => mret tt
  | Some curr =>
      f ← gets (fun so => fd so.1);
      c ← zoom system (Server.server_waitclient f);
      if negb (c.1 =? 0) then syscall_ system (sys_free curr)
      else
        zoom threads_of (modify (insert curr (Thread 0 c.2 false)));;
        ok ← zoom list_of (Sblist.sblist_add (pointer curr));
        if ok : bool then
          r ← syscall system sys_thread_create;
          match r with
          | SysOk id => zoom threads_of (modify (alter (fun th => Thread id (client_fd th) (done th)) curr))
          | SysErr _ => mret tt
          end
        else
          syscall_ system (sys_close c.2);;
          syscall_ system (sys_free curr);;
          zoom threads_of (modify (delete curr))
  end.

(** A client thread ends. *)
Definition thread_done (p : Z) (s : t) : t :=
  Mk (fd s) (m_threads s) (alter (fun th => Thread (pt th) (client_fd th) true) p (threads s)).
End Threads.
End Socks5Server.
