(* ===== verification/Local.v ===== *)
(** * StdioTunnelLocal

    The process the user starts: it runs the connection command, passes its
    input and output through while it waits for the magic string, then sends
    the list of connections and speaks the tunnel protocol.  Its [polled],
    [setPollfd] and [start] are state machines over the same [m_state]. *)

From stdpp Require Import base list tactics gmap strings sorting.
From Stdlib Require Import ZArith Lia.
From S2P Require Import Prelude Posix Wire SockBuffer Poller Spec Options Magic Tunnel Connection.

Module StdioTunnelLocal.

Inductive state : Type :=
| INITIAL | SET_STDIO_READ | SET_STDIO_WRITE | SET_PIPE_READ
| PASS_THROUGH | HAND_SHAKE | CONNECTED | SHUT_DOWN.

#[export] Instance state_eq_decision : EqDecision state.
Proof. solve_decision. Defined.

(** [m_command], [m_force_pipe] and the other members [configure] sets are
    [m_config]; the detector has its own copy of the two patterns. *)
Record t : Type := Mk {
  m_state : state;
  m_read_fd : Z;
  m_write_fd : Z;
  m_config : config;
  m_read_buffer : MagicStringDetector.t;
  m_write_buffer : SockBuffer.t;
  g_id : Z
}.

Definition set_state (x : state) (r : t) : t := Mk x (m_read_fd r) (m_write_fd r) (m_config r) (m_read_buffer r) (m_write_buffer r) (g_id r).
Definition set_fds (rf wf : Z) (r : t) : t := Mk (m_state r) rf wf (m_config r) (m_read_buffer r) (m_write_buffer r) (g_id r).
Definition set_read_buffer (d : MagicStringDetector.t) (r : t) : t := Mk (m_state r) (m_read_fd r) (m_write_fd r) (m_config r) d (m_write_buffer r) (g_id r).
Definition set_write_buffer (b : SockBuffer.t) (r : t) : t := Mk (m_state r) (m_read_fd r) (m_write_fd r) (m_config r) (m_read_buffer r) b (g_id r).
Definition set_g_id (i : Z) (r : t) : t := Mk (m_state r) (m_read_fd r) (m_write_fd r) (m_config r) (m_read_buffer r) (m_write_buffer r) i.

(** The object after [configure]. *)
Definition configured (c : config) : t :=
  Mk INITIAL (-1) (-1) c
     (MagicStringDetector.setRemoteCmd (m_remote_cmd c)
       (MagicStringDetector.setLoginPattern (m_login_pattern c)
         (MagicStringDetector.new_MagicStringDetector magic_string)))
     SockBuffer.init 0.

Definition by_id (a b : Z * nat) : Prop := a.1 <= b.1.
#[export] Instance by_id_dec a b : Decision (by_id a b).
Proof. unfold by_id. apply _. Defined.

Section Operations.
Import StdioTunnel Heap.
Context {P : Posix}.
Abbreviation S := (StdioTunnel.tunnel t unit).
Abbreviation self := (POwn (O:=unit) tt).

Definition detector : lens S MagicStringDetector.t :=
  Lens (fun s => m_read_buffer (role s)) (fun d s => update role_of (set_read_buffer d (role s)) s).
Definition read_buffer : lens S SockBuffer.t := lens_comp detector MagicStringDetector.buffer_of.
Definition write_buffer : lens S SockBuffer.t :=
  Lens (fun s => m_write_buffer (role s)) (fun b s => update role_of (set_write_buffer b (role s)) s).
Definition put_state (x : state) : M S unit := zoom role_of (modify (set_state x)).

(** [setPollfd]: each registration takes the next descriptor. *)
Definition setPollfd : M S (Z * Z) :=
  r ← gets role;
  match m_state r with
  | INITIAL => put_state SET_STDIO_READ;; mret (STDIN_FD, POLLIN)
  | SET_STDIO_READ => put_state SET_STDIO_WRITE;; mret (STDOUT_FD, 0)
  | SET_STDIO_WRITE => put_state SET_PIPE_READ;; mret (m_read_fd r, POLLIN)
  | SET_PIPE_READ => put_state PASS_THROUGH;; mret (m_write_fd r, 0)
  | _ => throw (ExnMsg "Bad state")
  end.

Definition report_error (message : list byte) : M S unit :=
  syscall_ system_of (sys_cerr (c_string message));;
  endl ← zoom system_of Terminal.cerr_endl;
  syscall_ system_of (sys_cerr endl).

#[export] Instance local_role : Role t unit := {|
  reportError := report_error;
  own_setPollfd _ := setPollfd
|}.

(** [daemon]: the parent leaves by an exception. *)
Definition daemon : M S unit :=
  pid ← syscall system_of sys_fork;
  match pid with
  | SysErr e => throw (ExnErrno e)
  | SysOk pid =>
      if 0 <? pid then throw (ExnStr "Run in daemon.")
      else
        r ← syscall system_of (sys_chdir (bytes_of "/"));
        match r with SysErr e => throw (ExnErrno e) | SysOk _ => mret tt end
  end.

(** The connections of the map in the order of their ids. *)
Definition in_order (m : gmap Z nat) : list (Z * nat) := merge_sort by_id (map_to_list m).

Fixpoint write_specs (l : list (Z * nat)) : M S unit :=
  match l with
  | [] => mret tt
  | (_, c) :: l =>
      n ← connection_of c;
      writeShort (TunnelConnection.m_id n);;
      zoom writer (ConnectionSpec.serialize (TunnelConnection.m_spec n));;
      write_specs l
  end.

Definition startHandshaking : M S unit :=
  put_state HAND_SHAKE;;
  zoom write_buffer SockBuffer.clear;;
  m ← gets m_connection_map;
  writeShort CMD_CREATE;;
  writeShort (zlen (in_order m));;
  write_specs (in_order m);;
  send;;
  zoom poller (Poller.removePolled self STDIN_FD);;
  term ← gets (view terminal_of);
  when term.2
    (syscall_ system_of (sys_tcsetattr STDIN_FD TCSAFLUSH
       (Terminal.with_isig (Terminal.cfmakeraw term.1))));;
  r ← gets role;
  when (m_daemon (m_config r))
    (report_error (bytes_of "Keep running daemon in background ...");;
     daemon).

Definition remoteInit (remote_cmd : list byte) : M S unit :=
  target ← gets m_write_target;
  f ← deref Indeterminate (snd <$> target);
  let send_cmd := remote_cmd ++ [x0a] in
  r ← syscall system_of (sys_write f send_cmd);
  match r with
  | SysErr e => throw (ExnErrno e)
  | SysOk k => if k =? zlen send_cmd then mret tt else throw (ExnErrno 0)
  end.

Section Polled.
  (** The blocks a descriptor may deliver in one go. *)
Context (blocks : nat).

Definition detector_readData (f : Z) : M S Z :=
  SockBuffer.readData read_buffer system_of
    (MagicStringDetector.processReadData detector startHandshaking remoteInit) blocks f.
Definition writer_readData (f : Z) : M S Z :=
  SockBuffer.readData write_buffer system_of (fun _ => mret tt) blocks f.

Definition unsent (b : lens S SockBuffer.t) : M S bool :=
  gets (fun s => SockBuffer.unsentData (view b s)).
Definition setEvents (f ev : Z) : M S unit := zoom poller (Poller.setEvents self f ev).
Definition write_out (b : lens S SockBuffer.t) (f : Z) : M S unit :=
  zoom (lens_pair b system_of) (SockBuffer.writeData f);; mret tt.

(** case PASS_THROUGH. *)
Definition pass_through (pf : pollfd) : M S unit :=
  r ← gets role;
  when (fd pf =? m_read_fd r)
    (n ← detector_readData (m_read_fd r);
     if n =? 0 then throw (ExnMsg "Read side closed")
     else u ← unsent read_buffer; when u (setEvents STDOUT_FD POLLOUT));;
  when (fd pf =? m_write_fd r)
    (if negb (has_bit (revents pf) POLLOUT) then throw (ExnMsg "unexpected revents in write to pipe")
     else
       write_out write_buffer (m_write_fd r);;
       u ← unsent write_buffer;
       when (negb u) (setEvents (m_write_fd r) 0));;
  when (fd pf =? STDIN_FD)
    (n ← writer_readData STDIN_FD;
     if n =? 0 then throw (ExnMsg "Stdin closed")
     else u ← unsent write_buffer; when u (setEvents (m_write_fd r) POLLOUT));;
  when (fd pf =? STDOUT_FD)
    (if negb (has_bit (revents pf) POLLOUT) then throw (ExnMsg "unexpected revents")
     else
       write_out read_buffer STDOUT_FD;;
       u ← unsent read_buffer;
       when (negb u) (setEvents STDOUT_FD 0)).

Definition broken (pf : pollfd) : bool :=
  has_bit (revents pf) (Z.lor POLLERR (Z.lor POLLNVAL POLLHUP)).

(** The message at the front of the reader, if there is one. *)
Definition message_in : M S unit :=
  avail ← gets (fun s => ReadStream.available (m_read_stream s));
  when avail
    (cmd ← readShort;
     if cmd =? CMD_ERROR then
       text ← zoom reader ReadStream.readString; report_error text
     else if cmd =? CMD_CREATE then put_state CONNECTED
     else if cmd =? CMD_CONNECTION then
       id ← readShort; connection_message id
     else if cmd =? CMD_SHUTDOWN then
       zoom poller Poller.requestFinish;; setShutdownByRequest
     else mret tt).

(** cases HAND_SHAKE and CONNECTED; [id] is the entry whose [pollfd]
    [empty] changes. *)
Definition connected (id : nat) (pf : pollfd) : M S unit :=
  r ← gets role;
  when (fd pf =? m_read_fd r)
    (if broken pf then throw (ExnMsg "Read pipe closed/invalid")
     else
       zoom (lens_pair reader system_of) (ReadStream.fill pf);;
       message_in);;
  when (fd pf =? m_write_fd r)
    (if broken pf then throw (ExnMsg "Write pipe closed/invalid")
     else
       pf' ← zoom (lens_pair writer system_of) (WriteStream.empty pf);
       zoom poller (modify (Poller.update_entry id (fun q => Pollfd (fd q) (events pf') (revents q))));;
       p ← gets (fun s => WriteStream.pendingWrite (m_write_stream s));
       when (negb p) (setEvents (m_write_fd r) 0));;
  when (fd pf =? STDOUT_FD)
    (u ← unsent read_buffer;
     if u : bool then write_out read_buffer STDOUT_FD
     else zoom poller (Poller.removePolled self STDOUT_FD)).

Definition polled (id : nat) (pf : pollfd) : M S unit :=
  r ← gets role;
  match m_state r with
  | PASS_THROUGH => pass_through pf
  | HAND_SHAKE | CONNECTED => connected id pf
  | _ => mret tt
  end.

#[export] Instance local_polled : Polled S (obj unit) := {|
  Poller.polled o id pf := match o with
    | POwn _ => polled id pf
    | PListen c => listen_polled c
    | PLink l => link_polled l pf
    end;
  cleanup o pf := match o with
    | POwn _ => mret tt
    | PListen c => listen_cleanup c
    | PLink l => link_cleanup l
    end;
  pollCallback := poll_callback
|}.
End Polled.

(** [forkpipe]: the pid and the parent's ends of the two pipes.  The
    child makes its ends its standard input and output. *)
Definition forkpipe : M S (sysres (Z * (Z * Z))) :=
  rp ← syscall system_of sys_pipe;
  match rp with
  | SysErr e => mret (SysErr e)
  | SysOk (r0, r1) =>
      wp ← syscall system_of sys_pipe;
      match wp with
      | SysErr e => mret (SysErr e)
      | SysOk (w0, w1) =>
          pid ← syscall system_of sys_fork;
          match pid with
          | SysErr e => mret (SysErr e)
          | SysOk pid =>
              (if 0 <? pid then
                 syscall_ system_of (sys_close r1);;
                 syscall_ system_of (sys_close w0)
               else
                 syscall_ system_of (sys_dup2 w0 0);;
                 syscall_ system_of (sys_dup2 r1 1);;
                 syscall_ system_of (sys_close w0);;
                 syscall_ system_of (sys_close w1);;
                 syscall_ system_of (sys_close r0);;
                 syscall_ system_of (sys_close r1));;
              mret (SysOk (pid, (r0, w1)))
          end
      end
  end.

Definition set_pipe_fds (rf wf : Z) : M S unit := zoom role_of (modify (set_fds rf wf)).

(** Run the command's process: its pid, 0 in the process itself. *)
Definition spawn : M S Z :=
  r ← gets role;
  if m_force_pipe (m_config r) then
    c ← forkpipe;
    match c with
    | SysErr e => throw (ExnErrno e)
    | SysOk (pid, (rf, wf)) => when (0 <? pid) (set_pipe_fds rf wf);; mret pid
    end
  else
    term ← gets (view terminal_of);
    let termiosptr :=
      if m_expects_pipe (m_config r) && term.2 then Some (Terminal.cfmakeraw term.1)
      else if term.2 then Some term.1 else None in
    c ← syscall system_of (sys_forkpty termiosptr);
    match c with
    | SysErr e => throw (ExnErrno e)
    | SysOk (pid, master) =>
        if pid =? 0 then mret 0
        else
          d ← syscall system_of (sys_dup master);
          match d with
          | SysErr e => throw (ExnErrno e)
          | SysOk wf => set_pipe_fds master wf;; mret pid
          end
    end.

(** [CreateConnection] for each specification; the id is [g_id++], a
    [short]. *)
Fixpoint create_connections (specs : list ConnectionSpec.t) : M S unit :=
  match specs with
  | [] => mret tt
  | spec :: specs =>
      r ← gets role;
      let id := g_id r in
      zoom role_of (modify (set_g_id (i16 (id + 1))));;
      pConn ← CreateConnection spec true id;
      match pConn with
      | Some c =>
          n ← connection_of c;
          assign_connection (TunnelConnection.m_id n) c
      | None => mret tt
      end;;
      create_connections specs
  end.

(** [fcntl(fd, F_SETFL, O_NONBLOCK) == -1 ||] for each of these. *)
Fixpoint set_nonblocking (fds : list Z) : M S unit :=
  match fds with
  | [] => mret tt
  | f :: fds =>
      r ← syscall system_of (sys_nonblock f);
      match r with SysErr e => throw (ExnErrno e) | SysOk _ => set_nonblocking fds end
  end.

(** The parent's part of [start], up to the event loop. *)
Definition start_tunnel : M S unit :=
  r ← gets role;
  create_connections (m_connection_specs (m_config r));;
  set_nonblocking [m_read_fd r; m_write_fd r; STDIN_FD; STDOUT_FD];;
  zoom target_of (modify (fun _ => Some (tt, m_write_fd r)));;
  addPolled self;;
  addPolled self;;
  addPolled self;;
  addPolled self.

Definition start (blocks rounds : nat) : M S unit :=
  child_pid ← spawn;
  if negb (child_pid =? 0) then
    start_tunnel;;
    Poller.start (Polled0 := local_polled blocks) poller system_of rounds
  else
    r ← gets role;
    syscall_ system_of (sys_execvp (default [] (m_command (m_config r))));;
    throw (ProcessEnds (-1)).
End Operations.
End StdioTunnelLocal.
