(* ===== verification/Remote.v ===== *)
(** * StdioTunnelRemote

    The process at the other end: it prints the magic string, waits for the
    list of connections on its standard input, makes its sides of them, and
    speaks the tunnel protocol.  It may run the SOCKS server. *)

From stdpp Require Import base list tactics gmap strings.
From Stdlib Require Import ZArith Lia.
From S2P Require Import Prelude Posix Wire SockBuffer Poller Spec Magic Tunnel Connection Socks5.

Module StdioTunnelRemote.

Inductive state : Type := INITIAL | SET_STDIO_READ | HANDSHAKING | CONNECTED | SHUT_DOWN.

#[export] Instance state_eq_decision : EqDecision state.
Proof. solve_decision. Defined.

Record t : Type := Mk {
  m_state : state;
  m_socks5_server : option Socks5Server.t
}.

Definition init : t := Mk INITIAL None.
Definition set_state (x : state) (r : t) : t := Mk x (m_socks5_server r).
Definition set_server (x : option Socks5Server.t) (r : t) : t := Mk (m_state r) x.

(** What it registers with the poller itself. *)
Inductive own : Type := OTunnel | OSocks5.

#[export] Instance own_eq_decision : EqDecision own.
Proof. solve_decision. Defined.

Section Operations.
Import StdioTunnel Heap.
Context {P : Posix}.
Abbreviation S := (StdioTunnel.tunnel t own).
Abbreviation self := (POwn OTunnel).

Definition put_state (x : state) : M S unit := zoom role_of (modify (set_state x)).

Definition setPollfd : M S (Z * Z) :=
  r ← gets role;
  match m_state r with
  | INITIAL => put_state SET_STDIO_READ;; mret (STDIN_FD, POLLIN)
  | SET_STDIO_READ => put_state HANDSHAKING;; mret (STDOUT_FD, 0)
  | _ => throw (ExnMsg "Bad state")
  end.

Definition report_error (message : list byte) : M S unit :=
  writeShort CMD_ERROR;;
  zoom writer (WriteStream.writeString message);;
  send.

(** The server, where there is one. *)
Definition server_of : M S Socks5Server.t :=
  r ← gets role; deref Dangling (m_socks5_server r).
Definition socks5_setPollfd : M S (Z * Z) :=
  v ← server_of; mret (Socks5Server.fd v, POLLIN).

#[export] Instance remote_role : Role t own := {|
  reportError := report_error;
  own_setPollfd o := match o with OTunnel => setPollfd | OSocks5 => socks5_setPollfd end
|}.

(** A specification that asks for the SOCKS server starts it and becomes
    one for the server's address. *)
Definition start_socks5 (spec : ConnectionSpec.t) : M S ConnectionSpec.t :=
  r ← gets role;
  match m_socks5_server r with
  | Some _ => throw (ExnMsg "should the only one socks5 connection")
  | None =>
      let host := bytes_of "localhost" in
      v ← zoom system_of (Server.server_setup host (ConnectionSpec.m_connect_port spec));
      match v.2 with
      | None => throw (ExnMsg "failed to starup socks5 server")
      | Some f =>
          zoom role_of (modify (set_server (Some (Socks5Server.set_fd f Socks5Server.new_Socks5Server))));;
          nb ← syscall system_of (sys_nonblock f);
          match nb with
          | SysErr e => throw (ExnErrno e)
          | SysOk _ =>
              port ← syscall system_of (sys_getsockname f);
              match port with
              | SysErr _ => throw (ExnMsg "failed to get socks5 server port")
              | SysOk port =>
                  addPolled (POwn OSocks5);;
                  mret (ConnectionSpec.Mk (ConnectionSpec.m_connection_type spec) host port
                          (ConnectionSpec.m_listen_port spec) (ConnectionSpec.m_flags spec))
              end
          end
      end
  end.

(** The body of the loop over the specifications, once one is read. *)
Definition accept_spec (id : Z) (spec : ConnectionSpec.t) : M S unit :=
  spec ← (if ConnectionSpec.isSocks5 spec then start_socks5 spec else mret spec);
  pConn ← CreateConnection spec false id;
  match pConn with
  | Some c => assign_connection id c
  | None => mret tt
  end.

Fixpoint read_specs (count : nat) : M S unit :=
  match count with
  | O => mret tt
  | Datatypes.S count =>
      id ← readShort;
      spec ← zoom reader ConnectionSpec.deserialize;
      accept_spec id spec;;
      read_specs count
  end.

(** case HANDSHAKING. *)
Definition handshaking (command : Z) : M S unit :=
  if negb (command =? CMD_CREATE) then throw (ExnMsg "Unexpected handshake command")
  else
    count ← readShort;
    read_specs (Z.to_nat count);;
    put_state CONNECTED;;
    writeShort CMD_CREATE;;
    send.

(** case CONNECTED. *)
Definition connected (command : Z) : M S unit :=
  if command =? CMD_SHUTDOWN then
    zoom poller Poller.requestFinish;; setShutdownByRequest
  else if negb (command =? CMD_CONNECTION) then
    throw (ExnMsg ("Unexpected command: " +:+ show_short command))
  else
    id ← readShort; connection_message id.

Definition message_in : M S unit :=
  avail ← gets (fun s => ReadStream.available (m_read_stream s));
  when avail
    (command ← readShort;
     r ← gets role;
     match m_state r with
     | HANDSHAKING => handshaking command
     | CONNECTED => connected command
     | _ => mret tt
     end).

Definition polled (id : nat) (pf : pollfd) : M S unit :=
  when (fd pf =? STDIN_FD)
    (if has_bit (revents pf) (Z.lor POLLHUP (Z.lor POLLNVAL POLLERR)) then throw (ExnMsg "Stdin closed")
     else if has_bit (revents pf) POLLIN then
       zoom (lens_pair reader system_of) (ReadStream.fill pf);;
       message_in
     else throw (ExnMsg "Bad poll"));;
  when (fd pf =? STDOUT_FD)
    (if has_bit (revents pf) (Z.lor POLLIN (Z.lor POLLHUP (Z.lor POLLERR POLLNVAL))) then
       put_state SHUT_DOWN;;
       zoom poller Poller.requestFinish
     else
       pf' ← zoom (lens_pair writer system_of) (WriteStream.empty pf);
       zoom poller (modify (Poller.update_entry id (fun q => Pollfd (fd q) (events pf') (revents q))));;
       p ← gets (fun s => WriteStream.pendingWrite (m_write_stream s));
       when (negb p) (zoom poller (Poller.setEvents self STDOUT_FD 0))).

(** [Socks5Server::polled], on the server that is there. *)
Definition socks5_lens : lens S Socks5Server.t :=
  Lens (fun s => default Socks5Server.new_Socks5Server (m_socks5_server (role s)))
       (fun v s => update role_of (set_server (Some v) (role s)) s).
Definition socks5_polled : M S unit :=
  server_of;;
  zoom (lens_pair socks5_lens system_of) Socks5Server.polled.
Definition socks5_cleanup (pf : pollfd) : M S unit := syscall_ system_of (sys_close (fd pf)).

#[export] Instance remote_polled : Polled S (obj own) := {|
  Poller.polled o id pf := match o with
    | POwn OTunnel => polled id pf
    | POwn OSocks5 => socks5_polled
    | PListen c => listen_polled c
    | PLink l => link_polled l pf
    end;
  cleanup o pf := match o with
    | POwn OTunnel => mret tt
    | POwn OSocks5 => socks5_cleanup pf
    | PListen c => listen_cleanup c
    | PLink l => link_cleanup l
    end;
  pollCallback := poll_callback
|}.

(** [start], up to the event loop. *)
Definition start_tunnel : M S unit :=
  r ← syscall system_of (sys_write STDOUT_FD magic_string);
  match r with
  | SysErr e => throw (ExnErrno e)
  | SysOk k =>
      if negb (k =? zlen magic_string) then throw (ExnErrno 0)
      else
        r1 ← syscall system_of (sys_nonblock STDIN_FD);
        r2 ← match r1 with
             | SysErr e => mret (SysErr e)
             | SysOk _ => syscall system_of (sys_nonblock STDOUT_FD)
             end;
        match r2 with
        | SysErr e => throw (ExnErrno e)
        | SysOk _ =>
            zoom target_of (modify (fun _ => Some (OTunnel, STDOUT_FD)));;
            addPolled self;;
            addPolled self
        end
  end.

Definition start (rounds : nat) : M S unit :=
  start_tunnel;;
  Poller.start poller system_of rounds.
End Operations.
End StdioTunnelRemote.
