(* ===== verification/Behaviour.v ===== *)
(** * What the callbacks do to the poller

    Every callback of the two processes touches the poller only through its
    operations, so that [Poller.pollOnce] is the traversal of Poller.v in
    both programs. *)

From stdpp Require Import base list tactics gmap strings.
From Stdlib Require Import ZArith Lia.
From S2P Require Import Prelude Posix Wire SockBuffer Poller Spec Magic Tunnel Connection Socks5 Local Remote.

(** Part of a tunnel's state, [k], that only the poller's operations can
    reach, and what they do to it.  The poller is such a part, and so are the
    members the callbacks never touch. *)
Class Frame {P : Posix} {R O T : Type} `{EqDecision O} (k : lens (StdioTunnel.tunnel R O) T)
    (Rk : T -> T -> Prop) : Prop := {
  frame_preorder :: PreOrder Rk;
  frame_reader :: Apart StdioTunnel.reader k;
  frame_writer :: Apart StdioTunnel.writer k;
  frame_target :: Apart StdioTunnel.target_of k;
  frame_closed :: Apart StdioTunnel.closed_of k;
  frame_map :: Apart StdioTunnel.map_of k;
  frame_connections :: Apart StdioTunnel.connection_heap k;
  frame_links :: Apart StdioTunnel.link_heap k;
  frame_next :: Apart StdioTunnel.next_of k;
  frame_signaled :: Apart StdioTunnel.signaled_of k;
  frame_role :: Apart StdioTunnel.role_of k;
  frame_system :: Apart StdioTunnel.system_of k;
  frame_poller {A} (m : M (Poller.t (obj O)) A) : moves poller_ops m -> moves (on k Rk) (zoom StdioTunnel.poller m)
}.

Section Frames.
Import StdioTunnel.

#[export] Instance frame_of_poller {P : Posix} {R O : Type} `{EqDecision O} :
  Frame (@StdioTunnel.poller P R O) poller_ops.
Proof. split; try apply _. intros A m. apply moves_zoom_on, _. Qed.

(** The saved terminal is never changed once the object is made. *)
#[export] Instance frame_of_terminal {P : Posix} {R O : Type} `{EqDecision O} :
  Frame (@StdioTunnel.terminal_of P R O) eq.
Proof. split; try apply _. intros A m _. apply moves_apart; apply _. Qed.

#[export] Instance apart_buffer_of {P : Posix} {R O T} (k : lens (StdioTunnel.tunnel R O) T) l
  `{!Apart StdioTunnel.link_heap k} : Apart (Heap.buffer_of l) k.
Proof. intros b s. unfold Heap.buffer_of. cbn [update]. apply (view_apart (l := StdioTunnel.link_heap)). Qed.

End Frames.

(** Walk through a computation on the tunnel. *)
Ltac frame := repeat first [progress walk | apply frame_poller; solve [eauto with tunnel]].

(** What a derived class promises: its virtual functions keep to the
    frame. *)
Class PoliteRole {P : Posix} (R O : Type) `{EqDecision O} `{!Role R O} {T}
    (k : lens (StdioTunnel.tunnel R O) T) (Rk : T -> T -> Prop) : Prop := {
  polite_reportError m : moves (on k Rk) (reportError (R:=R) (O:=O) m);
  polite_setPollfd o : moves (on k Rk) (own_setPollfd (R:=R) o)
}.

Section Behaviour.
Import StdioTunnel Heap.
Context {P : Posix} {R O : Type} `{EqDecision O} `{!Role R O}.
Context {T : Type} (k : lens (StdioTunnel.tunnel R O) T) (Rk : T -> T -> Prop).
Context `{!Frame k Rk} `{!PoliteRole R O k Rk}.
Abbreviation polite m := (moves (on k Rk) m).

Lemma polite_connection_of c : polite (connection_of c). Proof. unfold connection_of. frame. Qed.
Lemma polite_link_of l : polite (link_of l). Proof. unfold link_of. frame. Qed.
Lemma polite_set_connection f c : polite (set_connection f c). Proof. unfold set_connection. frame. Qed.
Lemma polite_set_link f l : polite (set_link f l). Proof. unfold set_link. frame. Qed.
Lemma polite_new_link x : polite (new_link x). Proof. unfold new_link. frame. Qed.
Lemma polite_new_connection x : polite (new_connection x). Proof. unfold new_connection. frame. Qed.
Lemma polite_free_link l : polite (free_link l). Proof. unfold free_link. frame. Qed.
Lemma polite_free_connection c : polite (free_connection c). Proof. unfold free_connection. frame. Qed.
#[local] Hint Resolve polite_connection_of polite_link_of polite_set_connection polite_set_link
  polite_new_link polite_new_connection polite_free_link polite_free_connection
  polite_reportError polite_setPollfd : tunnel.

Lemma polite_send : polite send. Proof. unfold send. frame. Qed.
Lemma polite_writeShort z : polite (writeShort z). Proof. unfold writeShort. frame. Qed.
Lemma polite_readShort : polite readShort. Proof. unfold readShort. frame. Qed.
#[local] Hint Resolve polite_send polite_writeShort polite_readShort : tunnel.

Lemma polite_setAcknowledged l ack : polite (setAcknowledged l ack).
Proof. unfold setAcknowledged. frame. Qed.
Lemma polite_setClosing l : polite (setClosing l). Proof. unfold setClosing. frame. Qed.
#[local] Hint Resolve polite_setAcknowledged polite_setClosing : tunnel.
Lemma polite_closeLink c l : polite (closeLink c l). Proof. unfold closeLink. frame. Qed.
Lemma polite_sendData c l bs : polite (sendData c l bs). Proof. unfold sendData. frame. Qed.
Lemma polite_receiveData l : polite (receiveData l). Proof. unfold receiveData. frame. Qed.
Lemma polite_erase_link c id l : polite (erase_link c id l). Proof. unfold erase_link. frame. Qed.
#[local] Hint Resolve polite_closeLink polite_sendData polite_receiveData polite_erase_link : tunnel.
Lemma polite_processLinkMessage c cmd l : polite (processLinkMessage c cmd l).
Proof. unfold processLinkMessage. frame. Qed.
Lemma polite_link_polled l pf : polite (link_polled l pf). Proof. unfold link_polled. frame. Qed.
Lemma polite_listener_of c : polite (listener_of c). Proof. unfold listener_of. frame. Qed.
#[local] Hint Resolve polite_processLinkMessage polite_listener_of : tunnel.

Lemma polite_registers o : polite (Poller.setPollfd o).
Proof. destruct o; cbn; unfold listen_setPollfd, link_setPollfd; frame. Qed.
#[local] Hint Resolve polite_registers : tunnel.
Lemma polite_addPolled o : polite (addPolled o).
Proof. unfold addPolled, Poller.addPolled, Poller.on_poller. frame. Qed.
Lemma polite_assign_link c id l : polite (assign_link c id l). Proof. unfold assign_link. frame. Qed.
#[local] Hint Resolve polite_addPolled polite_assign_link : tunnel.

Lemma polite_connect_link c id spec : polite (connect_link c id spec).
Proof. unfold connect_link. frame. Qed.
#[local] Hint Resolve polite_connect_link : tunnel.
Lemma polite_connection_message id : polite (connection_message id).
Proof.
  unfold connection_message, processMessage, listen_processMessage, connect_processMessage,
    listen_message, connect_message. frame.
Qed.
Lemma polite_listen_polled c : polite (listen_polled c). Proof. unfold listen_polled. frame. Qed.
Lemma polite_initialize c : polite (initialize c). Proof. unfold initialize. frame. Qed.
#[local] Hint Resolve polite_initialize : tunnel.
Lemma polite_CreateConnection spec b id : polite (CreateConnection spec b id).
Proof. unfold CreateConnection. frame. Qed.
Lemma polite_assign_connection id c : polite (assign_connection id c).
Proof. unfold assign_connection. frame. Qed.
End Behaviour.

#[export] Hint Resolve polite_connection_of polite_link_of polite_send polite_writeShort polite_readShort
  polite_link_polled polite_listen_polled polite_connection_message polite_CreateConnection
  polite_assign_connection polite_addPolled polite_reportError polite_setPollfd : tunnel.

#[export] Existing Instance StdioTunnelLocal.local_role.
#[export] Existing Instance StdioTunnelRemote.own_eq_decision.
#[export] Existing Instance StdioTunnelRemote.remote_role.
#[export] Existing Instance StdioTunnelRemote.remote_polled.

Section Rounds.
Import StdioTunnel Heap.
Context {P : Posix}.

(** *** The local end *)

Section Local.
Import StdioTunnelLocal.
Context {T : Type} (k : lens (StdioTunnel.tunnel StdioTunnelLocal.t unit) T) (Rk : T -> T -> Prop) `{!Frame k Rk}.
Abbreviation polite m := (moves (on k Rk) m).

#[local] Instance apart_role {B} (f : StdioTunnelLocal.t -> B) g :
  Apart (Lens (fun s : tunnel StdioTunnelLocal.t unit => f (role s)) (fun b s => update role_of (g b (role s)) s)) k.
Proof. intros b s. apply (view_apart (l := role_of)). Qed.

Lemma polite_report_error m : polite (report_error m).
Proof. unfold report_error. frame. Qed.
Lemma polite_local_setPollfd : polite setPollfd.
Proof. unfold setPollfd, put_state. frame. Qed.
#[local] Hint Resolve polite_report_error polite_local_setPollfd : tunnel.

#[export] Instance local_polite : PoliteRole StdioTunnelLocal.t unit k Rk.
Proof. split; intros; apply polite_report_error || apply polite_local_setPollfd. Qed.
#[local] Hint Resolve local_polite : tunnel.

Lemma polite_write_specs l : polite (write_specs l).
Proof. induction l as [|[] l IH]; cbn [write_specs]; frame. Qed.
#[local] Hint Resolve polite_write_specs : tunnel.
Lemma polite_startHandshaking : polite startHandshaking.
Proof. unfold startHandshaking, put_state, daemon. frame. Qed.
Lemma polite_remoteInit c : polite (remoteInit c). Proof. unfold remoteInit. frame. Qed.
#[local] Hint Resolve polite_startHandshaking polite_remoteInit : tunnel.

Lemma polite_processReadData bs :
  polite (MagicStringDetector.processReadData detector startHandshaking remoteInit bs).
Proof.
  unfold MagicStringDetector.processReadData.
  induction bs as [|b bs IH]; [frame|].
  unfold MagicStringDetector.match_magic, MagicStringDetector.match_login, MagicStringDetector.on_detector.
  frame.
Qed.
#[local] Hint Resolve polite_processReadData : tunnel.

Lemma polite_readData (b : lens _ SockBuffer.t) `{!Apart b k} process blocks f :
  (forall bs, polite (process bs)) -> polite (SockBuffer.readData b system_of process blocks f).
Proof.
  intros Hp. unfold SockBuffer.readData. generalize 0 as n.
  induction blocks as [|blocks IH]; intros n; cbn [SockBuffer.read_loop]; [frame|].
  unfold SockBuffer.read_block. frame.
Qed.

Lemma polite_detector_readData blocks f : polite (detector_readData blocks f).
Proof. apply polite_readData; [apply _|eauto with tunnel]. Qed.
Lemma polite_writer_readData blocks f : polite (writer_readData blocks f).
Proof. apply polite_readData; [apply _|intros; frame]. Qed.
#[local] Hint Resolve polite_detector_readData polite_writer_readData : tunnel.

Lemma polite_pass_through blocks pf : polite (pass_through blocks pf).
Proof. unfold pass_through, unsent, setEvents, write_out. frame. Qed.
Lemma polite_message_in : polite StdioTunnelLocal.message_in.
Proof. unfold message_in, setShutdownByRequest, put_state. frame. Qed.
#[local] Hint Resolve polite_pass_through polite_message_in : tunnel.
Lemma polite_connected id pf : polite (connected id pf).
Proof. unfold connected, unsent, setEvents, write_out. frame. Qed.
#[local] Hint Resolve polite_connected : tunnel.
Lemma polite_local_polled blocks id pf : polite (polled blocks id pf).
Proof. unfold polled. frame. Qed.
#[local] Hint Resolve polite_local_polled : tunnel.

End Local.

(** *** The remote end *)

Section Remote.
Import StdioTunnelRemote.
Context {T : Type} (k : lens (StdioTunnel.tunnel StdioTunnelRemote.t own) T) (Rk : T -> T -> Prop) `{!Frame k Rk}.
Abbreviation polite m := (moves (on k Rk) m).

#[local] Instance apart_socks5 : Apart socks5_lens k.
Proof. intros b s. apply (view_apart (l := role_of)). Qed.

Lemma polite_remote_report_error m : polite (report_error m).
Proof. unfold report_error. frame. Qed.
Lemma polite_server_of : polite server_of. Proof. unfold server_of. frame. Qed.
#[local] Hint Resolve polite_server_of : tunnel.
Lemma polite_remote_setPollfd o :
  polite (match o with OTunnel => setPollfd | OSocks5 => socks5_setPollfd end).
Proof. unfold setPollfd, socks5_setPollfd, put_state. frame. Qed.

#[export] Instance remote_polite : PoliteRole StdioTunnelRemote.t own k Rk.
Proof. split; intros; apply polite_remote_report_error || apply polite_remote_setPollfd. Qed.
#[local] Hint Resolve remote_polite : tunnel.

Lemma polite_start_socks5 spec : polite (start_socks5 spec).
Proof. unfold start_socks5. frame. Qed.
#[local] Hint Resolve polite_start_socks5 : tunnel.
Lemma polite_accept_spec id spec : polite (accept_spec id spec).
Proof. unfold accept_spec. frame. Qed.
#[local] Hint Resolve polite_accept_spec : tunnel.
Lemma polite_read_specs n : polite (read_specs n).
Proof. induction n; cbn [read_specs]; frame. Qed.
#[local] Hint Resolve polite_read_specs : tunnel.
Lemma polite_remote_message_in : polite message_in.
Proof. unfold message_in, handshaking, connected, setShutdownByRequest, put_state. frame. Qed.
#[local] Hint Resolve polite_remote_message_in : tunnel.
Lemma polite_remote_polled id pf : polite (polled id pf).
Proof. unfold polled, put_state. frame. Qed.
Lemma polite_socks5_polled : polite socks5_polled.
Proof. unfold socks5_polled. frame. Qed.
#[local] Hint Resolve polite_remote_polled polite_socks5_polled : tunnel.

End Remote.

Lemma local_well_behaved blocks :
  well_behaved (Polled0 := StdioTunnelLocal.local_polled blocks) (@poller P StdioTunnelLocal.t unit).
Proof.
  intros [o|c|l] id pf; cbn; [apply (polite_local_polled poller poller_ops)|apply (polite_listen_polled poller poller_ops)|apply (polite_link_polled poller poller_ops)]; apply _.
Qed.

Lemma remote_well_behaved : well_behaved (@poller P StdioTunnelRemote.t StdioTunnelRemote.own).
Proof.
  intros [[]|c|l] id pf; cbn;
    [apply (polite_remote_polled poller poller_ops)|apply (polite_socks5_polled poller poller_ops)|apply (polite_listen_polled poller poller_ops)|apply (polite_link_polled poller poller_ops)]; apply _.
Qed.

(** A round of a program's event loop, as it should be, that leaves a
    poller fit for the next one. *)
Definition round_ok {R O : Type} `{EqDecision O} `{!Polled (tunnel R O) (obj O)} (s : tunnel R O) : Prop :=
  (exists size, zlen (Poller.m_polled (m_poller s)) <= size /\
     Poller.pollOnce poller system_of s = pollRound poller system_of size s) /\
  match Poller.pollOnce poller system_of s with
  | Ret _ s' | Throw _ s' => poller_wf (m_poller s')
  | _ => True
  end.

Lemma polite_round {R O : Type} `{EqDecision O} `{!Polled (tunnel R O) (obj O)} (s : tunnel R O) :
  well_behaved (@poller P R O) -> poller_wf (m_poller s) -> round_ok s.
Proof.
  intros WB Hwf. destruct (pollOnce_traverses poller system_of WB (fun _ _ => eq_refl) s Hwf) as (size & H1 & H2 & E).
  split; [by exists size|]. rewrite E. by apply (pollRound_wf poller system_of WB).
Qed.

(** C14: the event loop of both programs is a traversal of a snapshot, every
    round.  Whatever the descriptors report and the messages say, a round
    of either end polls what is registered and calls, in order and once,
    each ready object that was registered when the round began and still
    is, although these calls accept and close links, register the SOCKS
    server and remove the standard descriptors; and it leaves the poller
    well-formed, so that the same holds of the next round. *)
Theorem tunnel_rounds blocks
    (sl : tunnel StdioTunnelLocal.t unit) (sr : tunnel StdioTunnelRemote.t StdioTunnelRemote.own)
    (Hl : poller_wf (m_poller sl)) (Hr : poller_wf (m_poller sr)) :
  round_ok (Polled0 := StdioTunnelLocal.local_polled blocks) sl /\ round_ok sr.
Proof.
  split; apply polite_round; [apply local_well_behaved|done|apply remote_well_behaved|done].
Qed.
End Rounds.

(** The two processes of a small run: the command's pipe is descriptors 5
    and 6, and one port is tunnelled from the local to the remote side. *)
Definition demo_config : Options.config :=
  Options.with_specs [ConnectionSpec.Mk ConnectionSpec.LISTEN (bytes_of "db") 5432 8000 0] Options.config_init.

Definition demo_local : StdioTunnel.tunnel (P:=ScriptOS) StdioTunnelLocal.t unit :=
  let s0 := StdioTunnel.new_StdioTunnel (P:=ScriptOS)
              (StdioTunnelLocal.set_fds 5 6 (StdioTunnelLocal.configured demo_config))
              ((Termios 0 0 0 0, false), (0, 0))
              (Script [Err 25; Num 1; Num 1; Num 1; Num 1] []) in
  final (StdioTunnelLocal.start_tunnel (P:=ScriptOS) s0) s0.

Definition demo_remote : StdioTunnel.tunnel (P:=ScriptOS) StdioTunnelRemote.t StdioTunnelRemote.own :=
  let s0 := StdioTunnel.new_StdioTunnel (P:=ScriptOS) StdioTunnelRemote.init
              ((Termios 0 0 0 0, false), (0, 0)) (Script [Err 25; Num 31; Num 1; Num 1] []) in
  final (StdioTunnelRemote.start_tunnel (P:=ScriptOS) s0) s0.

Lemma tunnel_rounds_witness :
  round_ok (Polled0 := StdioTunnelLocal.local_polled 1) demo_local /\ round_ok demo_remote.
Proof.
  apply (tunnel_rounds (P:=ScriptOS) 1 demo_local demo_remote); (split; [split|]).
  1, 4: apply (bool_decide_unpack _); vm_compute; exact I.
  1, 3: apply (bool_decide_unpack _); vm_compute; exact I.
  all: vm_compute; congruence.
Defined.
