(* ===== verification/Protocol.v ===== *)
(** * The messages of the tunnel

    What the two processes say to each other, as data, with its encoding;
    every callback of either process says whole messages only, one to a
    packet. *)

From stdpp Require Import base list tactics gmap strings relations.
From Stdlib Require Import ZArith Lia.
From S2P Require Import Prelude Posix Wire SockBuffer Poller Spec Magic Tunnel Connection Socks5 Local Remote Behaviour.

(** A message about a link. *)
Inductive link_message : Type :=
| LCreate
| LCreated (result : Z)
| LSend (bytes : list byte)
| LSendForAck (bytes : list byte)
| LClose
| LAck.

Inductive message : Type :=
| MError (text : list byte)
| MCreate (specs : list (Z * ConnectionSpec.t))
| MReady
| MShutdown
| MLink (connection link : Z) (m : link_message).

Section Encoding.
Import StdioTunnel TunnelConnection.

Definition link_command (m : link_message) : Z :=
  match m with
  | LCreate | LCreated _ => LINK_CREATE
  | LSend _ => LINK_SEND
  | LSendForAck _ => LINK_SEND_FOR_ACK
  | LClose => LINK_CLOSE
  | LAck => LINK_ACK
  end.

Definition enc_link_body (m : link_message) : list byte :=
  match m with
  | LCreated r => enc_short r
  | LSend bytes | LSendForAck bytes => enc_short (zlen bytes) ++ bytes
  | LCreate | LClose | LAck => []
  end.

Definition enc_specs (l : list (Z * ConnectionSpec.t)) : list byte :=
  concat (map (fun e => enc_short e.1 ++ enc_spec e.2) l).

Definition enc_message (m : message) : list byte :=
  match m with
  | MError text => enc_short CMD_ERROR ++ enc_string text
  | MCreate specs => enc_short CMD_CREATE ++ enc_short (zlen specs) ++ enc_specs specs
  | MReady => enc_short CMD_CREATE
  | MShutdown => enc_short CMD_SHUTDOWN
  | MLink c l m => enc_short CMD_CONNECTION ++ enc_short c ++ enc_short (link_command m) ++
                   enc_short l ++ enc_link_body m
  end.

(** What the receiver can take: data fits its buffer. *)
Definition message_ok (m : message) : Prop :=
  match m with
  | MLink _ _ (LSend bytes) | MLink _ _ (LSendForAck bytes) => 0 < zlen bytes <= BUFFER_SIZE
  | _ => True
  end.
End Encoding.

(** ** Speaking *)

(** What happens to the write stream between two callbacks: a message is
    queued as one packet, or packets are written out. *)
Inductive writer_step {P : Posix} : WriteStream.t -> WriteStream.t -> Prop :=
| says m k : message_ok m ->
    writer_step (WriteStream.Mk [] k)
                (WriteStream.Mk [] (k ++ [WriteStream.new_WritePacket (enc_message m)]))
| drains p o p' o' w w' :
    WriteStream.empty p (w, o) = Ret p' (w', o') -> WriteStream.m_queue w = [] -> writer_step w w'.

(** From a stream with no unfinished message, such steps lead to another. *)
Definition speaks {P : Posix} (w w' : WriteStream.t) : Prop :=
  WriteStream.m_queue w = [] -> rtc writer_step w w' /\ WriteStream.m_queue w' = [].

#[export] Instance speaks_preorder {P : Posix} : PreOrder speaks.
Proof.
  split; [intros w; by split|]. intros w1 w2 w3 H12 H23 H1.
  destruct (H12 H1) as [R12 H2]. destruct (H23 H2) as [R23 H3]. split; [by etransitivity|done].
Qed.

(** [leads R m]: whenever [m] returns, the states before and after are
    related.  A callback that throws ends the process, possibly in the middle
    of a message. *)
Definition leads {S A} (R : S -> S -> Prop) (m : M S A) : Prop :=
  forall s a s', m s = Ret a s' -> R s s'.

Section Leads.
Context {S : Type} (R : S -> S -> Prop) `{!PreOrder R}.

Lemma leads_moves {A} (m : M S A) : moves R m -> leads R m.
Proof. intros H s a s' E. specialize (H s). by rewrite E in H. Qed.
Lemma leads_bind {A B} (m : M S A) (f : A -> M S B) :
  leads R m -> (forall a, leads R (f a)) -> leads R (m ≫= f).
Proof.
  intros Hm Hf s b s'' (a & s' & E1 & E2)%bind_inv. etransitivity; [by eapply Hm|by eapply Hf].
Qed.
Lemma leads_when b m : leads R m -> leads R (when b m).
Proof. destruct b; [done|]. intros _. by apply leads_moves, moves_ret. Qed.
Lemma leads_throw {A} e : leads R (throw (A:=A) e).
Proof. by intros s a s'. Qed.
End Leads.

Section Speaking.
Import StdioTunnel Heap TunnelConnection ConnectionLink.
Context {P : Posix} {R O : Type} `{EqDecision O} `{!Role R O}.
Abbreviation S := (tunnel R O).
Abbreviation spoken m := (leads (on (@writer P R O) speaks) m).

(** The state with more bytes of a message queued. *)
Definition queued (bs : list byte) (s : S) : S :=
  update writer (WriteStream.Mk (WriteStream.m_queue (m_write_stream s) ++ bs)
                   (WriteStream.m_packet_queue (m_write_stream s))) s.

Lemma queued_nil s : queued [] s = s.
Proof. unfold queued. rewrite app_nil_r. by destruct s as [? []]. Qed.
Lemma queued_queued a b s : queued b (queued a s) = queued (a ++ b) s.
Proof. unfold queued. cbn. by rewrite app_assoc. Qed.

Lemma writeShort_at z s : writeShort z s = Ret tt (queued (enc_short z) s).
Proof. done. Qed.
Lemma writeString_at m s : zoom writer (WriteStream.writeString m) s = Ret tt (queued (enc_string m) s).
Proof. unfold zoom. by rewrite writeString_spec. Qed.
Lemma serialize_at c s : zoom writer (ConnectionSpec.serialize c) s = Ret tt (queued (enc_spec c) s).
Proof. unfold zoom. by rewrite serialize_values, write_values_spec. Qed.

(** With [pre] of a message queued, [m] finishes it and sends it. *)
Definition utters (pre : list byte) {A} (m : M S A) : Prop := forall s a s',
  m s = Ret a s' -> WriteStream.m_queue (m_write_stream s) = pre ->
  rtc writer_step (WriteStream.Mk [] (WriteStream.m_packet_queue (m_write_stream s))) (m_write_stream s') /\
  WriteStream.m_queue (m_write_stream s') = [].

Lemma utters_spoken {A} (m : M S A) : utters [] m -> spoken m.
Proof.
  intros H s a s' E Hq. cbn [view writer] in Hq. destruct (H s a s' E Hq) as [H1 H2].
  split; [|done]. cbn [view writer]. by destruct (m_write_stream s) as [q k]; simplify_eq/=.
Qed.

Lemma utters_short pre z (k : M S unit) : utters (pre ++ enc_short z) k -> utters pre (writeShort z;; k).
Proof.
  intros H s a s' E Hq. apply (H (update writer (WriteStream.Mk (WriteStream.m_queue (m_write_stream s) ++ enc_short z)
    (WriteStream.m_packet_queue (m_write_stream s))) s) a s' E). cbn. by rewrite Hq.
Qed.

Lemma utters_string pre m (k : M S unit) :
  utters (pre ++ enc_string m) k -> utters pre (zoom writer (WriteStream.writeString m);; k).
Proof.
  intros H s a s' E Hq. unfold mbind, M_bind, zoom in E. rewrite writeString_spec in E.
  refine (H _ a s' E _). cbn. by rewrite Hq.
Qed.

Lemma utters_bytes pre bs (k : M S unit) :
  utters (pre ++ bs) k -> utters pre (zoom writer (WriteStream.writeBytes bs);; k).
Proof.
  intros H s a s' E Hq. refine (H _ a s' E _). cbn. by rewrite Hq.
Qed.

Lemma utters_send_then m pre {A} (k : unit -> M S A) :
  pre = enc_message m -> message_ok m -> (forall u, spoken (k u)) -> utters pre (send ≫= k).
Proof.
  intros -> Hm Hk s a s'' (u & s' & E1 & E2)%bind_inv Hq.
  assert (enc_message m <> []) as Hne by (destruct m; discriminate).
  unfold send, gets, mbind, M_bind, zoom in E1. cbn [view writer] in E1.
  destruct (m_write_target s) as [[o f]|]; [|done].
  destruct (m_write_stream s) as [q pk] eqn:Ew. cbn [WriteStream.m_queue WriteStream.m_packet_queue] in *.
  rewrite Hq in E1. rewrite send_spec in E1 by done. injection E1 as _ <-.
  specialize (Hk u _ a s'' E2). unfold on in Hk. cbn in Hk. destruct (Hk eq_refl) as [H1 H2].
  split; [|done]. etransitivity; [|exact H1]. apply rtc_once. by constructor.
Qed.

Lemma utters_send m pre : pre = enc_message m -> message_ok m -> utters pre (send : M S unit).
Proof.
  intros Ep Hm s a s' E Hq.
  refine (utters_send_then m pre (fun u => mret u) Ep Hm _ s a s' _ Hq).
  - intros u. apply leads_moves, moves_ret. apply _.
  - unfold mbind, M_bind. by rewrite E.
Qed.
End Speaking.

(** Say message [m]: the writes are its encoding, in order. *)
Ltac say m :=
  apply utters_spoken;
  repeat first [apply utters_short | apply utters_string | apply utters_bytes];
  first [apply (utters_send_then m) | apply (utters_send m)];
  [cbn [enc_message enc_link_body link_command app]; rewrite <- ?app_assoc, ?app_nil_r; try reflexivity|..].

(** What a derived class promises: its virtual functions say messages. *)
Class SpeakingRole {P : Posix} (R O : Type) `{EqDecision O} `{!Role R O} : Prop := {
  spoken_reportError m : leads (on StdioTunnel.writer speaks) (reportError (R:=R) (O:=O) m);
  spoken_setPollfd o : leads (on StdioTunnel.writer speaks) (own_setPollfd (R:=R) o)
}.

(** Walk through a computation on the tunnel, down to its messages. *)
Ltac speak :=
  repeat first
    [ solve [eauto 2 with tunnel]
    | apply leads_throw
    | apply leads_moves; first
        [ first [apply moves_ret | apply moves_undefined | apply moves_out_of_fuel
            | apply moves_gets | apply moves_deref]; apply _
        | apply moves_syscall; apply _ | apply moves_syscall_; apply _
        | apply moves_apart; apply _ ]
    | lazymatch goal with
      | |- leads _ (mbind _ (writeShort _)) => fail
      | |- leads _ (mbind _ _) => apply leads_bind; [apply _| |intros ?]
      end
    | apply leads_when; [apply _|]
    | match goal with |- leads _ (match ?x with _ => _ end) => destruct x eqn:? end ].

Section Callbacks.
Import StdioTunnel Heap TunnelConnection ConnectionLink.
Context {P : Posix} (T : traffic P) `{!PosixLaws T}.
Context {R O : Type} `{EqDecision O} `{!Role R O} `{!SpeakingRole R O}.
Abbreviation S := (tunnel R O).
Abbreviation spoken m := (leads (on (@writer P R O) speaks) m).

Lemma spoken_connection_of c : spoken (connection_of c). Proof. unfold connection_of. speak. Qed.
Lemma spoken_link_of l : spoken (link_of l). Proof. unfold link_of. speak. Qed.
Lemma spoken_readShort : spoken readShort. Proof. unfold readShort. speak. Qed.
#[local] Hint Resolve spoken_connection_of spoken_link_of spoken_readShort
  spoken_reportError spoken_setPollfd : tunnel.

Lemma spoken_setAcknowledged l ack : spoken (setAcknowledged l ack).
Proof. unfold setAcknowledged, set_link. speak. Qed.
Lemma spoken_setClosing l : spoken (setClosing l). Proof. unfold setClosing, set_link. speak. Qed.
#[local] Hint Resolve spoken_setAcknowledged spoken_setClosing : tunnel.

Lemma spoken_closeLink c l : spoken (closeLink c l).
Proof.
  unfold closeLink. speak. say (MLink (TunnelConnection.m_id a1) (ConnectionLink.m_id a) LClose). done.
Qed.

Lemma spoken_sendData c l bs : 0 < zlen bs <= BUFFER_SIZE -> spoken (sendData c l bs).
Proof.
  intros Hbs. unfold sendData. apply leads_bind; [apply _|apply spoken_connection_of|intros n].
  apply leads_bind; [apply _|apply spoken_link_of|intros k]. destruct (acks n).
  - by say (MLink (TunnelConnection.m_id n) (ConnectionLink.m_id k) (LSendForAck bs)).
  - by say (MLink (TunnelConnection.m_id n) (ConnectionLink.m_id k) (LSend bs)).
Qed.

Lemma spoken_receiveData l : spoken (receiveData l). Proof. unfold receiveData. speak. Qed.
Lemma spoken_erase_link c id l : spoken (erase_link c id l).
Proof. unfold erase_link, set_connection, free_link. speak. Qed.
#[local] Hint Resolve spoken_closeLink spoken_receiveData spoken_erase_link : tunnel.
Lemma spoken_processLinkMessage c cmd l : spoken (processLinkMessage c cmd l).
Proof.
  unfold processLinkMessage. speak.
  by say (MLink (TunnelConnection.m_id a1) (ConnectionLink.m_id a0) LAck).
Qed.
#[local] Hint Resolve spoken_processLinkMessage : tunnel.

(** A system call whose result is known to come from one. *)
Lemma spoken_call {A B} (call : os -> A * os) (k : A -> M S B) :
  (forall o a o', call o = (a, o') -> spoken (k a)) -> spoken (syscall system_of call ≫= k).
Proof.
  intros H s b s'' (a & s' & E1 & E2)%bind_inv. unfold syscall in E1.
  destruct (call (view system_of s)) as [a1 o1] eqn:E. injection E1 as <- <-.
  exact (H _ _ _ E _ _ _ E2).
Qed.

Lemma spoken_link_polled l pf : spoken (link_polled l pf).
Proof.
  unfold link_polled. apply leads_bind; [apply _|apply spoken_link_of|intros k].
  apply leads_bind; [apply _| |intros []; speak].
  destruct (has_bit _ _); [|speak]. apply spoken_call. intros o r o' E.
  destruct (Z.leb_spec (zlen (match r with SysOk bs => bs | SysErr _ => [] end)) 0); [speak|].
  apply leads_bind; [apply _| |intros _; speak]. apply spoken_sendData.
  destruct r as [bs|e]; [|simpl in *; lia]. apply (read_ok (T:=T)) in E as [L _]. unfold BUFFER_SIZE in *. lia.
Qed.

Lemma spoken_registers o : spoken (Poller.setPollfd o).
Proof. destruct o; cbn; unfold listen_setPollfd, link_setPollfd, listener_of; speak. Qed.
#[local] Hint Resolve spoken_registers : tunnel.
Lemma spoken_addPolled o : spoken (addPolled o).
Proof. unfold addPolled, Poller.addPolled, Poller.on_poller. speak. Qed.
Lemma spoken_new_link k : spoken (new_link k). Proof. unfold new_link. speak. Qed.
Lemma spoken_new_connection k : spoken (new_connection k). Proof. unfold new_connection. speak. Qed.
Lemma spoken_assign_link c id l : spoken (assign_link c id l).
Proof. unfold assign_link, set_connection, free_link. speak. Qed.
Lemma spoken_free_connection c : spoken (free_connection c).
Proof. unfold free_connection. speak. Qed.
#[local] Hint Resolve spoken_addPolled spoken_new_link spoken_new_connection spoken_assign_link
  spoken_free_connection : tunnel.

Lemma spoken_connect_link c id spec : spoken (connect_link c id spec).
Proof. unfold connect_link. speak. Qed.
#[local] Hint Resolve spoken_connect_link : tunnel.

Lemma spoken_listen_polled c : spoken (listen_polled c).
Proof.
  unfold listen_polled, listener_of, set_connection. speak.
  by say (MLink (TunnelConnection.m_id a.1) a.2.2 LCreate).
Qed.

Lemma spoken_connection_message id : spoken (connection_message id).
Proof.
  unfold connection_message, processMessage, listen_processMessage, connect_processMessage,
    listen_message, connect_message. speak.
  match goal with |- context [writeShort (if ?b then _ else _)] =>
    by say (MLink (TunnelConnection.m_id a4) a3 (LCreated (if b then LINK_SUCCESS else LINK_FAILURE))) end.
Qed.

Lemma spoken_initialize c : spoken (initialize c). Proof. unfold initialize, set_connection. speak. Qed.
#[local] Hint Resolve spoken_initialize : tunnel.
Lemma spoken_CreateConnection spec b id : spoken (CreateConnection spec b id).
Proof. unfold CreateConnection. speak. Qed.
Lemma spoken_assign_connection id c : spoken (assign_connection id c).
Proof. unfold assign_connection. speak. Qed.

(** [empty], on the stream in the tunnel. *)
Lemma spoken_empty pf : spoken (zoom (lens_pair writer system_of) (WriteStream.empty pf)).
Proof.
  intros s pf' s' E Hq. unfold zoom in E. cbn [view lens_pair writer] in E.
  destruct (WriteStream.empty pf _) as [pf1 [w1 o1]| | |] eqn:Ee; [|done..].
  injection E as <- <-. cbn [view writer] in *. cbn.
  assert (WriteStream.m_queue w1 = []) as Hq1.
  { revert Ee. unfold WriteStream.empty, gets, mbind, M_bind, when, modify, WriteStream.on_front,
      WriteStream.sendPacket, mret, M_ret.
    repeat case_match; intros; simplify_eq/=; done. }
  split; [|done]. apply rtc_once. by eapply drains.
Qed.
End Callbacks.

#[export] Hint Resolve spoken_connection_of spoken_link_of spoken_readShort spoken_reportError
  spoken_setPollfd spoken_listen_polled spoken_connection_message spoken_CreateConnection
  spoken_assign_connection spoken_addPolled spoken_empty : tunnel.

(** ** The two processes *)

Section Ends.
Import StdioTunnel Heap.
Context {P : Posix} (T : traffic P) `{!PosixLaws T}.

Section Local.
Import StdioTunnelLocal.
Abbreviation S := (tunnel StdioTunnelLocal.t unit).
Abbreviation spoken m := (leads (on (@writer P StdioTunnelLocal.t unit) speaks) m).

Lemma spoken_report_error m : spoken (report_error m).
Proof. unfold report_error. speak. Qed.
Lemma spoken_local_setPollfd : spoken setPollfd.
Proof. unfold setPollfd, put_state. speak. Qed.
#[local] Hint Resolve spoken_report_error spoken_local_setPollfd : tunnel.

#[export] Instance local_speaking : SpeakingRole StdioTunnelLocal.t unit.
Proof. split; intros; apply spoken_report_error || apply spoken_local_setPollfd. Qed.
#[local] Hint Resolve local_speaking : tunnel.

(** The specifications of connections, as the heap has them. *)
Definition specs_of (l : list (Z * nat)) (s : S) : option (list (Z * ConnectionSpec.t)) :=
  mapM (fun e => c ← connections s !! e.2;
                 Some (TunnelConnection.m_id c, TunnelConnection.m_spec c)) l.

Lemma write_specs_cons i c l s :
  write_specs ((i, c) :: l) s =
  match connections s !! c with
  | Some n => write_specs l (queued (enc_short (TunnelConnection.m_id n) ++ enc_spec (TunnelConnection.m_spec n)) s)
  | None => Undef Dangling
  end.
Proof.
  cbn [write_specs]. unfold connection_of, gets, mbind, M_bind, deref.
  destruct (connections s !! c) as [n|]; [|done]. unfold mret at 1, M_ret at 1.
  by rewrite writeShort_at, serialize_at, queued_queued.
Qed.

Lemma write_specs_spec l s :
  match specs_of l s with
  | Some specs => length specs = length l /\ write_specs l s = Ret tt (queued (enc_specs specs) s)
  | None => write_specs l s = Undef Dangling
  end.
Proof.
  revert s. induction l as [|[i c] l IH]; intros s.
  - split; [done|]. by rewrite queued_nil.
  - rewrite write_specs_cons. unfold specs_of in *. cbn [mapM snd].
    destruct (connections s !! c) as [n|]; [|done]. cbn [mbind option_bind].
    match goal with |- context [write_specs l ?s1] => specialize (IH s1) end.
    change (connections (queued _ s)) with (connections s) in IH.
    destruct (mapM _ l) as [specs|]; [|done]. destruct IH as [L ->]. split; [cbn; lia|].
    rewrite queued_queued. cbn. by rewrite <- !app_assoc.
Qed.

Lemma utters_specs m (k : unit -> M S unit) :
  (forall u, spoken (k u)) ->
  utters [] (writeShort CMD_CREATE;; writeShort (zlen (in_order m));;
             write_specs (in_order m);; (send ≫= k)).
Proof.
  intros Hk s u s' E Hq. unfold mbind at 1 2 3, M_bind at 1 2 3 in E.
  rewrite writeShort_at in E. cbn beta iota in E. rewrite writeShort_at in E. cbn beta iota in E.
  pose proof (write_specs_spec (in_order m) (queued (enc_short (zlen (in_order m))) (queued (enc_short CMD_CREATE) s))) as W.
  destruct (specs_of _ _) as [specs|]; [|by rewrite W in E]. destruct W as [L W]. rewrite W in E.
  rewrite !queued_queued in E.
  refine (utters_send_then (MCreate specs) _ k eq_refl I Hk _ u s' E _).
  cbn [queued m_write_stream update writer WriteStream.m_queue]. rewrite Hq. cbn [enc_message].
  by rewrite L, app_nil_l.
Qed.

Lemma spoken_startHandshaking : spoken startHandshaking.
Proof.
  unfold startHandshaking, put_state. speak.
  apply utters_spoken, utters_specs. intros _. unfold daemon. speak.
Qed.
Lemma spoken_remoteInit c : spoken (remoteInit c). Proof. unfold remoteInit. speak. Qed.
#[local] Hint Resolve spoken_startHandshaking spoken_remoteInit : tunnel.

Lemma spoken_processReadData bs :
  spoken (MagicStringDetector.processReadData detector startHandshaking remoteInit bs).
Proof.
  unfold MagicStringDetector.processReadData. induction bs as [|b bs IH]; [speak|].
  unfold MagicStringDetector.match_magic, MagicStringDetector.match_login, MagicStringDetector.on_detector.
  speak.
Qed.
#[local] Hint Resolve spoken_processReadData : tunnel.

Lemma spoken_readData (b : lens S SockBuffer.t) `{!Apart b writer} process blocks f :
  (forall bs, spoken (process bs)) -> spoken (SockBuffer.readData b system_of process blocks f).
Proof.
  intros Hp. unfold SockBuffer.readData. generalize 0 as n.
  induction blocks as [|blocks IH]; intros n; cbn [SockBuffer.read_loop]; [speak|].
  unfold SockBuffer.read_block. speak.
Qed.

Lemma spoken_detector_readData blocks f : spoken (detector_readData blocks f).
Proof. apply spoken_readData; [apply _|eauto with tunnel]. Qed.
Lemma spoken_writer_readData blocks f : spoken (writer_readData blocks f).
Proof. apply spoken_readData; [apply _|intros; speak]. Qed.
#[local] Hint Resolve spoken_detector_readData spoken_writer_readData : tunnel.

Lemma spoken_pass_through blocks pf : spoken (pass_through blocks pf).
Proof. unfold pass_through, unsent, setEvents, write_out. speak. Qed.
Lemma spoken_message_in : spoken StdioTunnelLocal.message_in.
Proof. unfold message_in, setShutdownByRequest, put_state. speak. Qed.
#[local] Hint Resolve spoken_pass_through spoken_message_in : tunnel.
Lemma spoken_connected id pf : spoken (connected id pf).
Proof. unfold connected, unsent, setEvents, write_out. speak. Qed.
#[local] Hint Resolve spoken_connected : tunnel.
Lemma spoken_local_polled blocks id pf : spoken (polled blocks id pf).
Proof. unfold polled. speak. Qed.
#[local] Hint Resolve spoken_local_polled : tunnel.

Lemma local_callbacks blocks o id pf : spoken (Poller.polled (Polled := local_polled blocks) o id pf).
Proof. destruct o; cbn; eauto with tunnel. by apply (spoken_link_polled T). Qed.
End Local.

Section Remote.
Import StdioTunnelRemote.
Abbreviation S := (tunnel StdioTunnelRemote.t own).
Abbreviation spoken m := (leads (on (@writer P StdioTunnelRemote.t own) speaks) m).

Lemma spoken_remote_report_error m : spoken (report_error m).
Proof. unfold report_error. by say (MError m). Qed.
Lemma spoken_server_of : spoken server_of. Proof. unfold server_of. speak. Qed.
#[local] Hint Resolve spoken_server_of : tunnel.
Lemma spoken_remote_setPollfd o :
  spoken (match o with OTunnel => setPollfd | OSocks5 => socks5_setPollfd end).
Proof. unfold setPollfd, socks5_setPollfd, put_state. speak. Qed.

#[export] Instance remote_speaking : SpeakingRole StdioTunnelRemote.t own.
Proof. split; intros; apply spoken_remote_report_error || apply spoken_remote_setPollfd. Qed.
#[local] Hint Resolve remote_speaking : tunnel.

Lemma spoken_start_socks5 spec : spoken (start_socks5 spec).
Proof. unfold start_socks5. speak. Qed.
#[local] Hint Resolve spoken_start_socks5 : tunnel.
Lemma spoken_accept_spec id spec : spoken (accept_spec id spec).
Proof. unfold accept_spec. speak. Qed.
#[local] Hint Resolve spoken_accept_spec : tunnel.
Lemma spoken_read_specs n : spoken (read_specs n).
Proof. induction n; cbn [read_specs]; speak. Qed.
#[local] Hint Resolve spoken_read_specs : tunnel.
Lemma spoken_remote_message_in : spoken message_in.
Proof. unfold message_in, handshaking, connected, setShutdownByRequest, put_state. speak. by say MReady. Qed.
#[local] Hint Resolve spoken_remote_message_in : tunnel.
Lemma spoken_remote_polled id pf : spoken (polled id pf).
Proof. unfold polled, put_state. speak. Qed.
Lemma spoken_socks5_polled : spoken socks5_polled.
Proof. unfold socks5_polled. speak. Qed.
#[local] Hint Resolve spoken_remote_polled spoken_socks5_polled : tunnel.

Lemma remote_callbacks o id pf : spoken (Poller.polled o id pf).
Proof. destruct o as [[]|c|l]; cbn; eauto with tunnel. by apply (spoken_link_polled T). Qed.
End Remote.

(** C11: both processes say whole messages, one to a packet.  Whatever
    object the event loop calls, for whatever reason, when the call returns
    the write stream has only had complete messages of the protocol queued,
    each as a packet of its own, and packets written out; nothing is left
    half said.  Data in a LINK_SEND is never empty nor longer than the
    receiver's buffer. *)
Theorem callbacks_speak blocks ol il pl (sl sl' : tunnel StdioTunnelLocal.t unit)
    or ir pr (sr sr' : tunnel StdioTunnelRemote.t StdioTunnelRemote.own)
    (El : Poller.polled (Polled := StdioTunnelLocal.local_polled blocks) ol il pl sl = Ret tt sl')
    (Ql : WriteStream.m_queue (m_write_stream sl) = [])
    (Er : Poller.polled or ir pr sr = Ret tt sr')
    (Qr : WriteStream.m_queue (m_write_stream sr) = []) :
  (rtc writer_step (m_write_stream sl) (m_write_stream sl') /\ WriteStream.m_queue (m_write_stream sl') = []) /\
  (rtc writer_step (m_write_stream sr) (m_write_stream sr') /\ WriteStream.m_queue (m_write_stream sr') = []).
Proof.
  split; [exact (local_callbacks blocks ol il pl sl tt sl' El Ql)|exact (remote_callbacks or ir pr sr tt sr' Er Qr)].
Qed.
End Ends.

(** The local end accepts a socket on its listener, the remote end hears the
    list of connections. *)
Module ProtocolDemo.
Import StdioTunnel.

Definition accepting : tunnel (P:=ScriptOS) StdioTunnelLocal.t unit :=
  let c := TunnelConnection.Mk (ConnectionSpec.Mk ConnectionSpec.CONNECT (bytes_of "db") 5432 8000 0) 0 ∅
             (TunnelConnection.ListenSide 8 501) in
  update connection_heap {[0%nat := c]} (update system_of (Script [Num 9; Num 0] []) demo_local).
Definition accepted : tunnel (P:=ScriptOS) StdioTunnelLocal.t unit :=
  final (Poller.polled (Polled := StdioTunnelLocal.local_polled 1) (PListen 0%nat) 4%nat (Pollfd 8 1 1) accepting) accepting.

Definition waiting : tunnel (P:=ScriptOS) StdioTunnelRemote.t StdioTunnelRemote.own :=
  update system_of (Script [Data (be32 4); Data (enc_message (MCreate []))] []) demo_remote.
Definition answered : tunnel (P:=ScriptOS) StdioTunnelRemote.t StdioTunnelRemote.own :=
  final (Poller.polled (POwn StdioTunnelRemote.OTunnel) 0%nat (Pollfd 0 1 1) waiting) waiting.

Lemma callbacks_speak_witness :
  (rtc (writer_step (P:=ScriptOS)) (m_write_stream accepting) (m_write_stream accepted) /\
     WriteStream.m_queue (m_write_stream accepted) = []) /\
  (rtc (writer_step (P:=ScriptOS)) (m_write_stream waiting) (m_write_stream answered) /\
     WriteStream.m_queue (m_write_stream answered) = []).
Proof.
  apply (callbacks_speak (P:=ScriptOS) script_traffic 1 (PListen 0%nat) 4%nat (Pollfd 8 1 1) accepting accepted
           (POwn StdioTunnelRemote.OTunnel) 0%nat (Pollfd 0 1 1) waiting answered); vm_compute; reflexivity.
Defined.
End ProtocolDemo.
