(* ===== verification/Links.v ===== *)
(** * Links across the tunnel

    What each message does to the process that hears it, and the exchanges
    between the two ends of a link: data, acknowledgement, closing, creation. *)

From stdpp Require Import base list tactics gmap strings relations.
From Stdlib Require Import ZArith Lia.
From S2P Require Import Prelude Posix Wire SockBuffer Poller Spec Magic Tunnel Connection Socks5 Local Remote Behaviour Protocol.

Section Hearing.
Import StdioTunnel Heap TunnelConnection ConnectionLink.
Context {P : Posix} {R O : Type} `{EqDecision O} `{!Role R O}.
Abbreviation S := (tunnel R O).

(** The state with [q] left to read. *)
Definition unread (q : list byte) (s : S) : S :=
  update reader (ReadStream.set_queue q (m_read_stream s)) s.

Definition to_read (s : S) : list byte := ReadStream.m_queue (m_read_stream s).

Lemma readShort_at z q (s : S) : to_read s = enc_short z ++ q -> readShort s = Ret (i16 z) (unread q s).
Proof. intros E. unfold readShort, zoom. cbn [view reader]. by rewrite (readShort_enc _ _ _ E). Qed.

Lemma readBytes_at bs q (s : S) : to_read s = bs ++ q ->
  zoom reader (ReadStream.readBytes (zlen bs)) s = Ret bs (unread q s).
Proof.
  intros E. unfold zoom, ReadStream.readBytes. cbn [view reader]. by rewrite (take_front_app _ bs q).
Qed.

Lemma unread_unread a b (s : S) : unread a (unread b s) = unread a s.
Proof. done. Qed.
Lemma to_read_unread a (s : S) : to_read (unread a s) = a.
Proof. done. Qed.

(** A message about a link, after its first two shorts. *)
Definition hear : M S unit := _ ← readShort; id ← readShort; connection_message id.

(** The link [lid] of connection [cid] is object [k], of connection [c]. *)
Record linked (s : S) (cid lid : Z) (c k : nat) (n : TunnelConnection.t) (link : ConnectionLink.t) : Prop := Linked {
  linked_map : m_connection_map s !! i16 cid = Some c;
  linked_connection : connections s !! c = Some n;
  linked_link_map : m_link_map n !! i16 lid = Some k;
  linked_link : links s !! k = Some link
}.

Lemma linked_unread q (s : S) cid lid c k n link : linked s cid lid c k n link -> linked (unread q s) cid lid c k n link.
Proof. intros []. by constructor. Qed.

Lemma connection_of_at c n (s : S) : connections s !! c = Some n -> connection_of c s = Ret n s.
Proof. intros E. unfold connection_of. rewrite bind_gets. by rewrite E. Qed.
Lemma link_of_at l k (s : S) : links s !! l = Some k -> link_of l s = Ret k s.
Proof. intros E. unfold link_of. rewrite bind_gets. by rewrite E. Qed.

Lemma hear_prefix cid m (s : S) q : to_read s = enc_short CMD_CONNECTION ++ enc_short cid ++ q ->
  m_connection_map s !! i16 cid = Some m ->
  hear s = processMessage m (unread q s).
Proof.
  intros E Hm. unfold hear. rewrite (bind_step _ _ _ _ _ (readShort_at _ _ _ E)).
  rewrite (bind_step _ _ _ _ _ (readShort_at cid q _ (to_read_unread _ s))), unread_unread.
  unfold connection_message. rewrite bind_gets. cbn [unread update reader m_connection_map]. by rewrite Hm.
Qed.

(** A message for connection [c], whose value is [n]. *)
Lemma hear_dispatch cid cmd lid q c n (s : S) :
  to_read s = enc_short CMD_CONNECTION ++ enc_short cid ++ enc_short cmd ++ enc_short lid ++ q ->
  m_connection_map s !! i16 cid = Some c -> connections s !! c = Some n ->
  hear s = match m_side n with
           | ListenSide _ _ => listen_message c n (i16 cmd) (i16 lid)
           | ConnectSide => connect_message c n (i16 cmd) (i16 lid)
           end (unread q s).
Proof.
  intros E Hm Hc. rewrite (hear_prefix cid c _ _ E Hm). unfold processMessage.
  rewrite (bind_step _ _ _ _ _ (connection_of_at c n (unread _ s) Hc)).
  destruct (m_side n); [unfold listen_processMessage|unfold connect_processMessage];
    rewrite (bind_step _ _ _ _ _ (readShort_at cmd _ _ (to_read_unread _ s)));
    rewrite (bind_step _ _ _ _ _ (readShort_at lid q _ (to_read_unread _ _))), !unread_unread;
    by rewrite (bind_step _ _ _ _ _ (connection_of_at c n (unread q s) Hc)).
Qed.

(** A message about an existing link other than the answer to LINK_CREATE. *)
Lemma hear_link cid cmd lid q c k n link (s : S) :
  to_read s = enc_short CMD_CONNECTION ++ enc_short cid ++ enc_short cmd ++ enc_short lid ++ q ->
  linked s cid lid c k n link -> i16 cmd <> LINK_CREATE ->
  hear s = processLinkMessage c (i16 cmd) k (unread q s).
Proof.
  intros E [Hm Hc Hl Hk] Hcmd. rewrite (hear_dispatch _ _ _ _ _ _ s E Hm Hc). unfold listen_message, connect_message.
  rewrite Hl. by destruct (m_side n), (Z.eqb_spec (i16 cmd) LINK_CREATE).
Qed.

Lemma link_command_short m : i16 (link_command m) = link_command m.
Proof. by destruct m. Qed.

Lemma enc_link_read cid lid m q (s : S) : to_read s = enc_message (MLink cid lid m) ++ q ->
  to_read s = enc_short CMD_CONNECTION ++ enc_short cid ++ enc_short (link_command m) ++
              enc_short lid ++ enc_link_body m ++ q.
Proof. cbn [enc_message]. by rewrite <- !app_assoc. Qed.

Lemma hear_link_message cid lid m (s : S) q c k n link :
  to_read s = enc_message (MLink cid lid m) ++ q -> linked s cid lid c k n link ->
  link_command m <> LINK_CREATE ->
  hear s = processLinkMessage c (link_command m) k (unread (enc_link_body m ++ q) s).
Proof.
  intros E L Hcmd. pose proof (link_command_short m) as Ei. rewrite <- Ei in Hcmd.
  rewrite (hear_link _ _ _ _ _ _ _ _ s (enc_link_read _ _ _ _ s E) L Hcmd). by rewrite Ei.
Qed.

(** *** Saying, as a function of the state *)

Definition events_set (o : obj O) (f ev : Z) (p : Poller.t (obj O)) : Poller.t (obj O) :=
  final (Poller.setEvents o f ev p) p.

(** Ready to speak: [start] has set the stream up, nothing is half said. *)
Definition ready (s : S) (t : O * Z) : Prop :=
  m_write_target s = Some t /\ WriteStream.m_queue (m_write_stream s) = [].

(** The state once [m] has been queued as a packet. *)
Definition said (t : O * Z) (m : message) (s : S) : S :=
  update poller (events_set (POwn t.1) t.2 POLLOUT (m_poller s))
    (update writer (WriteStream.Mk [] (WriteStream.m_packet_queue (m_write_stream s) ++
                      [WriteStream.new_WritePacket (enc_message m)])) s).

Definition packets (s : S) : list WriteStream.WritePacket := WriteStream.m_packet_queue (m_write_stream s).

Lemma send_queued t m (s : S) : ready s t -> send (queued (enc_message m) s) = Ret tt (said t m s).
Proof.
  intros [Ht Hq]. assert (enc_message m <> []) as Hne by (destruct m; discriminate).
  unfold send. rewrite bind_gets. change (m_write_target (queued _ s)) with (m_write_target s). rewrite Ht.
  destruct t as [o f]. unfold mbind, M_bind, zoom. cbn [queued view writer update m_write_stream].
  rewrite Hq, app_nil_l, send_spec by done. done.
Qed.

Lemma ready_said t m (s : S) : ready s t -> ready (said t m s) t.
Proof. by intros []. Qed.

(** *** Data *)

(** The bytes join the link's buffer, which is to be written out. *)
Definition delivered (k : nat) (link : ConnectionLink.t) (bs : list byte) (s : S) : S :=
  update poller (events_set (PLink k) (m_socket link) POLLOUT (m_poller s))
    (update link_heap (<[k := set_buffer (pushed bs (m_buffer link)) link]> (links s)) s).

Lemma alter_insert_at (k : nat) (link : ConnectionLink.t) (f : ConnectionLink.t -> ConnectionLink.t) (m : gmap nat ConnectionLink.t) :
  m !! k = Some link -> alter f k m = <[k := f link]> m.
Proof.
  intros E. apply map_eq. intros j. destruct (decide (j = k)) as [->|Hj].
  - by rewrite lookup_alter_eq, lookup_insert_eq, E.
  - by rewrite lookup_alter_ne, lookup_insert_ne.
Qed.

Lemma receiveData_at k link bs q (s : S) :
  to_read s = enc_short (zlen bs) ++ bs ++ q -> zlen bs <= BUFFER_SIZE -> links s !! k = Some link ->
  receiveData k s = Ret tt (if m_closing link then unread q s else delivered k link bs (unread q s)).
Proof.
  intros E Hbs Hk. unfold receiveData. rewrite (bind_step _ _ _ _ _ (readShort_at _ _ _ E)).
  unfold BUFFER_SIZE in *. rewrite i16_id by lia. destruct (Z.ltb_spec 4096 (zlen bs)); [lia|].
  rewrite (bind_step _ _ _ _ _ (readBytes_at bs q _ (to_read_unread _ s))), unread_unread.
  rewrite (bind_step _ _ _ _ _ (link_of_at k link (unread q s) Hk)).
  destruct (m_closing link); [done|]. cbn [negb when]. unfold mbind, M_bind, zoom. cbn [view buffer_of].
  cbn [unread update reader links]. rewrite Hk. cbn [fmap option_fmap option_map default from_option].
  unfold delivered, SockBuffer.pushOnBuffer, modify. cbn [update buffer_of link_heap links].
  by rewrite (alter_insert_at k link _ _ Hk).
Qed.

Lemma writeBytes_at bs (s : S) : zoom writer (WriteStream.writeBytes bs) s = Ret tt (queued bs s).
Proof. done. Qed.

Lemma sendData_at c l bs n k t (s : S) :
  connections s !! c = Some n -> links s !! l = Some k -> ready s t ->
  sendData c l bs s =
  Ret tt (said t (MLink (TunnelConnection.m_id n) (ConnectionLink.m_id k)
                    (if acks n then LSendForAck bs else LSend bs)) s).
Proof.
  intros Hc Hl Hr. unfold sendData.
  rewrite (bind_step _ _ _ _ _ (connection_of_at c n s Hc)), (bind_step _ _ _ _ _ (link_of_at l k s Hl)).
  rewrite !(bind_step _ _ _ _ _ (writeShort_at _ _)), (bind_step _ _ _ _ _ (writeBytes_at _ _)), !queued_queued.
  rewrite <- (send_queued t _ s Hr). do 2 f_equal. cbn [enc_message].
  by destruct (acks n).
Qed.

(** The events a link that is not closing asks for. *)
Definition link_events (link : ConnectionLink.t) : Z :=
  Z.lor (if m_acknowledged link then POLLIN else 0)
        (if SockBuffer.unsentData (m_buffer link) then POLLOUT else 0).

(** The link's flag is set, and it listens to its socket accordingly. *)
Definition acked (k : nat) (link : ConnectionLink.t) (ack : bool) (s : S) : S :=
  let link' := set_acknowledged ack link in
  let s1 := update link_heap (<[k := link']> (links s)) s in
  if m_closing link then s1
  else update poller (events_set (PLink k) (m_socket link) (link_events link') (m_poller s)) s1.

Lemma setAcknowledged_at k link ack (s : S) : links s !! k = Some link ->
  setAcknowledged k ack s = Ret tt (acked k link ack s).
Proof.
  intros Hk. unfold setAcknowledged, set_link, acked.
  rewrite (bind_step _ _ _ tt (update link_heap (<[k := set_acknowledged ack link]> (links s)) s)).
  - rewrite (bind_step _ _ _ _ _ (link_of_at k (set_acknowledged ack link) _ (lookup_insert_eq _ _ _))).
    cbn [set_acknowledged m_closing m_acknowledged m_buffer m_socket]. by destruct (m_closing link).
  - unfold zoom, modify. cbn [view link_heap]. by rewrite (alter_insert_at k link _ _ Hk).
Qed.

(** What [processLinkMessage] does for the two data messages and for the
    acknowledgement. *)
Lemma hear_LSend cid lid bs (s : S) q c k n link :
  to_read s = enc_message (MLink cid lid (LSend bs)) ++ q -> linked s cid lid c k n link ->
  zlen bs <= BUFFER_SIZE ->
  hear s = Ret tt (if m_closing link then unread q s else delivered k link bs (unread q s)).
Proof.
  intros E L Hbs. rewrite (hear_link_message _ _ _ _ _ _ _ _ _ E L ltac:(done)).
  unfold processLinkMessage. cbn [link_command enc_link_body].
  change (LINK_SEND =? LINK_SEND) with true. rewrite <- app_assoc. cbn iota.
  rewrite (receiveData_at k link bs q _ (to_read_unread _ s) Hbs (linked_link _ _ _ _ _ _ _ L)).
  by rewrite unread_unread.
Qed.

Lemma links_delivered k link bs (s : S) :
  links (delivered k link bs s) !! k = Some (set_buffer (pushed bs (m_buffer link)) link).
Proof. cbn. apply lookup_insert_eq. Qed.

Lemma hear_LSendForAck cid lid bs (s : S) q c k n link t :
  to_read s = enc_message (MLink cid lid (LSendForAck bs)) ++ q -> linked s cid lid c k n link ->
  zlen bs <= BUFFER_SIZE -> m_closing link = false -> ready s t ->
  hear s = Ret tt (said t (MLink (TunnelConnection.m_id n) (ConnectionLink.m_id link) LAck)
                    (delivered k link bs (unread q s))).
Proof.
  intros E L Hbs Ho Hr. rewrite (hear_link_message _ _ _ _ _ _ _ _ _ E L ltac:(done)).
  unfold processLinkMessage. cbn [link_command enc_link_body].
  change (LINK_SEND_FOR_ACK =? LINK_SEND) with false. change (LINK_SEND_FOR_ACK =? LINK_CLOSE) with false.
  change (LINK_SEND_FOR_ACK =? LINK_SEND_FOR_ACK) with true. rewrite <- app_assoc. cbn iota.
  erewrite (bind_step (receiveData k)) by (eapply receiveData_at; [apply to_read_unread|done|exact (linked_link _ _ _ _ _ _ _ L)]).
  rewrite unread_unread, Ho.
  rewrite (bind_step _ _ _ _ _ (link_of_at k _ _ (links_delivered _ _ _ _))). cbn [set_buffer m_closing].
  rewrite Ho. cbn [negb ConnectionLink.m_id].
  rewrite (bind_step _ _ _ _ _ (connection_of_at c n (delivered k link bs (unread q s)) (linked_connection _ _ _ _ _ _ _ L))).
  rewrite !(bind_step _ _ _ _ _ (writeShort_at _ _)), !queued_queued.
  rewrite <- (send_queued t _ _ (Hr : ready (delivered k link bs (unread q s)) t)). do 2 f_equal.
Qed.

Lemma hear_LAck cid lid (s : S) q c k n link :
  to_read s = enc_message (MLink cid lid LAck) ++ q -> linked s cid lid c k n link ->
  hear s = Ret tt (acked k link true (unread q s)).
Proof.
  intros E L. rewrite (hear_link_message _ _ _ _ _ _ _ _ _ E L ltac:(done)).
  unfold processLinkMessage. cbn [link_command enc_link_body app].
  change (LINK_ACK =? LINK_SEND) with false. change (LINK_ACK =? LINK_CLOSE) with false.
  change (LINK_ACK =? LINK_SEND_FOR_ACK) with false. change (LINK_ACK =? LINK_ACK) with true. cbn iota.
  by rewrite (setAcknowledged_at k link true (unread q s) (linked_link _ _ _ _ _ _ _ L)).
Qed.

(** *** Closing *)

(** The link is marked, its socket closed, and it is polled no more. *)
Definition closed (k : nat) (link : ConnectionLink.t) (s : S) : S :=
  update poller (final (Poller.removePolled (PLink k) (m_socket link) (m_poller s)) (m_poller s))
    (update system_of (sys_close (m_socket link) (system s))
      (update link_heap (<[k := set_closing link]> (links s)) s)).

Definition erased (c : nat) (id : Z) (k : nat) (s : S) : S :=
  update link_heap (delete k (links s))
    (update connection_heap (alter (fun n => set_links (delete id (m_link_map n)) n) c (connections s)) s).

Lemma closeLink_at c k n link t (s : S) :
  connections s !! c = Some n -> links s !! k = Some link -> ready s t ->
  closeLink c k s = Ret tt
    (if m_closing link then s
     else said t (MLink (TunnelConnection.m_id n) (ConnectionLink.m_id link) LClose) (closed k link s)).
Proof.
  intros Hc Hk Hr. unfold closeLink. rewrite (bind_step _ _ _ _ _ (link_of_at k link s Hk)).
  destruct (m_closing link); [done|]. cbn [negb when].
  rewrite (bind_step _ _ s tt (closed k link s)).
  - rewrite (bind_step _ _ _ _ _ (connection_of_at c n (closed k link s) Hc)).
    rewrite !(bind_step _ _ _ _ _ (writeShort_at _ _)), !queued_queued.
    exact (send_queued t (MLink (TunnelConnection.m_id n) (ConnectionLink.m_id link) LClose) _
             (Hr : ready (closed k link s) t)).
  - unfold setClosing, set_link, closed.
    rewrite (bind_step _ _ _ tt (update link_heap (<[k := set_closing link]> (links s)) s))
      by (unfold zoom, modify; cbn [view link_heap]; by rewrite (alter_insert_at k link _ _ Hk)).
    by rewrite (bind_step _ _ _ _ _ (link_of_at k (set_closing link) _ (lookup_insert_eq _ _ _))).
Qed.

Lemma hear_LClose cid lid q c k n link t (s : S) :
  to_read s = enc_message (MLink cid lid LClose) ++ q -> linked s cid lid c k n link ->
  ConnectionLink.m_id link = i16 lid -> ready s t ->
  hear s = Ret tt (erased c (i16 lid) k
    (if m_closing link then unread q s
     else said t (MLink (TunnelConnection.m_id n) (ConnectionLink.m_id link) LClose)
            (closed k link (unread q s)))).
Proof.
  intros E L Hid Hr. rewrite (hear_link_message _ _ _ _ _ _ _ _ _ E L ltac:(done)).
  unfold processLinkMessage. cbn [link_command enc_link_body app].
  change (LINK_CLOSE =? LINK_SEND) with false. change (LINK_CLOSE =? LINK_CLOSE) with true. cbn iota.
  destruct L as [Hm Hc Hl Hk].
  rewrite (bind_step _ _ _ _ _ (closeLink_at c k n link t (unread q s) Hc Hk Hr)).
  set (s1 := if m_closing link then _ else _).
  assert (exists link', links s1 !! k = Some link' /\ ConnectionLink.m_id link' = i16 lid) as (link' & Hk' & Hid').
  { unfold s1. destruct (m_closing link).
    - by exists link.
    - exists (set_closing link). split; [apply lookup_insert_eq|done]. }
  assert (connections s1 !! c = Some n) as Hc' by (unfold s1; by destruct (m_closing link)).
  rewrite (bind_step _ _ _ _ _ (link_of_at k link' s1 Hk')).
  by rewrite (bind_step _ _ _ _ _ (connection_of_at c n s1 Hc')), Hid', Hl.
Qed.

(** *** Creation *)

(** The accepting side's answer to LINK_CREATE arrives. *)
Lemma hear_LCreated cid lid result q c k n link ls ni (s : S) :
  to_read s = enc_message (MLink cid lid (LCreated result)) ++ q -> linked s cid lid c k n link ->
  m_side n = ListenSide ls ni ->
  hear s = if i16 result =? LINK_SUCCESS then addPolled (PLink k) (unread q s)
           else Ret tt (erased c (i16 lid) k
                  (update system_of (sys_close (m_socket link) (system s)) (unread q s))).
Proof.
  intros E [Hm Hc Hl Hk] Hside. apply enc_link_read in E.
  rewrite (hear_dispatch _ _ _ _ _ _ s E Hm Hc), Hside. unfold listen_message. rewrite Hl.
  change (i16 (link_command (LCreated result)) =? LINK_CREATE) with true. cbn iota.
  rewrite (bind_step _ _ _ _ _ (readShort_at result q _ (to_read_unread _ s))), unread_unread.
  destruct (i16 result =? LINK_SUCCESS); [done|].
  by rewrite (bind_step _ _ _ _ _ (link_of_at k link (unread q s) Hk)).
Qed.

(** A new entry of the poller. *)
Definition register (o : obj O) (f ev : Z) (p : Poller.t (obj O)) : Poller.t (obj O) :=
  Poller.update_entry (Poller.m_next p) (fun pf => Pollfd f ev (revents pf)) (Poller.push o p).

Lemma addPolled_link_at l k (s : S) : links s !! l = Some k ->
  addPolled (PLink l) s = Ret tt (update poller (register (PLink l) (m_socket k) POLLIN (m_poller s)) s).
Proof.
  intros Hk. unfold addPolled, Poller.addPolled, Poller.on_poller. rewrite bind_gets.
  rewrite (bind_step _ _ s tt (update poller (Poller.push (PLink l) (m_poller s)) s)) by done.
  rewrite (bind_step _ _ _ (m_socket k, POLLIN) (update poller (Poller.push (PLink l) (m_poller s)) s)); [done|].
  change (Poller.setPollfd (PLink l)) with (link_setPollfd (R:=R) (O:=O) l). unfold link_setPollfd.
  by rewrite (bind_step _ _ _ _ _ (link_of_at l k (update poller (Poller.push (PLink l) (m_poller s)) s) Hk)).
Qed.

(** A link of connection [c] (whose value is [n]) to the socket [f]. *)
Definition opened (c : nat) (n : TunnelConnection.t) (id f : Z) (s : S) : S :=
  let l := next_object s in
  update connection_heap (alter (set_links (<[id := l]> (m_link_map n))) c (connections s))
    (update poller (register (PLink l) f POLLIN (m_poller s))
      (update link_heap (<[l := new_ConnectionLink c id f]> (links s))
        (update next_of (Datatypes.S l) s))).

(** The system calls of [connect_link], when all of them succeed. *)
Inductive connects (spec : ConnectionSpec.t) (f : Z) (o o' : os) : Prop :=
| Connects addr o1 o2 o3 :
    sys_gethostbyname (ConnectionSpec.m_connect_host spec) o = (Some addr, o1) ->
    sys_socket o1 = (SysOk f, o2) ->
    sys_connect f addr (u16 (ConnectionSpec.m_connect_port spec)) o2 = (SysOk tt, o3) ->
    sys_nonblock f o3 = (SysOk tt, o') ->
    connects spec f o o'.

Lemma connect_link_at c id n f o' (s : S) :
  connections s !! c = Some n -> m_link_map n !! id = None ->
  connects (m_spec n) f (system s) o' ->
  connect_link c id (m_spec n) s = Ret true (opened c n id f (update system_of o' s)).
Proof.
  intros Hc Hid [addr o1 o2 o3 H1 H2 H3 H4]. unfold connect_link.
  rewrite (bind_step _ _ _ _ _ (syscall_step system_of _ _ _ s H1)).
  rewrite (bind_step _ _ _ _ _ (syscall_step system_of _ _ _ (update system_of o1 s) H2)).
  rewrite (bind_step _ _ _ _ _ (syscall_step system_of _ _ _ (update system_of o2 s) H3)).
  rewrite (bind_step _ _ _ true (opened c n id f (update system_of o' s))); [done|].
  rewrite (bind_step _ _ _ _ _ (syscall_step system_of _ _ _ (update system_of o3 s) H4)).
  set (s1 := update system_of o' s : S). set (l := next_object s1).
  set (s2 := update link_heap (<[l := new_ConnectionLink c id f]> (links s1)) (update next_of (Datatypes.S l) s1)).
  rewrite (bind_step _ _ _ l s2) by done.
  rewrite (bind_step _ _ _ _ _ (addPolled_link_at l (new_ConnectionLink c id f) s2 (lookup_insert_eq _ _ _))).
  rewrite (bind_step _ _ _ tt (opened c n id f s1)); [done|].
  unfold assign_link. erewrite bind_step by (apply connection_of_at; exact Hc).
  erewrite bind_step by reflexivity. by rewrite Hid.
Qed.

Lemma hear_create cid lid q c n t success s s1 :
  to_read s = enc_message (MLink cid lid LCreate) ++ q ->
  m_connection_map s !! i16 cid = Some c -> connections s !! c = Some n -> m_side n = ConnectSide ->
  connect_link c (i16 lid) (m_spec n) (unread q s) = Ret success s1 -> ready s1 t ->
  hear s = Ret tt (said t (MLink (TunnelConnection.m_id n) (i16 lid)
                            (LCreated (if success : bool then LINK_SUCCESS else LINK_FAILURE))) s1).
Proof.
  intros E Hm Hc Hside Hcon Hr. apply enc_link_read in E.
  rewrite (hear_dispatch _ _ _ _ _ _ s E Hm Hc), Hside. unfold connect_message.
  change (i16 (link_command LCreate) =? LINK_CREATE) with true. cbn iota.
  rewrite (bind_step _ _ _ _ _ Hcon).
  rewrite !(bind_step _ _ _ _ _ (writeShort_at _ _)), !queued_queued.
  exact (send_queued t (MLink (TunnelConnection.m_id n) (i16 lid) (LCreated _)) _ Hr).
Qed.

Lemma hear_LCreate cid lid q c n f o' t (s : S) :
  to_read s = enc_message (MLink cid lid LCreate) ++ q ->
  m_connection_map s !! i16 cid = Some c -> connections s !! c = Some n -> m_side n = ConnectSide ->
  m_link_map n !! i16 lid = None -> connects (m_spec n) f (system s) o' -> ready s t ->
  hear s = Ret tt (said t (MLink (TunnelConnection.m_id n) (i16 lid) (LCreated LINK_SUCCESS))
                    (opened c n (i16 lid) f (update system_of o' (unread q s)))).
Proof.
  intros E Hm Hc Hside Hl Hcon Hr.
  exact (hear_create cid lid q c n t true s _ E Hm Hc Hside (connect_link_at c (i16 lid) n f o' (unread q s) Hc Hl Hcon) Hr).
Qed.

(** *** Errors *)

(** Errors are said to the other process by the remote one and printed by
    the local one. *)
Class Reporter : Type := {
  reports : bool;
  report_at text (s : S) t : ready s t -> exists o',
    reportError text s = Ret tt (if reports then said t (MError text) s else update system_of o' s)
}.

(** *** Connecting, when it fails *)

(** The system calls of [connect_link], when one of them fails: what is
    reported, and the socket there is by then. *)
Inductive refuses (spec : ConnectionSpec.t) (o o' : os) : list byte -> option Z -> Prop :=
| No_host :
    sys_gethostbyname (ConnectionSpec.m_connect_host spec) o = (None, o') ->
    refuses spec o o' (ConnectionSpec.m_connect_host spec ++ bytes_of " not found") None
| No_socket addr o1 e :
    sys_gethostbyname (ConnectionSpec.m_connect_host spec) o = (Some addr, o1) ->
    sys_socket o1 = (SysErr e, o') ->
    refuses spec o o' (bytes_of "Cannot create connect socket") None
| No_connection addr o1 f o2 e :
    sys_gethostbyname (ConnectionSpec.m_connect_host spec) o = (Some addr, o1) ->
    sys_socket o1 = (SysOk f, o2) ->
    sys_connect f addr (u16 (ConnectionSpec.m_connect_port spec)) o2 = (SysErr e, o') ->
    refuses spec o o' (bytes_of "Failed to connect to " ++ ConnectionSpec.m_connect_host spec) (Some f)
| No_nonblock addr o1 f o2 o3 e :
    sys_gethostbyname (ConnectionSpec.m_connect_host spec) o = (Some addr, o1) ->
    sys_socket o1 = (SysOk f, o2) ->
    sys_connect f addr (u16 (ConnectionSpec.m_connect_port spec)) o2 = (SysOk tt, o3) ->
    sys_nonblock f o3 = (SysErr e, o') ->
    refuses spec o o' (bytes_of "Failed to set connect socket non blocking") (Some f).

Lemma connects_or_refuses spec o :
  (exists f o', connects spec f o o') \/ (exists o' text made, refuses spec o o' text made).
Proof.
  destruct (sys_gethostbyname (ConnectionSpec.m_connect_host spec) o) as [[addr|] o1] eqn:H1;
    [|right; eauto using No_host].
  destruct (sys_socket o1) as [[f|e] o2] eqn:H2; [|right; eauto using No_socket].
  destruct (sys_connect f addr (u16 (ConnectionSpec.m_connect_port spec)) o2) as [[[]|e] o3] eqn:H3;
    [|right; eauto using No_connection].
  destruct (sys_nonblock f o3) as [[[]|e] o4] eqn:H4; [left; eauto using Connects|right; eauto using No_nonblock].
Qed.

Context {Rep : Reporter}.

Definition close_made (made : option Z) (o : os) : os :=
  match made with Some f => sys_close f o | None => o end.

(** The error has been reported and the socket closed, if there is one; the
    system is at [o] otherwise. *)
Definition turned_down (t : O * Z) (text : list byte) (made : option Z) (o : os) (s : S) : S :=
  let s1 := update system_of (close_made made o) s in
  if reports then said t (MError text) s1 else s1.

Lemma failing_at text made o' t (s : S) : ready s t -> exists o, (reports = true -> o = o') /\
  (reportError text;; match made with Some f => syscall_ system_of (sys_close f) | None => mret tt end;; mret false)
    (update system_of o' s) = Ret false (turned_down t text made o s).
Proof.
  intros Hr. destruct (report_at text (update system_of o' s) t Hr) as [o E]. unfold turned_down.
  destruct reports; [exists o'|exists o]; (split; [done|]); rewrite (bind_step _ _ _ _ _ E); by destruct made.
Qed.

Lemma connect_link_refused c id spec o' text made t (s : S) : refuses spec (system s) o' text made -> ready s t ->
  exists o, (reports = true -> o = o') /\ connect_link c id spec s = Ret false (turned_down t text made o s).
Proof.
  intros H Hr. destruct (failing_at text made o' t s Hr) as (o & Ho & E). exists o. split; [done|]. rewrite <- E. unfold connect_link.
  destruct H as [H1|addr o1 e H1 H2|addr o1 f o2 e H1 H2 H3|addr o1 f o2 o3 e H1 H2 H3 H4];
    rewrite (bind_step _ _ _ _ _ (syscall_step system_of _ _ _ s H1)); [done|..];
    rewrite (bind_step _ _ _ _ _ (syscall_step system_of _ _ _ (update system_of o1 s) H2)); [done|..];
    rewrite (bind_step _ _ _ _ _ (syscall_step system_of _ _ _ (update system_of o2 s) H3)), bind_assoc; [done|].
  by rewrite (bind_step _ _ _ _ _ (syscall_step system_of _ _ _ (update system_of o3 s) H4)), bind_assoc.
Qed.
End Hearing.

(** *** How the two processes report errors *)

Section Reporters.
Import StdioTunnel.
Context {P : Posix}.

Lemma cerr_endl_at (o : os) : exists endl o', Terminal.cerr_endl o = Ret endl o'.
Proof.
  unfold Terminal.cerr_endl, mbind, M_bind, syscall. cbn. destruct (sys_tcgetattr 2 o) as [r o']. cbn. eauto.
Qed.

Lemma local_report_at text (s : tunnel StdioTunnelLocal.t unit) :
  exists o', StdioTunnelLocal.report_error text s = Ret tt (update system_of o' s).
Proof.
  unfold StdioTunnelLocal.report_error.
  set (s1 := update system_of (sys_cerr (c_string text) (system s)) s).
  rewrite (bind_step _ _ s tt s1) by done. destruct (cerr_endl_at (system s1)) as (endl & o1 & E).
  rewrite (bind_step _ _ s1 endl (update system_of o1 s1)); [by eexists|].
  unfold zoom. cbn [view system_of]. by rewrite E.
Qed.

#[export] Program Instance local_reporter : Reporter (P:=P) (R:=StdioTunnelLocal.t) (O:=unit) := {| reports := false |}.
Next Obligation. intros text s t _. apply local_report_at. Qed.

#[export] Program Instance remote_reporter : Reporter (P:=P) (R:=StdioTunnelRemote.t) (O:=StdioTunnelRemote.own) :=
  {| reports := true |}.
Next Obligation.
  intros text s t Hr. exists (system s). cbn [reportError StdioTunnelRemote.remote_role]. unfold StdioTunnelRemote.report_error.
  rewrite (bind_step _ _ _ _ _ (writeShort_at _ _)), (bind_step _ _ _ _ _ (writeString_at _ _)), queued_queued.
  by apply (send_queued t (MError text)).
Qed.
End Reporters.

(** *** Accepting *)

Section Accepting.
Import StdioTunnel Heap TunnelConnection ConnectionLink.
Context {P : Posix} {R O : Type} `{EqDecision O} `{!Role R O}.
Abbreviation S := (tunnel R O).

(** The listener [c] (whose value is [n]) has a new link to the socket
    [f], with the id [ni] it had next. *)
Definition accepted (c : nat) (n : TunnelConnection.t) (ls ni f : Z) (s : S) : S :=
  let l := next_object s in
  update connection_heap (alter (set_links (<[i16 ni := l]> (m_link_map n))) c
                            (alter (set_side (ListenSide ls (ni + 1))) c (connections s)))
    (update link_heap (<[l := new_ConnectionLink c ni f]> (links s))
      (update next_of (Datatypes.S l) s)).

Lemma listen_polled_at c n ls ni f o1 o2 t (s : S) :
  connections s !! c = Some n -> m_side n = ListenSide ls ni -> ready s t ->
  sys_accept ls (system s) = (SysOk f, o1) -> sys_nonblock f o1 = (SysOk tt, o2) ->
  m_link_map n !! i16 ni = None ->
  listen_polled c s = Ret tt (said t (MLink (TunnelConnection.m_id n) ni LCreate)
                               (accepted c n ls ni f (update system_of o2 s))).
Proof.
  intros Hc Hs Hr Hacc Hnb Hfresh. unfold listen_polled.
  rewrite (bind_step _ _ s (n, (ls, ni)) s)
    by (unfold listener_of; rewrite (bind_step _ _ _ _ _ (connection_of_at c n s Hc)), Hs; done).
  rewrite (bind_step _ _ _ _ _ (syscall_step system_of _ _ _ s Hacc)).
  rewrite (bind_step _ _ _ _ _ (syscall_step system_of _ _ _ (update system_of o1 s) Hnb)).
  set (s1 := update system_of o2 s : S).
  set (s2 := update connection_heap (alter (set_side (ListenSide ls (ni + 1))) c (connections s1)) s1 : S).
  rewrite (bind_step _ _ _ tt s2) by done.
  set (s3 := update link_heap (<[next_object s := new_ConnectionLink c ni f]> (links s2))
               (update next_of (Datatypes.S (next_object s)) s2) : S).
  rewrite (bind_step _ _ _ (next_object s) s3) by done.
  rewrite (bind_step _ _ _ tt (accepted c n ls ni f s1)).
  - rewrite !(bind_step _ _ _ _ _ (writeShort_at _ _)), !queued_queued.
    exact (send_queued t (MLink (TunnelConnection.m_id n) ni LCreate) _ (Hr : ready (accepted c n ls ni f s1) t)).
  - assert (connections s3 !! c = Some (set_side (ListenSide ls (ni + 1)) n)) as Hc3
      by (cbn; rewrite lookup_alter_eq; change (connections s1) with (connections s); by rewrite Hc).
    unfold assign_link. rewrite (bind_step _ _ _ _ _ (connection_of_at c _ s3 Hc3)).
    cbn [set_side m_link_map]. erewrite bind_step by reflexivity.
    change (i16 (n, (ls, ni)).2.2) with (i16 ni). by rewrite Hfresh.
Qed.
End Accepting.

(** *** Where the events end up *)

Section Events.
Import Poller.
Context {Obj : Type} `{EqDecision Obj}.

Lemma find_index_alter (o : Obj) f o' f' ev i (l : list (entry Obj)) :
  find_index o' f' l = Some i ->
  find_index o f (alter (alter_pollfd (with_events ev)) i l) = find_index o f l.
Proof.
  revert i. induction l as [|e l IH]; intros i; cbn [find_index]; [done|].
  destruct (watches o' f' e).
  - intros [= <-]. done.
  - destruct (find_index o' f' l) as [j|] eqn:E; [|done]. cbn. intros [= <-]. cbn.
    by rewrite (IH j eq_refl).
Qed.

Lemma setEvents_entry (o : Obj) f ev p i e :
  findPolled o f (final (setEvents o f ev p) p) = Some i ->
  m_polled (final (setEvents o f ev p) p) !! i = Some e -> events (e_pollfd e) = ev.
Proof.
  cbn. destruct (findPolled o f p) as [j|] eqn:E; [|by rewrite E].
  unfold findPolled in *. cbn [set_polled m_polled]. rewrite (find_index_alter _ _ _ _ _ _ _ E), E.
  intros [= <-]. rewrite list_lookup_alter_eq. intros H. apply fmap_Some in H as (e0 & _ & ->). done.
Qed.

Lemma setEvents_objects (o : Obj) f ev p :
  map e_polled (m_polled (final (setEvents o f ev p) p)) = map e_polled (m_polled p).
Proof.
  cbn. destruct (findPolled o f p) as [i|]; [|done]. cbn [set_polled m_polled]. generalize (m_polled p) as l.
  intros l. revert i. induction l as [|e l IH]; intros [|i]; [done|done|done|]. cbn. f_equal. apply IH.
Qed.
End Events.

(** ** The exchanges between the two ends of a link *)

Section Exchanges.
Import StdioTunnel Heap TunnelConnection ConnectionLink.
Context {P1 P2 : Posix} {R1 O1 R2 O2 : Type}.
Context `{EqDecision O1} `{!Role (P:=P1) R1 O1} `{EqDecision O2} `{!Role (P:=P2) R2 O2}.
Implicit Types (a : tunnel (P:=P1) R1 O1) (b : tunnel (P:=P2) R2 O2).

Abbreviation packet m := (WriteStream.new_WritePacket (enc_message m)).

(** C12: data crosses the tunnel intact.  What one end's [sendData] queues
    is one packet; when the other process reads its payload, for the
    connection and link with the same ids, the bytes join that link's
    buffer, in order and complete, the link asks to be written, and the
    reader is left exactly past the message; a link that is already closing
    drops them. *)
Theorem link_data_roundtrip a c l n k t bs
    (Hc : connections a !! c = Some n) (Hl : links a !! l = Some k) (Hr : ready a t)
    (Hacks : acks n = false) (Hbs : 0 < zlen bs <= BUFFER_SIZE) :
  exists payload a', sendData c l bs a = Ret tt a' /\
    packets a' = packets a ++ [WriteStream.new_WritePacket payload] /\
    forall b c' k' n' link rest,
      linked b (TunnelConnection.m_id n) (ConnectionLink.m_id k) c' k' n' link ->
      to_read b = payload ++ rest ->
      hear b = Ret tt (if m_closing link then unread rest b else delivered k' link bs (unread rest b)).
Proof.
  rewrite (sendData_at c l bs n k t a Hc Hl Hr), Hacks. eexists _, _. split; [reflexivity|]. split; [reflexivity|].
  intros b c' k' n' link rest L E. by rewrite (hear_LSend _ _ _ b _ _ _ _ _ E L ltac:(lia)).
Qed.

(** C15: acknowledged data is stop-and-wait.  On a connection with the "a"
    flag, a readable link sends what it read and stops listening to its
    socket; the other end delivers the bytes and answers with one LINK_ACK;
    and when that is heard the link listens again.  (The link at either end
    is open.) *)
Theorem stop_and_wait a c l n k t bs o' pf
    (Hl : links a !! l = Some k) (Hc : connections a !! c = Some n) (Hk : m_connection k = c)
    (Hr : ready a t) (Hacks : acks n = true) (Hopen : m_closing k = false)
    (Hread : sys_read (m_socket k) BUFFER_SIZE (system a) = (SysOk bs, o'))
    (Hbs : 0 < zlen bs <= BUFFER_SIZE) (Hpf : revents pf = POLLIN) :
  (exists a', link_polled l pf a = Ret tt a' /\
    packets a' = packets a ++ [packet (MLink (TunnelConnection.m_id n) (ConnectionLink.m_id k) (LSendForAck bs))] /\
    links a' !! l = Some (set_acknowledged false k) /\
    (forall i e, Poller.findPolled (PLink l) (m_socket k) (m_poller a') = Some i ->
       Poller.m_polled (m_poller a') !! i = Some e ->
       has_bit (events (Poller.e_pollfd e)) POLLIN = false)) /\
  (forall b c' k' n' link rest tb,
    linked b (TunnelConnection.m_id n) (ConnectionLink.m_id k) c' k' n' link ->
    to_read b = enc_message (MLink (TunnelConnection.m_id n) (ConnectionLink.m_id k) (LSendForAck bs)) ++ rest ->
    m_closing link = false -> ready b tb ->
    hear b = Ret tt (said tb (MLink (TunnelConnection.m_id n') (ConnectionLink.m_id link) LAck)
                       (delivered k' link bs (unread rest b)))) /\
  (forall a' cid lid c' l' n' k' rest, linked a' cid lid c' l' n' k' ->
    to_read a' = enc_message (MLink cid lid LAck) ++ rest -> m_closing k' = false ->
    hear a' = Ret tt (acked l' k' true (unread rest a')) /\
    has_bit (link_events (set_acknowledged true k')) POLLIN = true).
Proof.
  split; [|split].
  - unfold link_polled. rewrite (bind_step _ _ _ _ _ (link_of_at l k a Hl)), Hpf, Hk.
    change (has_bit POLLIN POLLIN) with true. change (has_bit POLLIN POLLOUT) with false.
    change (has_bit POLLIN (Z.lor POLLERR (Z.lor POLLHUP POLLNVAL))) with false. cbn iota.
    set (m := MLink (TunnelConnection.m_id n) (ConnectionLink.m_id k) (LSendForAck bs)).
    set (a1 := said t m (update system_of o' a)).
    rewrite (bind_step _ _ a false (acked l k false a1)); [eexists; split; [reflexivity|]|].
    + unfold acked. rewrite Hopen. split_and!; [done|apply lookup_insert_eq|].
      intros i e Hi He. cbn in Hi, He.
      rewrite (setEvents_entry _ _ _ _ _ _ Hi He). unfold link_events. cbn. by destruct (SockBuffer.unsentData _).
    + rewrite (bind_step _ _ _ _ _ (syscall_step system_of _ _ _ a Hread)).
      destruct (Z.leb_spec (zlen bs) 0); [lia|].
      rewrite (bind_step _ _ _ tt a1)
        by (rewrite (sendData_at c l bs n k t (update system_of o' a) Hc Hl Hr); by rewrite Hacks).
      rewrite (bind_step _ _ _ _ _ (connection_of_at c n a1 Hc)), Hacks. cbn [when].
      by rewrite (bind_step _ _ _ _ _ (setAcknowledged_at l k false a1 Hl)).
  - intros b c' k' n' link rest tb L E Ho Hrb. eapply hear_LSendForAck; eauto. lia.
  - intros a' cid lid c' l' n' k' rest L E Ho. split; [by eapply hear_LAck|].
    unfold link_events. cbn. by destruct (SockBuffer.unsentData _).
Qed.

Lemma erased_link c id k b : links (erased c id k b) !! k = None.
Proof. apply lookup_delete_eq. Qed.

(** Closing is a handshake in which each end says LINK_CLOSE once.
    The end that closes first says so and is then silent, however often it
    is closed again; the other end, hearing it, closes its socket, says the
    same and forgets the link; and an end that is closing, hearing it,
    forgets the link without a word (which is also how two ends that closed
    at the same time both finish). *)
Theorem close_handshake a ca ka na la ta
    (Hc : connections a !! ca = Some na) (Hl : links a !! ka = Some la)
    (Hr : ready a ta) (Hopen : m_closing la = false) :
  let close := MLink (TunnelConnection.m_id na) (ConnectionLink.m_id la) LClose in
  (exists a1, closeLink ca ka a = Ret tt a1 /\ packets a1 = packets a ++ [packet close] /\
     system a1 = sys_close (m_socket la) (system a) /\
     links a1 !! ka = Some (set_closing la) /\ closeLink ca ka a1 = Ret tt a1) /\
  (forall b cb kb nb lb tb rest,
     linked b (TunnelConnection.m_id na) (ConnectionLink.m_id la) cb kb nb lb ->
     ConnectionLink.m_id lb = i16 (ConnectionLink.m_id la) ->
     to_read b = enc_message close ++ rest -> ready b tb ->
     exists b1, hear b = Ret tt b1 /\ links b1 !! kb = None /\ to_read b1 = rest /\
       (forall nb1, connections b1 !! cb = Some nb1 -> m_link_map nb1 !! ConnectionLink.m_id lb = None) /\
       (if m_closing lb
        then packets b1 = packets b /\ system b1 = system b
        else packets b1 = packets b ++ [packet (MLink (TunnelConnection.m_id nb) (ConnectionLink.m_id lb) LClose)] /\
             system b1 = sys_close (m_socket lb) (system b))).
Proof.
  intros close. split.
  - eexists. rewrite (closeLink_at ca ka na la ta a Hc Hl Hr), Hopen. split; [reflexivity|]. split_and!; try done.
    + apply lookup_insert_eq.
    + set (a1 := said ta close (closed ka la a)).
      assert (links a1 !! ka = Some (set_closing la)) as Hl1 by apply lookup_insert_eq.
      by rewrite (closeLink_at ca ka na (set_closing la) ta a1 Hc Hl1 (ready_said ta close (closed ka la a) Hr)).
  - intros b cb kb nb lb tb rest L Hid E Hrb. eexists.
    rewrite (hear_LClose _ _ _ _ _ _ _ tb b E L Hid Hrb). split; [reflexivity|]. split_and!.
    + apply erased_link.
    + by destruct (m_closing lb).
    + intros nb1. unfold erased. cbn [connections update link_heap connection_heap].
      rewrite lookup_alter_eq. intros (n1 & _ & ->)%fmap_Some. cbn. rewrite Hid. apply lookup_delete_eq.
    + by destruct (m_closing lb).
Qed.

(** C37: LINK_CLOSE does not wait for data.  A link that hears LINK_SEND
    and then LINK_CLOSE, as its peer says them when a program sends its
    last bytes and closes, drops the bytes: they are put in its buffer, and
    the buffer goes with the link; nothing has been written to the socket
    when it is closed. *)
Theorem close_drops_data b cid lid bs cb kb nb lb tb rest
    (L : linked b cid lid cb kb nb lb) (Hid : ConnectionLink.m_id lb = i16 lid)
    (E : to_read b = enc_message (MLink cid lid (LSend bs)) ++ enc_message (MLink cid lid LClose) ++ rest)
    (Hbs : zlen bs <= BUFFER_SIZE) (Hr : ready b tb) (Hopen : m_closing lb = false) :
  exists b1, (hear;; hear) b = Ret tt b1 /\ system b1 = sys_close (m_socket lb) (system b) /\
    links b1 !! kb = None /\ to_read b1 = rest.
Proof.
  pose proof (hear_LSend _ _ _ b _ _ _ _ _ E L Hbs) as H1. rewrite Hopen in H1.
  rewrite (bind_step _ _ _ _ _ H1). set (b0 := delivered kb lb bs (unread _ b)) in *.
  assert (linked b0 cid lid cb kb nb (set_buffer (pushed bs (m_buffer lb)) lb)) as L0.
  { destruct L. constructor; try done. apply lookup_insert_eq. }
  rewrite (hear_LClose cid lid rest cb kb nb _ tb b0 eq_refl L0 Hid Hr). cbn [set_buffer m_closing].
  rewrite Hopen. eexists. split; [reflexivity|]. split_and!; [done|apply erased_link|done].
Qed.

(** The entries of the poller, whatever events they wait for. *)
Definition registered {R O : Type} {P : Posix} (s : tunnel (P:=P) R O) : list (obj O) :=
  map Poller.e_polled (Poller.m_polled (m_poller s)).

Lemma registered_said {R O : Type} {P : Posix} `{EqDecision O} t m (s : tunnel (P:=P) R O) : registered (said t m s) = registered s.
Proof. apply setEvents_objects. Qed.

(** C17: a link is made at both ends or at neither.  When a [ListenSide]
    accepts a socket, it asks for the other end with a fresh id.  Whatever
    the system answers the [ConnectSide] that hears it, either all its calls
    succeed or one of them fails.  If they succeed, it says LINK_SUCCESS,
    has the link and polls its socket.  If the host is unknown, or the
    socket cannot be made, connected or set non-blocking, it reports the
    error, closes the socket if there is one, says LINK_FAILURE, and its
    connections, links and poller are what they were.  The first end,
    hearing LINK_SUCCESS, polls its own socket; hearing any other answer it
    closes the accepted socket and forgets the link. *)
Theorem link_creation {Rep : Reporter (P:=P2) (R:=R2) (O:=O2)} a ca na ls ni f o1 o2 ta
    (Hc : connections a !! ca = Some na) (Hside : m_side na = ListenSide ls ni) (Hr : ready a ta)
    (Hacc : sys_accept ls (system a) = (SysOk f, o1)) (Hnb : sys_nonblock f o1 = (SysOk tt, o2))
    (Hfresh : m_link_map na !! i16 ni = None) :
  (exists a1, listen_polled ca a = Ret tt a1 /\
     packets a1 = packets a ++ [packet (MLink (TunnelConnection.m_id na) ni LCreate)] /\
     links a1 !! next_object a = Some (new_ConnectionLink ca ni f) /\
     map Poller.e_polled (Poller.m_polled (m_poller a1)) = map Poller.e_polled (Poller.m_polled (m_poller a))) /\
  (forall b cb nb tb rest,
     to_read b = enc_message (MLink (TunnelConnection.m_id na) ni LCreate) ++ rest ->
     m_connection_map b !! i16 (TunnelConnection.m_id na) = Some cb -> connections b !! cb = Some nb ->
     m_side nb = ConnectSide -> m_link_map nb !! i16 ni = None -> ready b tb ->
     ((exists fb o', connects (m_spec nb) fb (system b) o') \/
      (exists o' text made, refuses (m_spec nb) (system b) o' text made)) /\
     (forall fb o', connects (m_spec nb) fb (system b) o' ->
        hear b = Ret tt (said tb (MLink (TunnelConnection.m_id nb) (i16 ni) (LCreated LINK_SUCCESS))
                           (opened cb nb (i16 ni) fb (update system_of o' (unread rest b))))) /\
     (forall o' text made, refuses (m_spec nb) (system b) o' text made -> exists b1 o'',
        hear b = Ret tt b1 /\ to_read b1 = rest /\
        packets b1 = packets b ++ (if reports then [packet (MError text)] else []) ++
                       [packet (MLink (TunnelConnection.m_id nb) (i16 ni) (LCreated LINK_FAILURE))] /\
        connections b1 = connections b /\ links b1 = links b /\ registered b1 = registered b /\
        system b1 = close_made made o'' /\ (reports = true -> o'' = o'))) /\
  (forall a2 n2 l2 cid lid result rest, linked a2 cid lid ca (next_object a) n2 l2 -> m_side n2 = ListenSide ls (ni + 1) ->
     to_read a2 = enc_message (MLink cid lid (LCreated result)) ++ rest ->
     hear a2 = if i16 result =? LINK_SUCCESS
       then Ret tt (update poller (register (PLink (next_object a)) (m_socket l2) POLLIN (m_poller a2)) (unread rest a2))
       else Ret tt (erased ca (i16 lid) (next_object a)
              (update system_of (sys_close (m_socket l2) (system a2)) (unread rest a2)))).
Proof.
  split; [|split].
  - eexists. rewrite (listen_polled_at ca na ls ni f o1 o2 ta a Hc Hside Hr Hacc Hnb Hfresh).
    split; [reflexivity|]. split_and!; [done|apply lookup_insert_eq|apply setEvents_objects].
  - intros b cb nb tb rest E Hm Hcb Hsb Hlb Hrb. split_and!; [apply connects_or_refuses|..].
    + intros fb o' Hcon. by eapply hear_LCreate.
    + intros o' text made Href.
      destruct (connect_link_refused cb (i16 ni) (m_spec nb) o' text made tb (unread rest b) Href Hrb) as (o'' & Ho & Ec).
      assert (ready (turned_down tb text made o'' (unread rest b)) tb) as Hr1
        by (unfold turned_down; destruct reports; [by apply ready_said|done]).
      eexists _, o''. rewrite (hear_create _ _ _ cb nb tb false b _ E Hm Hcb Hsb Ec Hr1). split; [reflexivity|].
      rewrite registered_said. unfold turned_down.
      destruct reports; split_and!; try done; [exact (eq_sym (List.app_assoc (packets b) [_] [_]))|by rewrite registered_said].
  - intros a2 n2 l2 cid lid result rest L Hs2 E. rewrite (hear_LCreated _ _ _ _ _ _ _ _ _ _ a2 E L Hs2).
    destruct (i16 result =? LINK_SUCCESS); [|done].
    by rewrite (addPolled_link_at _ l2 (unread rest a2) (linked_link _ _ _ _ _ _ _ L)).
Qed.

(** C36: what a process does with link messages it cannot serve.  A length
    beyond the buffer throws; a negative one (lengths are shorts) goes past
    the ends of the queue; an unknown connection is a null pointer; an
    unknown link throws on the accepting side, and on the connecting side is
    passed over with the rest of the message left in the stream. *)
Theorem hear_errors b cid lid q c n
    (Hm : m_connection_map b !! i16 cid = Some c) (Hc : connections b !! c = Some n) :
  (forall k link len, linked b cid lid c k n link ->
     to_read b = enc_short CMD_CONNECTION ++ enc_short cid ++ enc_short LINK_SEND ++ enc_short lid ++
                 enc_short len ++ q ->
     (BUFFER_SIZE < i16 len -> exists b', hear b = Throw (ExnMsg "Bad receive length") b') /\
     (i16 len < 0 -> hear b = Undef OutOfRange)) /\
  (forall cid', to_read b = enc_short CMD_CONNECTION ++ enc_short cid' ++ q ->
     m_connection_map b !! i16 cid' = None -> hear b = Undef NullDeref) /\
  (forall m, to_read b = enc_message (MLink cid lid m) ++ q -> m_link_map n !! i16 lid = None ->
     link_command m <> LINK_CREATE ->
     hear b = match m_side n with
       | ListenSide _ _ => Throw (ExnMsg ("Link: " +:+ show_short (i16 lid) +:+ " not found")) (unread (enc_link_body m ++ q) b)
       | ConnectSide => Ret tt (unread (enc_link_body m ++ q) b)
       end).
Proof.
  split; [|split].
  - intros k link len L E. rewrite (hear_link _ _ _ _ _ _ _ _ b E L ltac:(done)).
    change (processLinkMessage c (i16 LINK_SEND) k) with (receiveData (R:=R2) (O:=O2) k). unfold receiveData.
    rewrite (bind_step _ _ _ _ _ (readShort_at len q _ (to_read_unread _ b))), unread_unread.
    split; intros Hlen.
    + destruct (Z.ltb_spec BUFFER_SIZE (i16 len)); [|lia]. by eexists.
    + unfold BUFFER_SIZE in *. destruct (Z.ltb_spec 4096 (i16 len)); [lia|].
      unfold mbind, M_bind, zoom, ReadStream.readBytes, ReadStream.take_front.
      destruct (Z.ltb_spec (i16 len) 0); [done|lia].
  - intros cid' E Hn. unfold hear. rewrite (bind_step _ _ _ _ _ (readShort_at _ _ _ E)).
    rewrite (bind_step _ _ _ _ _ (readShort_at cid' q _ (to_read_unread _ b))), unread_unread.
    unfold connection_message. rewrite bind_gets. cbn [unread update reader m_connection_map]. by rewrite Hn.
  - intros m E%enc_link_read Hn Hcmd. rewrite (hear_dispatch _ _ _ _ _ _ b E Hm Hc), link_command_short.
    unfold listen_message, connect_message. rewrite Hn.
    destruct (m_side n); [done|]. by destruct (Z.eqb_spec (link_command m) LINK_CREATE).
Qed.
End Exchanges.

(** ** A link between two processes

    One connection with the id 0 and one link with the id 501, on descriptor
    9, at each end; [q] is what has been received, [ans] what the system will
    answer. *)

Module Demo.
Import StdioTunnel.

Definition spec (flags : Z) : ConnectionSpec.t :=
  ConnectionSpec.Mk ConnectionSpec.CONNECT (bytes_of "db") 5432 8000 flags.

Definition connection (flags : Z) (side : TunnelConnection.side) (l : gmap Z nat) : TunnelConnection.t :=
  TunnelConnection.Mk (spec flags) 0 l side.

Definition link (closing : bool) : ConnectionLink.t :=
  ConnectionLink.Mk 0 9 501 SockBuffer.init closing true.

Definition make {R O : Type} (r : R) (o : O) (n : TunnelConnection.t) (h : gmap nat ConnectionLink.t)
    (q : list byte) (ans : list answer) : tunnel (P:=ScriptOS) R O :=
  Tunnel (ReadStream.Mk q [] 4096) WriteStream.init (Some (o, 1)) false (Termios 0 0 0 0) false
    (Poller.Mk [Poller.Entry 0 (POwn o) (Pollfd 1 0 0); Poller.Entry 1 (PLink 1%nat) (Pollfd 9 1 0)]
       2 10 0 0 (-1) false true)
    {[0 := 0%nat]} {[0%nat := n]} h 2 false r (Script ans []).

Definition listener : TunnelConnection.side := TunnelConnection.ListenSide 8 502.

Definition local (flags : Z) (h : gmap nat ConnectionLink.t) (m : gmap Z nat) :=
  make (StdioTunnelLocal.set_fds 5 6 (StdioTunnelLocal.configured demo_config)) tt
    (connection flags listener m) h.
Definition remote (flags : Z) (h : gmap nat ConnectionLink.t) (m : gmap Z nat) :=
  make StdioTunnelRemote.init StdioTunnelRemote.OTunnel
    (connection flags TunnelConnection.ConnectSide m) h.

Definition one_link : gmap Z nat := {[501 := 1%nat]}.
Definition heap (closing : bool) : gmap nat ConnectionLink.t := {[1%nat := link closing]}.

Lemma linked_local flags closing q ans :
  linked (local flags (heap closing) one_link q ans) 0 501 0 1 (connection flags listener one_link) (link closing).
Proof. by constructor. Qed.
Lemma linked_remote flags closing q ans :
  linked (remote flags (heap closing) one_link q ans) 0 501 0 1
    (connection flags TunnelConnection.ConnectSide one_link) (link closing).
Proof. by constructor. Qed.

Definition hello : list byte := bytes_of "hello".

Lemma link_data_roundtrip_witness :
  exists payload a', sendData 0 1 hello (local 0 (heap false) one_link [] []) = Ret tt a' /\
    packets a' = [WriteStream.new_WritePacket payload] /\
    exists b', hear (remote 0 (heap false) one_link (payload ++ []) []) = Ret tt b'.
Proof.
  destruct (link_data_roundtrip (P1:=ScriptOS) (P2:=ScriptOS) (R2:=StdioTunnelRemote.t) (O2:=StdioTunnelRemote.own)
              (local 0 (heap false) one_link [] []) 0 1
              (connection 0 listener one_link) (link false) (tt, 1) hello eq_refl eq_refl
              (conj eq_refl eq_refl) eq_refl ltac:(vm_compute; split; congruence))
    as (payload & a' & E & Pk & H).
  exists payload, a'. split; [exact E|]. split; [exact Pk|]. eexists.
  exact (H (remote 0 (heap false) one_link (payload ++ []) []) 0%nat 1%nat _ _ [] (linked_remote 0 false _ _) eq_refl).
Defined.

Lemma stop_and_wait_witness :
  exists a', link_polled 1 (Pollfd 9 1 1) (local 1 (heap false) one_link [] [Data hello]) = Ret tt a' /\
    StdioTunnel.links a' !! 1%nat = Some (ConnectionLink.set_acknowledged false (link false)).
Proof.
  destruct (stop_and_wait (P1:=ScriptOS) (P2:=ScriptOS) (R2:=StdioTunnelRemote.t) (O2:=StdioTunnelRemote.own)
              (local 1 (heap false) one_link [] [Data hello]) 0 1
              (connection 1 listener one_link) (link false) (tt, 1) hello (Script [] [CRead 9 hello]) (Pollfd 9 1 1)
              eq_refl eq_refl eq_refl (conj eq_refl eq_refl) eq_refl eq_refl eq_refl
              ltac:(vm_compute; split; congruence) eq_refl)
    as [(a' & E & _ & Hl & _) _].
  exists a'. split; [exact E|exact Hl].
Defined.

Lemma close_handshake_witness :
  exists b1, hear (remote 0 (heap false) one_link (enc_message (MLink 0 501 LClose) ++ []) []) = Ret tt b1 /\
    StdioTunnel.links b1 !! 1%nat = None.
Proof.
  destruct (close_handshake (P1:=ScriptOS) (P2:=ScriptOS) (R2:=StdioTunnelRemote.t) (O2:=StdioTunnelRemote.own)
              (local 0 (heap false) one_link [] []) 0 1
              (connection 0 listener one_link) (link false) (tt, 1) eq_refl eq_refl
              (conj eq_refl eq_refl) eq_refl) as [_ H].
  destruct (H (remote 0 (heap false) one_link (enc_message (MLink 0 501 LClose) ++ []) []) 0%nat 1%nat _ _
              (StdioTunnelRemote.OTunnel, 1) [] (linked_remote 0 false _ _) eq_refl eq_refl (conj eq_refl eq_refl))
    as (b1 & E & Hl & _).
  exists b1. split; [exact E|exact Hl].
Defined.

Lemma close_drops_data_witness :
  let q := enc_message (MLink 0 501 (LSend hello)) ++ enc_message (MLink 0 501 LClose) ++ [] in
  exists b1, (hear;; hear) (remote 0 (heap false) one_link q []) = Ret tt b1 /\
    StdioTunnel.system b1 = Script [] [CClose 9] /\ StdioTunnel.links b1 !! 1%nat = None /\ to_read b1 = [].
Proof.
  intros q. apply (close_drops_data (P2:=ScriptOS) (remote 0 (heap false) one_link q []) 0 501 hello 0 1 _ _
    (StdioTunnelRemote.OTunnel, 1) [] (linked_remote 0 false q [])).
  - reflexivity.
  - reflexivity.
  - vm_compute. congruence.
  - by split.
  - reflexivity.
Defined.

(** The other end finds the host, but nobody who listens. *)
Lemma link_creation_witness :
  (exists a1, listen_polled 0 (local 0 ∅ ∅ [] [Num 9; Num 0]) = Ret tt a1 /\
    StdioTunnel.links a1 !! 2%nat = Some (ConnectionLink.new_ConnectionLink 0 502 9)) /\
  exists b1, hear (remote 0 ∅ ∅ (enc_message (MLink 0 502 LCreate) ++ []) [Data [x7f; x00; x00; x01]; Num 10; Err 111]) = Ret tt b1 /\
    packets b1 = [WriteStream.new_WritePacket (enc_message (MError (bytes_of "Failed to connect to db")));
                  WriteStream.new_WritePacket (enc_message (MLink 0 502 (LCreated TunnelConnection.LINK_FAILURE)))] /\
    StdioTunnel.links b1 = ∅ /\ StdioTunnel.system b1 = Script [] [COther; COther; COther; CClose 10].
Proof.
  destruct (link_creation (P1:=ScriptOS) (P2:=ScriptOS) (R2:=StdioTunnelRemote.t) (O2:=StdioTunnelRemote.own)
              (local 0 ∅ ∅ [] [Num 9; Num 0]) 0 (connection 0 listener ∅) 8 502 9
              (Script [Num 0] [COther]) (Script [] [COther; COther]) (tt, 1)
              eq_refl eq_refl (conj eq_refl eq_refl) eq_refl eq_refl ltac:(apply lookup_empty)) as [(a1 & E & _ & Hl & _) [H _]].
  split; [exists a1; split; [exact E|exact Hl]|].
  set (b := remote 0 ∅ ∅ (enc_message (MLink 0 502 LCreate) ++ []) [Data [x7f; x00; x00; x01]; Num 10; Err 111]).
  destruct (H b 0%nat (connection 0 TunnelConnection.ConnectSide ∅) (StdioTunnelRemote.OTunnel, 1) []
              eq_refl eq_refl eq_refl eq_refl (lookup_empty _) (conj eq_refl eq_refl)) as (_ & _ & Hf).
  destruct (Hf (Script [] [COther; COther; COther]) (bytes_of "Failed to connect to db") (Some 10)) as
    (b1 & o & Eb & _ & Pk & _ & Lk & _ & Sy & Ho).
  { exact (No_connection (P:=ScriptOS) (spec 0) (StdioTunnel.system b) _ [x7f; x00; x00; x01] (Script [Num 10; Err 111] [COther])
             10 (Script [Err 111] [COther; COther]) 111 eq_refl eq_refl eq_refl). }
  exists b1. rewrite (Ho eq_refl) in Sy. split; [exact Eb|]. split; [exact Pk|]. split; [exact Lk|exact Sy].
Defined.

Lemma hear_errors_witness :
  hear (remote 0 (heap false) one_link
          (enc_short StdioTunnel.CMD_CONNECTION ++ enc_short 7 ++ []) []) = Undef NullDeref.
Proof.
  destruct (hear_errors (P2:=ScriptOS) (remote 0 (heap false) one_link (enc_short StdioTunnel.CMD_CONNECTION ++ enc_short 7 ++ []) [])
           0 501 [] 0 (connection 0 TunnelConnection.ConnectSide one_link) eq_refl eq_refl) as [_ [H _]].
  apply (H 7); [reflexivity|vm_compute; reflexivity].
Defined.
End Demo.
