(* ===== verification/Handshake.v ===== *)
(** * The handshake

    The local end, once its detector has seen the magic string, sends the
    specifications of its connections; the remote end makes its side of each
    and answers.  The two lists are the same: what one process writes is what
    the other acts on. *)

From stdpp Require Import base list tactics gmap strings relations sorting.
From Stdlib Require Import ZArith Lia.
From S2P Require Import Prelude Posix Wire SockBuffer Poller Spec Options Magic Tunnel Connection Socks5 Local Remote Behaviour Protocol Links.

(** ** Computations that leave the reader alone *)

Definition map_state {S A} (f : S -> S) (o : outcome S A) : outcome S A :=
  match o with Ret a s => Ret a (f s) | Throw e s => Throw e (f s) | Undef u => Undef u | NoFuel => NoFuel end.

Section HandsOff.
Import StdioTunnel Heap.
Context {P : Posix} {R O : Type}.
Abbreviation S := (tunnel R O).

(** [m] neither looks at what is to be read nor changes it. *)
Definition hands_off {A} (m : M S A) : Prop :=
  forall q s, m (unread q s) = map_state (unread q) (m s).

Class Blind {T} (l : lens S T) : Prop := {
  blind_view q s : view l (unread q s) = view l s;
  blind_update q t s : update l t (unread q s) = unread q (update l t s)
}.

Lemma off_ret {A} (a : A) : hands_off (mret a). Proof. done. Qed.
Lemma off_throw {A} e : hands_off (throw (A:=A) e). Proof. done. Qed.
Lemma off_undefined {A} u : hands_off (undefined (A:=A) u). Proof. done. Qed.
Lemma off_gets {A} (f : S -> A) : (forall q s, f (unread q s) = f s) -> hands_off (gets f).
Proof. intros H q s. change (Ret (f (unread q s)) (unread q s) = Ret (f s) (unread q s)). by rewrite H. Qed.
Lemma off_when b m : hands_off m -> hands_off (when b m).
Proof. by destruct b. Qed.
Lemma off_deref {A} u (o : option A) : hands_off (deref u o).
Proof. by destruct o. Qed.
Lemma off_bind {A B} (m : M S A) (f : A -> M S B) :
  hands_off m -> (forall a, hands_off (f a)) -> hands_off (m ≫= f).
Proof.
  intros Hm Hf q s. unfold mbind, M_bind. rewrite Hm. destruct (m s); try done. cbn. apply Hf.
Qed.
Lemma off_zoom {T A} (l : lens S T) `{!Blind l} (m : M T A) : hands_off (zoom l m).
Proof.
  intros q s. unfold zoom. rewrite blind_view. destruct (m (view l s)); unfold map_state; by rewrite ?blind_update.
Qed.
Lemma off_syscall {A} (call : os -> A * os) : hands_off (syscall system_of call).
Proof. intros q s. unfold syscall. change (view system_of (unread q s)) with (view system_of s). by destruct (call _). Qed.
Lemma off_syscall_ (call : os -> os) : hands_off (syscall_ system_of call).
Proof. done. Qed.
End HandsOff.

#[export] Hint Extern 0 (Blind _) => (split; intros; reflexivity) : typeclass_instances.

Ltac off :=
  repeat first
    [ solve [eauto 2 with tunnel]
    | apply off_ret | apply off_throw | apply off_undefined | apply off_deref
    | apply off_gets; intros; reflexivity
    | apply off_syscall | apply off_syscall_
    | apply off_bind; [|intros ?] | apply off_when
    | apply off_zoom; apply _
    | match goal with |- hands_off (match ?x with _ => _ end) => destruct x end ].

Section RemoteHandsOff.
Import StdioTunnel Heap StdioTunnelRemote.
Context {P : Posix}.
Abbreviation off m := (hands_off (R:=StdioTunnelRemote.t) (O:=own) m).

Lemma off_connection_of c : off (connection_of c). Proof. unfold connection_of. off. Qed.
Lemma off_link_of c : off (link_of c). Proof. unfold link_of. off. Qed.
Lemma off_set_connection f c : off (set_connection f c). Proof. unfold set_connection. off. Qed.
Lemma off_new_connection k : off (new_connection k). Proof. unfold new_connection. off. Qed.
Lemma off_free_connection k : off (free_connection k). Proof. unfold free_connection. off. Qed.
#[local] Hint Resolve off_connection_of off_link_of off_set_connection off_new_connection off_free_connection : tunnel.
Lemma off_server_of : off server_of. Proof. unfold server_of. off. Qed.
#[local] Hint Resolve off_server_of : tunnel.

Lemma off_registers o : off (Poller.setPollfd o).
Proof.
  destruct o as [[]|c|l]; cbn; unfold setPollfd, socks5_setPollfd, put_state, listen_setPollfd,
    link_setPollfd, listener_of; off.
Qed.
#[local] Hint Resolve off_registers : tunnel.
Lemma off_addPolled o : off (addPolled o).
Proof. unfold addPolled, Poller.addPolled, Poller.on_poller. off. Qed.
Lemma off_initialize c : off (initialize c). Proof. unfold initialize. off. Qed.
#[local] Hint Resolve off_addPolled off_initialize : tunnel.
Lemma off_CreateConnection spec b id : off (CreateConnection spec b id).
Proof. unfold CreateConnection. off. Qed.
Lemma off_assign_connection id c : off (assign_connection id c).
Proof. unfold assign_connection. off. Qed.
Lemma off_start_socks5 spec : off (start_socks5 spec).
Proof. unfold start_socks5. off. Qed.
#[local] Hint Resolve off_CreateConnection off_assign_connection off_start_socks5 : tunnel.
Lemma off_accept_spec id spec : off (accept_spec id spec).
Proof. unfold accept_spec. off. Qed.
End RemoteHandsOff.

(** ** The remote end's loop *)

Section Reading.
Import StdioTunnel Heap StdioTunnelRemote.
Context {P : Posix}.
Abbreviation S := (tunnel StdioTunnelRemote.t own).

(** The loop of [handshaking] over specifications that are given. *)
Fixpoint accept_all (l : list (Z * ConnectionSpec.t)) : M S unit :=
  match l with
  | [] => mret tt
  | e :: l => accept_spec e.1 e.2;; accept_all l
  end.

(** An entry of the list as it arrives. *)
Definition arrived (e : Z * ConnectionSpec.t) : Z * ConnectionSpec.t := (i16 e.1, received_spec e.2).

Lemma off_accept_all l : hands_off (accept_all l).
Proof. induction l as [|e l IH]; cbn [accept_all]; [done|]. apply off_bind; [apply off_accept_spec|done]. Qed.

Lemma deserialize_at spec q (s : S) : zlen (ConnectionSpec.m_connect_host spec) < 4294967296 ->
  to_read s = enc_spec spec ++ q ->
  zoom reader ConnectionSpec.deserialize s = Ret (received_spec spec) (unread q s).
Proof. intros H E. unfold zoom. cbn [view reader]. by rewrite (deserialize_enc _ _ q H E). Qed.

Definition spec_fits (e : Z * ConnectionSpec.t) : Prop := zlen (ConnectionSpec.m_connect_host e.2) < 4294967296.

Lemma read_specs_at l q (s : S) : to_read s = enc_specs l ++ q -> Forall spec_fits l ->
  match accept_all (map arrived l) s with
  | Ret _ s' => read_specs (length l) s = Ret tt (unread q s')
  | Throw e _ => exists s', read_specs (length l) s = Throw e s'
  | Undef u => read_specs (length l) s = Undef u
  | NoFuel => read_specs (length l) s = NoFuel
  end.
Proof.
  revert s. induction l as [|[id spec] l IH]; intros s E Hf; cbn [map accept_all length read_specs].
  - cbn in *. unfold to_read in E. rewrite <- E. by destruct s as [[]].
  - inversion Hf as [|? ? Hh Hf']; subst. unfold enc_specs in E. cbn [map concat fst snd] in E.
    rewrite <- !app_assoc in E. fold (enc_specs l) in E.
    rewrite (bind_step _ _ _ _ _ (readShort_at _ _ _ E)).
    rewrite (bind_step _ _ _ _ _ (deserialize_at spec _ (unread _ s) Hh (to_read_unread _ s))), unread_unread.
    unfold mbind, M_bind. rewrite off_accept_spec. cbn [arrived fst snd].
    destruct (accept_spec _ _ s) as [[] s1|e s1|u|]; cbn [map_state]; try done; [|by eexists].
    specialize (IH (unread (enc_specs l ++ q) s1) (to_read_unread _ _) Hf').
    rewrite off_accept_all in IH. destruct (accept_all _ s1); cbn [map_state] in IH; done.
Qed.

(** The remote end reads the local end's list. *)
Lemma handshake_reads l q (s : S) : to_read s = enc_message (MCreate l) ++ q -> m_state (role s) = HANDSHAKING -> zlen l < 32768 ->
  message_in s = (read_specs (length l);; put_state CONNECTED;; writeShort CMD_CREATE;; send) (unread (enc_specs l ++ q) s).
Proof.
  intros E Hst Hlen. cbn [enc_message] in E. rewrite <- !app_assoc in E. unfold message_in. rewrite bind_gets.
  assert (ReadStream.available (m_read_stream s) = true) as ->
    by (unfold ReadStream.available; unfold to_read in E; by rewrite E).
  cbn [when]. rewrite (bind_step _ _ _ _ _ (readShort_at _ _ _ E)), bind_gets.
  change (role (unread _ s)) with (role s). rewrite Hst. unfold handshaking.
  change (i16 CMD_CREATE =? CMD_CREATE) with true. cbn [negb].
  rewrite (bind_step _ _ _ _ _ (readShort_at (zlen l) _ _ (to_read_unread _ s))), unread_unread.
  by rewrite i16_id, Nat2Z.id by lia.
Qed.

(** What the remote end does with the local end's list. *)
Lemma handshake_message_at l q t (s s1 : S) :
  to_read s = enc_message (MCreate l) ++ q -> m_state (role s) = HANDSHAKING ->
  zlen l < 32768 -> Forall spec_fits l ->
  accept_all (map arrived l) s = Ret tt s1 -> ready s1 t ->
  message_in s = Ret tt (said t MReady (update role_of (set_state CONNECTED (role s1)) (unread q s1))).
Proof.
  intros E Hst Hlen Hf Hacc Hr. rewrite (handshake_reads l q s E Hst Hlen).
  pose proof (read_specs_at l q (unread (enc_specs l ++ q) s) (to_read_unread _ s) Hf) as R.
  rewrite off_accept_all, Hacc in R. cbn [map_state] in R. rewrite unread_unread in R.
  rewrite (bind_step _ _ _ _ _ R).
  rewrite (bind_step _ _ _ tt (update role_of (set_state CONNECTED (role s1)) (unread q s1))) by done.
  rewrite (bind_step _ _ _ _ _ (writeShort_at _ _)).
  exact (send_queued t MReady _ (Hr : ready (update role_of (set_state CONNECTED (role s1)) (unread q s1)) t)).
Qed.

(** A list that cannot be served is an exception. *)
Lemma handshake_message_throws l q e (s s1 : S) :
  to_read s = enc_message (MCreate l) ++ q -> m_state (role s) = HANDSHAKING ->
  zlen l < 32768 -> Forall spec_fits l -> accept_all (map arrived l) s = Throw e s1 ->
  exists s', message_in s = Throw e s'.
Proof.
  intros E Hst Hlen Hf Hacc. rewrite (handshake_reads l q s E Hst Hlen).
  pose proof (read_specs_at l q (unread (enc_specs l ++ q) s) (to_read_unread _ s) Hf) as R.
  rewrite off_accept_all, Hacc in R. destruct R as [s' R]. exists s'. unfold mbind, M_bind. by rewrite R.
Qed.
End Reading.

(** ** The local end's part *)

Section Starting.
Import StdioTunnel Heap StdioTunnelLocal.
Context {P : Posix}.
Abbreviation S := (tunnel StdioTunnelLocal.t unit).

(** The members [startHandshaking] changes of its own. *)
Definition handshaking_role (r : StdioTunnelLocal.t) : StdioTunnelLocal.t :=
  set_write_buffer (final (SockBuffer.clear (m_write_buffer r)) (m_write_buffer r)) (set_state HAND_SHAKE r).

(** The terminal: raw, but with its signals. *)
Definition handshaking_terminal (s : S) : os :=
  if m_is_terminal s
  then sys_tcsetattr STDIN_FD TCSAFLUSH (Terminal.with_isig (Terminal.cfmakeraw (m_termios s))) (system s)
  else system s.

Definition handshaken (t : unit * Z) (specs : list (Z * ConnectionSpec.t)) (s : S) : S :=
  let s1 := said t (MCreate specs) (update role_of (handshaking_role (role s)) s) in
  update system_of (handshaking_terminal s)
    (update poller (final (Poller.removePolled (POwn tt) STDIN_FD (m_poller s1)) (m_poller s1)) s1).

Lemma startHandshaking_at specs t s :
  ready s t -> specs_of (in_order (m_connection_map s)) s = Some specs ->
  m_daemon (m_config (role s)) = false ->
  startHandshaking s = Ret tt (handshaken t specs s).
Proof.
  intros Hr Hs Hd. unfold startHandshaking.
  rewrite (bind_step _ _ s tt (update role_of (set_state HAND_SHAKE (role s)) s)) by done.
  set (s1 := update role_of (handshaking_role (role s)) s).
  rewrite (bind_step _ _ _ tt s1) by done. rewrite bind_gets.
  change (m_connection_map s1) with (m_connection_map s). set (l := in_order (m_connection_map s)) in *.
  rewrite !(bind_step _ _ _ _ _ (writeShort_at _ _)), !queued_queued.
  pose proof (write_specs_spec l (queued (enc_short CMD_CREATE ++ enc_short (zlen l)) s1)) as W.
  change (specs_of l (queued _ s1)) with (specs_of l s) in W. rewrite Hs in W. destruct W as [Hl W].
  rewrite (bind_step _ _ _ _ _ W), queued_queued.
  assert (ready s1 t) as Hr1 by exact Hr.
  rewrite (bind_step _ _ _ tt (said t (MCreate specs) s1));
    [|rewrite <- (send_queued t _ s1 Hr1); cbn [enc_message]; by rewrite Hl, <- !app_assoc].
  set (s2 := said t (MCreate specs) s1).
  set (s3 := update poller (final (Poller.removePolled (POwn tt) STDIN_FD (m_poller s2)) (m_poller s2)) s2).
  rewrite (bind_step _ _ s2 tt s3) by done. rewrite bind_gets.
  rewrite (bind_step _ _ s3 tt (update system_of (handshaking_terminal s) s3)).
  - rewrite bind_gets. change (m_config (role (update system_of _ s3))) with (m_config (role s)).
    rewrite Hd. done.
  - unfold handshaking_terminal. change (view terminal_of s3) with (m_termios s, m_is_terminal s). cbn [fst snd].
    destruct (m_is_terminal s); [done|]. cbn [when]. by destruct s.
Qed.

Lemma ready_message_at q (s : S) : to_read s = enc_message MReady ++ q ->
  StdioTunnelLocal.message_in s = Ret tt (update role_of (set_state CONNECTED (role s)) (unread q s)).
Proof.
  intros E. unfold message_in. rewrite bind_gets.
  assert (ReadStream.available (m_read_stream s) = true) as ->
    by (unfold ReadStream.available; unfold to_read in E; by rewrite E).
  cbn [when]. by rewrite (bind_step _ _ _ _ _ (readShort_at _ _ _ E)).
Qed.
End Starting.

Section Handshake.
Import StdioTunnel Heap.
Context {P1 P2 : Posix}.

(** C13: the handshake carries the local end's connections to the remote
    end.  [startHandshaking] queues one packet, with every connection's id
    and specification in the order of the ids, drops what the user had
    typed, stops reading standard input and sets the terminal raw with
    signals.  The remote end, reading that payload while it waits for it,
    does for each entry exactly what it does for a specification with that
    id ([accept_all]), leaves the reader past the message, is connected, and
    says it is ready; hearing that, the local end is connected. *)
Theorem handshake_roundtrip (a : tunnel (P:=P1) StdioTunnelLocal.t unit) specs t
    (Hr : ready a t) (Hspecs : specs_of (StdioTunnelLocal.in_order (m_connection_map a)) a = Some specs)
    (Hd : m_daemon (StdioTunnelLocal.m_config (role a)) = false)
    (Hlen : zlen specs < 32768) (Hfit : Forall spec_fits specs) :
  let payload := enc_message (MCreate specs) in
  exists a', StdioTunnelLocal.startHandshaking a = Ret tt a' /\
    packets a' = packets a ++ [WriteStream.new_WritePacket payload] /\
    StdioTunnelLocal.m_state (role a') = StdioTunnelLocal.HAND_SHAKE /\
    SockBuffer.unsentData (StdioTunnelLocal.m_write_buffer (role a')) = false /\
    system a' = handshaking_terminal a /\
    (forall (b b1 : tunnel (P:=P2) StdioTunnelRemote.t StdioTunnelRemote.own) rest tb,
       StdioTunnelRemote.m_state (role b) = StdioTunnelRemote.HANDSHAKING ->
       to_read b = payload ++ rest -> accept_all (map arrived specs) b = Ret tt b1 -> ready b1 tb ->
       exists b', StdioTunnelRemote.message_in b = Ret tt b' /\ to_read b' = rest /\
         StdioTunnelRemote.m_state (role b') = StdioTunnelRemote.CONNECTED /\
         m_connection_map b' = m_connection_map b1 /\ connections b' = connections b1 /\
         packets b' = packets b1 ++ [WriteStream.new_WritePacket (enc_message MReady)]) /\
    (forall a2 rest, to_read a2 = enc_message MReady ++ rest ->
       exists a3, StdioTunnelLocal.message_in a2 = Ret tt a3 /\ to_read a3 = rest /\
         StdioTunnelLocal.m_state (role (P:=P1) a3) = StdioTunnelLocal.CONNECTED).
Proof.
  intros payload. exists (handshaken t specs a).
  rewrite (startHandshaking_at specs t a Hr Hspecs Hd). split_and!; try done.
  - intros b b1 rest tb Hst E Hacc Hb. eexists.
    rewrite (handshake_message_at specs rest tb b b1 E Hst Hlen Hfit Hacc Hb). done.
  - intros a2 rest E. eexists. rewrite (ready_message_at rest a2 E). done.
Qed.
End Handshake.

(** ** The connection tables *)

Section Tables.
Import StdioTunnel Heap StdioTunnelRemote TunnelConnection.
Context {P : Posix}.
Abbreviation S := (tunnel StdioTunnelRemote.t own).

(** A specification the remote end only has to remember: its side connects
    on demand. *)
Definition passive (spec : ConnectionSpec.t) : Prop :=
  ConnectionSpec.isSocks5 spec = false /\ ConnectionSpec.m_connection_type spec <> ConnectionSpec.LISTEN.

Definition remembered (id : Z) (spec : ConnectionSpec.t) (s : S) : S :=
  update map_of (<[id := next_object s]> (m_connection_map s))
    (update connection_heap (<[next_object s := new_ConnectSide spec id]> (connections s))
      (update next_of (Datatypes.S (next_object s)) s)).

Lemma accept_passive_at id spec s : passive spec -> m_connection_map s !! id = None ->
  accept_spec id spec s = Ret tt (remembered id spec s).
Proof.
  intros [Hs Ht] Hm. unfold accept_spec. rewrite Hs.
  rewrite (bind_step _ _ s spec s) by done.
  set (s1 := update connection_heap (<[next_object s := new_ConnectSide spec id]> (connections s))
               (update next_of (Datatypes.S (next_object s)) s)).
  rewrite (bind_step _ _ _ (Some (next_object s)) s1).
  - unfold assign_connection. rewrite bind_gets. rewrite (bind_step _ _ _ tt (remembered id spec s)) by done.
    change (m_connection_map s1) with (m_connection_map s). by rewrite Hm.
  - unfold CreateConnection. by rewrite (proj2 (Z.eqb_neq _ _) Ht).
Qed.

Definition table_has (e : Z * ConnectionSpec.t) (s : S) : Prop :=
  exists c, m_connection_map s !! e.1 = Some c /\ (c < next_object s)%nat /\
            connections s !! c = Some (new_ConnectSide e.2 e.1).

Lemma table_has_remembered e id spec s : e.1 <> id -> table_has e s -> table_has e (remembered id spec s).
Proof.
  intros Hne (c & Hm & Hlt & Hc). exists c. unfold remembered. cbn.
  rewrite lookup_insert_ne by done. rewrite lookup_insert_ne by lia. split_and!; [done|lia|done].
Qed.

Lemma accept_all_passive l s :
  Forall (fun e => passive e.2) l -> NoDup (map fst l) ->
  Forall (fun e => m_connection_map s !! e.1 = None) l ->
  exists s1, accept_all l s = Ret tt s1 /\ m_write_target s1 = m_write_target s /\
    m_write_stream s1 = m_write_stream s /\
    Forall (fun e => table_has e s1) l /\
    (forall e, e.1 ∉ map fst l -> table_has e s -> table_has e s1).
Proof.
  revert s. induction l as [|[id spec] l IH]; intros s Hp ND Hf; cbn [accept_all map fst snd] in *.
  - exists s. split_and!; done.
  - inversion Hp as [|? ? Hp1 Hp2]; subst. inversion Hf as [|? ? Hf1 Hf2]; subst.
    apply NoDup_cons in ND as [Hni ND]. cbn [fst snd] in *.
    rewrite (bind_step _ _ _ _ _ (accept_passive_at id spec s Hp1 Hf1)).
    destruct (IH (remembered id spec s) Hp2 ND) as (s1 & -> & Ht & Hw & Hall & Hold).
    { apply Forall_forall. intros e He. rewrite Forall_forall in Hf2. unfold remembered. cbn.
      rewrite lookup_insert_ne; [by apply Hf2|]. intros ->. apply Hni.
      by apply (list_elem_of_fmap_2 fst). }
    exists s1. split_and!; [done..| |].
    + constructor; [|done]. apply Hold; [done|]. exists (next_object s). unfold remembered. cbn.
      rewrite !lookup_insert_eq. split_and!; [done|lia|done].
    + intros e He Hte. apply Hold; [intros Hin; apply He; by right|].
      apply table_has_remembered; [|done]. intros <-. apply He. by left.
Qed.

(** After the handshake both ends have the same table of connections.
    For connections that the local end listens for, with distinct ids the
    remote end has not yet given away, the loop over the list cannot fail:
    it returns, queues nothing, and every id then leads to a [ConnectSide]
    with that id and the specification that was sent. *)
Lemma handshake_tables (b : S) specs t
    (Hpassive : Forall (fun e => passive (received_spec e.2)) specs)
    (Hids : NoDup (map (fun e => i16 e.1) specs))
    (Hfresh : Forall (fun e => m_connection_map b !! i16 e.1 = None) specs) (Hr : ready b t) :
  exists b1, accept_all (map arrived specs) b = Ret tt b1 /\ ready b1 t /\ packets b1 = packets b /\
    forall id spec, (id, spec) ∈ specs -> exists c,
      m_connection_map b1 !! i16 id = Some c /\
      connections b1 !! c = Some (new_ConnectSide (received_spec spec) (i16 id)).
Proof.
  destruct (accept_all_passive (map arrived specs) b) as (b1 & E & Ht & Hw & Hall & _).
  - by apply Forall_map.
  - rewrite map_map. exact Hids.
  - by apply Forall_map.
  - exists b1. split; [done|]. unfold ready, packets. rewrite Ht, Hw. split_and!; try apply Hr; [done|].
    intros id spec Hin. rewrite Forall_forall in Hall.
    destruct (Hall (arrived (id, spec))) as (c & H1 & _ & H2); [by apply (list_elem_of_fmap_2 arrived)|].
    by exists c.
Qed.
End Tables.

(** One connection, number 0, from the local end of Links.v to a remote end
    that has none. *)
Module HandshakeDemo.
Import StdioTunnel.

Definition sender : tunnel (P:=ScriptOS) StdioTunnelLocal.t unit := Demo.local 0 ∅ ∅ [] [].
Definition receiver (q : list byte) : tunnel (P:=ScriptOS) StdioTunnelRemote.t StdioTunnelRemote.own :=
  let s := Demo.make (StdioTunnelRemote.set_state StdioTunnelRemote.HANDSHAKING StdioTunnelRemote.init)
             StdioTunnelRemote.OTunnel (TunnelConnection.new_ConnectSide (Demo.spec 0) 0) ∅ q [] in
  update map_of ∅ (update connection_heap ∅ s).
Definition specs : list (Z * ConnectionSpec.t) := [(0, Demo.spec 0)].

Lemma handshake_roundtrip_witness :
  exists a', StdioTunnelLocal.startHandshaking sender = Ret tt a' /\
    StdioTunnelLocal.m_state (role a') = StdioTunnelLocal.HAND_SHAKE /\
    exists b', StdioTunnelRemote.message_in (receiver (enc_message (MCreate specs) ++ [])) = Ret tt b' /\
      StdioTunnelRemote.m_state (role b') = StdioTunnelRemote.CONNECTED.
Proof.
  destruct (handshake_roundtrip (P1:=ScriptOS) (P2:=ScriptOS) sender specs (tt, 1) (conj eq_refl eq_refl)
              eq_refl eq_refl ltac:(vm_compute; congruence) ltac:(repeat constructor))
    as (a' & E & _ & Hst & _ & _ & H & _).
  exists a'. split; [exact E|]. split; [exact Hst|].
  destruct (H (receiver (enc_message (MCreate specs) ++ []))
              (final (accept_all (P:=ScriptOS) (map arrived specs) (receiver (enc_message (MCreate specs) ++ []))) (receiver []))
              [] (StdioTunnelRemote.OTunnel, 1) eq_refl eq_refl ltac:(vm_compute; reflexivity) (conj eq_refl eq_refl))
    as (b' & Eb & _ & Hb & _).
  exists b'. split; [exact Eb|exact Hb].
Defined.

Lemma handshake_tables_witness :
  exists b1, accept_all (P:=ScriptOS) (map arrived specs) (receiver []) = Ret tt b1 /\
    exists c, m_connection_map b1 !! 0 = Some c /\
      connections b1 !! c = Some (TunnelConnection.new_ConnectSide (Demo.spec 0) 0).
Proof.
  destruct (handshake_tables (P:=ScriptOS) (receiver []) specs (StdioTunnelRemote.OTunnel, 1))
    as (b1 & E & _ & _ & H).
  - by repeat constructor.
  - apply (bool_decide_unpack _). vm_compute. exact I.
  - repeat constructor.
  - by split.
  - exists b1. split; [exact E|]. exact (H 0 (Demo.spec 0) ltac:(left)).
Defined.
End HandshakeDemo.
