(* ===== verification/Main.v ===== *)
(** * The program

    [main], [StdioTunnel::CreateTunnel] and [startFinish]: how a run begins
    and every way it can end, with its exit status and the state it leaves
    the terminal in. *)

From stdpp Require Import base list tactics gmap strings relations.
From Stdlib Require Import ZArith Lia.
From S2P Require Import Prelude Posix Wire SockBuffer Poller Spec Options Magic Tunnel Connection Socks5 Local Remote Behaviour.
Import StdioTunnel.

Section Main.
Context {P : Posix}.
Abbreviation whole := (Lens id (fun (o _ : os) => o)).

(** The text of an exception, [what()], names the place it was thrown at and
    the system's text for the error number. *)
Context (what : exn -> list byte).

(** What a tunnel's members hold before they are set. *)
Abbreviation memory := ((termios * bool) * (Z * Z))%type.

(** [cerr << text << cerr_endl() << flush]: the text is out when
    [cerr_endl] asks for the mode of the terminal. *)
Definition cerr_line (text : list byte) : M os unit :=
  syscall_ whole (sys_cerr text);;
  endl ← Terminal.cerr_endl;
  syscall_ whole (sys_cerr endl).

(** The message for a command line that cannot be used; an empty line is one
    more [cerr_endl]. *)
Definition usage_lines : list (list byte) := map bytes_of
  [""; "Usage: StdioTunnel [-D] [-l] [-d] [-s] [-T|-t] <-L|-R <connection spec>>... [-p login-pattern] [-c remote-cmd] connection-command [args...]";
   ""; "or (on the remote side)"; ""; "StdioTunnel [-D] -r"; ""; "or (print version)"; ""; "StdioTunnel -V"; "";
   "where connection_spec = <listen port>:<connect host>:<connect port>[:ap]";
   "a remote socks 5 connection_spec is write as -l -L <listen port>::0"].

Fixpoint cerr_lines (lines : list (list byte)) : M os unit :=
  match lines with [] => mret tt | l :: lines => cerr_line l;; cerr_lines lines end.
Definition usage : M os unit := cerr_lines usage_lines.

(** The destructor of a tunnel. *)
Definition unwind {R O} (s : tunnel R O) : os := system (final (destroy s) s).

Definition local_tunnel : Type := tunnel StdioTunnelLocal.t unit.
Definition remote_tunnel : Type := tunnel StdioTunnelRemote.t StdioTunnelRemote.own.

(** [CreateTunnel] on [argv] without the program's name.  The object is made
    before it is configured, and destroyed when that throws. *)
Definition CreateTunnel (args : list arg) (m : memory) : M os (local_tunnel + remote_tunnel) := fun o =>
  match scan args choice_init with
  | inl e => Throw e o
  | inr c =>
      if c_version c && (length args =? 1)%nat then Throw (ExnStr "") o
      else if c_local c then
        let s : local_tunnel := new_StdioTunnel (StdioTunnelLocal.configured config_init) m o in
        match configure args (config_init, system s) with
        | Ret _ (k, o') =>
            let s' := update system_of o' (update role_of (StdioTunnelLocal.configured k) s) in
            Ret (inl s') o'
        | Throw e (_, o') => Throw e (unwind (update system_of o' s))
        | Undef u => Undef u
        | NoFuel => NoFuel
        end
      else
        let s : remote_tunnel := new_StdioTunnel StdioTunnelRemote.init m o in
        Ret (inr s) (system s)
  end.

(** [StdioTunnel::startFinish], of an end with its [start]. *)
Definition startFinish {R O} `{EqDecision O} `{!Polled (tunnel R O) (obj O)}
    (start : M (tunnel R O) unit) : M (tunnel R O) unit :=
  start;;
  closed ← gets m_closed_by_request;
  when closed
    (writeShort CMD_SHUTDOWN;;
     send;;
     Poller.pollOnce poller system_of;; mret tt).

(** The handlers of [main]: the exit status.  [exit] is no exception. *)
Definition handle (e : exn) : M os Z :=
  match e with
  | ProcessEnds code => throw (ProcessEnds code)
  | ExnStr s => when (negb (bool_decide (s = ""%string))) (cerr_line (bytes_of s));; mret 0
  | ExnMsg _ | ExnErrno _ => cerr_line (what e);; mret 1
  end.

(** The rest of [main]'s inner block, on the tunnel, and its end: an
    exception destroys the tunnel before it is handled, and [exit] does
    not. *)
Definition conclude {R O} (run : M (tunnel R O) unit) (s : tunnel R O) : outcome os Z :=
  match (run;; zoom system_of (cerr_line (bytes_of "Normal exit"))) s with
  | Ret _ s' => Ret 0 (unwind s')
  | Throw (ProcessEnds code) s' => Throw (ProcessEnds code) (system s')
  | Throw e s' => handle e (unwind s')
  | Undef u => Undef u
  | NoFuel => NoFuel
  end.

Definition main (args : list arg) (m : memory) (blocks rounds : nat) : M os Z := fun o =>
  match CreateTunnel args m o with
  | Ret (inl s) _ => conclude (startFinish (Polled0 := StdioTunnelLocal.local_polled blocks)
                                 (StdioTunnelLocal.start blocks rounds)) s
  | Ret (inr s) _ => conclude (startFinish (StdioTunnelRemote.start rounds)) s
  | Throw (ExnMsg _ | ExnErrno _) o' => (usage;; handle (ExnStr "")) o'
  | Throw e o' => handle e o'
  | Undef u => Undef u
  | NoFuel => NoFuel
  end.
End Main.

(** ** What a run leaves alone *)

Section Kept.
Context {P : Posix}.
Abbreviation kept m := (moves (on terminal_of eq) m).

Lemma kept_poll_callback {R O} `{EqDecision O} `{!Role R O} : kept (poll_callback (R:=R) (O:=O)).
Proof. unfold poll_callback, deliver_signals, signalHandler. frame. Qed.

Lemma kept_startFinish {R O} `{EqDecision O} `{!Role R O} `{!Polled (tunnel R O) (obj O)} (start : M (tunnel R O) unit) :
  kept start -> kept (Poller.pollOnce (@poller P R O) system_of) -> kept (startFinish start).
Proof.
  intros Hs Hp. pose proof (polite_send terminal_of eq (R:=R) (O:=O)).
  pose proof (fun z => polite_writeShort (R:=R) (O:=O) terminal_of eq z). unfold startFinish. frame.
Qed.

Section Local.
Import StdioTunnelLocal.
Abbreviation S := (tunnel StdioTunnelLocal.t unit).
Abbreviation kept m := (moves (on (@terminal_of P StdioTunnelLocal.t unit) eq) m).


Lemma kept_local_loop blocks : (forall o id pf, kept (Poller.polled (Polled := local_polled blocks) o id pf)) /\
  (forall o pf, kept (Poller.cleanup (Polled := local_polled blocks) o pf)) /\
  kept (Poller.pollCallback (Polled := local_polled blocks)).
Proof.
  split_and!.
  - intros [o|c|l] id pf; cbn; [apply (polite_local_polled terminal_of eq)|apply (polite_listen_polled terminal_of eq)
      |apply (polite_link_polled terminal_of eq)].
  - pose proof (fun c => polite_listener_of (R:=StdioTunnelLocal.t) (O:=unit) terminal_of eq c).
    pose proof (fun l => polite_link_of (R:=StdioTunnelLocal.t) (O:=unit) terminal_of eq l).
    intros [o|c|l] pf; cbn; unfold listen_cleanup, link_cleanup; frame.
  - apply kept_poll_callback.
Qed.

Lemma kept_local_round blocks : kept (Poller.pollOnce (Polled0 := local_polled blocks) poller system_of).
Proof. destruct (kept_local_loop blocks) as (? & ? & ?). apply (pollOnce_kept poller system_of); auto; apply _. Qed.

Lemma kept_local_start blocks rounds : kept (start blocks rounds).
Proof.
  destruct (kept_local_loop blocks) as (? & ? & ?).
  assert (kept (Poller.start (Polled0 := local_polled blocks) poller system_of rounds))
    by (apply (start_kept poller system_of); auto; apply _).
  assert (forall fds, kept (set_nonblocking fds)) by (intros fds; induction fds; cbn [set_nonblocking]; frame).
  assert (forall specs, kept (create_connections specs)).
  { pose proof (fun spec b id => polite_CreateConnection (R:=StdioTunnelLocal.t) (O:=unit) terminal_of eq spec b id).
    pose proof (fun id c => polite_assign_connection (R:=StdioTunnelLocal.t) (O:=unit) terminal_of eq id c).
    pose proof (fun c => polite_connection_of (R:=StdioTunnelLocal.t) (O:=unit) terminal_of eq c).
    intros specs. induction specs; cbn [create_connections]; frame. }
  pose proof (fun o => polite_addPolled (R:=StdioTunnelLocal.t) (O:=unit) terminal_of eq o).
  unfold start, start_tunnel, spawn, forkpipe, set_pipe_fds. frame.
Qed.
End Local.

Section Remote.
Import StdioTunnelRemote.
Abbreviation kept m := (moves (on (@terminal_of P StdioTunnelRemote.t own) eq) m).

Lemma kept_remote_loop : (forall o id pf, kept (Poller.polled o id pf)) /\
  (forall o pf, kept (Poller.cleanup o pf)) /\ kept Poller.pollCallback.
Proof.
  split_and!.
  - intros [[]|c|l] id pf; cbn; [apply (polite_remote_polled terminal_of eq)|apply (polite_socks5_polled terminal_of eq)
      |apply (polite_listen_polled terminal_of eq)|apply (polite_link_polled terminal_of eq)].
  - pose proof (fun c => polite_listener_of (R:=StdioTunnelRemote.t) (O:=own) terminal_of eq c).
    pose proof (fun l => polite_link_of (R:=StdioTunnelRemote.t) (O:=own) terminal_of eq l).
    intros [[]|c|l] pf; cbn; unfold listen_cleanup, link_cleanup, socks5_cleanup; frame.
  - apply kept_poll_callback.
Qed.

Lemma kept_remote_round : kept (Poller.pollOnce poller system_of).
Proof. destruct kept_remote_loop as (? & ? & ?). apply (pollOnce_kept poller system_of); auto; apply _. Qed.

Lemma kept_remote_start rounds : kept (start rounds).
Proof.
  destruct kept_remote_loop as (? & ? & ?).
  assert (kept (Poller.start poller system_of rounds)) by (apply (start_kept poller system_of); auto; apply _).
  pose proof (fun o => polite_addPolled (R:=StdioTunnelRemote.t) (O:=own) terminal_of eq o).
  unfold start, start_tunnel. frame.
Qed.
End Remote.
End Kept.

(** ** How a run ends *)

Section Endings.
Context {P : Posix} (what : exn -> list byte).
Abbreviation whole := (Lens id (fun (o _ : os) => o)).
Implicit Types o : os.

(** Output on the standard error stream, and nothing else. *)
Definition tells : os -> os -> Prop :=
  rtc (fun o o' => (exists r, sys_tcgetattr 2 o = (r, o')) \/ exists bs, o' = sys_cerr bs o).

Lemma tells_line text : moves tells (cerr_line text).
Proof.
  intros o. unfold cerr_line, Terminal.cerr_endl, syscall, syscall_, mbind, M_bind, mret, M_ret. cbn [view update].
  unfold id. destruct (sys_tcgetattr 2 (sys_cerr text o)) as [r o1] eqn:E. cbn.
  eapply rtc_l; [right; by exists text|]. eapply rtc_l; [left; by exists r|]. apply rtc_once. right. eauto.
Qed.
Lemma tells_lines lines : moves tells (cerr_lines lines).
Proof.
  induction lines as [|l lines IH]; cbn [cerr_lines]; [apply moves_ret; apply _|].
  apply moves_bind; [apply _|apply tells_line|done].
Qed.
Lemma tells_handle e : moves tells (handle what e).
Proof.
  destruct e; cbn [handle]; try (apply moves_throw; apply _);
    (apply moves_bind; [apply _| |intros; apply moves_ret; apply _]); try apply tells_line.
  apply moves_when; [apply _|apply tells_line].
Qed.

(** The terminal's last setting is [t], the descriptors 0 and 1 block, and
    only messages follow. *)
Definition restored (t : termios) (o' : os) : Prop := exists o,
  tells (sys_blocking STDOUT_FD (sys_blocking STDIN_FD (sys_tcsetattr STDIN_FD TCSANOW t o))) o'.

Lemma restored_unwind {R O} (s : tunnel R O) t : view terminal_of s = (t, true) -> restored t (unwind s).
Proof. intros E. exists (system s). unfold unwind, destroy, gets, mbind, M_bind. rewrite E. cbn. constructor. Qed.

Lemma restored_handle t e o st o' : restored t o -> handle what e o = Ret st o' -> restored t o'.
Proof.
  intros [o2 H] E. exists o2. pose proof (tells_handle e o) as T. rewrite E in T. by etransitivity.
Qed.

Lemma conclude_restores {R O} (run : M (tunnel R O) unit) s t st o' :
  moves (on terminal_of eq) run -> view terminal_of s = (t, true) -> conclude what run s = Ret st o' -> restored t o'.
Proof.
  intros Hk Ht. unfold conclude.
  assert (moves (on terminal_of eq) (run;; zoom (@system_of P R O) (cerr_line (bytes_of "Normal exit")))) as Hk'.
  { apply moves_bind; [apply _|done|]. intros _. apply moves_apart; apply _. }
  specialize (Hk' s). unfold on in Hk'.
  destruct ((run;; _) s) as [x s'|e s'| |]; try done.
  - intros [= <- <-]. apply restored_unwind. congruence.
  - destruct e; try done; apply restored_handle, restored_unwind; congruence.
Qed.

Lemma new_terminal {R O} (r : R) m o t o1 : sys_tcgetattr STDIN_FD o = (SysOk t, o1) ->
  view terminal_of (new_StdioTunnel (O:=O) r m o) = (t, true).
Proof. intros E. unfold new_StdioTunnel. by rewrite E. Qed.

(** C18: however a run ends, the user gets the terminal back.  When the
    standard input is a terminal and the command line asks for a tunnel, then
    whether the configuration is refused, the start fails, an exception comes
    out of any callback of the event loop, or the loop finishes, the last
    setting of the terminal before the exit is the one it had at the start,
    standard input and output are blocking again, and after that only
    messages are written. *)
Theorem main_restores_terminal args m blocks rounds o c t o1 st o'
    (Hscan : scan args choice_init = inr c) (Hmade : c_version c && (length args =? 1)%nat = false)
    (Htty : sys_tcgetattr STDIN_FD o = (SysOk t, o1))
    (Hmain : main what args m blocks rounds o = Ret st o') : restored t o'.
Proof.
  unfold main, CreateTunnel in Hmain. rewrite Hscan, Hmade in Hmain. destruct (c_local c).
  - set (s := new_StdioTunnel _ m o) in Hmain.
    assert (view terminal_of s = (t, true)) as Hs by (by eapply new_terminal).
    destruct (configure _ _) as [[] [k o2]|e [k o2]| |]; try done.
    + by refine (conclude_restores _ _ t st o' (kept_startFinish _ (kept_local_start _ _) (kept_local_round _)) _ Hmain).
    + assert (restored t (unwind (update system_of o2 s))) as Hr by by apply restored_unwind.
      destruct e; try done; try (by eapply restored_handle).
      all: apply bind_inv in Hmain as ([] & o3 & E1 & E2); eapply restored_handle; [|exact E2].
      all: destruct Hr as [o4 Hr]; exists o4; pose proof (tells_lines usage_lines (unwind (update system_of o2 s))) as T.
      all: unfold usage in E1; rewrite E1 in T; by etransitivity.
  - exact (conclude_restores _ _ t st o' (kept_startFinish _ (kept_remote_start _) kept_remote_round)
             (new_terminal _ _ _ _ _ Htty) Hmain).
Qed.

(** The status of a process whose tunnel has run: 0 when it returned or left
    by a text, 1 for an exception. *)
Definition status {S A} (x : outcome S A) : option Z :=
  match x with
  | Ret _ _ | Throw (ExnStr _) _ => Some 0
  | Throw (ExnMsg _ | ExnErrno _) _ => Some 1
  | Throw (ProcessEnds code) _ => Some code
  | Undef _ | NoFuel => None
  end.

Definition exit_status (x : outcome os Z) : option Z :=
  match x with Ret code _ | Throw (ProcessEnds code) _ => Some code | _ => None end.

Lemma line_returns text o : exists o', cerr_line text o = Ret tt o'.
Proof.
  unfold cerr_line, Terminal.cerr_endl, syscall, syscall_, mbind, M_bind, mret, M_ret. cbn [view update].
  destruct (sys_tcgetattr 2 (id (sys_cerr text (id o)))) as [r o1]. eauto.
Qed.
Lemma lines_return lines o : exists o', cerr_lines lines o = Ret tt o'.
Proof.
  revert o. induction lines as [|l lines IH]; intros o; [by exists o|]. cbn [cerr_lines].
  destruct (line_returns l o) as [o1 E]. rewrite (bind_step _ _ _ _ _ E). apply IH.
Qed.
Lemma handle_status e o : exit_status (handle what e o) = status (Throw (A:=unit) e o).
Proof.
  destruct e as [m|e|t|code]; cbn [handle]; try done.
  - destruct (line_returns (what (ExnMsg m)) o) as [o1 E]. by rewrite (bind_step _ _ _ _ _ E).
  - destruct (line_returns (what (ExnErrno e)) o) as [o1 E]. by rewrite (bind_step _ _ _ _ _ E).
  - destruct (bool_decide (t = ""%string)); cbn [negb when]; [done|].
    destruct (line_returns (bytes_of t) o) as [o1 E]. by rewrite (bind_step _ _ _ _ _ E).
Qed.

Lemma conclude_status {R O} (run : M (tunnel R O) unit) s code :
  status (run s) = Some code -> exit_status (conclude what run s) = Some code.
Proof.
  unfold conclude. unfold mbind, M_bind at 1. destruct (run s) as [[] s'|e s'| |]; try done; intros E.
  - unfold zoom. destruct (line_returns (bytes_of "Normal exit") (view system_of s')) as [o1 ->]. done.
  - destruct e; try done; by rewrite handle_status.
Qed.

(** C19: the exit status.  A command line that no tunnel is made of ends the
    run with status 0, be it a mistake in it, which gets the usage message,
    or -V; otherwise the status is 0 when the event loop has finished or a
    text was thrown, 1 when an exception came out of the run, and what the
    process gave to [exit] when it called it. *)
Theorem main_status args m blocks rounds o :
  (forall e o1, CreateTunnel args m o = Throw e o1 -> (forall code, e <> ProcessEnds code) ->
     exit_status (main what args m blocks rounds o) = Some 0) /\
  (forall s o1 code, CreateTunnel args m o = Ret (inl s) o1 ->
     status (startFinish (Polled0 := StdioTunnelLocal.local_polled blocks) (StdioTunnelLocal.start blocks rounds) s) = Some code ->
     exit_status (main what args m blocks rounds o) = Some code) /\
  (forall s o1 code, CreateTunnel args m o = Ret (inr s) o1 ->
     status (startFinish (StdioTunnelRemote.start rounds) s) = Some code ->
     exit_status (main what args m blocks rounds o) = Some code).
Proof.
  unfold main. split_and!.
  - intros e o1 -> He. destruct e as [t|n|t|code]; try (by destruct (He code)); [| |by rewrite handle_status].
    all: destruct (lines_return usage_lines o1) as [o2 E]; by rewrite (bind_step _ _ _ _ _ E), handle_status.
  - intros s o1 code ->. apply conclude_status.
  - intros s o1 code ->. apply conclude_status.
Qed.

(** The manual's form of the command line is rejected.  The man page
    requires [-e "connection command"]; an argument list with -e among its
    options, before the command and not consumed as another option's
    value, makes [CreateTunnel] throw "Unknown option", whatever comes
    after it. *)
Theorem manual_dash_e_rejected ts rest k args memory (o : os)
    (Hargs : tokenize args = (ts ++ Flag x65 :: rest, k))
    (Hts : Forall (fun t => match t with Flag l => known_flag l = true | Value _ _ => True | Command => False end) ts) :
  CreateTunnel args memory o = Throw (ExnMsg "Unknown option") o.
Proof.
  unfold CreateTunnel. rewrite scan_tokenize, Hargs. cbn [fst].
  assert (forall c, scan_tokens (ts ++ Flag x65 :: rest) c = inl (ExnMsg "Unknown option")) as ->; [|done].
  clear Hargs. induction Hts as [|[l|l v|] ts' Ht _ IH]; intros c; cbn [app scan_tokens];
    [done|rewrite Ht; apply IH|apply IH|done].
Qed.
End Endings.

Module MainDemo.
Definition memory : (termios * bool) * (Z * Z) := ((Termios 0 0 0 0, false), (0, 0)).
Definition plain (e : exn) : list byte := bytes_of "what".

(** The remote end on a terminal: it prints the magic string, and the first
    poll fails. *)
Definition broken_poll : script := Script [Num 5; Num 31; Num 1; Num 1; Err 9] [].

Lemma main_restores_terminal_witness :
  restored (P:=ScriptOS) (Termios 5 5 5 5)
    (final (main (P:=ScriptOS) plain [bytes_of "-r"] memory 1 3 broken_poll) broken_poll).
Proof.
  refine (main_restores_terminal (P:=ScriptOS) plain [bytes_of "-r"] memory 1 3 broken_poll
    (Choice false false false) (Termios 5 5 5 5) (Script [Num 31; Num 1; Num 1; Err 9] [COther]) 1 _ _ _ _ _);
    vm_compute; reflexivity.
Defined.

(** A bad connection specification. *)
Lemma main_status_witness :
  exit_status (main (P:=ScriptOS) plain (map bytes_of ["-L"; "nonsense"; "ssh"]) memory 1 1 (Script [Num 5] [])) = Some 0.
Proof.
  destruct (CreateTunnel (P:=ScriptOS) (map bytes_of ["-L"; "nonsense"; "ssh"]) memory (Script [Num 5] [])) as [|e o1| |] eqn:E.
  2: { apply (proj1 (main_status (P:=ScriptOS) plain _ memory 1 1 _) e o1 E).
       intros code ->. vm_compute in E. discriminate E. }
  all: vm_compute in E; discriminate E.
Defined.

(** The first example of the man page. *)
Lemma manual_dash_e_rejected_witness :
  CreateTunnel (P:=ScriptOS)
    (map bytes_of ["-l"; "-L"; "2001:localhost:22:a"; "-L"; "5900:localhost:5900"; "-e";
                   "ssh -e none remotehost.remotedomain.com"]) ((Termios 0 0 0 0, false), (0, 0)) (Script [] []) =
  Throw (ExnMsg "Unknown option") (Script [] []).
Proof.
  apply (manual_dash_e_rejected (P:=ScriptOS)
    [Flag x6c; Value x4c (bytes_of "2001:localhost:22:a"); Value x4c (bytes_of "5900:localhost:5900")] []
    (Some [bytes_of "ssh -e none remotehost.remotedomain.com"])).
  - vm_compute. reflexivity.
  - repeat constructor.
Defined.
End MainDemo.
