(* ===== verification/Session.v ===== *)
(** * The life of a link

    A link is one TCP connection carried by the tunnel; each process has one
    end of it.  This file is the specification of what an end may do, as an
    automaton that hears and says the messages of Protocol.v, and the theory
    of two such automata joined by first-in first-out channels. *)

From stdpp Require Import base list tactics relations.
From Stdlib Require Import ZArith Lia.
From S2P Require Import Prelude Posix Tunnel Protocol.
Import TunnelConnection.

(** The end that accepted the socket asks for the other end, which
    answers. *)
Inductive end_side : Type := Asking | Answering.

(** What an end knows of a link: nothing; that it has asked and has no
    answer; that it is polled; that it has said LINK_CLOSE and waits to hear
    it. *)
Inductive link_state : Type := Absent | Waiting | Open | Closing.

#[export] Instance end_side_eq_decision : EqDecision end_side.
Proof. solve_decision. Defined.
#[export] Instance link_state_eq_decision : EqDecision link_state.
Proof. solve_decision. Defined.
#[export] Instance link_message_eq_decision : EqDecision link_message.
Proof. solve_decision. Defined.

Definition is_data (m : link_message) : bool :=
  match m with LSend _ | LSendForAck _ | LAck => true | _ => false end.

(** What is said at once on hearing data. *)
Definition reply (m : link_message) : list link_message :=
  match m with LSendForAck _ => [LAck] | _ => [] end.

(** A step of an end: on its own account, or when it hears a message, it
    says the messages [out]. *)
Inductive end_step : end_side -> link_state -> option link_message -> list link_message -> link_state -> Prop :=
| step_accept : end_step Asking Absent None [LCreate] Waiting
| step_send sd m : is_data m = true -> end_step sd Open None [m] Open
| step_close sd : end_step sd Open None [LClose] Closing
| step_answer : end_step Answering Absent (Some LCreate) [LCreated LINK_SUCCESS] Open
| step_refuse : end_step Answering Absent (Some LCreate) [LCreated LINK_FAILURE] Absent
| step_answered : end_step Asking Waiting (Some (LCreated LINK_SUCCESS)) [] Open
| step_refused : end_step Asking Waiting (Some (LCreated LINK_FAILURE)) [] Absent
| step_data sd m : is_data m = true -> end_step sd Open (Some m) (reply m) Open
| step_late sd m : is_data m = true -> end_step sd Closing (Some m) [] Closing
| step_closed sd : end_step sd Open (Some LClose) [LClose] Absent
| step_finished sd : end_step sd Closing (Some LClose) [] Absent.

(** Several steps of an end on its own account. *)
Inductive end_steps (sd : end_side) : link_state -> list link_message -> link_state -> Prop :=
| steps_nil x : end_steps sd x [] x
| steps_cons x out y outs z : end_step sd x None out y -> end_steps sd y outs z -> end_steps sd x (out ++ outs) z.

Lemma end_steps_one sd x out y : end_step sd x None out y -> end_steps sd x out y.
Proof. intros H. rewrite <- (app_nil_r out). econstructor; [exact H|constructor]. Qed.

Lemma end_steps_app sd x outs y outs' z :
  end_steps sd x outs y -> end_steps sd y outs' z -> end_steps sd x (outs ++ outs') z.
Proof.
  intros H H'. induction H as [|x out y outs z' Hs _ IH]; [done|].
  rewrite <- app_assoc. econstructor; [exact Hs|by apply IH].
Qed.

(** ** Two ends *)

(** The asking end, the answering end, and the messages on their way to the
    answering and to the asking end. *)
Record pair : Type := Pair {
  asking : link_state;
  answering : link_state;
  to_answering : list link_message;
  to_asking : list link_message
}.

Definition gone : pair := Pair Absent Absent [] [].

Abbreviation datas := (Forall (fun m => is_data m = true)).

(** The states two ends can be in together.  After LINK_CLOSE an end says
    nothing more about the link; before the answer the asking end says
    nothing more.  An id can be used again as soon as the asking end has
    forgotten it, even if LINK_CLOSE is still on its way. *)
Inductive pair_ok : pair -> Prop :=
| ok_gone : pair_ok gone
| ok_asked : pair_ok (Pair Waiting Absent [LCreate] [])
| ok_asked_again d : datas d -> pair_ok (Pair Waiting Closing (d ++ [LClose; LCreate]) [])
| ok_refused : pair_ok (Pair Waiting Absent [] [LCreated LINK_FAILURE])
| ok_answered e : datas e -> pair_ok (Pair Waiting Open [] (LCreated LINK_SUCCESS :: e))
| ok_answered_closed e : datas e -> pair_ok (Pair Waiting Closing [] (LCreated LINK_SUCCESS :: e ++ [LClose]))
| ok_open d e : datas d -> datas e -> pair_ok (Pair Open Open d e)
| ok_answering_closed d e : datas d -> datas e -> pair_ok (Pair Open Closing d (e ++ [LClose]))
| ok_asking_closed d e : datas d -> datas e -> pair_ok (Pair Closing Open (d ++ [LClose]) e)
| ok_both_closed d e : datas d -> datas e -> pair_ok (Pair Closing Closing (d ++ [LClose]) (e ++ [LClose]))
| ok_asking_last e : datas e -> pair_ok (Pair Closing Absent [] (e ++ [LClose]))
| ok_answering_last d : datas d -> pair_ok (Pair Absent Closing (d ++ [LClose]) []).

Lemma datas_snoc d m : datas d -> is_data m = true -> datas (d ++ [m]).
Proof. intros. apply Forall_app. split; [done|by apply Forall_singleton]. Qed.
Lemma datas_reply d m : datas d -> datas (d ++ reply m).
Proof. intros. apply Forall_app. split; [done|]. by destruct m; cbn; repeat constructor. Qed.

(** The first of some data and what follows them. *)
Lemma head_datas m q d r : m :: q = d ++ r -> datas d ->
  (d = [] /\ r = m :: q) \/ exists d', d = m :: d' /\ q = d' ++ r /\ is_data m = true /\ datas d'.
Proof.
  destruct d as [|x d]; cbn; [by left|]. intros [= -> ->] [Hx Hd]%Forall_cons. right. by exists d.
Qed.

Create HintDb session.
#[local] Hint Constructors pair_ok end_step : session.
#[local] Hint Resolve datas_snoc datas_reply Forall_nil_2 : session.

(** The asking end acts. *)
Lemma asking_acts x y qx qy out x' :
  pair_ok (Pair x y qx qy) -> end_step Asking x None out x' -> pair_ok (Pair x' y (qx ++ out) qy).
Proof.
  intros Hp H. inversion H; subst; inversion Hp; subst; rewrite <- ?app_assoc; cbn [app]; auto with session.
Qed.

(** The answering end acts. *)
Lemma answering_acts x y qx qy out y' :
  pair_ok (Pair x y qx qy) -> end_step Answering y None out y' -> pair_ok (Pair x y' qx (qy ++ out)).
Proof.
  intros Hp H. inversion H; subst; inversion Hp; subst; rewrite <- ?app_assoc; cbn [app]; auto with session.
Qed.

Lemma asking_acts_many x y qx qy out x' :
  pair_ok (Pair x y qx qy) -> end_steps Asking x out x' -> pair_ok (Pair x' y (qx ++ out) qy).
Proof.
  intros Hp H. revert qx Hp. induction H as [x|x out x1 outs x2 Hs _ IH]; intros qx Hp; [by rewrite app_nil_r|].
  rewrite app_assoc. apply IH. by eapply asking_acts.
Qed.
Lemma answering_acts_many x y qx qy out y' :
  pair_ok (Pair x y qx qy) -> end_steps Answering y out y' -> pair_ok (Pair x y' qx (qy ++ out)).
Proof.
  intros Hp H. revert qy Hp. induction H as [y|y out y1 outs y2 Hs _ IH]; intros qy Hp; [by rewrite app_nil_r|].
  rewrite app_assoc. apply IH. by eapply answering_acts.
Qed.

(** The front of a channel is some data or what comes after them. *)
Ltac front :=
  match goal with
  | H : _ :: _ = ?d ++ _, D : Forall _ ?d |- _ =>
      destruct (head_datas _ _ _ _ H D) as [[-> ?]|(? & -> & -> & ? & ?)]; clear H
  | H : _ ++ _ = _ :: _ |- _ => symmetry in H; front
  | D : Forall _ (_ :: _) |- _ => apply Forall_cons in D as [? ?]
  end; simplify_eq.

(** The answering end can take what comes, and the pair goes on. *)
Lemma answering_hears x y m qx qy :
  pair_ok (Pair x y (m :: qx) qy) -> exists out y', end_step Answering y (Some m) out y'.
Proof. intros Hp. inversion Hp; subst; try front; eauto with session. Qed.

Lemma answering_heard x y m qx qy out y' :
  pair_ok (Pair x y (m :: qx) qy) -> end_step Answering y (Some m) out y' -> pair_ok (Pair x y' qx (qy ++ out)).
Proof.
  intros Hp H. inversion Hp; subst; try front; inversion H; subst; try done;
    rewrite ?app_nil_r, ?app_nil_l; cbn [app]; auto with session.
Qed.

(** So can the asking end. *)
Lemma asking_hears x y qx m qy :
  pair_ok (Pair x y qx (m :: qy)) -> exists out x', end_step Asking x (Some m) out x'.
Proof. intros Hp. inversion Hp; subst; try front; eauto with session. Qed.

Lemma asking_heard x y qx m qy out x' :
  pair_ok (Pair x y qx (m :: qy)) -> end_step Asking x (Some m) out x' -> pair_ok (Pair x' y (qx ++ out) qy).
Proof.
  intros Hp H. inversion Hp; subst; try front; inversion H; subst; try done;
    rewrite ?app_nil_r, ?app_nil_l; cbn [app]; auto with session.
Qed.

(** When nothing is on its way, both ends have the link or neither has. *)
Lemma pair_quiet x y : pair_ok (Pair x y [] []) -> x = y /\ (x = Absent \/ x = Open).
Proof.
  intros Hp. inversion Hp; subst; try done; auto.
  all: match goal with H : _ ++ _ :: _ = [] |- _ => by apply app_eq_nil in H as [_ ?] end.
Qed.
