(* ===== verification/Memory.v ===== *)
(** * The objects a process keeps

    The pointers of a process: from the table of connections to the
    connections, from their tables to the links, from the links back, and
    from the poller to what it watches.  [typed] says that none of them
    dangles and that they agree; this file has the changes the callbacks
    make to them, each with the proof that it keeps them so and what it does
    to the state (Session.v) of every link. *)

From stdpp Require Import base list tactics gmap strings.
From Stdlib Require Import ZArith Lia.
From S2P Require Import Prelude Posix Wire SockBuffer Poller Spec Tunnel Connection Protocol Links Session.
Import StdioTunnel TunnelConnection.

(** What the pointers are about in a link. *)
Record face : Type := Face { f_connection : nat; f_id : Z; f_socket : Z; f_closing : bool }.

Definition face_of (k : ConnectionLink.t) : face :=
  Face (ConnectionLink.m_connection k) (ConnectionLink.m_id k) (ConnectionLink.m_socket k) (ConnectionLink.m_closing k).
Definition close_face (f : face) : face := Face (f_connection f) (f_id f) (f_socket f) true.

Section Memory.
Context {O : Type} `{EqDecision O}.

Record memory : Type := Memory {
  ids : gmap Z nat;
  tables : gmap nat TunnelConnection.t;
  faces : gmap nat face;
  fresh : nat;
  watched : list (obj O * Z)
}.

Definition link_object (e : obj O * Z) : option nat := match e.1 with PLink k => Some k | _ => None end.
Definition watched_links (m : memory) : list nat := omap link_object (watched m).

(** An error message that names the host is short enough to be said. *)
Definition host_fits (n : TunnelConnection.t) : Prop :=
  zlen (ConnectionSpec.m_connect_host (m_spec n)) < 4294967000.

(** No pointer dangles, and they agree with each other. *)
Record typed (m : memory) : Prop := Typed {
  typed_ids cid c : ids m !! cid = Some c -> exists n, tables m !! c = Some n /\ m_id n = cid;
  typed_tables c n : tables m !! c = Some n -> ids m !! m_id n = Some c /\ i16 (m_id n) = m_id n /\ host_fits n /\
    (c < fresh m)%nat;
  typed_table c n lid k : tables m !! c = Some n -> m_link_map n !! lid = Some k ->
    i16 lid = lid /\ exists f, faces m !! k = Some f /\ f_connection f = c /\ f_id f = lid;
  typed_face k f : faces m !! k = Some f ->
    (k < fresh m)%nat /\ exists n, tables m !! f_connection f = Some n /\ m_link_map n !! f_id f = Some k;
  typed_watched k sock : (PLink k, sock) ∈ watched m ->
    exists f, faces m !! k = Some f /\ f_closing f = false /\ f_socket f = sock;
  typed_listener c sock : (PListen c, sock) ∈ watched m ->
    exists n ni, tables m !! c = Some n /\ m_side n = ListenSide sock ni;
  typed_once : NoDup (watched_links m);
  typed_made k f n : faces m !! k = Some f -> f_closing f = false -> tables m !! f_connection f = Some n ->
    m_side n = ConnectSide -> k ∈ watched_links m
}.

(** ** The state of a link *)

Definition find (m : memory) (cid lid : Z) : option nat :=
  c ← ids m !! cid; n ← tables m !! c; m_link_map n !! lid.

Definition state_of (f : face) (polled : bool) : link_state :=
  if f_closing f then Closing else if polled then Open else Waiting.

Definition look (m : memory) (cid lid : Z) : link_state :=
  match find m cid lid with
  | None => Absent
  | Some k => match faces m !! k with
              | None => Absent
              | Some f => state_of f (bool_decide (k ∈ watched_links m))
              end
  end.

Definition side_of (m : memory) (cid : Z) : end_side :=
  match ids m !! cid ≫= fun c => tables m !! c with
  | Some n => match m_side n with ListenSide _ _ => Asking | ConnectSide => Answering end
  | None => Answering
  end.

Lemma find_some m cid lid c n k :
  ids m !! cid = Some c -> tables m !! c = Some n -> m_link_map n !! lid = Some k -> find m cid lid = Some k.
Proof. intros E1 E2 E3. unfold find. by rewrite E1; cbn; rewrite E2. Qed.

Lemma find_inv m cid lid k : find m cid lid = Some k ->
  exists c n, ids m !! cid = Some c /\ tables m !! c = Some n /\ m_link_map n !! lid = Some k.
Proof. unfold find. intros (c & E1 & (n & E2 & E3)%bind_Some)%bind_Some. eauto. Qed.

Lemma find_inj m cid lid cid' lid' k : typed m ->
  find m cid lid = Some k -> find m cid' lid' = Some k -> cid' = cid /\ lid' = lid.
Proof.
  intros T (c & n & I & N & L)%find_inv (c' & n' & I' & N' & L')%find_inv.
  destruct (typed_table m T c n lid k N L) as (_ & f & F & Fc & Fi).
  destruct (typed_table m T c' n' lid' k N' L') as (_ & f' & F' & Fc' & Fi'). simplify_eq.
  destruct (typed_ids m T _ _ I) as (? & ? & ?), (typed_ids m T _ _ I') as (? & ? & ?). by simplify_eq.
Qed.

Lemma find_face m cid lid k : typed m -> find m cid lid = Some k ->
  i16 lid = lid /\ exists f, faces m !! k = Some f /\ f_id f = lid /\
  exists n, tables m !! f_connection f = Some n /\ ids m !! cid = Some (f_connection f) /\ m_id n = cid /\
    m_link_map n !! lid = Some k.
Proof.
  intros T (c & n & I & N & L)%find_inv. destruct (typed_table m T c n lid k N L) as (Hl & f & F & <- & Fi).
  split; [done|]. exists f. split_and!; try done. exists n. split_and!; try done.
  destruct (typed_ids m T _ _ I) as (? & ? & ?). by simplify_eq.
Qed.

(** The key of a link that is there. *)
Lemma face_find m k f : typed m -> faces m !! k = Some f ->
  exists n, tables m !! f_connection f = Some n /\ ids m !! m_id n = Some (f_connection f) /\
    find m (m_id n) (f_id f) = Some k.
Proof.
  intros T F. destruct (typed_face m T k f F) as (_ & n & N & L). exists n.
  destruct (typed_tables m T _ _ N) as [I _]. split_and!; try done. by eapply find_some.
Qed.

Lemma look_find m cid lid k f : find m cid lid = Some k -> faces m !! k = Some f ->
  look m cid lid = state_of f (bool_decide (k ∈ watched_links m)).
Proof. intros E F. unfold look. by rewrite E, F. Qed.

Lemma elem_watched_links m k : (k ∈ watched_links m) <-> exists sock, (PLink k, sock) ∈ watched m.
Proof.
  unfold watched_links. rewrite list_elem_of_omap. split.
  - intros ([[] sock] & H & E); [done..|]. injection E as ->. by exists sock.
  - intros [sock H]. by exists (PLink k, sock).
Qed.

(** The list of what is polled counts only as far as links and listeners
    are concerned. *)
Definition not_own (e : obj O * Z) : Prop := match e.1 with POwn _ => False | _ => True end.
#[export] Instance not_own_dec e : Decision (not_own e).
Proof. unfold not_own. destruct e.1; apply _. Defined.

Lemma watched_links_others m : watched_links m = omap link_object (filter not_own (watched m)).
Proof.
  unfold watched_links. induction (watched m) as [|[[o|c|k] f] l IH]; [done| | |].
  - rewrite filter_cons_False by (by intros []). exact IH.
  - rewrite filter_cons_True by done. exact IH.
  - rewrite filter_cons_True by done. cbn. f_equal. exact IH.
Qed.

Lemma typed_others m m' : ids m' = ids m -> tables m' = tables m -> faces m' = faces m -> fresh m' = fresh m ->
  filter not_own (watched m') = filter not_own (watched m) -> typed m -> typed m'.
Proof.
  intros Ei Et Ef En Ew Ty. assert (watched_links m' = watched_links m) as El by (by rewrite !watched_links_others, Ew).
  assert (forall e, e ∈ watched m' -> not_own e -> e ∈ watched m) as Hin.
  { intros e W Ho. assert (e ∈ filter not_own (watched m')) as W' by (by apply list_elem_of_filter).
    rewrite Ew in W'. apply list_elem_of_filter in W' as [_ W']. exact W'. }
  split; rewrite ?Ei, ?Et, ?Ef, ?En, ?El; try apply Ty.
  - intros k sock W. by apply (typed_watched m Ty), Hin.
  - intros c sock W. by apply (typed_listener m Ty), Hin.
Qed.

(** Two memories that agree on a link have it in the same state. *)
Lemma look_same m m' cid lid : find m' cid lid = find m cid lid ->
  (forall k, find m cid lid = Some k -> faces m' !! k = faces m !! k /\ ((k ∈ watched_links m') <-> (k ∈ watched_links m))) ->
  look m' cid lid = look m cid lid.
Proof.
  intros E H. unfold look. rewrite E. destruct (find m cid lid) as [k|]; [|done].
  destruct (H k eq_refl) as [-> W]. destruct (faces m !! k); [|done]. f_equal. by apply bool_decide_ext.
Qed.
(** ** Closing *)

(** The list less the first [x]. *)
Fixpoint remove_first (x : obj O * Z) (l : list (obj O * Z)) : list (obj O * Z) :=
  match l with
  | [] => []
  | y :: l => if decide (y = x) then l else y :: remove_first x l
  end.

Lemma elem_remove_first x y l : y ∈ remove_first x l -> y ∈ l.
Proof.
  induction l as [|z l IH]; cbn [remove_first]; [done|]. destruct (decide (z = x)); [by right|].
  intros [->|H]%elem_of_cons; [by left|]. right. by apply IH.
Qed.
Lemma elem_remove_other x y l : y <> x -> y ∈ l -> y ∈ remove_first x l.
Proof.
  intros Hne. induction l as [|z l IH]; cbn [remove_first]; [done|].
  intros [->|H]%elem_of_cons; destruct (decide _) as [->|]; [done|by left|done|right; by apply IH].
Qed.

(** A link that is watched once is not watched after that. *)
Lemma omap_remove_first k sock l : NoDup (omap link_object l) -> (PLink k, sock) ∈ l ->
  (k ∉ omap link_object (remove_first (PLink k, sock) l)) /\ NoDup (omap link_object (remove_first (PLink k, sock) l)).
Proof.
  induction l as [|[o f] l IH]; cbn [remove_first omap list_omap]; [by intros _ ?%elem_of_nil|].
  intros Nd H. destruct (decide _) as [[= -> ->]|Hne].
  - cbn in Nd. by apply NoDup_cons in Nd.
  - apply elem_of_cons in H as [E|H]; [by destruct Hne|]. destruct o as [o|c|k']; cbn in *; [auto..|].
    apply NoDup_cons in Nd as [Hk' Nd]. destruct (IH Nd H) as [H1 H2].
    assert (k <> k').
    { intros ->. apply Hk'. apply list_elem_of_omap. by exists (PLink k', sock). }
    split; [by rewrite elem_of_cons; intros [?|?]|]. apply NoDup_cons. split; [|done].
    intros ((o' & s') & Ho & E)%list_elem_of_omap. apply Hk', list_elem_of_omap.
    exists (o', s'). split; [by eapply elem_remove_first|done].
Qed.

Definition m_close (k : nat) (f : face) (m : memory) : memory :=
  Memory (ids m) (tables m) (<[k := close_face f]> (faces m)) (fresh m)
    (remove_first (PLink k, f_socket f) (watched m)).

Lemma watched_sock m k f : typed m -> k ∈ watched_links m -> faces m !! k = Some f -> (PLink k, f_socket f) ∈ watched m.
Proof.
  intros T [sock W]%elem_watched_links F. destruct (typed_watched m T _ _ W) as (f' & F' & _ & <-). by simplify_eq.
Qed.

Lemma watched_close m k f k' : typed m -> faces m !! k = Some f ->
  (k' ∈ watched_links (m_close k f m)) <-> (k' ∈ watched_links m) /\ k' <> k.
Proof.
  intros T F. split.
  - intros H. pose proof H as [sock W]%elem_watched_links. cbn [m_close watched] in W.
    pose proof (elem_remove_first _ _ _ W) as W'. split; [apply elem_watched_links; eauto|]. intros ->.
    destruct (typed_watched m T _ _ W') as (f' & F' & _ & <-). simplify_eq.
    exact (proj1 (omap_remove_first k (f_socket f) (watched m) (typed_once m T) W') H).
  - intros [[sock W]%elem_watched_links Hne]. apply elem_watched_links. exists sock. cbn.
    apply elem_remove_other; [congruence|done].
Qed.

Lemma typed_close m k f : typed m -> faces m !! k = Some f -> typed (m_close k f m).
Proof.
  intros T F. split; try apply T.
  - intros c n lid k' N L. destruct (typed_table m T c n lid k' N L) as (? & f' & F' & ? & ?). split; [done|].
    cbn [m_close faces]. destruct (decide (k' = k)) as [->|Hk].
    + simplify_eq. exists (close_face f). by rewrite lookup_insert_eq.
    + exists f'. by rewrite lookup_insert_ne.
  - intros k' f'. cbn [m_close faces]. destruct (decide (k' = k)) as [->|Hk].
    + rewrite lookup_insert_eq. intros [= <-]. exact (typed_face m T k f F).
    + rewrite lookup_insert_ne by done. apply T.
  - intros k' sock W. pose proof (elem_remove_first _ _ _ W) as W'.
    destruct (typed_watched m T _ _ W') as (f' & F' & ? & ?).
    assert (k' <> k) by (eapply watched_close; [done|exact F|]; apply elem_watched_links; eauto).
    exists f'. cbn [m_close faces]. by rewrite lookup_insert_ne.
  - intros c sock W. exact (typed_listener m T c sock (elem_remove_first _ _ _ W)).
  - unfold watched_links, m_close. cbn [watched].
    destruct (decide ((PLink k, f_socket f) ∈ watched m)) as [W|W].
    + exact (proj2 (omap_remove_first k (f_socket f) (watched m) (typed_once m T) W)).
    + assert (forall l, (PLink k, f_socket f) ∉ l -> remove_first (PLink k, f_socket f) l = l) as E.
      { intros l. induction l as [|y l IH]; cbn [remove_first]; [done|]. intros [? ?]%not_elem_of_cons.
        rewrite decide_False by done. by rewrite IH. }
      rewrite E by done. apply T.
  - intros k' f' n'. cbn [m_close faces]. destruct (decide (k' = k)) as [->|Hk].
    + rewrite lookup_insert_eq. by intros [= <-].
    + rewrite lookup_insert_ne by done. intros. apply watched_close; [done|done|]. split; [|done].
      by eapply (typed_made m T).
Qed.

Lemma look_close m cid lid k f cid' lid' : typed m -> find m cid lid = Some k -> faces m !! k = Some f ->
  look (m_close k f m) cid' lid' = if decide ((cid', lid') = (cid, lid)) then Closing else look m cid' lid'.
Proof.
  intros T E F. destruct (decide _) as [[= -> ->]|Hne].
  - assert (faces (m_close k f m) !! k = Some (close_face f)) as F' by apply lookup_insert_eq.
    by rewrite (look_find (m_close k f m) cid lid k _ E F').
  - apply look_same; [done|]. intros k' E'. assert (k' <> k) as Hk.
    { intros ->. apply Hne. by destruct (find_inj m cid lid cid' lid' k T E E') as [-> ->]. }
    cbn [m_close faces]. rewrite lookup_insert_ne by done. split; [done|].
    rewrite watched_close by done. intuition.
Qed.
(** ** Changing the table of a connection *)

Definition alter_table (g : TunnelConnection.t -> TunnelConnection.t) (c : nat) (m : memory) : memory :=
  Memory (ids m) (alter g c (tables m)) (faces m) (fresh m) (watched m).

Lemma alter_table_inv g c (h : gmap nat TunnelConnection.t) c' n' : alter g c h !! c' = Some n' ->
  exists n, h !! c' = Some n /\ n' = if decide (c' = c) then g n else n.
Proof.
  destruct (decide (c' = c)) as [->|Hc].
  - rewrite lookup_alter_eq. intros (n & E & ->)%fmap_Some. eauto.
  - rewrite lookup_alter_ne by done. eauto.
Qed.
Lemma alter_table_at g c (h : gmap nat TunnelConnection.t) c' n : h !! c' = Some n ->
  alter g c h !! c' = Some (if decide (c' = c) then g n else n).
Proof.
  intros E. destruct (decide (c' = c)) as [->|Hc].
  - by rewrite lookup_alter_eq, E.
  - by rewrite lookup_alter_ne.
Qed.

Lemma find_alter m m' g cid c n cid' lid' : typed m -> ids m !! cid = Some c -> tables m !! c = Some n ->
  ids m' = ids m -> tables m' = alter g c (tables m) ->
  find m' cid' lid' = if decide (cid' = cid) then m_link_map (g n) !! lid' else find m cid' lid'.
Proof.
  intros T I N E1 E2. unfold find. rewrite E1. destruct (decide (cid' = cid)) as [->|Hne].
  - rewrite I. cbn. by rewrite E2, lookup_alter_eq, N.
  - destruct (ids m !! cid') as [c'|] eqn:I'; [|done]. cbn. rewrite E2, lookup_alter_ne; [done|].
    intros <-. destruct (typed_ids m T _ _ I) as (? & ? & ?), (typed_ids m T _ _ I') as (? & ? & ?). by simplify_eq.
Qed.

Lemma side_alter m m' g c cid : (forall n, m_side (g n) = m_side n) ->
  ids m' = ids m -> tables m' = alter g c (tables m) -> side_of m' cid = side_of m cid.
Proof.
  intros Hg E1 E2. unfold side_of. rewrite E1. destruct (ids m !! cid) as [c'|]; cbn; [|done].
  rewrite E2. destruct (decide (c' = c)) as [->|Hc]; [|by rewrite lookup_alter_ne].
  rewrite lookup_alter_eq. destruct (tables m !! c); cbn; [|done]. by rewrite Hg.
Qed.

(** ** Forgetting a link *)

Definition without (lid : Z) (n : TunnelConnection.t) : TunnelConnection.t := set_links (delete lid (m_link_map n)) n.

Definition m_forget (k : nat) (f : face) (m : memory) : memory :=
  Memory (ids m) (alter (without (f_id f)) (f_connection f) (tables m)) (delete k (faces m)) (fresh m) (watched m).

Lemma typed_forget m k f : typed m -> faces m !! k = Some f -> k ∉ watched_links m -> typed (m_forget k f m).
Proof.
  intros T F Hw. split; cbn [m_forget ids tables faces fresh watched]; try apply T.
  - intros cid c I. destruct (typed_ids m T _ _ I) as (n & N & <-). eexists.
    split; [by apply alter_table_at|]. by destruct (decide _).
  - intros c n' (n & N & ->)%alter_table_inv. pose proof (typed_tables m T _ _ N) as H'. destruct (decide _); exact H'.
  - intros c n' lid k' (n & N & ->)%alter_table_inv L.
    assert (m_link_map n !! lid = Some k' /\ (c = f_connection f -> lid <> f_id f)) as [L' Hid].
    { destruct (decide _) as [->|]; [|done]. cbn in L. by apply lookup_delete_Some in L as [? ?]. }
    destruct (typed_table m T _ _ _ _ N L') as (? & f' & F' & ? & ?). split; [done|]. exists f'.
    rewrite lookup_delete_ne; [done|]. intros <-. simplify_eq. naive_solver.
  - intros k' f' [Hk F']%lookup_delete_Some. destruct (typed_face m T _ _ F') as (? & n & N & L).
    split; [done|]. eexists. split; [by apply alter_table_at|].
    destruct (decide _) as [E|]; [|done]. cbn. rewrite lookup_delete_ne; [done|]. intros Hid.
    destruct (typed_face m T _ _ F) as (_ & n0 & N0 & L0). rewrite <- E, N in N0. simplify_eq. congruence.
  - intros k' sock W. destruct (typed_watched m T _ _ W) as (f' & F' & ? & ?). exists f'.
    rewrite lookup_delete_ne; [done|]. intros <-. apply Hw, elem_watched_links. eauto.
  - intros c sock W. destruct (typed_listener m T _ _ W) as (n & ni & N & E). eexists _, ni.
    split; [by apply alter_table_at|]. by destruct (decide _).
  - intros k' f' n' [Hk F']%lookup_delete_Some Ho (n & N & ->)%alter_table_inv Hs.
    apply (typed_made m T k' f' n); try done. by destruct (decide _).
Qed.

Lemma look_forget m k f cid lid cid' lid' : typed m -> faces m !! k = Some f -> find m cid lid = Some k ->
  look (m_forget k f m) cid' lid' = if decide ((cid', lid') = (cid, lid)) then Absent else look m cid' lid'.
Proof.
  intros T F E. destruct (find_face m cid lid k T E) as (_ & f0 & F0 & <- & n & N & I & _ & L). simplify_eq.
  pose proof (fun c l => find_alter m (m_forget k f m) (without (f_id f)) cid _ n c l T I N eq_refl eq_refl) as Ef.
  destruct (decide _) as [[= -> ->]|Hne].
  - unfold look. rewrite Ef, decide_True by done. cbn. by rewrite lookup_delete_eq.
  - assert (find (m_forget k f m) cid' lid' = find m cid' lid') as E'.
    { rewrite Ef. destruct (decide (cid' = cid)) as [->|]; [|done]. cbn. rewrite lookup_delete_ne by congruence.
      unfold find. rewrite I. cbn. by rewrite N. }
    apply look_same; [done|]. intros k' Hk. cbn [m_forget faces].
    rewrite lookup_delete_ne; [done|]. intros <-. destruct (find_inj m cid (f_id f) cid' lid' k T E Hk) as [-> ->]. done.
Qed.

(** ** Polling a link *)

Definition m_watch (k : nat) (sock : Z) (m : memory) : memory :=
  Memory (ids m) (tables m) (faces m) (fresh m) (watched m ++ [(PLink k, sock)]).

Lemma watched_watch m k sock : watched_links (m_watch k sock m) = watched_links m ++ [k].
Proof. unfold watched_links. cbn [m_watch watched]. by rewrite omap_app. Qed.

Lemma typed_watch m k f : typed m -> faces m !! k = Some f -> f_closing f = false -> k ∉ watched_links m ->
  typed (m_watch k (f_socket f) m).
Proof.
  intros T F Ho Hw. split; cbn [m_watch ids tables faces fresh watched]; try apply T.
  - intros k' sock [W|W]%elem_of_app; [by apply T|]. apply list_elem_of_singleton in W as [= -> ->]. eauto.
  - intros c sock [W|W]%elem_of_app; [by apply T|]. by apply list_elem_of_singleton in W.
  - rewrite watched_watch. apply NoDup_app. split_and!; [apply T| |apply NoDup_singleton].
    intros x Hx ->%list_elem_of_singleton. done.
  - intros k' f' n F' Ho' N Hs. rewrite watched_watch. apply elem_of_app. left. by eapply (typed_made m T).
Qed.

Lemma look_watch m k f cid lid cid' lid' : typed m -> faces m !! k = Some f -> f_closing f = false ->
  find m cid lid = Some k ->
  look (m_watch k (f_socket f) m) cid' lid' = if decide ((cid', lid') = (cid, lid)) then Open else look m cid' lid'.
Proof.
  intros T F Ho E. destruct (decide _) as [[= -> ->]|Hne].
  - rewrite (look_find (m_watch k (f_socket f) m) cid lid k f E F). unfold state_of. rewrite Ho, bool_decide_eq_true_2; [done|].
    rewrite watched_watch. apply elem_of_app. right. by apply list_elem_of_singleton.
  - apply look_same; [done|]. intros k' Hk. split; [done|]. rewrite watched_watch, elem_of_app, list_elem_of_singleton.
    split; [|by left]. intros [?| ->]; [done|]. destruct (find_inj m cid lid cid' lid' k T E Hk) as [-> ->]. done.
Qed.
(** ** Making a link *)

(** A listener has used the id it had next. *)
Definition bump (n : TunnelConnection.t) : TunnelConnection.t :=
  match m_side n with ListenSide f ni => set_side (ListenSide f (ni + 1)) n | ConnectSide => n end.

Definition with_link (lid : Z) (l : nat) (n : TunnelConnection.t) : TunnelConnection.t :=
  set_links (<[lid := l]> (m_link_map (bump n))) (bump n).

(** A new link of connection [c], polled at once or not. *)
Definition m_make (c : nat) (lid sock : Z) (polled : bool) (m : memory) : memory :=
  let l := fresh m in
  Memory (ids m) (alter (with_link lid l) c (tables m)) (<[l := Face c lid sock false]> (faces m)) (S l)
    (watched m ++ if polled then [(PLink l, sock)] else []).

Lemma bump_keeps n : m_id (bump n) = m_id n /\ m_spec (bump n) = m_spec n /\ m_link_map (bump n) = m_link_map n.
Proof. unfold bump. by destruct (m_side n). Qed.
Lemma with_link_keeps lid l n : m_id (with_link lid l n) = m_id n /\ m_spec (with_link lid l n) = m_spec n /\
  m_link_map (with_link lid l n) = <[lid := l]> (m_link_map n).
Proof. destruct (bump_keeps n) as (H1 & H2 & H3). unfold with_link. cbn. by rewrite H1, H2, H3. Qed.
Lemma with_link_side lid l n : m_side (with_link lid l n) =
  match m_side n with ListenSide f ni => ListenSide f (ni + 1) | ConnectSide => ConnectSide end.
Proof. unfold with_link, bump. by destruct (m_side n) eqn:E. Qed.

Lemma typed_fresh m k f : typed m -> faces m !! k = Some f -> k <> fresh m.
Proof. intros T F ->. destruct (typed_face m T _ _ F). lia. Qed.
Lemma watched_fresh m : typed m -> fresh m ∉ watched_links m.
Proof.
  intros T [sock W]%elem_watched_links. destruct (typed_watched m T _ _ W) as (f & F & _).
  by apply (typed_fresh m _ f T F).
Qed.

Lemma watched_make m c lid sock polled :
  watched_links (m_make c lid sock polled m) = watched_links m ++ if polled then [fresh m] else [].
Proof. unfold watched_links. cbn [m_make watched]. rewrite omap_app. by destruct polled. Qed.

Lemma typed_make m c n lid sock (polled : bool) : typed m -> tables m !! c = Some n -> m_link_map n !! lid = None ->
  i16 lid = lid -> (m_side n = ConnectSide -> polled = true) -> typed (m_make c lid sock polled m).
Proof.
  intros T N L Hl Hp. split.
  - intros cid c' I. destruct (typed_ids m T _ _ I) as (n' & N' & <-). eexists.
    split; [by apply alter_table_at|]. destruct (decide _); [|done]. by apply with_link_keeps.
  - intros c' n' (n0 & N0 & ->)%alter_table_inv. pose proof (typed_tables m T _ _ N0) as H'. unfold host_fits in *.
    destruct (with_link_keeps lid (fresh m) n0) as (E1 & E2 & _). cbn [m_make fresh].
    destruct (decide _); rewrite ?E1, ?E2; (split_and!; [apply H'..|lia]).
  - intros c' n' lid' k' (n0 & N0 & ->)%alter_table_inv L'. cbn [m_make faces].
    assert (m_link_map n0 !! lid' = Some k' \/ (c' = c /\ lid' = lid /\ k' = fresh m)) as [L0|(-> & -> & ->)].
    { destruct (decide _) as [->|]; [|by left]. destruct (with_link_keeps lid (fresh m) n0) as (_ & _ & E).
      rewrite E in L'. apply lookup_insert_Some in L' as [[<- <-]|[_ L']]; auto. }
    + destruct (typed_table m T _ _ _ _ N0 L0) as (? & f' & F' & ? & ?). split; [done|]. exists f'.
      by rewrite lookup_insert_ne by (by apply not_eq_sym; eapply typed_fresh).
    + split; [done|]. exists (Face c lid sock false). by rewrite lookup_insert_eq.
  - intros k' f'. cbn [m_make faces fresh tables]. intros [[<- <-]|[Hk F']]%lookup_insert_Some.
    + split; [lia|]. cbn. eexists. split; [by apply alter_table_at|]. rewrite decide_True by done.
      destruct (with_link_keeps lid (fresh m) n) as (_ & _ & ->). apply lookup_insert_eq.
    + destruct (typed_face m T _ _ F') as (? & n0 & N0 & L0). split; [lia|]. eexists. split; [by apply alter_table_at|].
      destruct (decide _) as [E|]; [|done]. destruct (with_link_keeps lid (fresh m) n0) as (_ & _ & ->).
      rewrite lookup_insert_ne; [done|]. intros Hid. rewrite E, N in N0. by simplify_eq.
  - intros k' sock' [W|W]%elem_of_app; cbn [m_make faces].
    + destruct (typed_watched m T _ _ W) as (f' & F' & ? & ?). exists f'.
      by rewrite lookup_insert_ne by (by apply not_eq_sym; eapply typed_fresh).
    + destruct polled; [|by apply elem_of_nil in W]. apply list_elem_of_singleton in W as [= -> ->].
      eexists. by rewrite lookup_insert_eq.
  - intros c' sock' [W|W]%elem_of_app.
    + destruct (typed_listener m T _ _ W) as (n0 & ni & N0 & E). eexists _, (if decide (c' = c) then ni + 1 else ni).
      split; [by apply alter_table_at|]. destruct (decide _); [|done]. by rewrite with_link_side, E.
    + destruct polled; [|by apply elem_of_nil in W]. by apply list_elem_of_singleton in W.
  - rewrite watched_make. apply NoDup_app. split_and!; [apply T| |destruct polled; [apply NoDup_singleton|constructor]].
    intros x Hx. destruct polled; [|apply not_elem_of_nil]. intros ->%list_elem_of_singleton. by apply (watched_fresh m T).
  - intros k' f' n'. cbn [m_make faces tables]. rewrite watched_make, elem_of_app.
    intros [[<- <-]|[Hk F']]%lookup_insert_Some Ho (n0 & N0 & ->)%alter_table_inv.
    + cbn in N0 |- *. rewrite decide_True, with_link_side by done. simplify_eq. destruct (m_side n) eqn:Es; [done|].
      rewrite Hp by done. right. by apply list_elem_of_singleton.
    + intros Hs. left. apply (typed_made m T k' f' n0); try done. destruct (decide _); [|done].
      rewrite with_link_side in Hs. by destruct (m_side n0).
Qed.

Lemma look_make m cid c n lid sock (polled : bool) cid' lid' : typed m -> ids m !! cid = Some c -> tables m !! c = Some n ->
  m_link_map n !! lid = None ->
  look (m_make c lid sock polled m) cid' lid' =
  if decide ((cid', lid') = (cid, lid)) then (if polled then Open else Waiting) else look m cid' lid'.
Proof.
  intros T I N L.
  pose proof (fun c' l => find_alter m (m_make c lid sock polled m) (with_link lid (fresh m)) cid c n c' l T I N eq_refl eq_refl) as Ef.
  destruct (with_link_keeps lid (fresh m) n) as (_ & _ & El). rewrite El in Ef.
  destruct (decide _) as [[= -> ->]|Hne].
  - rewrite (look_find _ _ _ (fresh m) (Face c lid sock false)).
    + unfold state_of. cbn [f_closing]. rewrite watched_make. destruct polled.
      * rewrite bool_decide_eq_true_2; [done|]. apply elem_of_app. right. by apply list_elem_of_singleton.
      * rewrite bool_decide_eq_false_2; [done|]. rewrite app_nil_r. by apply watched_fresh.
    + rewrite Ef, decide_True by done. apply lookup_insert_eq.
    + apply lookup_insert_eq.
  - assert (find (m_make c lid sock polled m) cid' lid' = find m cid' lid') as E'.
    { rewrite Ef. destruct (decide (cid' = cid)) as [->|]; [|done]. rewrite lookup_insert_ne by congruence.
      unfold find. rewrite I. cbn. by rewrite N. }
    apply look_same; [done|]. intros k' Hk. destruct (find_face m _ _ k' T Hk) as (_ & f' & F' & _).
    pose proof (typed_fresh m k' f' T F'). cbn [m_make faces]. rewrite lookup_insert_ne by done. split; [done|].
    rewrite watched_make, elem_of_app. split; [|by left]. destruct polled; [|by intros [?|?%elem_of_nil]].
    by intros [?|?%list_elem_of_singleton].
Qed.

Lemma side_make m c lid sock polled cid : side_of (m_make c lid sock polled m) cid = side_of m cid.
Proof.
  unfold side_of. cbn [m_make ids tables]. destruct (ids m !! cid) as [c'|]; cbn; [|done].
  destruct (decide (c' = c)) as [->|Hc]; [|by rewrite lookup_alter_ne].
  rewrite lookup_alter_eq. destruct (tables m !! c); cbn [fmap option_fmap option_map]; [|done]. rewrite with_link_side. by destruct (m_side _).
Qed.
End Memory.
Arguments memory O : clear implicits.
