(* ===== verification/Ends.v ===== *)
(** * The processes as ends of links

    Each callback of Connection.v, on the whole state of a process, as steps
    of the automaton of Session.v: what a process does on its own account
    ([link_polled], [listen_polled]) and what it does with a message about a
    link.  In both cases the objects stay typed (Memory.v), so nothing is
    reached through a dangling pointer. *)

From stdpp Require Import base list tactics gmap strings relations.
From Stdlib Require Import ZArith Lia.
From S2P Require Import Prelude Posix Wire SockBuffer Poller Spec Tunnel Connection Behaviour Protocol Links Session Memory.
Import StdioTunnel Heap TunnelConnection ConnectionLink.

(** [m] neither goes wrong nor runs out of fuel, and what it returns
    satisfies [Q]. *)
Definition safely {S A} (m : M S A) (s : S) (Q : A -> S -> Prop) : Prop :=
  match m s with Ret a s' => Q a s' | Throw _ _ => True | _ => False end.

Lemma safely_bind {S A B} (m : M S A) (f : A -> M S B) s Q :
  safely m s (fun a s' => safely (f a) s' Q) -> safely (m ≫= f) s Q.
Proof. unfold safely, mbind, M_bind. by destruct (m s). Qed.
Lemma safely_ret {S A} (a : A) (s : S) (Q : A -> S -> Prop) : Q a s -> safely (mret a) s Q.
Proof. done. Qed.
Lemma safely_at {S A} (m : M S A) s a s' (Q : A -> S -> Prop) : m s = Ret a s' -> Q a s' -> safely m s Q.
Proof. unfold safely. by intros ->. Qed.
Lemma safely_step {S A B} (m : M S A) (f : A -> M S B) s a s' Q :
  m s = Ret a s' -> safely (f a) s' Q -> safely (m ≫= f) s Q.
Proof. intros E Hf. apply safely_bind. by eapply safely_at. Qed.
Lemma safely_returned {S A} (m : M S A) s (Q : A -> S -> Prop) a s' : safely m s Q -> m s = Ret a s' -> Q a s'.
Proof. unfold safely. intros H E. by rewrite E in H. Qed.
Lemma safely_mono {S A} (m : M S A) s (Q Q' : A -> S -> Prop) :
  (forall a s', Q a s' -> Q' a s') -> safely m s Q -> safely m s Q'.
Proof. unfold safely. intros H. destruct (m s); auto. Qed.

(** What the messages [ms] say about one link, given by its ids as the
    receiver reads them. *)
Definition about (cid lid : Z) (ms : list message) : list link_message :=
  omap (fun m => match m with
    | MLink c l m => if decide ((i16 c, i16 l) = (cid, lid)) then Some m else None
    | _ => None
    end) ms.

Lemma about_app cid lid ms ms' : about cid lid (ms ++ ms') = about cid lid ms ++ about cid lid ms'.
Proof. apply omap_app. Qed.
Lemma about_one cid lid c l m : about cid lid [MLink c l m] = if decide ((cid, lid) = (i16 c, i16 l)) then [m] else [].
Proof. unfold about. cbn. destruct (decide _), (decide _); congruence. Qed.

(** How many links the messages [ms] ask for. *)
Definition is_create (m : message) : bool := match m with MLink _ _ LCreate => true | _ => false end.
Definition creates (ms : list message) : Z := zlen (filter (fun m => is_create m = true) ms).

Lemma creates_app ms ms' : creates (ms ++ ms') = creates ms + creates ms'.
Proof. unfold creates. rewrite filter_app, length_app. lia. Qed.
Lemma creates_nonneg ms : 0 <= creates ms.
Proof. unfold creates. lia. Qed.

Lemma creates_none ms : (forall cid lid, LCreate ∉ about cid lid ms) -> creates ms = 0.
Proof.
  intros H. unfold creates. destruct (filter _ ms) as [|m l] eqn:E; [done|exfalso].
  assert (m ∈ filter (fun m => is_create m = true) ms) as Hm by (rewrite E; left).
  apply list_elem_of_filter in Hm as [Hc Hm]. destruct m as [| | | |c l' []]; try done.
  apply (H (i16 c) (i16 l')), list_elem_of_omap. eexists. split; [exact Hm|]. cbn. by rewrite decide_True.
Qed.

(** From one table of connections to another, the listeners have counted on
    by [k] at most, and have new links only under the ids they have counted. *)
Definition grown (k : Z) (h h' : gmap nat TunnelConnection.t) : Prop := forall c n' ls ni',
  h' !! c = Some n' -> m_side n' = ListenSide ls ni' -> exists n ni,
  h !! c = Some n /\ m_side n = ListenSide ls ni /\ ni <= ni' <= ni + k /\
  forall lid, is_Some (m_link_map n' !! lid) ->
    is_Some (m_link_map n !! lid) \/ exists j, ni <= j < ni' /\ lid = i16 j.

Lemma grown_refl h : grown 0 h h.
Proof. intros c n ls ni N Hs. exists n, ni. split_and!; auto with lia. Qed.

Lemma grown_trans k1 k2 h h1 h2 : grown k1 h h1 -> grown k2 h1 h2 -> grown (k1 + k2) h h2.
Proof.
  intros G1 G2 c n2 ls ni2 N2 S2. destruct (G2 c n2 ls ni2 N2 S2) as (n1 & ni1 & N1 & S1 & B1 & L1).
  destruct (G1 c n1 ls ni1 N1 S1) as (n & ni & N & Hs & B & L). exists n, ni. split_and!; [done..|lia|lia|].
  intros lid [[H|(j & Hj & ->)]%L|(j & Hj & ->)]%L1; [by left|right; exists j; split; [lia|done]..].
Qed.

Lemma grown_more k h h' : 0 <= k -> grown 0 h h' -> grown k h h'.
Proof.
  intros Hk G c n' ls ni' N Hs. destruct (G c n' ls ni' N Hs) as (n & ni & ? & ? & ? & ?). exists n, ni. split_and!; auto with lia.
Qed.

(** Tables of which a listener's has lost links, or none has changed. *)
Lemma grown_alter g c h : (forall n, m_side (g n) = m_side n) ->
  (forall n ls ni lid, m_side n = ListenSide ls ni -> h !! c = Some n ->
     is_Some (m_link_map (g n) !! lid) -> is_Some (m_link_map n !! lid)) -> grown 0 h (alter g c h).
Proof.
  intros Hg Hl c' n' ls ni N Hs. destruct (decide (c' = c)) as [->|Hne].
  - rewrite lookup_alter_eq in N. destruct (h !! c) as [n|] eqn:E; [|done]. injection N as <-. rewrite Hg in Hs.
    exists n, ni. split_and!; auto with lia. intros lid H. left. by eapply Hl.
  - rewrite lookup_alter_ne in N by done. exists n', ni. split_and!; auto with lia.
Qed.

(** ** A process and its memory *)

Section Processes.
Context {P : Posix} {R O : Type} `{EqDecision O} `{!Role R O}.
Abbreviation S := (tunnel R O).
Abbreviation packet m := (WriteStream.new_WritePacket (enc_message m)).

Definition watch_list (p : Poller.t (obj O)) : list (obj O * Z) :=
  map (fun e => (Poller.e_polled e, fd (Poller.e_pollfd e))) (Poller.m_polled p).

Definition memory_of (s : S) : memory O :=
  Memory (m_connection_map s) (connections s) (face_of <$> links s) (next_object s) (watch_list (m_poller s)).

(** The identities of the poller's entries have been given out. *)
Definition entries_ok (p : Poller.t (obj O)) : Prop := Forall (fun i => (i < Poller.m_next p)%nat) (ids_of p).
Definition buffers_ok (s : S) : Prop := map_Forall (fun _ k => sb_wf (m_buffer k)) (links s).

Record sound (s : S) : Prop := Sound {
  sound_typed : typed (memory_of s);
  sound_entries : entries_ok (m_poller s);
  sound_buffers : buffers_ok s;
  sound_ready : exists t, ready s t
}.

Definition state_at (s : S) (cid lid : Z) : link_state := look (memory_of s) cid lid.
Definition side_at (s : S) (cid : Z) : end_side := side_of (memory_of s) cid.

(** *** The poller's list *)

Lemma entries_ops p p' : poller_ops p p' -> entries_ok p -> entries_ok p'.
Proof.
  unfold entries_ok. induction 1 as [|p p1 p' [o p0|i p0 Hi|l p0 Hl|a b c p0] _ IH]; [done|intros He; apply IH..].
  - unfold ids_of, Poller.push. cbn [Poller.m_polled Poller.m_next]. rewrite map_app. apply Forall_app. split.
    + eapply Forall_impl; [exact He|]. cbn. lia.
    + repeat constructor.
  - unfold ids_of, Poller.erase in *. cbn [Poller.m_polled Poller.m_next].
    apply Forall_map. apply Forall_map in He. by apply Forall_delete.
  - unfold ids_of in *. cbn [Poller.set_polled Poller.m_polled Poller.m_next]. by rewrite Hl.
  - done.
Qed.

Lemma watch_alter i ev (l : list (Poller.entry (obj O))) :
  map (fun e => (Poller.e_polled e, fd (Poller.e_pollfd e))) (alter (Poller.alter_pollfd (Poller.with_events ev)) i l) =
  map (fun e => (Poller.e_polled e, fd (Poller.e_pollfd e))) l.
Proof. revert i. induction l as [|e l IH]; intros [|i]; [done|done|done|]. cbn. f_equal. apply IH. Qed.

Lemma watch_events o f ev p : watch_list (events_set o f ev p) = watch_list p.
Proof.
  unfold events_set. cbn. destruct (Poller.findPolled o f p) as [i|]; [|done].
  unfold watch_list. cbn [Poller.set_polled Poller.m_polled]. apply watch_alter.
Qed.

Lemma watch_remove o f p : watch_list (final (Poller.removePolled o f p) p) = remove_first (o, f) (watch_list p).
Proof.
  unfold watch_list, Poller.removePolled, Poller.findPolled. cbn [modify final].
  transitivity (map (fun e => (Poller.e_polled e, fd (Poller.e_pollfd e)))
    (match Poller.find_index o f (Poller.m_polled p) with
     | Some i => delete i (Poller.m_polled p) | None => Poller.m_polled p end)).
  { by destruct (Poller.find_index _ _ _). }
  induction (Poller.m_polled p) as [|e l IH]; [done|]. cbn [Poller.find_index map remove_first].
  unfold Poller.watches. destruct (bool_decide_reflect (Poller.e_polled e = o)) as [<-|Ho]; cbn [andb].
  - destruct (Z.eqb_spec (fd (Poller.e_pollfd e)) f) as [<-|Hf]; [by rewrite decide_True|].
    rewrite decide_False by congruence. rewrite <- IH. by destruct (Poller.find_index _ _ l).
  - rewrite decide_False by congruence. rewrite <- IH. by destruct (Poller.find_index _ _ l).
Qed.

Lemma watch_register o f ev p : entries_ok p -> watch_list (register o f ev p) = watch_list p ++ [(o, f)].
Proof.
  unfold entries_ok, watch_list, register, Poller.update_entry, Poller.push, ids_of.
  cbn [Poller.set_polled Poller.m_polled]. intros He. rewrite map_map, map_app. cbn [map Poller.e_id].
  rewrite Nat.eqb_refl. cbn. f_equal. apply map_ext_in. intros e Hin.
  assert (Poller.e_id e < Poller.m_next p)%nat.
  { rewrite Forall_map, Forall_forall in He. apply He. by apply list_elem_of_In. }
  destruct (Nat.eqb_spec (Poller.e_id e) (Poller.m_next p)); [lia|done].
Qed.
(** *** What the changes of Links.v do to the memory *)

Lemma lookup_faces (s : S) k link : links s !! k = Some link -> faces (memory_of s) !! k = Some (face_of link).
Proof. intros E. cbn. by rewrite lookup_fmap, E. Qed.
Lemma lookup_faces_inv (s : S) k f : faces (memory_of s) !! k = Some f ->
  exists link, links s !! k = Some link /\ f = face_of link.
Proof. cbn. rewrite lookup_fmap. intros (link & -> & ->)%fmap_Some. eauto. Qed.

(** A link that keeps its pointers. *)
Lemma faces_same (h : gmap nat ConnectionLink.t) k link link' : h !! k = Some link -> face_of link' = face_of link ->
  face_of <$> <[k := link']> h = face_of <$> h.
Proof. intros E F. rewrite fmap_insert, F. apply insert_id. by rewrite lookup_fmap, E. Qed.

Lemma memory_said t m s : memory_of (said t m s) = memory_of s.
Proof. unfold memory_of, said. cbn [m_poller update poller]. by rewrite watch_events. Qed.
Lemma memory_delivered k link bs s : links s !! k = Some link -> memory_of (delivered k link bs s) = memory_of s.
Proof.
  intros E. unfold memory_of, delivered. cbn -[events_set]. rewrite watch_events. f_equal. by eapply faces_same.
Qed.
Lemma memory_acked k link ack s : links s !! k = Some link -> memory_of (acked k link ack s) = memory_of s.
Proof.
  intros E. unfold memory_of, acked. destruct (m_closing link); cbn -[events_set]; rewrite ?watch_events; f_equal; by eapply faces_same.
Qed.
Lemma memory_closed k link s : memory_of (closed k link s) = m_close k (face_of link) (memory_of s).
Proof. unfold memory_of, closed, m_close. cbn -[final]. by rewrite watch_remove, fmap_insert. Qed.
Lemma memory_erased k link s :
  memory_of (erased (m_connection link) (m_id link) k s) = m_forget k (face_of link) (memory_of s).
Proof. unfold memory_of, erased, m_forget. cbn. by rewrite fmap_delete. Qed.
Lemma memory_register k sock ev s : entries_ok (m_poller s) ->
  memory_of (update poller (register (PLink k) sock ev (m_poller s)) s) = m_watch k sock (memory_of s).
Proof. intros He. unfold memory_of, m_watch. cbn -[register]. by rewrite watch_register. Qed.

Lemma alter_agree (g h : TunnelConnection.t -> TunnelConnection.t) c n (m : gmap nat TunnelConnection.t) :
  m !! c = Some n -> g n = h n -> alter g c m = alter h c m.
Proof.
  intros E Hg. apply map_eq. intros j. destruct (decide (j = c)) as [->|Hj].
  - by rewrite !lookup_alter_eq, E; cbn; rewrite Hg.
  - by rewrite !lookup_alter_ne.
Qed.

Lemma memory_opened c n lid sock s : entries_ok (m_poller s) -> connections s !! c = Some n -> m_side n = ConnectSide ->
  i16 lid = lid -> memory_of (opened c n lid sock s) = m_make c lid sock true (memory_of s).
Proof.
  intros He N Hs Hl. unfold memory_of, m_make, opened. cbn -[register]. rewrite watch_register, fmap_insert by done.
  unfold new_ConnectionLink, face_of. cbn. rewrite Hl. f_equal. eapply alter_agree; [exact N|].
  unfold with_link, bump. by rewrite Hs.
Qed.

Lemma memory_accepted c n ls ni sock s : connections s !! c = Some n -> m_side n = ListenSide ls ni ->
  memory_of (accepted c n ls ni sock s) = m_make c (i16 ni) sock false (memory_of s).
Proof.
  intros N Hs. unfold memory_of, m_make, accepted. cbn. rewrite fmap_insert, app_nil_r. f_equal.
  apply map_eq. intros j. destruct (decide (j = c)) as [->|Hj]; [|by rewrite !lookup_alter_ne].
  rewrite !lookup_alter_eq, N. cbn [fmap option_fmap option_map]. unfold with_link, bump. by rewrite Hs.
Qed.

Lemma buffers_insert (h : gmap nat ConnectionLink.t) k link :
  map_Forall (fun _ k => sb_wf (m_buffer k)) h -> sb_wf (m_buffer link) ->
  map_Forall (fun _ k => sb_wf (m_buffer k)) (<[k := link]> h).
Proof. intros. by apply map_Forall_insert_2. Qed.
(** ** What a process says *)

Context {Rep : Reporter (R:=R) (O:=O)}.

Definition sayable (m : message) : Prop :=
  match m with
  | MLink _ _ _ => message_ok m
  | MError text => reports = true /\ zlen text < 4294967200
  | _ => False
  end.

(** Of each entry of the poller its identity, what is called and for which
    descriptor. *)
Definition marks (p : Poller.t (obj O)) : list (nat * obj O * Z) :=
  map (fun e => (Poller.e_id e, Poller.e_polled e, fd (Poller.e_pollfd e))) (Poller.m_polled p).

(** The entries of the process itself: some may go, none is added. *)
Definition is_own (x : nat * obj O * Z) : Prop := match x.1.2 with POwn _ => True | _ => False end.
#[export] Instance is_own_dec x : Decision (is_own x).
Proof. unfold is_own. destruct x.1.2; apply _. Defined.

Definition own_marks (p : Poller.t (obj O)) : list (nat * obj O * Z) := filter is_own (marks p).
Definition own_kept (p p' : Poller.t (obj O)) : Prop := own_marks p' `sublist_of` own_marks p.

#[export] Instance own_kept_preorder : PreOrder own_kept.
Proof. split; [intros p; unfold own_kept; reflexivity|]. intros p1 p2 p3 H1 H2. unfold own_kept in *. by etrans. Qed.

Lemma own_refl p : own_kept p p.
Proof. unfold own_kept. reflexivity. Qed.
Lemma elem_own_marks i o f p : ((i, o, f) ∈ own_marks p) <-> (i, o, f) ∈ marks p /\ is_own (i, o, f).
Proof. unfold own_marks. rewrite list_elem_of_filter. tauto. Qed.

Lemma own_same p p' : marks p' = marks p -> own_kept p p'.
Proof. unfold own_kept, own_marks. intros ->. reflexivity. Qed.

Lemma marks_events o f ev p : marks (events_set o f ev p) = marks p.
Proof.
  unfold events_set, marks. cbn. destruct (Poller.findPolled o f p) as [j|]; [|done].
  cbn [Poller.set_polled Poller.m_polled]. generalize (Poller.m_polled p) as l. intros l.
  revert j. induction l as [|e l IH]; intros [|k]; [done|done|done|]. cbn. f_equal. apply IH.
Qed.
Lemma own_events o f ev p : own_kept p (events_set o f ev p).
Proof. apply own_same, marks_events. Qed.

Lemma own_sublist p p' : marks p' `sublist_of` marks p -> own_kept p p'.
Proof.
  unfold own_kept, own_marks. generalize (marks p') as k, (marks p) as l. intros k l.
  induction 1 as [|x k l _ IH|x k l _ IH]; [done| |]; rewrite !filter_cons; destruct (decide (is_own x)); try done; by constructor.
Qed.
Lemma own_remove o f p : own_kept p (final (Poller.removePolled o f p) p).
Proof.
  apply own_sublist. unfold marks, Poller.removePolled. cbn. destruct (Poller.findPolled o f p) as [j|]; [|done].
  unfold Poller.erase. cbn [Poller.m_polled]. generalize (Poller.m_polled p) as l. intros l.
  revert j. induction l as [|e l IH]; intros [|j]; [done|done|by apply sublist_cons|]. cbn. constructor. apply IH.
Qed.
Lemma marks_register o f ev p : entries_ok p -> marks (register o f ev p) = marks p ++ [(Poller.m_next p, o, f)].
Proof.
  unfold entries_ok, marks, register, Poller.update_entry, Poller.push, ids_of.
  cbn [Poller.set_polled Poller.m_polled]. intros He. rewrite map_map, map_app. cbn [map Poller.e_id].
  rewrite Nat.eqb_refl. cbn. f_equal. apply map_ext_in. intros e W%list_elem_of_In.
  rewrite Forall_map, Forall_forall in He. specialize (He e W). cbn in He.
  destruct (Nat.eqb_spec (Poller.e_id e) (Poller.m_next p)); [lia|done].
Qed.
Lemma own_register o f ev p : (forall x, o <> POwn x) -> entries_ok p -> own_kept p (register o f ev p).
Proof.
  intros Hn He. unfold own_kept, own_marks. rewrite marks_register, filter_app by done.
  rewrite (filter_cons_False is_own (_, o, _)) by (destruct o as [x| |]; [by destruct (Hn x)|by intros []..]).
  by rewrite app_nil_r.
Qed.

(** From [s] to [s'] the process has said [ms]; it is as sound as it was,
    its listeners have counted on by the links they have asked for, and it
    has read nothing. *)
Record effect (s s' : S) (ms : list message) : Prop := Effect {
  effect_sound : sound s';
  effect_ready t : ready s t -> ready s' t;
  effect_packets : packets s' = packets s ++ map (fun m => packet m) ms;
  effect_role : role s' = role s;
  effect_sides cid : side_at s' cid = side_at s cid;
  effect_known cid : is_Some (m_connection_map s' !! cid) <-> is_Some (m_connection_map s !! cid);
  effect_sayable : Forall sayable ms;
  effect_grown : grown (creates ms) (connections s) (connections s');
  effect_reader : m_read_stream s' = m_read_stream s;
  effect_own : own_kept (m_poller s) (m_poller s')
}.

Lemma effect_refl s : sound s -> effect s s [].
Proof. intros. split; rewrite ?app_nil_r; try done; apply grown_refl. Qed.

Lemma effect_trans s s1 s2 ms1 ms2 : effect s s1 ms1 -> effect s1 s2 ms2 -> effect s s2 (ms1 ++ ms2).
Proof.
  intros [So1 Re1 Pa1 Ro1 Si1 Kn1 Sa1 Gr1 Rd1 Ow1] [So2 Re2 Pa2 Ro2 Si2 Kn2 Sa2 Gr2 Rd2 Ow2]. split; try done.
  - auto.
  - by rewrite Pa2, Pa1, map_app, app_assoc.
  - by rewrite Ro2.
  - intros cid. by rewrite Si2.
  - intros cid. by rewrite Kn2.
  - by apply Forall_app.
  - rewrite creates_app. by eapply grown_trans.
  - by rewrite Rd2.
  - by etrans.
Qed.

(** A change that does not concern the objects. *)
Lemma effect_quiet s s' : sound s -> memory_of s' = memory_of s -> packets s' = packets s -> role s' = role s ->
  m_read_stream s' = m_read_stream s -> own_kept (m_poller s) (m_poller s') -> (forall t, ready s t -> ready s' t) -> entries_ok (m_poller s') -> buffers_ok s' -> effect s s' [].
Proof.
  intros [Ty En Bu [t Re]] M Pa Ro Rd Ow Hr He Hb. split; try done.
  - split; [by rewrite M|done|done|eauto].
  - by rewrite Pa, app_nil_r.
  - intros cid. unfold side_at. by rewrite M.
  - intros cid. change (m_connection_map s') with (ids (memory_of s')). by rewrite M.
  - change (connections s') with (tables (memory_of s')). rewrite M. apply grown_refl.
Qed.

Lemma entries_events o f ev p : entries_ok p -> entries_ok (events_set o f ev p).
Proof. apply entries_ops. apply (setEvents_ops o f ev p). Qed.
Lemma entries_register o f ev p : entries_ok p -> entries_ok (register o f ev p).
Proof.
  apply entries_ops. etrans; [apply (push_ops o p)|]. apply (update_entry_ops (Poller.m_next p) _ (Poller.push o p)).
Qed.

Lemma effect_said s t m : sound s -> ready s t -> sayable m -> effect s (said t m s) [m].
Proof.
  intros [Ty En Bu Re] Hr Hm. split; try done.
  - split; [by rewrite memory_said|exact (entries_events _ _ _ _ En)|exact Bu|]. exists t. by apply ready_said.
  - by intros t' [].
  - by repeat constructor.
  - apply grown_more, grown_refl. apply creates_nonneg.
  - apply own_events.
Qed.

Lemma effect_system s o : sound s -> effect s (update system_of o s) [].
Proof. intros So. apply effect_quiet; try done; apply So. Qed.
Lemma sound_unread s q : sound s -> sound (unread q s).
Proof. by intros []. Qed.

Lemma effect_delivered s k link bs : sound s -> links s !! k = Some link -> effect s (delivered k link bs s) [].
Proof.
  intros So E. pose proof So as [Ty En Bu Re]. apply effect_quiet; try done.
  - by apply memory_delivered.
  - apply own_events.
  - exact (entries_events _ _ _ _ En).
  - apply buffers_insert; [done|]. apply (Bu k link E).
Qed.
Lemma effect_acked s k link ack : sound s -> links s !! k = Some link -> effect s (acked k link ack s) [].
Proof.
  intros So E. pose proof So as [Ty En Bu Re]. pose proof (buffers_insert _ k (set_acknowledged ack link) Bu (Bu k link E)).
  apply effect_quiet; try done.
  - by apply memory_acked.
  - unfold packets, acked. by destruct (m_closing link).
  - unfold acked. by destruct (m_closing link).
  - unfold acked. by destruct (m_closing link).
  - unfold acked. destruct (m_closing link); [apply own_refl|apply own_events].
  - intros t. unfold ready, acked. by destruct (m_closing link).
  - unfold acked. destruct (m_closing link); [done|]. exact (entries_events _ _ _ _ En).
  - unfold acked, buffers_ok. by destruct (m_closing link).
Qed.
Lemma effect_closed s k link : sound s -> links s !! k = Some link -> effect s (closed k link s) [].
Proof.
  intros [Ty En Bu [t Re]] E. pose proof (lookup_faces s k link E) as F. split; try done.
  - split; [rewrite memory_closed; by apply typed_close| |by apply buffers_insert, (Bu k link E)|by exists t].
    eapply entries_ops; [apply removePolled_ops|exact En].
  - by rewrite app_nil_r.
  - apply grown_refl.
  - apply own_remove.
Qed.

Lemma effect_erased s k link : sound s -> links s !! k = Some link -> k ∉ watched_links (memory_of s) ->
  effect s (erased (m_connection link) (m_id link) k s) [].
Proof.
  intros [Ty En Bu [t Re]] E Hw. pose proof (lookup_faces s k link E) as F. split; try done.
  - split; [rewrite memory_erased; by apply typed_forget|done|by apply map_Forall_delete|by exists t].
  - by rewrite app_nil_r.
  - intros cid. by apply (side_alter (memory_of s) _ (without (m_id link)) (m_connection link)).
  - apply grown_alter; [done|]. intros n ls ni lid _ _ [k' L]. cbn in L. apply lookup_delete_Some in L as [_ L]. eauto.
Qed.

Lemma effect_register s k link ev : sound s -> links s !! k = Some link -> m_closing link = false ->
  k ∉ watched_links (memory_of s) ->
  effect s (update poller (register (PLink k) (m_socket link) ev (m_poller s)) s) [].
Proof.
  intros [Ty En Bu [t Re]] E Ho Hw. pose proof (lookup_faces s k link E) as F. split; try done.
  - split; [|by apply entries_register|done|by exists t].
    rewrite memory_register by done. by apply (typed_watch (memory_of s) k (face_of link)).
  - by rewrite app_nil_r.
  - apply grown_refl.
  - by apply own_register.
Qed.

Lemma effect_opened s c n lid sock : sound s -> connections s !! c = Some n -> m_side n = ConnectSide ->
  m_link_map n !! lid = None -> i16 lid = lid -> effect s (opened c n lid sock s) [].
Proof.
  intros [Ty En Bu [t Re]] N Hs Hf Hl. split; try done.
  - split; [|by apply entries_register|by apply buffers_insert; [|apply sb_wf_init]|by exists t].
    rewrite memory_opened by done. by eapply typed_make.
  - by rewrite app_nil_r.
  - intros cid. unfold side_at. rewrite memory_opened by done. apply side_make.
  - apply grown_alter; [done|]. intros n' ls ni ? Hs' N'. rewrite N in N'. injection N' as <-. by rewrite Hs in Hs'.
  - by apply own_register.
Qed.

(** A link that is made and asked for. *)
Lemma effect_accepted s c n ls ni sock t : sound s -> connections s !! c = Some n -> m_side n = ListenSide ls ni ->
  m_link_map n !! i16 ni = None -> ready s t ->
  effect s (said t (MLink (TunnelConnection.m_id n) ni LCreate) (accepted c n ls ni sock s))
    [MLink (TunnelConnection.m_id n) ni LCreate].
Proof.
  intros [Ty En Bu Re] N Hs Hf Hr. set (s1 := accepted c n ls ni sock s).
  assert (sound s1) as So1.
  { split; [|done|by apply buffers_insert; [|apply sb_wf_init]|by exists t].
    unfold s1. rewrite (memory_accepted c n) by done. eapply typed_make; [done|exact N|done|apply i16_idemp|]. by rewrite Hs. }
  pose proof (effect_said s1 t (MLink (TunnelConnection.m_id n) ni LCreate) So1 Hr ltac:(done)) as [So2 Re2 Pa2 Ro2 Si2 Kn2 Sa2 _ _ Ow2].
  split; try done.
  - intros cid. rewrite Si2. unfold side_at, s1. rewrite (memory_accepted c n) by done. apply side_make.
  - intros c' n' ls' ni' N' Hs'. unfold said, s1, accepted in N'. cbn -[events_set alter] in N'.
    destruct (decide (c' = c)) as [->|Hne].
    + rewrite !lookup_alter_eq, N in N'. injection N' as <-. injection Hs' as <- <-. exists n, ni. change (creates _) with 1. split_and!; try done; try lia.
      intros lid L. cbn in L. destruct (decide (lid = i16 ni)) as [->|Hl]; [right; exists ni; split; [lia|done]|].
      left. by rewrite lookup_insert_ne in L.
    + rewrite !lookup_alter_ne in N' by done. exists n', ni'. change (creates _) with 1. split_and!; auto with lia.
Qed.

(** ** What becomes of a link's state *)

Definition here (s : S) (cid lid : Z) (k : nat) : Prop := find (memory_of s) cid lid = Some k.

(** All that is known of a link that is there. *)
Lemma here_linked s cid lid k : sound s -> here s cid lid k ->
  i16 cid = cid /\ i16 lid = lid /\ exists n link, linked s cid lid (m_connection link) k n link /\
    m_id link = lid /\ TunnelConnection.m_id n = cid.
Proof.
  intros [Ty _ _ _] E. destruct (find_face _ _ _ _ Ty E) as (Hl & f & F & Hi & n & N & I & Hn & L).
  destruct (lookup_faces_inv s k f F) as (link & K & ->). cbn in *.
  destruct (typed_tables _ Ty _ _ N) as (_ & Hc & _). rewrite Hn in Hc.
  split_and!; [done..|]. exists n, link. split_and!; [|done..]. split; cbn in *; rewrite ?Hc, ?Hl; done.
Qed.

Lemma state_here s cid lid k link : here s cid lid k -> links s !! k = Some link ->
  state_at s cid lid = state_of (face_of link) (bool_decide (k ∈ watched_links (memory_of s))).
Proof. intros E K. by apply look_find; [|apply lookup_faces]. Qed.

Lemma state_absent s cid lid c n : m_connection_map s !! cid = Some c -> connections s !! c = Some n ->
  state_at s cid lid = Absent -> sound s -> m_link_map n !! lid = None.
Proof.
  intros I N E [Ty _ _ _]. destruct (m_link_map n !! lid) as [k|] eqn:L; [|done].
  destruct (typed_table _ Ty c n lid k N L) as (_ & f & F & _). unfold state_at in E.
  rewrite (look_find _ _ _ k f (find_some (memory_of s) cid lid c n k I N L) F) in E.
  unfold state_of in E. repeat case_match; done.
Qed.

Lemma state_present s cid lid : state_at s cid lid <> Absent -> exists k, here s cid lid k.
Proof. unfold state_at, look, here. destruct (find _ _ _); [eauto|done]. Qed.

Lemma watched_open s k : sound s -> k ∈ watched_links (memory_of s) ->
  exists link, links s !! k = Some link /\ m_closing link = false.
Proof.
  intros [Ty _ _ _] [sock W]%elem_watched_links. destruct (typed_watched _ Ty _ _ W) as (f & F & Ho & _).
  apply lookup_faces_inv in F as (link & K & ->). eauto.
Qed.

(** A state that changes for one link only. *)
Definition moved (s s' : S) (cid lid : Z) (x : link_state) : Prop := forall cid' lid',
  state_at s' cid' lid' = if decide ((cid', lid') = (cid, lid)) then x else state_at s cid' lid'.

Lemma moved_closed s cid lid k link : sound s -> here s cid lid k -> links s !! k = Some link ->
  moved s (closed k link s) cid lid Closing.
Proof.
  intros [Ty _ _ _] E K cid' lid'. unfold state_at. rewrite memory_closed. apply look_close; [done..|by apply lookup_faces].
Qed.
Lemma moved_erased s cid lid k link : sound s -> here s cid lid k -> links s !! k = Some link ->
  moved s (erased (m_connection link) (m_id link) k s) cid lid Absent.
Proof.
  intros [Ty _ _ _] E K cid' lid'. unfold state_at. rewrite memory_erased. apply look_forget; [done|by apply lookup_faces|done].
Qed.
Lemma moved_register s cid lid k link ev : sound s -> here s cid lid k -> links s !! k = Some link ->
  m_closing link = false ->
  moved s (update poller (register (PLink k) (m_socket link) ev (m_poller s)) s) cid lid Open.
Proof.
  intros [Ty En _ _] E K Ho cid' lid'. unfold state_at. rewrite memory_register by done.
  by apply (look_watch (memory_of s) k (face_of link)); [|apply lookup_faces|..].
Qed.
Lemma moved_opened s cid lid c n sock : sound s -> m_connection_map s !! cid = Some c -> connections s !! c = Some n ->
  m_side n = ConnectSide -> m_link_map n !! lid = None -> i16 lid = lid -> moved s (opened c n lid sock s) cid lid Open.
Proof.
  intros [Ty En _ _] I N Hs Hf Hl cid' lid'. unfold state_at. rewrite memory_opened by done. by eapply look_make.
Qed.
Lemma moved_accepted s cid c n ls ni sock : sound s -> m_connection_map s !! cid = Some c -> connections s !! c = Some n ->
  m_side n = ListenSide ls ni -> m_link_map n !! i16 ni = None ->
  moved s (accepted c n ls ni sock s) cid (i16 ni) Waiting.
Proof.
  intros [Ty En _ _] I N Hs Hf cid' lid'. unfold state_at. rewrite (memory_accepted c n) by done. by eapply look_make.
Qed.
(** ** What a process does on its own account *)

Definition acts (s s' : S) (ms : list message) : Prop := effect s s' ms /\
  forall cid lid, end_steps (side_at s cid) (state_at s cid lid) (about cid lid ms) (state_at s' cid lid).

Lemma acts_trans s s1 s2 ms1 ms2 : acts s s1 ms1 -> acts s1 s2 ms2 -> acts s s2 (ms1 ++ ms2).
Proof.
  intros [E1 H1] [E2 H2]. split; [by eapply effect_trans|]. intros cid lid. rewrite about_app.
  eapply end_steps_app; [apply H1|]. rewrite <- (effect_sides _ _ _ E1 cid). apply H2.
Qed.

(** Nothing is said and no link changes its state. *)
Lemma acts_quiet s s' : effect s s' [] -> memory_of s' = memory_of s -> acts s s' [].
Proof. intros E M. split; [done|]. intros cid lid. unfold state_at. rewrite M. constructor. Qed.

(** A message about one link, which changes that one's state. *)
Lemma acts_once s s' cid lid m x : effect s s' [MLink cid lid m] -> i16 cid = cid -> moved s s' cid (i16 lid) x ->
  end_step (side_at s cid) (state_at s cid (i16 lid)) None [m] x -> acts s s' [MLink cid lid m].
Proof.
  intros E Hc Hm Hs. split; [done|]. intros cid' lid'. rewrite Hm, about_one, Hc.
  destruct (decide _) as [[= -> ->]|]; [by apply end_steps_one|constructor].
Qed.

Lemma moved_same s s' cid lid : memory_of s' = memory_of s -> moved s s' cid lid (state_at s cid lid).
Proof. intros M cid' lid'. unfold state_at. rewrite M. by destruct (decide _) as [[= -> ->]|]. Qed.

(** A link that is polled. *)
Lemma polled_link s k : sound s -> k ∈ watched_links (memory_of s) -> exists cid lid n link,
  here s cid lid k /\ linked s cid lid (m_connection link) k n link /\ m_closing link = false /\
  i16 cid = cid /\ i16 lid = lid /\ m_id link = lid /\ TunnelConnection.m_id n = cid /\ state_at s cid lid = Open.
Proof.
  intros So W. destruct (watched_open s k So W) as (link & K & Ho).
  destruct (face_find _ k _ (sound_typed s So) (lookup_faces s k link K)) as (n & N & I & E).
  change (f_id (face_of link)) with (m_id link) in E.
  destruct (here_linked s _ _ k So E) as (Hc & Hl & n' & link' & L & Hid & Hn).
  pose proof (linked_link _ _ _ _ _ _ _ L) as K'. rewrite K in K'. injection K' as <-.
  exists (TunnelConnection.m_id n), (m_id link), n', link. split_and!; try done.
  rewrite (state_here s _ _ k link E K). unfold state_of. cbn. by rewrite Ho, bool_decide_eq_true_2.
Qed.

Lemma acts_say s k link n t m : sound s -> k ∈ watched_links (memory_of s) -> links s !! k = Some link ->
  connections s !! m_connection link = Some n -> ready s t -> is_data m = true ->
  message_ok (MLink (TunnelConnection.m_id n) (m_id link) m) ->
  acts s (said t (MLink (TunnelConnection.m_id n) (m_id link) m) s) [MLink (TunnelConnection.m_id n) (m_id link) m].
Proof.
  intros So W K N Hr Hd Hok. destruct (polled_link s k So W) as (cid & lid & n' & link' & E & L & Ho & Hc & Hl & Hid & Hn & Hs).
  destruct L as [_ N' _ K']. rewrite K in K'. injection K' as <-. rewrite N in N'. injection N' as <-. eapply acts_once; [by apply effect_said|by rewrite Hn|by apply moved_same, memory_said|].
  rewrite Hn, Hid, Hl, Hs. by apply step_send.
Qed.

Lemma closeLink_acts s k link t : sound s -> k ∈ watched_links (memory_of s) -> links s !! k = Some link -> ready s t ->
  exists s' ms, closeLink (m_connection link) k s = Ret tt s' /\ acts s s' ms /\ creates ms = 0.
Proof.
  intros So W K Hr. destruct (polled_link s k So W) as (cid & lid & n & link' & E & L & Ho & Hc & Hl & Hid & Hn & Hs).
  destruct L as [_ N _ K']. rewrite K in K'. injection K' as <-. eexists _, [_].
  rewrite (closeLink_at _ _ _ _ t s N K Hr), Ho. split; [reflexivity|].
  pose proof (effect_closed s k link So K) as Ef. apply and_comm. split; [by instantiate (1 := MLink _ _ LClose)|].
  eapply acts_once.
  - change [?m] with ([] ++ [m]). eapply effect_trans; [exact Ef|].
    apply effect_said; [apply Ef|by apply (effect_ready _ _ _ Ef)|done].
  - by rewrite Hn.
  - rewrite Hn, Hid, Hl. intros cid' lid'. rewrite <- (moved_closed s _ _ k link So E K cid' lid').
    unfold state_at. by rewrite memory_said.
  - rewrite Hn, Hid, Hl, Hs. apply step_close.
Qed.
(** *** [ConnectionLink::polled] *)

Section Polling.
Context (T : traffic P) `{!PosixLaws T}.

(** What the three parts of the callback leave: something may have been
    said, no link asked for, and unless the link has been closed the pointers
    are as before. *)
Definition part (s : S) (kept : bool) (s' : S) : Prop :=
  exists ms, acts s s' ms /\ creates ms = 0 /\ (kept = true -> memory_of s' = memory_of s).

Lemma part_quiet s s' kept : effect s s' [] -> memory_of s' = memory_of s -> part s kept s'.
Proof. intros E M. exists []. split_and!; [by apply acts_quiet|done..]. Qed.

Lemma part_trans s s1 s2 kept : part s true s1 -> part s1 kept s2 -> part s kept s2.
Proof.
  intros (ms1 & A1 & C1 & M1) (ms2 & A2 & C2 & M2). exists (ms1 ++ ms2). split_and!; [by eapply acts_trans|rewrite creates_app; lia|].
  intros Hk. rewrite M2 by done. by apply M1.
Qed.

Lemma part_sound s kept s' : part s kept s' -> sound s'.
Proof. by intros (ms & [E _] & _); apply E. Qed.

Lemma same_face s s' l k : memory_of s' = memory_of s -> links s !! l = Some k ->
  exists k', links s' !! l = Some k' /\ face_of k' = face_of k.
Proof.
  intros M K. pose proof (lookup_faces s l k K) as F. rewrite <- M in F.
  apply lookup_faces_inv in F as (k' & K' & F'). eauto.
Qed.

Lemma close_part s l k : sound s -> l ∈ watched_links (memory_of s) -> links s !! l = Some k ->
  safely (closeLink (m_connection k) l) s (fun _ s' => part s false s').
Proof.
  intros So W K. destruct (sound_ready s So) as [t Hr]. destruct (closeLink_acts s l k t So W K Hr) as (s' & ms & E & A & C).
  apply (safely_at _ _ _ _ _ E). by exists ms.
Qed.

Lemma acked_part s l k ack kept : sound s -> links s !! l = Some k ->
  safely (setAcknowledged l ack) s (fun _ s' => part s kept s').
Proof.
  intros So K. apply (safely_at _ _ _ _ _ (setAcknowledged_at l k ack s K)).
  apply part_quiet; [by apply effect_acked|by apply memory_acked].
Qed.

(** What has been read is sent. *)
Lemma send_part s l k n bs : sound s -> l ∈ watched_links (memory_of s) -> links s !! l = Some k ->
  connections s !! m_connection k = Some n -> 0 < zlen bs <= BUFFER_SIZE ->
  safely (sendData (m_connection k) l bs) s (fun _ s' => part s true s').
Proof.
  intros So W K N Hbs. destruct (sound_ready s So) as [t Hr]. apply (safely_at _ _ _ _ _ (sendData_at _ _ _ n k t s N K Hr)).
  exists [MLink (TunnelConnection.m_id n) (m_id k) (if acks n then LSendForAck bs else LSend bs)].
  split_and!; [|by destruct (acks n)|by intros _; apply memory_said]. by apply (acts_say s l k n t); try done; destruct (acks n).
Qed.

(** What waits is written. *)
Lemma write_part s l k : sound s -> links s !! l = Some k ->
  safely (zoom (lens_pair (buffer_of l) system_of) (SockBuffer.writeData (m_socket k))) s (fun _ s' => part s true s').
Proof.
  intros So K. unfold safely, zoom. cbn [view lens_pair buffer_of system_of]. rewrite K. cbn [fmap option_fmap option_map default from_option].
  pose proof (writeData_effect T (m_socket k) (m_buffer k) (system s) (sound_buffers s So l k K)) as We.
  destruct (SockBuffer.writeData _ _) as [r [b o]|e [b o]| |]; [|done..]. destruct We as (Hb & _).
  cbn [update lens_pair buffer_of system_of link_heap links fst snd].
  assert (face_of <$> alter (set_buffer b) l (links s) = face_of <$> links s) as Ef.
  { rewrite (alter_insert_at l k _ _ K). exact (faces_same (links s) l k (set_buffer b k) K eq_refl). }
  apply part_quiet.
  - apply effect_quiet; try done.
    + unfold memory_of. cbn. by rewrite Ef.
    + apply So.
    + unfold buffers_ok. cbn. rewrite (alter_insert_at l k _ _ K). apply buffers_insert; [apply So|done].
  - unfold memory_of. cbn. by rewrite Ef.
Qed.

Lemma events_part s o f ev : sound s ->
  safely (zoom poller (Poller.setEvents o f ev)) s (fun _ s' => part s true s').
Proof.
  intros So. apply (safely_at _ _ tt (update poller (events_set o f ev (m_poller s)) s)); [done|].
  assert (memory_of (update poller (events_set o f ev (m_poller s)) s) = memory_of s) as M.
  { unfold memory_of. cbn -[events_set]. by rewrite watch_events. }
  apply part_quiet; [|done]. apply effect_quiet; try done; [apply own_events| |apply So].
  exact (entries_events _ _ _ _ (sound_entries s So)).
Qed.
(** One part after another. *)
Lemma part_bind {A B} (m : M S A) (f : A -> M S B) s kept :
  safely m s (fun _ s1 => part s true s1) ->
  (forall a s1, part s true s1 -> sound s1 -> safely (f a) s1 (fun _ s2 => part s1 kept s2)) ->
  safely (m ≫= f) s (fun _ s2 => part s kept s2).
Proof.
  intros Hm Hf. apply safely_bind. eapply safely_mono; [|exact Hm]. intros a s1 P1.
  eapply safely_mono; [|apply (Hf a s1 P1 (part_sound _ _ _ P1))]. intros b s2 P2. exact (part_trans _ _ _ _ P1 P2).
Qed.

Lemma part_memory s s' : part s true s' -> memory_of s' = memory_of s.
Proof. intros (ms & _ & _ & M). by apply M. Qed.

Lemma part_same s s' l k : part s true s' -> links s !! l = Some k ->
  exists k', links s' !! l = Some k' /\ m_connection k' = m_connection k /\ m_socket k' = m_socket k.
Proof.
  intros M%part_memory K. destruct (same_face s s' l k M K) as (k' & K' & [=]). eauto.
Qed.

(** A part that is done or not. *)
Lemma when_part s b kept (m : M S unit) : sound s ->
  safely m s (fun _ s' => part s kept s') -> safely (when b m) s (fun _ s' => part s kept s').
Proof.
  intros So Hm. destruct b; [done|]. apply safely_ret. by apply part_quiet; [apply effect_refl|].
Qed.
(** The socket is readable: what it has is sent, or the link closed. *)
Lemma read_part s l k : sound s -> l ∈ watched_links (memory_of s) -> links s !! l = Some k ->
  safely (r ← syscall system_of (sys_read (m_socket k) BUFFER_SIZE);
          let buffer := match r with SysOk bs => bs | SysErr _ => [] end in
          if zlen buffer <=? 0 then closeLink (m_connection k) l;; mret true
          else sendData (m_connection k) l buffer;;
               n ← connection_of (m_connection k);
               when (acks n) (setAcknowledged l false);;
               mret false) s (fun closed s' => part s (negb closed) s').
Proof.
  intros So W K. destruct (sys_read (m_socket k) BUFFER_SIZE (system s)) as [r o] eqn:Er.
  apply (safely_step _ _ _ _ _ _ (syscall_step system_of _ _ _ s Er)).
  set (s1 := update system_of o s). set (buffer := match r with SysOk bs => bs | SysErr _ => [] end).
  assert (part s true s1) as P1 by (apply part_quiet; [by apply effect_system|done]).
  pose proof (part_sound _ _ _ P1) as So1. cbv zeta. destruct (Z.leb_spec (zlen buffer) 0) as [_|Hpos].
  - apply safely_bind. eapply safely_mono; [|exact (close_part s1 l k So1 W K)].
    intros ? s2 P2. apply safely_ret. by eapply part_trans.
  - assert (zlen buffer <= BUFFER_SIZE) as Hb.
    { unfold buffer in *. destruct r as [bs|]; [|by cbn]. destruct (read_ok (T:=T) _ _ _ _ _ Er). unfold BUFFER_SIZE in *. lia. }
    destruct (polled_link s1 l So1 W) as (cid & lid & n & k' & _ & [_ N _ K'] & _).
    change (links s1) with (links s) in K'. rewrite K in K'. injection K' as <-.
    apply safely_bind. eapply safely_mono; [|exact (send_part s1 l k n buffer So1 W K N (conj Hpos Hb))].
    intros ? s2 P2. pose proof (part_sound _ _ _ P2) as So2. destruct (part_same _ _ l k P2 K) as (k2 & K2 & _).
    assert (connections s2 = connections s1) as Ec by (by pose proof (part_memory _ _ P2) as [=]).
    eapply safely_step; [apply connection_of_at; by rewrite Ec|].
    apply safely_bind. eapply safely_mono; [|exact (when_part s2 (acks n) true _ So2 (acked_part s2 l k2 false true So2 K2))].
    intros ? s3 P3. apply safely_ret. eapply part_trans; [exact P1|]. exact (part_trans _ _ _ _ P2 P3).
Qed.

(** The callback of a link: it neither reaches a freed object nor anything
    else undefined, and whatever it says and however the link's state
    changes is allowed by the automaton; the other links are left alone. *)
Lemma link_polled_part s l pf : sound s -> l ∈ watched_links (memory_of s) ->
  safely (link_polled l pf) s (fun _ s' => part s false s').
Proof.
  intros So W. destruct (watched_open s l So W) as (k & K & _). unfold link_polled.
  apply (safely_step _ _ _ _ _ _ (link_of_at l k s K)). cbv zeta. apply safely_bind.
  apply (safely_mono _ _ (fun closed s' => part s (negb closed) s')).
  - intros [] s1 P1; [by apply safely_ret|]. cbn [negb] in P1. pose proof (part_sound _ _ _ P1) as So1.
    destruct (part_same _ _ l k P1 K) as (k1 & K1 & Hc1 & Hs1). rewrite <- Hc1, <- Hs1.
    eapply safely_mono; [intros ? s3 P3; exact (part_trans _ _ _ _ P1 P3)|]. eapply part_bind.
    + apply when_part; [done|]. eapply part_bind; [by apply write_part|]. intros ? s2 P2 So2.
      destruct (part_same _ _ l k1 P2 K1) as (k2 & K2 & _). apply (safely_step _ _ _ _ _ _ (link_of_at l k2 s2 K2)).
      apply when_part; [done|]. by apply events_part.
    + intros ? s2 P2 So2. destruct (part_same _ _ l k1 P2 K1) as (k2 & K2 & Hc2 & _). rewrite <- Hc2.
      apply when_part; [done|]. apply close_part; [done| |done].
      by rewrite (part_memory _ _ P2), (part_memory _ _ P1).
  - destruct (has_bit _ _); [by apply read_part|]. apply safely_ret. by apply part_quiet; [apply effect_refl|].
Qed.
End Polling.
(** *** [ListenSide::polled] *)

Lemma effect_after_system s o s' ms : effect (update system_of o s) s' ms -> effect s s' ms.
Proof. intros []. by split. Qed.

Lemma known_side s cid c n : m_connection_map s !! cid = Some c -> connections s !! c = Some n ->
  side_at s cid = match m_side n with ListenSide _ _ => Asking | ConnectSide => Answering end.
Proof. intros I N. unfold side_at, side_of. cbn. rewrite I. cbn. by rewrite N. Qed.

Lemma state_none s cid lid c n : m_connection_map s !! cid = Some c -> connections s !! c = Some n ->
  m_link_map n !! lid = None -> state_at s cid lid = Absent.
Proof. intros I N L. unfold state_at, look, find. cbn. rewrite I. cbn. by rewrite N; cbn; rewrite L. Qed.

Lemma listener_at c n ls ni (s : S) : connections s !! c = Some n -> m_side n = ListenSide ls ni ->
  listener_of c s = Ret (n, (ls, ni)) (s : S).
Proof. intros N Hs. unfold listener_of. by rewrite (bind_step _ _ _ _ _ (connection_of_at c n s N)), Hs. Qed.

Lemma listen_polled_acts s c n ls ni : sound s -> connections s !! c = Some n -> m_side n = ListenSide ls ni ->
  m_link_map n !! i16 ni = None -> safely (listen_polled c) s (fun _ s' => exists ms, acts s s' ms /\ creates ms <= 1).
Proof.
  intros So N Hs Hf. destruct (sound_ready s So) as [t Hr].
  destruct (typed_tables _ (sound_typed s So) c n N) as (I & Hc & _).
  destruct (sys_accept ls (system s)) as [[f|e] o1] eqn:Ha.
  1: destruct (sys_nonblock f o1) as [[[]|e] o2] eqn:Hn.
  - apply (safely_at _ _ _ _ _ (listen_polled_at c n ls ni f o1 o2 t s N Hs Hr Ha Hn Hf)).
    exists [MLink (TunnelConnection.m_id n) ni LCreate]. set (s1 := update system_of o2 s : S).
    pose proof (effect_system s o2 So) as E1. split; [|done].
    eapply acts_once.
    + apply (effect_after_system s o2). exact (effect_accepted s1 c n ls ni f t (effect_sound _ _ _ E1) N Hs Hf Hr).
    + done.
    + intros cid' lid'. etrans; [|exact (moved_accepted s1 _ c n ls ni f (effect_sound _ _ _ E1) I N Hs Hf cid' lid')].
      unfold state_at. by rewrite memory_said.
    + rewrite (known_side s _ c n I N), Hs, (state_none s _ _ c n I N Hf). apply step_accept.
  - eapply safely_step; [apply listener_at; [exact N|exact Hs]|].
    apply (safely_step _ _ _ _ _ _ (syscall_step system_of _ _ _ s Ha)).
    by apply (safely_step _ _ _ _ _ _ (syscall_step system_of _ _ _ (update system_of o1 s) Hn)).
  - eapply safely_step; [apply listener_at; [exact N|exact Hs]|].
    by apply (safely_step _ _ _ _ _ _ (syscall_step system_of _ _ _ s Ha)).
Qed.

(** An id that is still in use, which a listener comes back to after 65536
    sockets: the link that had it is freed, but not taken out of the poller,
    whose next call goes through the dangling pointer. *)
Lemma listen_polled_reuse s c n ls ni k f o1 o2 : sound s -> connections s !! c = Some n -> m_side n = ListenSide ls ni ->
  m_link_map n !! i16 ni = Some k -> k ∈ watched_links (memory_of s) ->
  sys_accept ls (system s) = (SysOk f, o1) -> sys_nonblock f o1 = (SysOk tt, o2) ->
  exists s', listen_polled c s = Ret tt s' /\ k ∈ watched_links (memory_of s') /\
    forall pf, link_polled k pf s' = Undef Dangling.
Proof.
  intros So N Hs Hf W Ha Hn. destruct (sound_ready s So) as [t Hr]. pose proof (sound_typed s So) as Ty.
  set (s1 := accepted c n ls ni f (update system_of o2 s)).
  set (s2 := update link_heap (delete k (links s1)) s1).
  exists (said t (MLink (TunnelConnection.m_id n) ni LCreate) s2). split; [|split].
  - unfold listen_polled. rewrite (bind_step _ _ _ _ _ (listener_at c n ls ni s N Hs)).
    rewrite (bind_step _ _ _ _ _ (syscall_step system_of _ _ _ s Ha)).
    rewrite (bind_step _ _ _ _ _ (syscall_step system_of _ _ _ (update system_of o1 s) Hn)). cbn zeta.
    set (s3 := update link_heap (<[next_object s := new_ConnectionLink c ni f]> (links s))
                 (update next_of (Datatypes.S (next_object s))
                   (update connection_heap (alter (set_side (ListenSide ls (ni + 1))) c (connections s))
                     (update system_of o2 s))) : S).
    rewrite (bind_step _ _ _ tt (update connection_heap (alter (set_side (ListenSide ls (ni + 1))) c (connections s))
                                   (update system_of o2 s))) by done.
    rewrite (bind_step _ _ _ (next_object s) s3) by done.
    rewrite (bind_step _ _ _ tt s2).
    + rewrite !(bind_step _ _ _ _ _ (writeShort_at _ _)), !queued_queued.
      exact (send_queued t (MLink (TunnelConnection.m_id n) ni LCreate) _ (Hr : ready s2 t)).
    + assert (connections s3 !! c = Some (set_side (ListenSide ls (ni + 1)) n)) as Hc3
        by (cbn; by rewrite lookup_alter_eq, N).
      unfold assign_link. rewrite (bind_step _ _ _ _ _ (connection_of_at c _ s3 Hc3)).
      cbn [set_side m_link_map]. change (i16 (n, (ls, ni)).2.2) with (i16 ni).
      rewrite (bind_step _ _ _ tt s1) by done. by rewrite Hf.
  - rewrite memory_said. exact W.
  - intros pf. unfold link_polled, link_of, mbind, M_bind, gets, deref.
    change (links (said t _ s2)) with (delete k (links s1)). by rewrite lookup_delete_eq.
Qed.
End Processes.
