(* ===== verification/Hearing.v ===== *)
(** * What a process does with a message

    Every message the automaton of Session.v lets an end hear is taken by
    the process without an exception or anything undefined, and what the
    process says and how its link changes is a step of the automaton.  A
    process that only hears comes to an end: each message is replaced by
    less ([cost], [load]). *)

From stdpp Require Import base list tactics gmap strings relations.
From Stdlib Require Import ZArith Lia.
From S2P Require Import Prelude Posix Wire SockBuffer Poller Spec Tunnel Connection Behaviour Protocol Links Session Memory Ends.
Import StdioTunnel Heap TunnelConnection ConnectionLink.

(** ** How much is left to be done *)

(** What hearing a message may lead to, at most. *)
Definition weight (m : message) : nat :=
  match m with
  | MLink _ _ LCreate => 5
  | MLink _ _ (LSendForAck _) | MLink _ _ LClose => 2
  | _ => 1
  end.
Definition cost (ms : list message) : nat := sum_list (map weight ms).

Lemma cost_app ms ms' : cost (ms ++ ms') = (cost ms + cost ms')%nat.
Proof. unfold cost. rewrite map_app. induction ms as [|m ms IH]; cbn; [done|]. lia. Qed.

(** A link that is not closing may yet say LINK_CLOSE. *)
Definition rank (f : face) : nat := if f_closing f then 0 else 2.
Definition ranks (h : gmap nat face) : nat := map_fold (fun _ f n => (rank f + n)%nat) 0%nat h.

Lemma ranks_delete h k f : h !! k = Some f -> ranks h = (rank f + ranks (delete k h))%nat.
Proof. intros E. unfold ranks. apply (map_fold_delete_L (fun _ f n => (rank f + n)%nat)); [intros; lia|done]. Qed.
Lemma ranks_insert h k f f' : h !! k = Some f -> (ranks (<[k := f']> h) + rank f = ranks h + rank f')%nat.
Proof.
  intros E. rewrite (ranks_delete h k f E), (ranks_delete (<[k := f']> h) k f') by apply lookup_insert_eq.
  rewrite delete_insert_eq. lia.
Qed.
Lemma ranks_new h k f : h !! k = None -> ranks (<[k := f]> h) = (rank f + ranks h)%nat.
Proof.
  intros E. rewrite (ranks_delete (<[k := f]> h) k f) by apply lookup_insert_eq. by rewrite delete_insert_id.
Qed.

Section Hearing.
Context {P : Posix} {R O : Type} `{EqDecision O} `{!Role R O} `{!Reporter}.
Abbreviation S := (tunnel R O).
Implicit Types (s : S).

Definition load (s : S) : nat := ranks (faces (memory_of s)).

Lemma load_memory s s' : memory_of s' = memory_of s -> load s' = load s.
Proof. unfold load. by intros ->. Qed.

(** Something is said that is not about a link, of cost [k] at most. *)
Definition aside (k : nat) (s s' : S) : Prop := exists ms, effect s s' ms /\ memory_of s' = memory_of s /\
  (forall cid lid, about cid lid ms = []) /\ (cost ms <= k)%nat.

Lemma aside_trans j k s s1 s2 : aside j s s1 -> aside k s1 s2 -> aside (j + k) s s2.
Proof.
  intros (ms1 & E1 & M1 & A1 & C1) (ms2 & E2 & M2 & A2 & C2). exists (ms1 ++ ms2).
  split_and!; [by eapply effect_trans|by rewrite M2| |rewrite cost_app; lia].
  intros. by rewrite about_app, A1, A2.
Qed.
Lemma aside_system s o : sound s -> aside 0 s (update system_of o s).
Proof. intros So. exists []. split_and!; try done. by apply effect_system. Qed.
Lemma aside_sound k s s' : aside k s s' -> sound s'.
Proof. by intros (ms & E & _); apply E. Qed.

(** ** Connecting *)

(** A link is made, or an error reported and nothing else changed. *)
Definition connected_or_not (c : nat) (n : TunnelConnection.t) (lid : Z) (s : S) (success : bool) (s1 : S) : Prop :=
  if success then exists f o, s1 = opened c n lid f (update system_of o s) else aside 1 s s1.

Lemma host_text n (before after : string) : host_fits n -> zlen (bytes_of before) <= 100 -> zlen (bytes_of after) <= 100 ->
  zlen (bytes_of before ++ ConnectionSpec.m_connect_host (m_spec n) ++ bytes_of after) < 4294967200.
Proof. unfold host_fits. rewrite !length_app. lia. Qed.

(** What is reported fits in a message. *)
Lemma refuses_text n o o' text made : host_fits n -> refuses (m_spec n) o o' text made -> zlen text < 4294967200.
Proof.
  intros Hh Href. destruct Href; try done.
  - exact (host_text n "" " not found" Hh ltac:(done) ltac:(done)).
  - pose proof (host_text n "Failed to connect to " "" Hh ltac:(done) ltac:(done)) as Ht. by rewrite app_nil_r in Ht.
Qed.

Lemma turned_down_aside t text made o s : sound s -> ready s t -> zlen text < 4294967200 -> aside 1 s (turned_down t text made o s).
Proof.
  intros So Hr Ht. set (s1 := update system_of (close_made made o) s).
  pose proof (aside_system s (close_made made o) So : aside 0 s s1) as A0.
  apply (aside_trans 0 1 _ s1 _ A0). unfold turned_down. fold s1.
  destruct reports eqn:Er.
  - exists [MError text]. split_and!; [apply effect_said; [by eapply aside_sound|done|done]|by apply memory_said|done|done].
  - destruct (aside_system s1 (system s1) (aside_sound _ _ _ A0)) as (ms & Ef & Me & Ab & Co). exists ms. split_and!; [done..|lia].
Qed.

Lemma connect_link_spec c n lid s : sound s -> connections s !! c = Some n -> m_link_map n !! lid = None ->
  exists success s1, connect_link c lid (m_spec n) s = Ret success s1 /\ connected_or_not c n lid s success s1.
Proof.
  intros So N L. destruct (sound_ready s So) as [t Hr].
  destruct (typed_tables _ (sound_typed s So) c n N) as (_ & _ & Hh & _).
  destruct (connects_or_refuses (m_spec n) (system s)) as [(f & o' & Hcon)|(o' & text & made & Href)].
  - exists true, (opened c n lid f (update system_of o' s)). split; [by apply connect_link_at|by exists f, o'].
  - destruct (connect_link_refused c lid (m_spec n) o' text made t s Href Hr) as (o & _ & E).
    exists false, (turned_down t text made o s). split; [done|].
    apply turned_down_aside; [done..|]. by eapply refuses_text.
Qed.

(** ** A message Links.v leaves *)

Lemma hear_late cid lid bs s q c k n link :
  to_read s = enc_message (MLink cid lid (LSendForAck bs)) ++ q -> linked s cid lid c k n link ->
  zlen bs <= BUFFER_SIZE -> m_closing link = true ->
  hear s = Ret tt (acked k link true (unread q s)).
Proof.
  intros E L Hbs Ho. rewrite (hear_link_message _ _ _ _ _ _ _ _ _ E L ltac:(done)).
  unfold processLinkMessage. cbn [link_command enc_link_body].
  change (LINK_SEND_FOR_ACK =? LINK_SEND) with false. change (LINK_SEND_FOR_ACK =? LINK_CLOSE) with false.
  change (LINK_SEND_FOR_ACK =? LINK_SEND_FOR_ACK) with true. rewrite <- app_assoc. cbn iota.
  pose proof (linked_link _ _ _ _ _ _ _ L) as K.
  erewrite (bind_step (receiveData k)) by (eapply receiveData_at; [apply to_read_unread|done|exact K]).
  rewrite unread_unread, Ho. rewrite (bind_step _ _ _ _ _ (link_of_at k link (unread q s) K)), Ho.
  exact (setAcknowledged_at k link true (unread q s) K).
Qed.

(** ** Hearing *)

(** [s] hears [m] about the link [(cid, lid)] and becomes [s'], saying
    [ms]; the other links are left alone and less is left to be done. *)
Record hears (s : S) (cid lid : Z) (m : link_message) (s' : S) (ms : list message) : Prop := Hears {
  hears_effect : effect (unread [] s) s' ms;
  hears_step : end_step (side_at s cid) (state_at s cid lid) (Some m) (about cid lid ms) (state_at s' cid lid);
  hears_others cid' lid' : (cid', lid') <> (cid, lid) ->
    state_at s' cid' lid' = state_at s cid' lid' /\ about cid' lid' ms = [];
  hears_less : (cost ms + load s' < weight (MLink cid lid m) + load s)%nat
}.

(** An answer asks for no link. *)
Lemma step_creates sd x m out y : end_step sd x (Some m) out y -> LCreate ∉ out.
Proof. inversion 1; subst; try set_solver. destruct m; cbn; set_solver. Qed.
Lemma hears_creates s cid lid m s' ms : hears s cid lid m s' ms -> creates ms = 0.
Proof.
  intros [_ Hs Ho _]. apply creates_none. intros c l. destruct (decide ((c, l) = (cid, lid))) as [[= -> ->]|Hne].
  - by eapply step_creates.
  - destruct (Ho c l Hne) as [_ ->]. apply not_elem_of_nil.
Qed.

Lemma hears_moved s cid lid m s' ms x out : effect (unread [] s) s' ms -> moved s s' cid lid x ->
  (forall cid' lid', about cid' lid' ms = if decide ((cid', lid') = (cid, lid)) then out else []) ->
  end_step (side_at s cid) (state_at s cid lid) (Some m) out x ->
  (cost ms + load s' < weight (MLink cid lid m) + load s)%nat -> hears s cid lid m s' ms.
Proof.
  intros E M A Hs Hl. split; try done.
  - by rewrite M, A, !decide_True.
  - intros cid' lid' Hne. by rewrite M, A, !decide_False.
Qed.

(** Nothing is said, and the pointers stay. *)
Lemma hears_quietly s cid lid m s' : effect (unread [] s) s' [] -> memory_of s' = memory_of s ->
  end_step (side_at s cid) (state_at s cid lid) (Some m) [] (state_at s cid lid) -> hears s cid lid m s' [].
Proof.
  intros E M Hs. eapply hears_moved; [done|by apply moved_same| |exact Hs|].
  - intros. by destruct (decide _).
  - rewrite (load_memory _ _ M). by destruct m; cbn; lia.
Qed.

(** One message is said, about that link. *)
Lemma hears_reply s cid lid m s' out x : effect (unread [] s) s' [MLink cid lid out] -> i16 cid = cid -> i16 lid = lid ->
  moved s s' cid lid x -> end_step (side_at s cid) (state_at s cid lid) (Some m) [out] x ->
  (weight (MLink cid lid out) + load s' < weight (MLink cid lid m) + load s)%nat -> hears s cid lid m s' [MLink cid lid out].
Proof.
  intros E Hc Hl M Hs Hw. eapply hears_moved; [done|exact M| |exact Hs|unfold cost; cbn -[weight load]; lia].
  intros. by rewrite about_one, Hc, Hl.
Qed.

Lemma linked_raw (s : S) cid lid c k n link : linked s (i16 cid) (i16 lid) c k n link -> linked s cid lid c k n link.
Proof. intros []. split; rewrite ?i16_idemp in *; done. Qed.

(** The link a message is about, by the state of the receiver's end. *)
Lemma state_link s cid lid : sound s -> state_at s (i16 cid) (i16 lid) <> Absent -> exists k n link,
  here s (i16 cid) (i16 lid) k /\ linked s cid lid (m_connection link) k n link /\
  m_id link = i16 lid /\ TunnelConnection.m_id n = i16 cid /\
  m_closing link = bool_decide (state_at s (i16 cid) (i16 lid) = Closing) /\
  ((k ∈ watched_links (memory_of s)) <-> state_at s (i16 cid) (i16 lid) = Open).
Proof.
  intros So (k & E)%state_present. destruct (here_linked s _ _ k So E) as (_ & _ & n & link & L & Hid & Hn).
  exists k, n, link. split_and!; try done; [by apply linked_raw|..];
    rewrite (state_here s _ _ k link E (linked_link _ _ _ _ _ _ _ L)); unfold state_of; cbn [face_of f_closing].
  - destruct (m_closing link); [done|]. by destruct (bool_decide (k ∈ _)).
  - destruct (bool_decide_reflect (k ∈ watched_links (memory_of s))) as [W|W].
    + destruct (watched_open s k So W) as (link' & K & Ho). pose proof (linked_link _ _ _ _ _ _ _ L) as K'.
      rewrite K in K'. injection K' as ->.
      split; [by rewrite Ho|done].
    + split; [done|]. by destruct (m_closing link).
Qed.

(** The process hears the message [m]. *)
Definition told (m : message) (s : S) : S := unread (enc_message m) s.

Lemma to_read_told m (s : S) : to_read (told m s) = enc_message m ++ [].
Proof. by rewrite app_nil_r. Qed.
Lemma linked_told m (s : S) cid lid c k n link : linked s cid lid c k n link -> linked (told m s) cid lid c k n link.
Proof. apply linked_unread. Qed.

(** Data, on a link that is polled. *)
Lemma hear_data s cid lid m : sound s -> message_ok (MLink cid lid m) -> is_data m = true ->
  state_at s (i16 cid) (i16 lid) = Open ->
  exists s' ms, hear (told (MLink cid lid m) s) = Ret tt s' /\ hears s (i16 cid) (i16 lid) m s' ms.
Proof.
  intros So Hok Hd Hs. destruct (state_link s cid lid So ltac:(by rewrite Hs)) as (k & n & link & E & L & Hid & Hn & Hc & _).
  rewrite Hs in Hc. cbn in Hc. pose proof (linked_link _ _ _ _ _ _ _ L) as K.
  pose proof (linked_told (MLink cid lid m) s _ _ _ _ _ _ L) as Lt. pose proof (to_read_told (MLink cid lid m) s) as Er.
  pose proof (sound_unread s [] So) as Su.
  destruct (sound_ready s So) as [t Hr]. destruct m as [| |bs|bs| |]; try done.
  - rewrite (hear_LSend cid lid bs _ [] _ _ _ _ Er Lt), Hc by apply Hok. eexists _, []. split; [reflexivity|].
    apply hears_quietly; [|by apply (memory_delivered k link bs (unread [] s))|rewrite Hs; by apply step_data].
    by apply effect_delivered.
  - rewrite (hear_LSendForAck cid lid bs _ [] _ _ _ _ t Er Lt) by (done || apply Hok). rewrite Hid, Hn.
    eexists _, [MLink (i16 cid) (i16 lid) LAck]. split; [reflexivity|].
    pose proof (effect_delivered (unread [] s) k link bs Su K) as Ed.
    pose proof (memory_delivered k link bs (unread [] s) K) as Md.
    apply (hears_reply _ _ _ _ _ _ Open); rewrite ?i16_idemp; try done.
    + apply (effect_trans _ _ _ [] _ Ed). apply effect_said; [apply Ed|exact Hr|done].
    + rewrite <- Hs. apply moved_same. etrans; [apply memory_said|exact Md].
    + rewrite Hs. by apply step_data.
    + rewrite (load_memory s); [cbn; lia|]. etrans; [apply memory_said|exact Md].
  - rewrite (hear_LAck cid lid _ [] _ _ _ _ Er Lt). eexists _, []. split; [reflexivity|].
    apply hears_quietly; [|by apply (memory_acked k link true (unread [] s))|rewrite Hs; by apply step_data].
    by apply effect_acked.
Qed.

(** Data, on a link that has said LINK_CLOSE. *)
Lemma hear_late_data s cid lid m : sound s -> message_ok (MLink cid lid m) -> is_data m = true ->
  state_at s (i16 cid) (i16 lid) = Closing ->
  exists s' ms, hear (told (MLink cid lid m) s) = Ret tt s' /\ hears s (i16 cid) (i16 lid) m s' ms.
Proof.
  intros So Hok Hd Hs. destruct (state_link s cid lid So ltac:(by rewrite Hs)) as (k & n & link & E & L & Hid & Hn & Hc & _).
  rewrite Hs in Hc. cbn in Hc. pose proof (linked_link _ _ _ _ _ _ _ L) as K.
  pose proof (linked_told (MLink cid lid m) s _ _ _ _ _ _ L) as Lt. pose proof (to_read_told (MLink cid lid m) s) as Er.
  assert (hear (told (MLink cid lid m) s) = Ret tt (unread [] s) \/
          hear (told (MLink cid lid m) s) = Ret tt (acked k link true (unread [] s))) as [-> | ->].
  { destruct m as [| |bs|bs| |]; try done.
    - left. by rewrite (hear_LSend cid lid bs _ [] _ _ _ _ Er Lt), Hc by apply Hok.
    - right. by rewrite (hear_late cid lid bs _ [] _ _ _ _ Er Lt) by (done || apply Hok).
    - right. by rewrite (hear_LAck cid lid _ [] _ _ _ _ Er Lt). }
  all: eexists _, []; split; [reflexivity|]; apply hears_quietly; try (rewrite Hs; by apply step_late).
  - by apply effect_refl, sound_unread.
  - done.
  - by apply effect_acked; [apply sound_unread|].
  - by apply (memory_acked k link true (unread [] s)).
Qed.

Lemma moved_then s s1 s2 cid lid x y : moved s s1 cid lid x -> moved s1 s2 cid lid y -> moved s s2 cid lid y.
Proof. intros M1 M2 cid' lid'. rewrite M2, M1. by destruct (decide _). Qed.

Lemma load_closed s k link : links s !! k = Some link -> m_closing link = false -> load s = (2 + load (closed k link s))%nat.
Proof.
  intros K Ho. pose proof (lookup_faces s k link K) as F. unfold load. rewrite memory_closed. cbn [m_close faces].
  pose proof (ranks_insert _ k _ (close_face (face_of link)) F) as Hr. unfold rank in Hr. cbn in Hr. rewrite Ho in Hr.
  change (faces (memory_of s)) with (face_of <$> links s). lia.
Qed.
Lemma load_erased s k link : links s !! k = Some link ->
  load s = (rank (face_of link) + load (erased (m_connection link) (m_id link) k s))%nat.
Proof.
  intros K. unfold load. rewrite memory_erased. cbn [m_forget faces]. apply ranks_delete. by apply lookup_faces.
Qed.

(** A link that is not polled is forgotten. *)
Lemma forget_at s cid lid k link : sound s -> here s cid lid k -> links s !! k = Some link -> k ∉ watched_links (memory_of s) ->
  let s' := erased (m_connection link) (m_id link) k s in
  effect s s' [] /\ moved s s' cid lid Absent /\ load s = (rank (face_of link) + load s')%nat.
Proof. intros So E K W. split_and!; [by apply effect_erased|by apply moved_erased|by apply load_erased]. Qed.

(** LINK_CLOSE, on a link that is polled: the end answers it and forgets
    the link. *)
Lemma hear_close s cid lid : sound s -> state_at s (i16 cid) (i16 lid) = Open ->
  exists s' ms, hear (told (MLink cid lid LClose) s) = Ret tt s' /\ hears s (i16 cid) (i16 lid) LClose s' ms.
Proof.
  intros So Hs. destruct (state_link s cid lid So ltac:(by rewrite Hs)) as (k & n & link & E & L & Hid & Hn & Hc & _).
  rewrite Hs in Hc. cbn in Hc. pose proof (linked_link _ _ _ _ _ _ _ L) as K. destruct (sound_ready s So) as [t Hr].
  set (s1 := closed k link (unread [] s)).
  pose proof (sound_unread s [] So) as Su.
  pose proof (effect_closed (unread [] s) k link Su K) as E1.
  assert (effect s1 (said t (MLink (i16 cid) (i16 lid) LClose) s1) [MLink (i16 cid) (i16 lid) LClose]) as E2
    by (apply effect_said; [apply E1|exact Hr|done]).
  set (s2 := said t (MLink (i16 cid) (i16 lid) LClose) s1) in *.
  assert (links s2 !! k = Some (set_closing link)) as K2 by apply lookup_insert_eq.
  assert (memory_of s2 = memory_of s1) as M2 by apply memory_said.
  assert (k ∉ watched_links (memory_of s2)) as W2.
  { rewrite M2. unfold s1. rewrite memory_closed.
    rewrite (watched_close _ k (face_of link) k (sound_typed _ Su) (lookup_faces (unread [] s) k link K)). by intros []. }
  destruct (forget_at s2 _ _ k _ (effect_sound _ _ _ E2) E K2 W2) as (E3 & M3 & L3). cbn [set_closing m_connection m_id] in E3, M3, L3.
  exists (erased (m_connection link) (m_id link) k s2), [MLink (i16 cid) (i16 lid) LClose]. split.
  { rewrite (hear_LClose cid lid [] _ k n link t _ (to_read_told _ s) (linked_told _ s _ _ _ _ _ _ L) Hid Hr), Hc, Hid, Hn.
    reflexivity. }
  apply (hears_reply _ _ _ _ _ _ Absent); rewrite ?i16_idemp; try done.
  - apply (effect_trans _ _ _ [] _ E1). rewrite <- (app_nil_r [_]). by apply (effect_trans _ _ _ _ _ E2).
  - apply (moved_then s s2 _ _ _ Closing); [|exact M3].
    intros cid' lid'. etrans; [|exact (moved_closed (unread [] s) _ _ k link Su E K cid' lid')].
    unfold state_at. by rewrite M2.
  - rewrite Hs. apply step_closed.
  - rewrite (load_closed s k link K Hc). cbn [weight]. change (rank (face_of (set_closing link))) with 0%nat in L3.
    rewrite (load_memory _ _ M2) in L3. change (load (closed k link s)) with (load s1). lia.
Qed.

(** LINK_CLOSE, on a link that has said it: the link goes. *)
Lemma hear_close_late s cid lid : sound s -> state_at s (i16 cid) (i16 lid) = Closing ->
  exists s' ms, hear (told (MLink cid lid LClose) s) = Ret tt s' /\ hears s (i16 cid) (i16 lid) LClose s' ms.
Proof.
  intros So Hs. destruct (state_link s cid lid So ltac:(by rewrite Hs)) as (k & n & link & E & L & Hid & Hn & Hc & Hw).
  rewrite Hs in Hc, Hw. cbn in Hc. pose proof (linked_link _ _ _ _ _ _ _ L) as K. destruct (sound_ready s So) as [t Hr].
  pose proof (sound_unread s [] So) as Su.
  destruct (forget_at (unread [] s) _ _ k link Su E K ltac:(by intros ?%Hw)) as (E3 & M3 & L3).
  exists (erased (m_connection link) (m_id link) k (unread [] s)), []. split.
  { rewrite (hear_LClose cid lid [] _ k n link t _ (to_read_told _ s) (linked_told _ s _ _ _ _ _ _ L) Hid Hr), Hc, <- Hid.
    reflexivity. }
  apply (hears_moved _ _ _ _ _ _ Absent []); try done.
  - intros. by destruct (decide _).
  - rewrite Hs. apply step_finished.
  - change (cost []) with 0%nat. cbn [weight]. change (load (unread [] s)) with (load s) in L3. lia.
Qed.

Lemma asking_listens s cid lid c k n link : side_at s (i16 cid) = Asking -> linked s cid lid c k n link ->
  exists ls ni, m_side n = ListenSide ls ni.
Proof.
  intros Hs [I N _ _]. rewrite (known_side s _ c n I N) in Hs. destruct (m_side n); [eauto|done].
Qed.

(** The answer to LINK_CREATE. *)
Lemma hear_answer s cid lid r : sound s -> side_at s (i16 cid) = Asking -> state_at s (i16 cid) (i16 lid) = Waiting ->
  r = LINK_SUCCESS \/ r = LINK_FAILURE ->
  exists s' ms, hear (told (MLink cid lid (LCreated r)) s) = Ret tt s' /\ hears s (i16 cid) (i16 lid) (LCreated r) s' ms.
Proof.
  intros So Hside Hs Hr. destruct (state_link s cid lid So ltac:(by rewrite Hs)) as (k & n & link & E & L & Hid & Hn & Hc & Hw).
  rewrite Hs in Hc, Hw. cbn in Hc. pose proof (linked_link _ _ _ _ _ _ _ L) as K.
  pose proof (sound_unread s [] So) as Su. destruct (asking_listens s _ _ _ _ _ _ Hside L) as (ls & ni & Hls).
  pose proof (hear_LCreated cid lid r [] _ k n link ls ni _ (to_read_told _ s) (linked_told _ s _ _ _ _ _ _ L) Hls) as Hh.
  assert (k ∉ watched_links (memory_of (unread [] s))) as W by (by intros ?%Hw).
  destruct Hr as [-> | ->].
  - change (i16 LINK_SUCCESS =? LINK_SUCCESS) with true in Hh. change (unread [] (told _ s)) with (unread [] s) in Hh.
    cbn iota in Hh. rewrite (addPolled_link_at k link (unread [] s) K) in Hh. eexists _, []. split; [exact Hh|].
    apply (hears_moved _ _ _ _ _ _ Open []).
    + by apply effect_register.
    + by apply (moved_register (unread [] s)).
    + intros. by destruct (decide _).
    + rewrite Hside, Hs. apply step_answered.
    + change (cost []) with 0%nat. cbn [weight]. unfold load. rewrite memory_register by apply Su. cbn [m_watch faces].
      change (faces (memory_of (unread [] s))) with (faces (memory_of s)). lia.
  - change (i16 LINK_FAILURE =? LINK_SUCCESS) with false in Hh. cbn iota in Hh.
    set (s1 := update system_of (sys_close (m_socket link) (system s)) (unread [] s)).
    assert (sound s1) as S1 by (by apply effect_system).
    destruct (forget_at s1 _ _ k link S1 E K W) as (E3 & M3 & L3).
    exists (erased (m_connection link) (m_id link) k s1), []. split; [by rewrite Hh, Hid|].
    apply (hears_moved _ _ _ _ _ _ Absent []); try done.
    + by eapply effect_after_system.
    + intros. by destruct (decide _).
    + rewrite Hside, Hs. apply step_refused.
    + change (cost []) with 0%nat. cbn [weight]. change (load s1) with (load s) in L3. lia.
Qed.

(** LINK_CREATE, for a link that is not there. *)
Lemma hear_asked s cid lid : sound s -> is_Some (m_connection_map s !! i16 cid) -> side_at s (i16 cid) = Answering ->
  state_at s (i16 cid) (i16 lid) = Absent ->
  exists s' ms, hear (told (MLink cid lid LCreate) s) = Ret tt s' /\ hears s (i16 cid) (i16 lid) LCreate s' ms.
Proof.
  intros So [c I] Hside Hs. destruct (typed_ids _ (sound_typed s So) _ _ I) as (n & N & Hn).
  assert (m_side n = ConnectSide) as Hcs.
  { rewrite (known_side s _ c n I N) in Hside. by destruct (m_side n). }
  pose proof (state_absent s _ _ c n I N Hs So) as L. destruct (sound_ready s So) as [t Hr].
  pose proof (sound_unread s [] So) as Su.
  destruct (connect_link_spec c n (i16 lid) (unread [] s) Su N L) as (success & s1 & Ec & Hsuc).
  assert (exists ms, effect (unread [] s) s1 ms /\ (cost ms <= 1)%nat /\ (forall c' l', about c' l' ms = []) /\
    moved s s1 (i16 cid) (i16 lid) (if success then Open else Absent) /\
    (load s1 <= 2 + load s)%nat) as (ms & Ef & Co & Ab & Mo & Lo).
  { destruct success.
    - destruct Hsuc as (f & o & ->). exists []. split_and!; [|cbn; lia|done| |].
      + apply (effect_after_system _ o). apply effect_opened; try done; [by apply effect_system|by rewrite i16_idemp].
      + apply (moved_opened (update system_of o (unread [] s)) _ _ c n); try done; [by apply effect_system|by rewrite i16_idemp].
      + unfold load. rewrite (memory_opened c n) by (done || apply Su || by rewrite i16_idemp).
        cbn [m_make faces]. rewrite ranks_new; [cbn; lia|]. apply eq_None_not_Some. intros [f' F].
        by apply (typed_fresh _ _ _ (sound_typed _ Su) F).
    - destruct Hsuc as (ms & Ef & Me & Ab & Co). exists ms. split_and!; try done.
      + rewrite <- Hs. by apply moved_same.
      + rewrite (load_memory _ _ Me). change (load (unread [] s)) with (load s). lia. }
  pose proof (effect_ready _ _ _ Ef t Hr) as Hr1.
  pose proof (hear_create cid lid [] c n t success _ s1 (to_read_told _ s) I N Hcs Ec Hr1) as Hh. rewrite Hn in Hh.
  set (r := if success then LINK_SUCCESS else LINK_FAILURE) in *.
  exists (said t (MLink (i16 cid) (i16 lid) (LCreated r)) s1), (ms ++ [MLink (i16 cid) (i16 lid) (LCreated r)]).
  split; [exact Hh|]. apply (hears_moved _ _ _ _ _ _ (if success then Open else Absent) [LCreated r]).
  - apply (effect_trans _ _ _ _ _ Ef). apply effect_said; [apply Ef|done|done].
  - apply (moved_then s s1 _ _ _ (if success then Open else Absent)); [exact Mo|].
    intros c' l'. unfold state_at. rewrite memory_said. destruct (decide _) as [[= -> ->]|]; [|done].
    etrans; [apply Mo|]. by rewrite decide_True.
  - intros. by rewrite about_app, Ab, about_one, !i16_idemp.
  - rewrite Hside, Hs. unfold r. destruct success; [apply step_answer|apply step_refuse].
  - rewrite cost_app. rewrite (load_memory _ _ (memory_said t _ s1)). cbn [weight]. unfold cost at 2. cbn -[load cost]. lia.
Qed.

(** Whatever the automaton lets the end hear, the process takes. *)
Lemma hear_hears s cid lid m out y : sound s -> is_Some (m_connection_map s !! i16 cid) -> message_ok (MLink cid lid m) ->
  end_step (side_at s (i16 cid)) (state_at s (i16 cid) (i16 lid)) (Some m) out y ->
  exists s' ms, hear (told (MLink cid lid m) s) = Ret tt s' /\ hears s (i16 cid) (i16 lid) m s' ms.
Proof.
  intros So I Hok Hs. inversion Hs; subst.
  1, 2: by apply hear_asked.
  1, 2: by apply hear_answer; auto.
  - by apply hear_data.
  - by apply hear_late_data.
  - by apply hear_close.
  - by apply hear_close_late.
Qed.

(** C8: every callback about links is a step of the automaton of Session.v.
    In a process whose objects are typed, [polled] of a link the poller
    watches, [polled] of a listener whose next id is free, and a message that
    the automaton lets the end hear, do nothing undefined; they leave the
    objects typed, and for every link, by its two ids, what is said about it
    and how its state changes is a step (or two) of the automaton, or nothing;
    a message concerns its own link only and is always taken without an
    exception. *)
Theorem callbacks_refine_link (T : traffic P) `{!PosixLaws T} s (So : sound s) :
  (forall l pf, l ∈ watched_links (memory_of s) -> safely (link_polled l pf) s (fun _ s' => exists ms, acts s s' ms)) /\
  (forall c f n ls ni, (PListen c, f) ∈ watched (memory_of s) -> connections s !! c = Some n ->
     m_side n = ListenSide ls ni -> m_link_map n !! i16 ni = None ->
     safely (listen_polled c) s (fun _ s' => exists ms, acts s s' ms)) /\
  (forall cid lid m out y, is_Some (m_connection_map s !! i16 cid) -> message_ok (MLink cid lid m) ->
     end_step (side_at s (i16 cid)) (state_at s (i16 cid) (i16 lid)) (Some m) out y ->
     exists s' ms, hear (told (MLink cid lid m) s) = Ret tt s' /\ hears s (i16 cid) (i16 lid) m s' ms).
Proof.
  split_and!.
  - intros l pf W. eapply safely_mono; [|exact (link_polled_part T s l pf So W)]. intros ? s' (ms & A & _). eauto.
  - intros c f n ls ni _ N Hs Hf. eapply safely_mono; [|exact (listen_polled_acts s c n ls ni So N Hs Hf)].
    intros ? s' (ms & A & _). eauto.
  - intros cid lid m out y. by apply hear_hears.
Qed.
End Hearing.
