(* ===== verification/Pipes.v ===== *)
(** * The pipes between the two processes

    A process has the pipe to the other one under two descriptors, one to
    read and one to write.  [Pipe] says what a system does with them: what is
    read is what the other process has sent, in order, and nothing but a
    write to the descriptor sends.  [undisturbed] then shows that of all the
    callbacks of a process only those of the process itself touch the pipe:
    links and listeners use sockets, which are never the pipe's
    descriptors. *)

From stdpp Require Import base list tactics gmap strings.
From Stdlib Require Import ZArith Lia.
From S2P Require Import Prelude Posix Wire SockBuffer Poller Spec Tunnel Connection Local Remote Behaviour Session Memory Ends.
Import StdioTunnel Heap TunnelConnection ConnectionLink.

(** [stream] is all that the other process has sent and [feed] adds to it;
    both are about the descriptor [rf] to read; [wf] is the one to write. *)
Class Pipe {P : Posix} (T : traffic P) (rf wf : Z) : Type := {
  stream : os -> list byte;
  feed : list byte -> os -> os
}.

(** Nothing has gone through the pipe. *)
Definition calm {P : Posix} {T : traffic P} {rf wf} `{!Pipe T rf wf} (o o' : os) : Prop :=
  stream o' = stream o /\ received T o' rf = received T o rf /\ sent T o' wf = sent T o wf.

(** A descriptor that is not the pipe's. *)
Definition apart (rf wf f : Z) : Prop := f <> rf /\ f <> wf.

Class PipeLaws {P : Posix} (T : traffic P) (rf wf : Z) `{!Pipe T rf wf} : Prop := {
  stream_received o : received T o rf `prefix_of` stream o;
  feed_stream bs o : stream (feed bs o) = stream o ++ bs;
  feed_traffic bs o : received T (feed bs o) rf = received T o rf /\ sent T (feed bs o) wf = sent T o wf;
  pipe_read f n o r o' : sys_read f n o = (r, o') -> stream o' = stream o /\ sent T o' wf = sent T o wf;
  pipe_read_apart f n o r o' : sys_read f n o = (r, o') -> f <> rf -> received T o' rf = received T o rf;
  pipe_write f bs o r o' : sys_write f bs o = (r, o') -> stream o' = stream o /\ received T o' rf = received T o rf;
  pipe_write_apart f bs o r o' : sys_write f bs o = (r, o') -> f <> wf -> sent T o' wf = sent T o wf;
  (** A new descriptor is none that is open. *)
  pipe_accept f o r o' : sys_accept f o = (r, o') -> calm o o' /\ forall g, r = SysOk g -> apart rf wf g;
  pipe_socket o r o' : sys_socket o = (r, o') -> calm o o' /\ forall g, r = SysOk g -> apart rf wf g;
  pipe_close f o : apart rf wf f -> calm o (sys_close f o);
  pipe_poll fds t o r o' : sys_poll fds t o = (r, o') -> calm o o';
  pipe_nonblock f o r o' : sys_nonblock f o = (r, o') -> calm o o';
  pipe_bind f any port o r o' : sys_bind f any port o = (r, o') -> calm o o';
  pipe_listen f n o r o' : sys_listen f n o = (r, o') -> calm o o';
  pipe_gethostbyname h o r o' : sys_gethostbyname h o = (r, o') -> calm o o';
  pipe_connect f a p o r o' : sys_connect f a p o = (r, o') -> calm o o';
  pipe_cerr bs o : calm o (sys_cerr bs o);
  pipe_tcgetattr f o r o' : sys_tcgetattr f o = (r, o') -> calm o o';
  pipe_tcsetattr f act t o : calm o (sys_tcsetattr f act t o);
  pipe_signal o r o' : sys_signal o = (r, o') -> calm o o'
}.

Create HintDb pipes discriminated.
#[export] Hint Resolve pipe_close pipe_poll pipe_nonblock pipe_bind pipe_listen pipe_gethostbyname pipe_connect pipe_cerr
  pipe_tcgetattr pipe_tcsetattr pipe_signal : pipes.

Section Undisturbed.
Context {P : Posix} (T : traffic P) (rf wf : Z) `{!Pipe T rf wf} `{!PipeLaws T rf wf}.
Abbreviation apart := (apart rf wf).

#[export] Instance calm_preorder : PreOrder calm.
Proof.
  split; [done|]. intros o1 o2 o3 (H1 & H2 & H3) (K1 & K2 & K3). split_and!; congruence.
Qed.

Section Process.
Context {R O : Type} `{EqDecision O} `{!Role R O}.
Abbreviation S := (tunnel R O).

(** The links' sockets are not the pipe's descriptors. *)
Definition sockets (s : S) : Prop := map_Forall (fun _ k => apart (m_socket k)) (links s).

Definition undisturbed (s s' : S) : Prop := sockets s -> sockets s' /\ calm (system s) (system s').

#[export] Instance undisturbed_preorder : PreOrder undisturbed.
Proof.
  split; [by intros s Hs|]. intros s1 s2 s3 H1 H2 Hs. destruct (H1 Hs) as [Hs2 C1]. destruct (H2 Hs2) as [Hs3 C2].
  split; [done|]. by etrans.
Qed.

Abbreviation quiet m := (moves undisturbed m).

Lemma quiet_part {A B} (l : lens S A) (m : M A B) :
  (forall s t, links (update l t s) = links s /\ system (update l t s) = system s) -> quiet (zoom l m).
Proof.
  intros H. apply moves_zoom. intros s t Hs. destruct (H s t) as [El Es]. unfold sockets. by rewrite El, Es.
Qed.

Lemma quiet_call {A} (call : os -> A * os) : (forall o a o', call o = (a, o') -> calm o o') -> quiet (syscall system_of call).
Proof. intros H s. unfold syscall. cbn [view system_of]. destruct (call _) as [a o] eqn:E. intros Hs. split; [done|by eapply H]. Qed.
Lemma quiet_call_ (call : os -> os) : (forall o, calm o (call o)) -> quiet (syscall_ system_of call).
Proof. intros H s Hs. split; [done|apply H]. Qed.

(** A call that makes a descriptor. *)
Lemma quiet_new {B} (call : os -> sysres Z * os) (f : sysres Z -> M S B) :
  (forall o r o', call o = (r, o') -> calm o o' /\ forall g, r = SysOk g -> apart g) ->
  (forall r, (forall g, r = SysOk g -> apart g) -> quiet (f r)) -> quiet (syscall system_of call ≫= f).
Proof.
  intros H Hf s. unfold syscall, mbind, M_bind. cbn [view system_of]. destruct (call _) as [r o] eqn:E.
  destruct (H _ _ _ E) as [C Hr]. specialize (Hf r Hr (update system_of o s)).
  destruct (f r _); try done; intros Hs; destruct (Hf Hs) as [? C']; (split; [done|by etrans; [exact C|]]).
Qed.

(** The link behind a pointer has a socket of its own. *)
Lemma quiet_link {B} l (f : ConnectionLink.t -> M S B) :
  (forall k, apart (m_socket k) -> quiet (f k)) -> quiet (link_of l ≫= f).
Proof.
  intros Hf s. unfold link_of, mbind, M_bind, gets, deref, mret, M_ret. destruct (links s !! l) as [k|] eqn:K; [|done].
  destruct (f k s) eqn:E; try done.
  - intros Hs. specialize (Hf k (Hs l k K) s). rewrite E in Hf. by apply Hf.
  - intros Hs. specialize (Hf k (Hs l k K) s). rewrite E in Hf. by apply Hf.
Qed.

Lemma quiet_set_link f l : (forall k, m_socket (f k) = m_socket k) -> quiet (set_link f l).
Proof.
  intros Hf s Hs. split; [|done]. intros l' k. cbn. intros [[-> (k0 & K0 & ->)]|[_ K]]%lookup_alter_Some.
  - rewrite Hf. by apply (Hs l').
  - by apply (Hs l').
Qed.
Lemma quiet_free_link l : quiet (free_link l).
Proof. intros s Hs. split; [|done]. intros l' k. cbn. intros [_ K]%lookup_delete_Some. by apply (Hs l'). Qed.
Lemma quiet_new_link k : apart (m_socket k) -> quiet (new_link k).
Proof. intros Hk s Hs. split; [|done]. cbn. by apply map_Forall_insert_2. Qed.
Lemma quiet_buffer {B} l (m : M SockBuffer.t B) : quiet (zoom (buffer_of l) m).
Proof.
  apply moves_zoom. intros s b Hs. split; [|done]. intros l' k. cbn.
  intros [[-> (k0 & K0 & ->)]|[_ K]]%lookup_alter_Some; [exact (Hs l' k0 K0)|by apply (Hs l')].
Qed.

(** Reading from a socket, and writing to one. *)
Lemma quiet_read f n : apart f -> quiet (syscall system_of (sys_read f n)).
Proof.
  intros [Hr _]. apply quiet_call. intros o r o' E. destruct (pipe_read _ _ _ _ _ E) as [E1 E2].
  split_and!; [done| |done]. by eapply pipe_read_apart.
Qed.
Lemma quiet_writeData l f : apart f -> quiet (zoom (lens_pair (buffer_of l) system_of) (SockBuffer.writeData f)).
Proof.
  intros [_ Hw] s. unfold zoom, SockBuffer.writeData. cbn [view lens_pair].
  change (view system_of s) with (system s). destruct (sys_write _ _ _) as [r o] eqn:E.
  assert (calm (system s) o) as C.
  { destruct (pipe_write _ _ _ _ _ E) as [E1 E2]. split_and!; [done..|]. by eapply pipe_write_apart. }
  destruct r; cbn [update lens_pair fst snd]; intros Hs; (split; [|exact C]);
    intros l' k; cbn; intros [[-> (k0 & K0 & ->)]|[_ K]]%lookup_alter_Some; try exact (Hs l' _ K0); by apply (Hs l').
Qed.
End Process.
End Undisturbed.

(** Walk through a computation that leaves the pipe alone. *)
Ltac quiet :=
  repeat first
    [ solve [eauto 2 with pipes]
    | first [apply moves_ret | apply moves_throw | apply moves_undefined | apply moves_gets | apply moves_deref]; apply _
    | apply quiet_link; intros ? ?
    | apply quiet_call; intros; solve [eauto 2 with pipes]
    | apply quiet_call_; intros; solve [eauto 2 with pipes]
    | apply moves_bind; [apply _| |intros ?]
    | apply moves_when; [apply _|]
    | apply quiet_part; intros ? ?; split; reflexivity
    | match goal with |- moves _ (match ?x with _ => _ end) => destruct x end ].

(** ** The callbacks *)

(** Reporting an error leaves the pipe alone. *)
Class QuietRole {P : Posix} (T : traffic P) (rf wf : Z) `{!Pipe T rf wf} (R O : Type) `{!Role R O} : Prop :=
  quiet_reportError text : moves (undisturbed T rf wf) (reportError (R:=R) (O:=O) text).

Section Callbacks.
Context {P : Posix} (T : traffic P) (rf wf : Z) `{!Pipe T rf wf} `{!PipeLaws T rf wf}.
Context {R O : Type} `{EqDecision O} `{!Role R O} `{!QuietRole T rf wf R O}.
Abbreviation S := (tunnel R O).
Abbreviation quiet m := (moves (undisturbed T rf wf) m).

#[local] Hint Resolve quiet_reportError quiet_set_link quiet_free_link quiet_new_link quiet_buffer quiet_read
  quiet_writeData : pipes.

Lemma quiet_connection_of c : quiet (connection_of (R:=R) (O:=O) c). Proof. unfold connection_of. quiet. Qed.
Lemma quiet_set_connection f c : quiet (set_connection (R:=R) (O:=O) f c). Proof. unfold set_connection. quiet. Qed.
Lemma quiet_send : quiet (send (R:=R) (O:=O)). Proof. unfold send. quiet. Qed.
Lemma quiet_writeShort z : quiet (writeShort (R:=R) (O:=O) z). Proof. unfold writeShort. quiet. Qed.
Lemma quiet_readShort : quiet (readShort (R:=R) (O:=O)). Proof. unfold readShort. quiet. Qed.
#[local] Hint Resolve quiet_connection_of quiet_set_connection quiet_send quiet_writeShort quiet_readShort : pipes.

Lemma quiet_setAcknowledged l ack : quiet (setAcknowledged (R:=R) (O:=O) l ack).
Proof. unfold setAcknowledged. quiet. Qed.
Lemma quiet_setClosing l : quiet (setClosing (R:=R) (O:=O) l). Proof. unfold setClosing. quiet. Qed.
#[local] Hint Resolve quiet_setAcknowledged quiet_setClosing : pipes.
Lemma quiet_closeLink c l : quiet (closeLink (R:=R) (O:=O) c l). Proof. unfold closeLink. quiet. Qed.
Lemma quiet_sendData c l bs : quiet (sendData (R:=R) (O:=O) c l bs). Proof. unfold sendData. quiet. Qed.
Lemma quiet_receiveData l : quiet (receiveData (R:=R) (O:=O) l). Proof. unfold receiveData. quiet. Qed.
Lemma quiet_erase_link c id l : quiet (erase_link (R:=R) (O:=O) c id l). Proof. unfold erase_link. quiet. Qed.
#[local] Hint Resolve quiet_closeLink quiet_sendData quiet_receiveData quiet_erase_link : pipes.
Lemma quiet_processLinkMessage c cmd l : quiet (processLinkMessage (R:=R) (O:=O) c cmd l).
Proof. unfold processLinkMessage. quiet. Qed.
#[local] Hint Resolve quiet_processLinkMessage : pipes.

(** [ConnectionLink::polled]. *)
Lemma quiet_link_polled l pf : quiet (link_polled (R:=R) (O:=O) l pf).
Proof. unfold link_polled. quiet. Qed.

Lemma quiet_add_link l : quiet (addPolled (R:=R) (O:=O) (PLink l)).
Proof. unfold addPolled, Poller.addPolled, Poller.on_poller. cbn [Poller.setPollfd tunnel_registers]. unfold link_setPollfd. quiet. Qed.
Lemma quiet_assign_link c id l : quiet (assign_link (R:=R) (O:=O) c id l). Proof. unfold assign_link. quiet. Qed.
Lemma quiet_listener_of c : quiet (listener_of (R:=R) (O:=O) c). Proof. unfold listener_of. quiet. Qed.
#[local] Hint Resolve quiet_add_link quiet_assign_link quiet_listener_of : pipes.

(** [ListenSide::polled]. *)
Lemma quiet_listen_polled c : quiet (listen_polled (R:=R) (O:=O) c).
Proof.
  unfold listen_polled. apply moves_bind; [apply _|quiet|intros n]. apply quiet_new; [apply pipe_accept|intros r Hr].
  destruct r as [f|e]; [|quiet]. specialize (Hr f eq_refl). quiet.
Qed.

Lemma quiet_connect_link c id spec : quiet (connect_link (R:=R) (O:=O) c id spec).
Proof.
  unfold connect_link. apply moves_bind; [apply _|quiet|intros [addr|]; [|quiet]].
  apply quiet_new; [apply pipe_socket|intros r Hr]. destruct r as [f|e]; [|quiet]. specialize (Hr f eq_refl). quiet.
Qed.
#[local] Hint Resolve quiet_connect_link : pipes.
Lemma quiet_connection_message id : quiet (connection_message (R:=R) (O:=O) id).
Proof.
  unfold connection_message, processMessage, listen_processMessage, connect_processMessage, listen_message, connect_message.
  quiet.
Qed.

(** What [CreateConnection] does. *)
Lemma quiet_initialize c : quiet (initialize (R:=R) (O:=O) c).
Proof.
  unfold initialize. apply moves_bind; [apply _|quiet|intros n]. apply quiet_new; [apply pipe_socket|intros r Hr]. quiet.
Qed.
Lemma quiet_add_listener c : quiet (addPolled (R:=R) (O:=O) (PListen c)).
Proof. unfold addPolled, Poller.addPolled, Poller.on_poller. cbn [Poller.setPollfd tunnel_registers]. unfold listen_setPollfd. quiet. Qed.
Lemma quiet_free_connection c : quiet (free_connection (R:=R) (O:=O) c).
Proof.
  unfold free_connection. apply moves_bind; [apply _|quiet|intros h]. destruct (h !! c) as [n|]; [|quiet].
  apply moves_bind; [apply _| |intros []; quiet]. intros s Hs. split; [|done]. cbn.
  generalize (map snd (map_to_list (m_link_map n))) as l. intros l. unfold sockets in *. cbn. revert Hs. generalize (links s) as h'. intros h' Hs.
  induction l as [|x l IH]; [done|]. cbn. by apply map_Forall_delete.
Qed.
Lemma quiet_new_connection k : quiet (new_connection (R:=R) (O:=O) k). Proof. unfold new_connection. quiet. Qed.
#[local] Hint Resolve quiet_initialize quiet_add_listener quiet_free_connection quiet_new_connection : pipes.
Lemma quiet_CreateConnection spec b id : quiet (CreateConnection (R:=R) (O:=O) spec b id).
Proof. unfold CreateConnection. quiet. Qed.
Lemma quiet_assign_connection id c : quiet (assign_connection (R:=R) (O:=O) id c).
Proof. unfold assign_connection. quiet. Qed.
End Callbacks.

(** ** The two roles *)

Section Roles.
Context {P : Posix} (T : traffic P) (rf wf : Z) `{!Pipe T rf wf} `{!PipeLaws T rf wf}.

Lemma quiet_cerr_endl {R O} : moves (undisturbed T rf wf (R:=R) (O:=O)) (zoom system_of Terminal.cerr_endl).
Proof.
  intros s. unfold zoom, Terminal.cerr_endl, syscall, mbind, M_bind. cbn.
  destruct (sys_tcgetattr 2 (system s)) as [r o] eqn:E. intros Hs. split; [done|]. by eapply pipe_tcgetattr.
Qed.

#[export] Instance local_quiet : QuietRole T rf wf StdioTunnelLocal.t unit.
Proof.
  intros text. cbn. unfold StdioTunnelLocal.report_error. apply moves_bind; [apply _|quiet|intros _].
  apply moves_bind; [apply _|apply quiet_cerr_endl|intros endl]. quiet.
Qed.

#[export] Instance remote_quiet : QuietRole T rf wf StdioTunnelRemote.t StdioTunnelRemote.own.
Proof.
  pose proof (quiet_send T rf wf (R:=StdioTunnelRemote.t) (O:=StdioTunnelRemote.own)).
  pose proof (fun z => quiet_writeShort T rf wf (R:=StdioTunnelRemote.t) (O:=StdioTunnelRemote.own) z).
  intros text. cbn. unfold StdioTunnelRemote.report_error. quiet.
Qed.
End Roles.

(** ** The process's own reading and writing *)

Section Own.
Context {P : Posix} (T : traffic P) (rf wf : Z) `{!Pipe T rf wf} `{!PipeLaws T rf wf} `{!PosixLaws T}.

(** Reading sends nothing and brings nothing new. *)
Definition only_read (o o' : os) : Prop := stream o' = stream o /\ sent T o' wf = sent T o wf.
#[local] Instance only_read_preorder : PreOrder only_read.
Proof. split; [done|]. intros o1 o2 o3 [] []. split; congruence. Qed.

Lemma fill_only_reads pf : moves (on lens_snd only_read) (ReadStream.fill pf).
Proof.
  assert (forall f n, moves (on lens_snd only_read) (ReadStream.read_more f n)) as Hr.
  { intros f n [s o]. unfold ReadStream.read_more. destruct (_ <? _); [done|].
    destruct (sys_read f n o) as [[bs|e] o'] eqn:E; by apply (pipe_read _ _ _ _ _ E). }
  assert (forall g : ReadStream.t -> ReadStream.t, moves (on lens_snd only_read) (modify (fun so : ReadStream.t * os => (g so.1, so.2)))) as Hm.
  { intros g [s o]. done. }
  unfold ReadStream.fill, ReadStream.fill_header, ReadStream.fill_body.
  repeat first [ apply Hr | apply Hm
    | first [apply moves_ret | apply moves_throw | apply moves_gets]; apply _
    | apply moves_bind; [apply _| |intros ?] | apply moves_when; [apply _|]
    | match goal with |- moves _ (match ?x with _ => _ end) => destruct x end ].
  intros [s o]. unfold modify. by destruct (_ =? _).
Qed.

(** [fill] on the pipe. *)
Lemma fill_pipe pf s o : fd pf = rf -> rs_wf s ->
  safely (ReadStream.fill pf) (s, o) (fun _ so => fill_effect T rf s o so.1 so.2 /\ only_read o so.2).
Proof.
  intros Hf W. pose proof (fill_spec T pf s o W) as F. rewrite Hf in F. pose proof (fill_only_reads pf (s, o)) as R. unfold safely.
  destruct (ReadStream.fill pf (s, o)) as [[] [s' o']|e so| |]; naive_solver.
Qed.

Lemma empty_returns pf s o : (exists x, WriteStream.empty pf (s, o) = Ret x.1 x.2) \/
  (exists x, WriteStream.empty pf (s, o) = Throw x.1 x.2).
Proof.
  unfold WriteStream.empty, mbind, M_bind, gets, WriteStream.pendingWrite. cbn [fst].
  destruct (has_bit _ _); cbn [andb]; [|left; by exists (pf, (s, o))].
  destruct (WriteStream.m_packet_queue s) as [|p q] eqn:Eq; [left; by exists (pf, (s, o))|]. cbn [length].
  change (0 <? Z.of_nat (Datatypes.S (length q))) with true. cbn iota. unfold WriteStream.on_front. rewrite Eq. unfold WriteStream.sendPacket.
  destruct (sys_write _ _ o) as [[n|e] o1]; [|right; by eexists (_, _)]. left.
  unfold when, modify. destruct (_ =? _); by eexists (_, _).
Qed.

(** [empty] on the pipe. *)
Lemma empty_pipe pf s o : fd pf = wf -> ws_wf s ->
  safely (WriteStream.empty pf) (s, o) (fun pf' so => fd pf' = fd pf /\ ws_wf so.1 /\
    WriteStream.m_queue so.1 = WriteStream.m_queue s /\
    sent T so.2 wf ++ unwritten so.1 = sent T o wf ++ unwritten s /\
    stream so.2 = stream o /\ received T so.2 rf = received T o rf /\
    sent T o wf `prefix_of` sent T so.2 wf).
Proof.
  intros Hf W. unfold safely. destruct (WriteStream.empty pf (s, o)) as [pf' [s' o']|e so| |] eqn:E; [|done| |].
  - pose proof (empty_effect T pf s o pf' s' o' W E) as (W' & Hq & Hs). rewrite Hf in Hs. cbn [fst snd].
    unfold WriteStream.empty, mbind, M_bind, gets in E. cbn [fst] in E.
    destruct (has_bit _ _ && _); [|by injection E as <- <- <-].
    unfold WriteStream.on_front in E. destruct (WriteStream.m_packet_queue s) as [|p q]; [done|].
    unfold WriteStream.sendPacket in E. destruct (sys_write _ _ o) as [[n|e] o1] eqn:Ew; [|done].
    destruct (pipe_write _ _ _ _ _ Ew) as [E1 E2]. apply (write_ok (T:=T)) in Ew as [_ Ew]. rewrite Hf in Ew. unfold when, modify in E.
    assert (sent T o wf `prefix_of` sent T o1 wf) as Hpre by (rewrite Ew; by apply prefix_app_r).
    destruct (_ =? _); injection E as <- <- <-; (split_and!; try done; by destruct (negb _)).
  - by destruct (empty_returns pf s o) as [[? E']|[? E']]; rewrite E' in E.
  - by destruct (empty_returns pf s o) as [[? E']|[? E']]; rewrite E' in E.
Qed.
End Own.

(** ** A scripted system with a pipe

    The system of Posix.v with a pipe to read: what is read from [rf] is what
    has been fed and not been read, everything else answers from the script.
    A descriptor that is made is not the pipe's. *)

Record piped : Type := Piped { script_of : script; bytes_read : list byte; bytes_fed : list byte }.

Section PipeOS.
Context (rf wf : Z).

Definition on_script {A} (call : script -> A * script) (o : piped) : A * piped :=
  let '(a, s) := call (script_of o) in (a, Piped s (bytes_read o) (bytes_fed o)).
Definition in_script (call : script -> script) (o : piped) : piped := Piped (call (script_of o)) (bytes_read o) (bytes_fed o).

Definition new_descriptor (r : sysres Z) : sysres Z :=
  match r with SysOk f => if (f =? rf) || (f =? wf) then SysErr 24 else r | SysErr _ => r end.

Definition pipe_sys_read (f n : Z) (o : piped) : sysres (list byte) * piped :=
  if f =? rf then
    let bs := take (Z.to_nat n) (bytes_fed o) in
    (match bs with [] => SysErr EAGAIN | _ => SysOk bs end, Piped (script_of o) (bytes_read o ++ bs) (drop (Z.to_nat n) (bytes_fed o)))
  else on_script (sys_read f n) o.

Definition made (call : script -> sysres Z * script) (o : piped) : sysres Z * piped :=
  let '(r, o') := on_script call o in (new_descriptor r, o').

Definition PipeOS : Posix := {|
  os := piped;
  sys_read := pipe_sys_read;
  sys_write f bs := on_script (sys_write f bs);
  sys_close f := in_script (sys_close f);
  sys_poll fds t := on_script (sys_poll fds t);
  sys_accept f := made (sys_accept f);
  sys_nonblock f := on_script (sys_nonblock f);
  sys_socket := made sys_socket;
  sys_bind f any port := on_script (sys_bind f any port);
  sys_listen f n := on_script (sys_listen f n);
  sys_gethostbyname h := on_script (sys_gethostbyname h);
  sys_connect f a p := on_script (sys_connect f a p);
  sys_getsockname f := on_script (sys_getsockname f);
  sys_cerr bs := in_script (sys_cerr bs);
  sys_signal := on_script sys_signal;
  sys_tcgetattr f := on_script (sys_tcgetattr f);
  sys_tcsetattr f act t := in_script (sys_tcsetattr f act t);
  sys_blocking f := in_script (sys_blocking f);
  sys_pipe := on_script sys_pipe;
  sys_fork := on_script sys_fork;
  sys_dup f := on_script (sys_dup f);
  sys_dup2 f g := in_script (sys_dup2 f g);
  sys_forkpty t := on_script (sys_forkpty t);
  sys_execvp c := in_script (sys_execvp c);
  sys_chdir d := on_script (sys_chdir d);
  sys_getaddrinfo h p := on_script (sys_getaddrinfo h p);
  sys_socket_ai ai := made (sys_socket_ai ai);
  sys_reuseaddr f := in_script (sys_reuseaddr f);
  sys_bind_ai f ai := on_script (sys_bind_ai f ai);
  sys_connect_ai f ai := on_script (sys_connect_ai f ai);
  inet_ntop := inet_ntop (Posix := ScriptOS);
  sys_thread_create := on_script sys_thread_create;
  sys_thread_join p := in_script (sys_thread_join p);
  sys_malloc n := on_script (sys_malloc n);
  sys_free p := in_script (sys_free p)
|}.

Definition pipe_received (o : piped) (f : Z) : list byte :=
  if f =? rf then bytes_read o else script_received (script_of o) f.
Definition pipe_traffic : traffic PipeOS :=
  Traffic PipeOS (fun o f => script_sent (script_of o) f) pipe_received.

#[export] Instance pipe_pipe : Pipe (P:=PipeOS) pipe_traffic rf wf := {|
  stream (o : @os PipeOS) := bytes_read o ++ bytes_fed o;
  feed bs (o : @os PipeOS) := Piped (script_of o) (bytes_read o) (bytes_fed o ++ bs)
|}.

Lemma on_script_inv {A} (call : script -> A * script) o a o' : on_script call o = (a, o') ->
  exists s, call (script_of o) = (a, s) /\ o' = Piped s (bytes_read o) (bytes_fed o).
Proof. unfold on_script. destruct (call _) as [a1 s] eqn:E. intros [= <- <-]. eauto. Qed.

#[export] Instance pipe_posix_laws : PosixLaws pipe_traffic.
Proof.
  split; cbn; unfold pipe_sys_read, pipe_received.
  - intros f n o bs o'. destruct (Z.eqb_spec f rf) as [->|].
    + intros E. assert (bs = take (Z.to_nat n) (bytes_fed o) /\ bytes_read o' = bytes_read o ++ bs) as [-> ->].
      { destruct (take _ _) eqn:Et; [done|]. by injection E as <- <-. }
      split; [rewrite length_take; lia|done].
    + intros (s & E & ->)%on_script_inv. exact (read_ok (T:=script_traffic) _ _ _ _ _ E).
  - intros f n o e o'. destruct (Z.eqb_spec f rf) as [->|].
    + destruct (take _ _) eqn:Et; [|done]. intros [= <- <-]. cbn. apply app_nil_r.
    + intros (s & E & ->)%on_script_inv. exact (read_err (T:=script_traffic) _ _ _ _ _ E).
  - intros f bs o k o' (s & E & ->)%on_script_inv. exact (write_ok (T:=script_traffic) _ _ _ _ _ E).
  - intros f bs o e o' (s & E & ->)%on_script_inv. exact (write_err (T:=script_traffic) _ _ _ _ _ E).
  - intros fds t o k rs o' (s & E & ->)%on_script_inv. exact (poll_ok (T:=script_traffic) fds t _ k rs s E).
Qed.

(** Calls that are no traffic at all. *)
Lemma pipe_calm {A} (call : script -> A * script) (o : piped) a o' : on_script call o = (a, o') ->
  (forall s, Posix.quiet script_traffic s (call s).2) -> @calm PipeOS pipe_traffic rf wf _ o o'.
Proof.
  intros (s & E & ->)%on_script_inv H. specialize (H (script_of o)). rewrite E in H.
  destruct (H wf) as [H1 _]. destruct (H rf) as [_ H2]. split_and!; [done| |exact H1]. cbn. unfold pipe_received. by rewrite Z.eqb_refl.
Qed.
Lemma pipe_calm_ (call : script -> script) (o : piped) : (forall s, Posix.quiet script_traffic s (call s)) ->
  @calm PipeOS pipe_traffic rf wf _ o (in_script call o).
Proof.
  intros H. destruct (H (script_of o) wf) as [H1 _]. split_and!; [done| |exact H1]. cbn. unfold pipe_received. by rewrite Z.eqb_refl.
Qed.
Lemma made_calm (call : script -> sysres Z * script) (o : piped) r o' : made call o = (r, o') ->
  (forall s, Posix.quiet script_traffic s (call s).2) ->
  @calm PipeOS pipe_traffic rf wf _ o o' /\ forall g, r = SysOk g -> apart rf wf g.
Proof.
  unfold made. destruct (on_script call o) as [r1 o1] eqn:E. intros [= <- <-] H. split; [by eapply pipe_calm|].
  unfold new_descriptor, apart. destruct r1 as [f|]; [|done]. intros g.
  destruct (Z.eqb_spec f rf), (Z.eqb_spec f wf); cbn; intros [= <-]; done.
Qed.

Lemma on_num_quiet s : Posix.quiet script_traffic s (on_num s).2.
Proof. unfold on_num. destruct (pop s). by apply script_quiet_log. Qed.
Lemma on_unit_quiet s : Posix.quiet script_traffic s (on_unit s).2.
Proof. unfold on_unit. destruct (pop s). by apply script_quiet_log. Qed.

#[export] Instance pipe_pipe_laws : PipeLaws (P:=PipeOS) pipe_traffic rf wf.
Proof.
  split; cbn -[pop].
  - intros o. unfold pipe_received. rewrite Z.eqb_refl. by apply prefix_app_r.
  - intros bs o. by rewrite app_assoc.
  - intros bs o. done.
  - intros f n o r o'. unfold pipe_sys_read. destruct (Z.eqb_spec f rf) as [->|].
    + intros [= _ <-]. cbn. by rewrite <- app_assoc, take_drop.
    + intros (s & E & ->)%on_script_inv. split; [done|]. exact (proj1 (read_quiet (T:=script_traffic) f n _ r s E) wf).
  - intros f n o r o'. unfold pipe_sys_read, pipe_received. rewrite Z.eqb_refl.
    destruct (Z.eqb_spec f rf) as [->|]; [done|]. by intros (s & E & ->)%on_script_inv.
  - intros f bs o r o' (s & E & ->)%on_script_inv. split; [done|]. unfold pipe_received. by rewrite Z.eqb_refl.
  - intros f bs o r o' (s & E & ->)%on_script_inv Hf. by apply (proj2 (write_quiet (T:=script_traffic) f bs _ r s E)).
  - intros f o r o' E. eapply made_calm; [exact E|apply on_num_quiet].
  - intros o r o' E. eapply made_calm; [exact E|apply on_num_quiet].
  - intros f o _. apply pipe_calm_. intros s. by apply script_quiet_log.
  - intros fds t o r o' E. eapply pipe_calm; [exact E|]. intros s. cbn. destruct (pop s) as [[] ?]; by apply script_quiet_log.
  - intros f o r o' E. eapply pipe_calm; [exact E|apply on_unit_quiet].
  - intros f any port o r o' E. eapply pipe_calm; [exact E|apply on_unit_quiet].
  - intros f n o r o' E. eapply pipe_calm; [exact E|apply on_unit_quiet].
  - intros h o r o' E. eapply pipe_calm; [exact E|]. intros s. cbn. destruct (pop s). by apply script_quiet_log.
  - intros f a p o r o' E. eapply pipe_calm; [exact E|apply on_unit_quiet].
  - intros bs o. apply pipe_calm_. intros s. by apply script_quiet_log.
  - intros f o r o' E. eapply pipe_calm; [exact E|]. intros s. cbn. destruct (pop s) as [[] ?]; by apply script_quiet_log.
  - intros f act t o. apply pipe_calm_. intros s. by apply script_quiet_log.
  - intros o r o' E. eapply pipe_calm; [exact E|]. intros s. cbn. by destruct (answers s) as [|[|[]| |] ?]; try apply script_quiet_log.
Qed.
End PipeOS.
