(* ===== verification/System.v ===== *)
(** * Two processes

    The two processes of a tunnel once both are connected, joined by the
    payloads on their way: each takes its turns in any order, with any
    answers from its system.  Both stay typed, every link is always in a
    state the automata of Session.v allow, no message is ever refused, and
    when nothing is on its way the two ends agree on which links there are. *)

From stdpp Require Import base list tactics gmap strings relations well_founded.
From Stdlib Require Import ZArith Lia.
From S2P Require Import Prelude Posix Wire SockBuffer Poller Spec Magic Tunnel Connection Socks5 Local Remote Behaviour Protocol Links Session Memory Ends Hearing.
Import StdioTunnel TunnelConnection.

Abbreviation payload := (list byte).

(** ** One process *)

(** What the other process needs of this one: how it takes messages while
    its derived class is in the right state.  [keeps] is what it may change of
    its role beside. *)
Class Hearer {P : Posix} (R O : Type) `{EqDecision O} `{!Role R O} `{!Reporter (R:=R) (O:=O)} : Type := {
  takes : M (tunnel R O) unit;
  attentive : R -> Prop;
  keeps : R -> R -> Prop;
  keeps_preorder :: PreOrder keeps;
  keeps_attentive r r' : keeps r r' -> attentive r -> attentive r';
  hears_errors : bool;
  takes_link c l m (s : tunnel R O) : attentive (role s) -> takes (told (MLink c l m) s) = hear (told (MLink c l m) s);
  takes_error text (s : tunnel R O) : hears_errors = true -> zlen text < 4294967296 ->
    exists o, takes (told (MError text) s) = Ret tt (update system_of o (unread [] s))
}.

Section Turns.
Context {P : Posix} {R O : Type} `{EqDecision O} `{!Role R O} `{!Reporter (R:=R) (O:=O)} `{!Hearer R O}.
Context (T : traffic P) `{!PosixLaws T}.
Abbreviation S := (tunnel R O).
Implicit Types (s : S).

(** What a process may do beside: write out its packets, read a part of one,
    keep the books of its poller, call the system.  The connections, the links
    and what is queued to be said stay. *)
Record beside (s s' : S) : Prop := Beside {
  bs_map : m_connection_map s' = m_connection_map s;
  bs_connections : connections s' = connections s;
  bs_links : links s' = links s;
  bs_next : next_object s' = next_object s;
  bs_watched : filter not_own (watch_list (m_poller s')) = filter not_own (watch_list (m_poller s));
  bs_entries : entries_ok (m_poller s) -> entries_ok (m_poller s');
  bs_target : m_write_target s' = m_write_target s;
  bs_queue : WriteStream.m_queue (m_write_stream s') = WriteStream.m_queue (m_write_stream s);
  bs_role : keeps (role s) (role s')
}.

(** A turn of the process, with the payload it reads, if any, and those it
    queues: the poller calls a link or a listener (whose next id is not in
    use), a payload is taken, or something is done beside. *)
Inductive turn (s : S) : option payload -> S -> list payload -> Prop :=
| turn_link l pf s' ps : l ∈ watched_links (memory_of s) -> link_polled l pf s = Ret tt s' ->
    packets s' = packets s ++ map WriteStream.new_WritePacket ps -> turn s None s' ps
| turn_listener c f n ls ni s' ps : (PListen c, f) ∈ watched (memory_of s) -> connections s !! c = Some n ->
    m_side n = ListenSide ls ni -> m_link_map n !! i16 ni = None -> listen_polled c s = Ret tt s' ->
    packets s' = packets s ++ map WriteStream.new_WritePacket ps -> turn s None s' ps
| turn_beside s' : beside s s' -> turn s None s' []
| turn_read p s' ps : takes (unread p s) = Ret tt s' ->
    packets s' = packets s ++ map WriteStream.new_WritePacket ps -> turn s (Some p) s' ps.

Lemma new_WritePacket_inj q q' : WriteStream.new_WritePacket q = WriteStream.new_WritePacket q' -> q = q'.
Proof.
  intros E. apply (f_equal WriteStream.m_buf) in E. rewrite !new_WritePacket_buf in E.
  apply app_inj_1 in E as [_ E]; [done|]. by rewrite !length_be32.
Qed.

(** The packets queued are those of the messages said. *)
Lemma packets_said s s' ms ps : packets s' = packets s ++ map (fun m => WriteStream.new_WritePacket (enc_message m)) ms ->
  packets s' = packets s ++ map WriteStream.new_WritePacket ps -> ps = map enc_message ms.
Proof.
  intros -> E%app_inv_head. revert ps E. induction ms as [|m ms IH]; intros [|p ps] E; try done.
  cbn [map]. f_equal; [|apply IH; exact (f_equal tail E)].
  apply new_WritePacket_inj. symmetry. exact (f_equal (hd (WriteStream.new_WritePacket p)) E).
Qed.
Lemma turn_reads s p s' ps : turn s (Some p) s' ps ->
  takes (unread p s) = Ret tt s' /\ packets s' = packets s ++ map WriteStream.new_WritePacket ps.
Proof. intros Ht. inversion Ht. by subst. Qed.

(** What stays and what has been said. *)
Record kept (s s' : S) (ms : list message) : Prop := Kept {
  kept_sound : sound s';
  kept_attentive : attentive (role s) -> attentive (role s');
  kept_sides cid : side_at s' cid = side_at s cid;
  kept_known cid : is_Some (m_connection_map s' !! cid) <-> is_Some (m_connection_map s !! cid);
  kept_sayable : Forall sayable ms
}.

Lemma effect_kept s s' ms : effect s s' ms -> kept s s' ms.
Proof. intros []. split; try done. congruence. Qed.

Lemma kept_unread q s s' ms : kept (unread q s) s' ms -> kept s s' ms.
Proof. intros []. by split. Qed.

Lemma beside_state s s' cid lid : beside s s' -> state_at s' cid lid = state_at s cid lid.
Proof.
  intros []. apply look_same; [unfold find; cbn; by rewrite bs_map0, bs_connections0|].
  intros k _. split; [cbn; by rewrite bs_links0|]. rewrite !watched_links_others. cbn [watched memory_of]. by rewrite bs_watched0.
Qed.

Lemma beside_kept s s' : sound s -> beside s s' -> kept s s' [].
Proof.
  intros [Ty En Bu [t [Ht Hq]]] []. split; try done; try by apply keeps_attentive.
  - split; [|auto|unfold buffers_ok; by rewrite bs_links0|exists t; split; congruence].
    apply (typed_others (memory_of s)); cbn; congruence || done.
  - intros cid. unfold side_at, side_of, memory_of. cbn. by rewrite bs_map0, bs_connections0.
  - intros cid. by rewrite bs_map0.
Qed.

(** A callback. *)
Lemma turn_alone s s' ps : sound s -> turn s None s' ps -> exists ms, ps = map enc_message ms /\ kept s s' ms /\
  forall cid lid, end_steps (side_at s cid) (state_at s cid lid) (about cid lid ms) (state_at s' cid lid).
Proof.
  intros So Ht.
  assert ((exists ms, packets s' = packets s ++ map WriteStream.new_WritePacket ps /\ acts s s' ms) \/
          (ps = [] /\ beside s s')) as [(ms & Pa & Ef & Hs)|[-> B]].
  - remember None as h eqn:Eh. destruct Ht as [l pf s' ps W E Pa|c f n ls ni s' ps W N Hs Hf E Pa|s' B|]; [left|left|right|done].
    + pose proof (link_polled_part T s l pf So W) as H1. unfold safely in H1. rewrite E in H1.
      destruct H1 as (ms & A & _). eauto.
    + pose proof (listen_polled_acts s c n ls ni So N Hs Hf) as H1. unfold safely in H1. rewrite E in H1.
      destruct H1 as (ms & A & _). eauto.
    + done.
  - exists ms. split_and!; [by eapply packets_said; [apply Ef|]|by apply effect_kept|done].
  - exists []. split_and!; [done|by apply beside_kept|]. intros cid lid. rewrite (beside_state _ _ _ _ B). constructor.
Qed.

(** A message about a link is heard. *)
Lemma turn_heard s cid lid m out y : sound s -> attentive (role s) -> is_Some (m_connection_map s !! i16 cid) ->
  message_ok (MLink cid lid m) ->
  end_step (side_at s (i16 cid)) (state_at s (i16 cid) (i16 lid)) (Some m) out y ->
  exists s' ms, turn s (Some (enc_message (MLink cid lid m))) s' (map enc_message ms) /\ hears s (i16 cid) (i16 lid) m s' ms /\
    forall s2 ps, turn s (Some (enc_message (MLink cid lid m))) s2 ps -> s2 = s' /\ ps = map enc_message ms.
Proof.
  intros So Ha I Hok Hs. destruct (hear_hears s cid lid m out y So I Hok Hs) as (s' & ms & E & Hh).
  rewrite <- takes_link in E by done. exists s', ms. split_and!.
  { apply turn_read; [exact E|]. rewrite map_map. apply Hh. }
  { done. }
  intros s2 ps Ht. destruct (turn_reads _ _ _ _ Ht) as [E2 Pa].
  unfold told in E. rewrite E in E2. injection E2 as <-. split; [done|].
  eapply packets_said; [apply Hh|done].
Qed.

(** An error is heard, and printed. *)
Lemma turn_error s text : sound s -> hears_errors = true -> zlen text < 4294967200 ->
  exists s', turn s (Some (enc_message (MError text))) s' [] /\ effect (unread [] s) s' [] /\ memory_of s' = memory_of s /\
    forall s2 ps, turn s (Some (enc_message (MError text))) s2 ps -> s2 = s' /\ ps = [].
Proof.
  intros So He Ht. destruct (takes_error text s He ltac:(lia)) as [o E]. eexists.
  split; [apply turn_read; [exact E|by rewrite app_nil_r]|].
  split; [apply effect_system; by apply sound_unread|]. split; [done|].
  intros s2 ps Hr. destruct (turn_reads _ _ _ _ Hr) as [E2 Pa].
  unfold told in E. rewrite E in E2. injection E2 as <-. split; [done|].
  apply (packets_said s (update system_of o (unread [] s)) []) in Pa; [done|]. by rewrite app_nil_r.
Qed.
End Turns.

(** ** Two ends of a link, whichever of them asks *)

Definition fine (sd1 sd2 : end_side) (x y : link_state) (q12 q21 : list link_message) : Prop :=
  match sd1, sd2 with
  | Asking, Answering => pair_ok (Pair x y q12 q21)
  | Answering, Asking => pair_ok (Pair y x q21 q12)
  | Answering, Answering => x = Absent /\ y = Absent /\ q12 = [] /\ q21 = []
  | Asking, Asking => False
  end.

Lemma fine_swap sd1 sd2 x y q12 q21 : fine sd1 sd2 x y q12 q21 -> fine sd2 sd1 y x q21 q12.
Proof. destruct sd1, sd2; cbn; tauto. Qed.

Lemma absent_silent out x : end_steps Answering Absent out x -> out = [] /\ x = Absent.
Proof. intros H. inversion H as [|? ? ? ? ? Hs]; subst; [done|inversion Hs]. Qed.

Lemma fine_acts sd1 sd2 x y q12 q21 out x' :
  fine sd1 sd2 x y q12 q21 -> end_steps sd1 x out x' -> fine sd1 sd2 x' y (q12 ++ out) q21.
Proof.
  destruct sd1, sd2; cbn; intros Hf Hs; [done|by eapply asking_acts_many|by eapply answering_acts_many|].
  destruct Hf as (-> & -> & -> & ->). by apply absent_silent in Hs as [-> ->].
Qed.

Lemma fine_hears sd1 sd2 x y q12 m q21 : fine sd1 sd2 x y q12 (m :: q21) -> exists out x', end_step sd1 x (Some m) out x'.
Proof.
  destruct sd1, sd2; cbn; intros Hf; [done|by eapply asking_hears|by eapply answering_hears|].
  by destruct Hf as (_ & _ & _ & [=]).
Qed.

Lemma fine_heard sd1 sd2 x y q12 m q21 out x' :
  fine sd1 sd2 x y q12 (m :: q21) -> end_step sd1 x (Some m) out x' -> fine sd1 sd2 x' y (q12 ++ out) q21.
Proof.
  destruct sd1, sd2; cbn; intros Hf Hs; [done|by eapply asking_heard|by eapply answering_heard|].
  by destruct Hf as (_ & _ & _ & [=]).
Qed.

Lemma fine_quiet sd1 sd2 x y : fine sd1 sd2 x y [] [] -> x = y /\ (x = Absent \/ x = Open).
Proof.
  destruct sd1, sd2; cbn; intros Hf; [done|by apply pair_quiet| |].
  - by apply pair_quiet in Hf as [-> ?].
  - destruct Hf as (-> & -> & _). auto.
Qed.

(** ** Worlds *)

Record world (A B : Type) : Type := World {
  first : A;
  second : B;
  to_second : list payload;
  to_first : list payload
}.
Arguments World {A B} _ _ _ _.
Arguments first {A B} _.
Arguments second {A B} _.
Arguments to_second {A B} _.
Arguments to_first {A B} _.

Definition swap {A B} (w : world A B) : world B A := World (second w) (first w) (to_first w) (to_second w).

(** The first process takes a turn; [delivered] if it reads. *)
Inductive left_step {P : Posix} {R O B : Type} `{EqDecision O} `{!Role R O} `{!Reporter (R:=R) (O:=O)} `{!Hearer R O} :
  bool -> world (tunnel R O) B -> world (tunnel R O) B -> Prop :=
| left_alone a b q2 q1 a' ps : turn a None a' ps -> left_step false (World a b q2 q1) (World a' b (q2 ++ ps) q1)
| left_reads a b q2 p q1 a' ps : turn a (Some p) a' ps -> left_step true (World a b q2 (p :: q1)) (World a' b (q2 ++ ps) q1).

(** What both processes and what is on its way have in common; [m2] and [m1]
    are the messages on their way to the second and to the first. *)
Section Agreeing.
Context {P1 P2 : Posix} {R1 O1 R2 O2 : Type}.
Context `{EqDecision O1} `{!Role (P:=P1) R1 O1} `{!Reporter (R:=R1) (O:=O1)} `{!Hearer R1 O1}.
Context `{EqDecision O2} `{!Role (P:=P2) R2 O2} `{!Reporter (R:=R2) (O:=O2)} `{!Hearer R2 O2}.

Record agreeing (w : world (tunnel (P:=P1) R1 O1) (tunnel (P:=P2) R2 O2)) (m2 m1 : list message) : Prop := Agreeing {
  ag_first : sound (first w);
  ag_second : sound (second w);
  ag_first_attentive : attentive (role (first w));
  ag_second_attentive : attentive (role (second w));
  ag_to_second : to_second w = map enc_message m2;
  ag_to_first : to_first w = map enc_message m1;
  ag_first_said : Forall (sayable (R:=R1) (O:=O1)) m2;
  ag_second_said : Forall (sayable (R:=R2) (O:=O2)) m1;
  ag_known_first cid : side_at (second w) cid = Asking -> is_Some (m_connection_map (first w) !! cid);
  ag_known_second cid : side_at (first w) cid = Asking -> is_Some (m_connection_map (second w) !! cid);
  ag_links cid lid : fine (side_at (first w) cid) (side_at (second w) cid)
    (state_at (first w) cid lid) (state_at (second w) cid lid) (about cid lid m2) (about cid lid m1)
}.
End Agreeing.

Section Left.
Context {P1 P2 : Posix} {R1 O1 R2 O2 : Type}.
Context `{EqDecision O1} `{!Role (P:=P1) R1 O1} `{!Reporter (R:=R1) (O:=O1)} `{!Hearer R1 O1}.
Context `{EqDecision O2} `{!Role (P:=P2) R2 O2} `{!Reporter (R:=R2) (O:=O2)} `{!Hearer R2 O2}.
Context (T : traffic P1) `{!PosixLaws T}.
Context (Herr : reports (R:=R2) (O:=O2) = true -> hears_errors (R:=R1) (O:=O1) = true).
Abbreviation A := (tunnel (P:=P1) R1 O1).
Abbreviation B := (tunnel (P:=P2) R2 O2).
Implicit Types (w : world A B).

(** The first process says [ms]. *)
Lemma agreeing_said w m2 m1 a' ms m1' : agreeing w m2 m1 -> kept (first w) a' ms ->
  Forall (sayable (R:=R2) (O:=O2)) m1' ->
  (forall cid lid, fine (side_at (first w) cid) (side_at (second w) cid)
    (state_at a' cid lid) (state_at (second w) cid lid) (about cid lid m2 ++ about cid lid ms) (about cid lid m1')) ->
  agreeing (World a' (second w) (to_second w ++ map enc_message ms) (map enc_message m1')) (m2 ++ ms) m1'.
Proof.
  intros [] [] Hm Hf. split; cbn [first second to_second to_first]; try done.
  - auto.
  - by rewrite map_app, ag_to_second0.
  - by apply Forall_app.
  - intros cid Hs. rewrite kept_known0. by apply ag_known_first0.
  - intros cid. rewrite kept_sides0. apply ag_known_second0.
  - intros cid lid. by rewrite kept_sides0, about_app.
Qed.
Lemma agreeing_alone w w' m2 m1 : agreeing w m2 m1 -> left_step false w w' -> exists ms, agreeing w' (m2 ++ ms) m1.
Proof.
  intros Ag Hs. inversion Hs as [a b q2 q1 a' ps Ht|]; subst.
  destruct (turn_alone T a a' ps (ag_first _ _ _ Ag) Ht) as (ms & -> & K & Hl). exists ms.
  pose proof (ag_to_first _ _ _ Ag) as E1. cbn in E1. rewrite E1.
  apply (agreeing_said (World a b q2 q1) m2 m1 a' ms m1 Ag K (ag_second_said _ _ _ Ag)).
  intros cid lid. eapply fine_acts; [apply (ag_links _ _ _ Ag)|apply Hl].
Qed.

(** The process knows the connection of a message about a link. *)
Lemma agreeing_known w m2 m1 cid lid m : agreeing w m2 (MLink cid lid m :: m1) ->
  is_Some (m_connection_map (first w) !! i16 cid).
Proof.
  intros Ag. pose proof (ag_links _ _ _ Ag (i16 cid) (i16 lid)) as Hf. unfold about at 2 in Hf. cbn in Hf.
  rewrite decide_True in Hf by done. destruct (side_at (first w) (i16 cid)) eqn:S1.
  - unfold side_at, side_of in S1. cbn in S1. destruct (m_connection_map (first w) !! i16 cid); [eauto|done].
  - destruct (side_at (second w) (i16 cid)) eqn:S2; cbn in Hf.
    + by apply (ag_known_first _ _ _ Ag).
    + by destruct Hf as (_ & _ & _ & [=]).
Qed.

(** A step that reads has a message to read. *)
Lemma left_step_message w w' m2 m1 : agreeing w m2 m1 -> left_step true w w' -> exists m m1', m1 = m :: m1'.
Proof.
  intros Ag Hs. inversion Hs as [|a b q2 p q1 a' ps Hp]; subst. pose proof (ag_to_first _ _ _ Ag) as E.
  destruct m1 as [|m m1]; [done|eauto].
Qed.

Lemma left_step_readable w m m1 a' ps : to_first w = map enc_message (m :: m1) -> turn (first w) (Some (enc_message m)) a' ps ->
  left_step true w (World a' (second w) (to_second w ++ ps) (map enc_message m1)).
Proof. destruct w as [a b q2 q1]. cbn [to_first first second to_second map]. intros ->. apply left_reads. Qed.

(** A step that reads, where the first message is [m]. *)
Lemma left_step_reads w w' m2 m m1 : agreeing w m2 (m :: m1) -> left_step true w w' -> exists ps,
  turn (first w) (Some (enc_message m)) (first w') ps /\
  w' = World (first w') (second w) (to_second w ++ ps) (map enc_message m1).
Proof.
  intros Ag Hs. inversion Hs as [|a b q2 p q1 a' ps Hp]; subst. exists ps.
  pose proof (ag_to_first _ _ _ Ag) as Eq. cbn [to_first map] in Eq. injection Eq as -> ->. done.
Qed.

(** Whatever comes first is taken, and the two go on agreeing, with less to
    be done. *)
Lemma agreeing_reads w m2 m m1 : agreeing w m2 (m :: m1) ->
  exists a' ms, turn (first w) (Some (enc_message m)) a' (map enc_message ms) /\
    (forall w', left_step true w w' -> first w' = a' /\ second w' = second w /\ agreeing w' (m2 ++ ms) m1) /\
    (cost ms + load a' < weight m + load (first w))%nat /\
    effect (unread [] (first w)) a' ms /\ creates ms = 0.
Proof.
  intros Ag. pose proof (ag_second_said _ _ _ Ag) as [Hm Hm1]%Forall_cons.
  destruct m as [text| | | |cid lid m]; cbn in Hm; try done.
  - destruct Hm as [Hr Ht]. destruct (turn_error (first w) text (ag_first _ _ _ Ag) (Herr Hr) Ht) as (a' & E & K & M & Hu).
    exists a', []. split_and!; [done| |by rewrite (load_memory _ _ M); cbn; lia|done|done].
    intros w' Hs. apply (left_step_reads _ _ _ _ _ Ag) in Hs as (ps & [-> ->]%Hu & ->). split_and!; [done..|].
    apply (agreeing_said w m2 (MError text :: m1) a' [] m1 Ag (kept_unread [] _ _ _ (effect_kept _ _ _ K)) Hm1). intros c l. rewrite app_nil_r.
    unfold state_at. rewrite M. exact (ag_links _ _ _ Ag c l).
  - pose proof (ag_links _ _ _ Ag (i16 cid) (i16 lid)) as Hf. unfold about at 2 in Hf. cbn in Hf.
    rewrite decide_True in Hf by done. destruct (fine_hears _ _ _ _ _ _ _ Hf) as (out & y & Hs).
    destruct (turn_heard (first w) cid lid m out y (ag_first _ _ _ Ag) (ag_first_attentive _ _ _ Ag)
                (agreeing_known _ _ _ _ _ _ Ag) Hm Hs) as (a' & ms & E & Hh & Hu).
    exists a', ms. split_and!; [done| |exact (hears_less _ _ _ _ _ _ Hh)|exact (hears_effect _ _ _ _ _ _ Hh)|exact (hears_creates _ _ _ _ _ _ Hh)].
    intros w' Hw. apply (left_step_reads _ _ _ _ _ Ag) in Hw as (ps & [-> ->]%Hu & ->). split_and!; [done..|].
    apply (agreeing_said w m2 (MLink cid lid m :: m1) a' ms m1 Ag (kept_unread [] _ _ _ (effect_kept _ _ _ (hears_effect _ _ _ _ _ _ Hh))) Hm1).
    intros c l. destruct (decide ((c, l) = (i16 cid, i16 lid))) as [[= -> ->]|Hne].
    + eapply fine_heard; [exact Hf|apply (hears_step _ _ _ _ _ _ Hh)].
    + destruct (hears_others _ _ _ _ _ _ Hh c l Hne) as [-> ->]. rewrite app_nil_r.
      pose proof (ag_links _ _ _ Ag c l) as Hg. unfold about at 2 in Hg. cbn in Hg. by rewrite decide_False in Hg.
Qed.
End Left.

(** ** The session *)

(** Every run of [step] comes to a state where [Q] holds. *)
Inductive settles {W : Type} (step : W -> W -> Prop) (Q : W -> Prop) (w : W) : Prop :=
| settles_now : Q w -> settles step Q w
| settles_later : (exists w', step w w') -> (forall w', step w w' -> settles step Q w') -> settles step Q w.

Section Sessions.
Context {P1 P2 : Posix} {R1 O1 R2 O2 : Type}.
Context `{EqDecision O1} `{!Role (P:=P1) R1 O1} `{!Reporter (R:=R1) (O:=O1)} `{!Hearer R1 O1}.
Context `{EqDecision O2} `{!Role (P:=P2) R2 O2} `{!Reporter (R:=R2) (O:=O2)} `{!Hearer R2 O2}.
Context (T1 : traffic P1) `{!PosixLaws T1} (T2 : traffic P2) `{!PosixLaws T2}.
Context (Herr1 : reports (R:=R2) (O:=O2) = true -> hears_errors (R:=R1) (O:=O1) = true).
Context (Herr2 : reports (R:=R1) (O:=O1) = true -> hears_errors (R:=R2) (O:=O2) = true).
Abbreviation A := (tunnel (P:=P1) R1 O1).
Abbreviation B := (tunnel (P:=P2) R2 O2).
Implicit Types (w : world A B).

(** A turn of either process. *)
Definition world_step (reads : bool) w w' : Prop := left_step reads w w' \/ left_step reads (swap w) (swap w').
Definition moves_on w w' : Prop := exists reads, world_step reads w w'.

Lemma first_alone (a a' : A) (b : B) q2 q1 ps : turn a None a' ps -> moves_on (World a b q2 q1) (World a' b (q2 ++ ps) q1).
Proof. intros Ht. exists false. left. by apply left_alone. Qed.
Lemma first_reads (a a' : A) (b : B) q2 p q1 ps : turn a (Some p) a' ps ->
  moves_on (World a b q2 (p :: q1)) (World a' b (q2 ++ ps) q1).
Proof. intros Ht. exists true. left. by apply left_reads. Qed.
Lemma second_reads (a : A) (b b' : B) p q2 q1 ps : turn b (Some p) b' ps ->
  moves_on (World a b (p :: q2) q1) (World a b' q2 (q1 ++ ps)).
Proof. intros Ht. exists true. right. by apply left_reads. Qed.

Lemma swap_back (w : world B A) : swap (swap w) = w.
Proof. by destruct w. Qed.

Lemma agreeing_swap w m2 m1 : agreeing w m2 m1 -> agreeing (swap w) m1 m2.
Proof. intros []. split; try done. intros cid lid. by apply fine_swap. Qed.
Lemma agreeing_unswap w m2 m1 : agreeing (swap w) m1 m2 -> agreeing w m2 m1.
Proof. intros []. split; try done. intros cid lid. by apply fine_swap. Qed.

(** How much reading is left to be done. *)
Definition work w (m2 m1 : list message) : nat :=
  (cost m2 + cost m1 + load (first w) + load (second w))%nat.

(** A process that reads. *)
Lemma agreeing_read_step w w' m2 m1 : agreeing w m2 m1 -> world_step true w w' ->
  exists m2' m1', agreeing w' m2' m1' /\ (work w' m2' m1' < work w m2 m1)%nat.
Proof.
  assert (forall m ms, cost (m :: ms) = (weight m + cost ms)%nat) as Cc by done.
  intros Ag [Hs|Hs].
  - destruct (left_step_message w w' m2 m1 Ag Hs) as (m & m1' & ->). rename m1' into m1.
    destruct (agreeing_reads Herr1 w m2 m m1 Ag) as (a' & ms & _ & Hr & Hl & _).
    destruct (Hr w' Hs) as (E1 & E2 & Ag'). exists (m2 ++ ms), m1. split; [done|].
    unfold work. rewrite E1, E2, cost_app, Cc. lia.
  - pose proof (agreeing_swap _ _ _ Ag) as Ags.
    destruct (left_step_message _ _ _ _ Ags Hs) as (m & m2' & ->). rename m2' into m2.
    destruct (agreeing_reads Herr2 (swap w) m1 m m2 Ags) as (b' & ms & _ & Hr & Hl & _).
    destruct (Hr (swap w') Hs) as (E1 & E2 & Ag'). exists m2, (m1 ++ ms). split; [by apply agreeing_unswap|].
    cbn in E1, E2. cbn [swap first] in Hl. unfold work. rewrite E1, E2, cost_app, Cc. lia.
Qed.

Lemma agreeing_step w w' m2 m1 : agreeing w m2 m1 -> moves_on w w' -> exists m2' m1', agreeing w' m2' m1'.
Proof.
  intros Ag [[] Hs].
  - destruct (agreeing_read_step w w' m2 m1 Ag Hs) as (? & ? & ? & _). eauto.
  - destruct Hs as [Hs|Hs].
    + destruct (agreeing_alone T1 w w' m2 m1 Ag Hs) as (ms & Ag'). eauto.
    + destruct (agreeing_alone T2 (swap w) (swap w') m1 m2 (agreeing_swap _ _ _ Ag) Hs) as (ms & Ag').
      apply agreeing_unswap in Ag'. eauto.
Qed.

Lemma agreeing_reachable w w' m2 m1 : rtc moves_on w w' -> agreeing w m2 m1 -> exists m2' m1', agreeing w' m2' m1'.
Proof.
  intros H. revert m2 m1. induction H as [w|w w1 w' Hs _ IH]; intros m2 m1 Ag; [eauto|].
  destruct (agreeing_step w w1 m2 m1 Ag Hs) as (? & ? & Ag'). by eapply IH.
Qed.

(** Nothing is on its way, and the two ends have the same links. *)
Definition agreed w : Prop := to_second w = [] /\ to_first w = [] /\
  forall cid lid, state_at (first w) cid lid = state_at (second w) cid lid /\
    (state_at (first w) cid lid = Absent \/ state_at (first w) cid lid = Open).

Lemma agreeing_settles w m2 m1 : agreeing w m2 m1 -> settles (world_step true) agreed w.
Proof.
  remember (work w m2 m1) as k eqn:Ek. revert w m2 m1 Ek. induction (lt_wf k) as [k _ IH]; intros w m2 m1 -> Ag.
  destruct m1 as [|m m1]; [destruct m2 as [|m m2]|].
  - apply settles_now. split_and!; [apply (ag_to_second _ _ _ Ag)|apply (ag_to_first _ _ _ Ag)|].
    intros cid lid. by eapply fine_quiet, (ag_links _ _ _ Ag).
  - apply settles_later; [|intros w' Hs].
    + destruct (agreeing_reads Herr2 (swap w) [] m m2 (agreeing_swap _ _ _ Ag)) as (b' & ms & Ht & _).
      exists (swap (World b' (first w) (to_first w ++ map enc_message ms) (map enc_message m2))).
      right. rewrite swap_back. exact (left_step_readable (swap w) m m2 b' _ (ag_to_second _ _ _ Ag) Ht).
    + destruct (agreeing_read_step w w' _ _ Ag Hs) as (m2' & m1' & Ag' & Hl). by eapply (IH _ Hl).
  - apply settles_later; [|intros w' Hs].
    + destruct (agreeing_reads Herr1 w m2 m m1 Ag) as (a' & ms & Ht & _).
      eexists. left. apply (left_step_readable _ m m1 _ _ (ag_to_first _ _ _ Ag) Ht).
    + destruct (agreeing_read_step w w' _ _ Ag Hs) as (m2' & m1' & Ag' & Hl). by eapply (IH _ Hl).
Qed.
End Sessions.
