(* ===== verification/Running.v ===== *)
(** * A process at work in a session

    Rounds of the event loop of one process while the other waits, the two
    joined by their pipes: [live] is what holds between two callbacks.  The
    queue of each pipe is made of whole packets ([flow]), what is on its way
    is that of a world of System.v ([joined]), and the listeners have ids
    left ([counted]).  Every callback keeps it so, and so does a round. *)

From stdpp Require Import base list tactics gmap strings relations sorting.
From Stdlib Require Import ZArith Lia.
From S2P Require Import Prelude Posix Wire SockBuffer Poller Spec Tunnel Connection Behaviour Protocol Links Session Memory Ends Hearing Pipes System.
Import StdioTunnel Heap TunnelConnection ConnectionLink.

(** ** The ids of the listeners *)

(** Listeners count their links from 501; [k] more and no id has come
    twice. *)
Definition counted (k : Z) (h : gmap nat TunnelConnection.t) : Prop := k <= 65536 /\ forall c n ls ni,
  h !! c = Some n -> m_side n = ListenSide ls ni ->
  501 <= ni <= 501 + 65536 - k /\ forall lid, is_Some (m_link_map n !! lid) -> exists j, 501 <= j < ni /\ lid = i16 j.

Lemma counted_grown k d h h' : 0 <= d -> counted (k + d) h -> grown d h h' -> counted k h'.
Proof.
  intros Hd [Hk C] G. split; [lia|]. intros c n' ls ni' N Hs. destruct (G c n' ls ni' N Hs) as (n & ni & N0 & S0 & B & L).
  destruct (C c n ls ni N0 S0) as [B0 L0]. split; [lia|].
  intros lid [(j & Hj & ->)%L0|(j & Hj & ->)]%L; (exists j; split; [lia|done]).
Qed.

Lemma counted_less k k' h : k' <= k -> counted k h -> counted k' h.
Proof.
  intros Hk [H C]. split; [lia|]. intros c n ls ni N Hs. destruct (C c n ls ni N Hs) as [B L]. split; [lia|done].
Qed.

(** Listeners that have accepted nothing. *)
Lemma counted_anew k h : k <= 65536 -> (forall c n, h !! c = Some n -> m_link_map n = ∅ /\
  forall ls ni, m_side n = ListenSide ls ni -> ni = 501) -> counted k h.
Proof.
  intros Hk H. split; [done|]. intros c n ls ni N Hs. destruct (H c n N) as [Hl Hn]. rewrite (Hn ls ni Hs).
  split; [lia|]. intros lid [? L]. by rewrite Hl, lookup_empty in L.
Qed.

Lemma i16_near x y : i16 x = i16 y -> 0 <= x - y < 65536 -> x = y.
Proof. unfold i16. intros E H. Z.to_euclidean_division_equations. lia. Qed.

(** The next id is not in use. *)
Lemma counted_free k h c n ls ni : 0 < k -> counted k h -> h !! c = Some n -> m_side n = ListenSide ls ni ->
  m_link_map n !! i16 ni = None.
Proof.
  intros Hk [_ C] N Hs. destruct (C c n ls ni N Hs) as [B L]. destruct (m_link_map n !! i16 ni) eqn:E; [|done].
  destruct (L (i16 ni)) as (j & Hj & Ej); [by rewrite E|]. apply i16_near in Ej; lia.
Qed.

(** ** What is in a pipe *)

Section Flow.
Context {P1 P2 : Posix} {R1 O1 R2 O2 : Type} (T1 : traffic P1) (wf : Z) (T2 : traffic P2) (rf : Z).

(** All that a process has written and has queued to be written. *)
Definition said_all (a : tunnel (P:=P1) R1 O1) : list byte := sent T1 (system a) wf ++ unwritten (m_write_stream a).

(** Of the bytes [s] of packets the other process has taken some whole
    packets and has a part of one in its buffer; [q] are the payloads it has
    not taken. *)
Definition taken_of (b : tunnel (P:=P2) R2 O2) (s : list byte) (q : list payload) : Prop := exists taken,
  received T2 (system b) rf = taken ++ ReadStream.m_read_buf (m_read_stream b) /\ s = taken ++ concat (map frame q).
Definition flow (a : tunnel (P:=P1) R1 O1) (b : tunnel (P:=P2) R2 O2) (q : list payload) : Prop := taken_of b (said_all a) q.

Lemma flow_same a a' b b' q : flow a b q -> said_all a' = said_all a ->
  received T2 (system b') rf = received T2 (system b) rf -> m_read_stream b' = m_read_stream b -> flow a' b' q.
Proof. intros (taken & H1 & H2) Es Er Em. exists taken. by rewrite Es, Er, Em. Qed.

Lemma taken_of_said b s q ps : taken_of b s q -> taken_of b (s ++ concat (map frame ps)) (q ++ ps).
Proof. intros (taken & H1 & ->). exists taken. by rewrite map_app, concat_app, app_assoc. Qed.

(** More is said. *)
Lemma unwritten_said s s' ps : WriteStream.m_packet_queue s' = WriteStream.m_packet_queue s ++ map WriteStream.new_WritePacket ps ->
  unwritten s' = unwritten s ++ concat (map frame ps).
Proof.
  intros E. unfold unwritten. rewrite E, map_app, concat_app. f_equal. rewrite map_map. f_equal. apply map_ext.
  intros p. by rewrite new_WritePacket_buf.
Qed.
Lemma writer_said s s' ps : WriteStream.m_packet_queue s' = WriteStream.m_packet_queue s ++ map WriteStream.new_WritePacket ps ->
  ws_wf s -> ws_wf s'.
Proof.
  intros E W. unfold ws_wf. rewrite E. apply Forall_app. split; [exact W|]. apply Forall_map, Forall_true.
  intros p. unfold WriteStream.m_size. cbn. lia.
Qed.
Lemma said_all_said a a' ps : packets a' = packets a ++ map WriteStream.new_WritePacket ps ->
  sent T1 (system a') wf = sent T1 (system a) wf -> said_all a' = said_all a ++ concat (map frame ps).
Proof. intros Hp Es. unfold said_all. by rewrite Es, (unwritten_said _ _ ps Hp), app_assoc. Qed.
End Flow.

(** ** One process *)

(** What its own callbacks need of a process: [alive] of its role, [owned]
    of the objects of its own that it has registered. *)
Class Runner (R O : Type) : Type := { alive : R -> Prop; owned : O -> Prop }.

Section Fitness.
Context {P : Posix} {R O : Type} `{EqDecision O} `{!Role R O} `{!Reporter (R:=R) (O:=O)} `{!Hearer R O} `{!Runner R O}.
Context (T : traffic P) (rf wf : Z) `{!PosixLaws T} `{!Pipe T rf wf} `{!PipeLaws T rf wf}.
Abbreviation S := (tunnel R O).
Implicit Types (s : S).

(** The registration to read comes before the one to write. *)
Definition in_order (p : Poller.t (obj O)) : Prop := forall i j o o',
  (i, POwn o, rf) ∈ marks p -> (j, POwn o', wf) ∈ marks p -> (i < j)%nat.
Definition all_owned (p : Poller.t (obj O)) : Prop := forall i o f, (i, POwn o, f) ∈ marks p -> owned o.

(** Between two callbacks; [k] more links can be asked for. *)
Record base (k : Z) (s : S) : Prop := Base {
  base_sound : sound s;
  base_counted : counted k (connections s);
  base_sockets : sockets rf wf s;
  base_reader : rs_wf (m_read_stream s);
  base_writer : ws_wf (m_write_stream s);
  base_alive : alive (role s);
  base_owned : all_owned (m_poller s);
  base_order : in_order (m_poller s)
}.

Lemma base_less k k' s : k' <= k -> base k s -> base k' s.
Proof. intros Hk []. split; try done. by eapply counted_less. Qed.

Lemma own_kept_elem (p p' : Poller.t (obj O)) i o f : own_kept p p' -> (i, POwn o, f) ∈ marks p' -> (i, POwn o, f) ∈ marks p.
Proof.
  intros Ho Hm. assert ((i, POwn o, f) ∈ own_marks p') as H by (by apply elem_own_marks). unfold own_kept in Ho.
  eapply elem_of_sublist in H; [|exact Ho]. by apply elem_own_marks in H as [? _].
Qed.
Lemma own_kept_owned (p p' : Poller.t (obj O)) : own_kept p p' -> all_owned p -> all_owned p'.
Proof. intros Ho H i o f Hm. eapply H. by eapply own_kept_elem. Qed.
Lemma own_kept_order (p p' : Poller.t (obj O)) : own_kept p p' -> in_order p -> in_order p'.
Proof. intros Ho H i j o o' Hi Hj. eapply H; by eapply own_kept_elem. Qed.

(** Something is said. *)
Lemma base_effect k d s s' ms : base (k + d) s -> 0 <= creates ms <= d -> effect s s' ms -> undisturbed T rf wf s s' -> base k s'.
Proof.
  intros [] Hd [] Hu. split; try done.
  - eapply (counted_grown _ (creates ms)); [lia| |done]. eapply counted_less; [|done]. lia.
  - by apply Hu.
  - congruence.
  - eapply writer_said; [|done]. rewrite <- map_map in effect_packets. exact effect_packets.
  - congruence.
  - by eapply own_kept_owned.
  - by eapply own_kept_order.
Qed.

(** Something is done beside that does not touch the streams. *)
Record idle s s' : Prop := Idle {
  idle_beside : beside s s';
  idle_reader : m_read_stream s' = m_read_stream s;
  idle_writer : m_write_stream s' = m_write_stream s;
  idle_calm : calm (system s) (system s');
  idle_own : own_kept (m_poller s) (m_poller s');
  idle_finishing : Poller.m_finishing (m_poller s) = true -> Poller.m_finishing (m_poller s') = true;
  idle_alive : alive (role s) -> alive (role s')
}.

Lemma idle_refl s : idle s s.
Proof. by split. Qed.
Lemma idle_trans s s1 s2 : idle s s1 -> idle s1 s2 -> idle s s2.
Proof.
  intros [[] ] [[] ]. split; try congruence; auto; [|by etrans..]. split; try congruence; auto. by etrans.
Qed.
#[export] Instance idle_preorder : PreOrder idle.
Proof. split; [intros s; apply idle_refl|intros s s1 s2; apply idle_trans]. Qed.

Lemma base_beside k s s' : base k s -> beside s s' -> rs_wf (m_read_stream s') -> ws_wf (m_write_stream s') ->
  own_kept (m_poller s) (m_poller s') -> alive (role s') -> base k s'.
Proof.
  intros [] B Hr Hw Ho Ha. pose proof (kept_sound _ _ _ (beside_kept s s' base_sound0 B)). destruct B. split; try done.
  - by rewrite bs_connections.
  - unfold sockets. by rewrite bs_links.
  - by eapply own_kept_owned.
  - by eapply own_kept_order.
Qed.
Lemma base_idle k s s' : base k s -> idle s s' -> base k s'.
Proof.
  intros B []. apply (base_beside k s); try done; [rewrite idle_reader0; apply B|rewrite idle_writer0; apply B|].
  apply idle_alive0, B.
Qed.

(** *** Things done beside *)

Lemma watch_marks (p : Poller.t (obj O)) : watch_list p = map (fun x => (x.1.2, x.2)) (marks p).
Proof. unfold watch_list, marks. rewrite map_map. by apply map_ext. Qed.
Lemma ids_marks (p : Poller.t (obj O)) : ids_of p = map (fun x => x.1.1) (marks p).
Proof. unfold ids_of, marks. rewrite map_map. by apply map_ext. Qed.

(** The books of the poller. *)
Lemma idle_poller p s : marks p = marks (m_poller s) -> Poller.m_next p = Poller.m_next (m_poller s) ->
  (Poller.m_finishing (m_poller s) = true -> Poller.m_finishing p = true) -> idle s (update poller p s).
Proof.
  intros Em En Hf. split; try done; [|by apply own_same]. split; try done; cbn.
  - by rewrite !watch_marks, Em.
  - unfold entries_ok. by rewrite !ids_marks, Em, En.
Qed.
Lemma idle_index i s : idle s (update poller (Poller.set_index i (m_poller s)) s).
Proof. by apply idle_poller. Qed.
Lemma idle_sizes n k s : idle s (update poller (Poller.set_sizes n k (m_poller s)) s).
Proof. by apply idle_poller. Qed.
Lemma idle_events o f ev s : idle s (update poller (events_set o f ev (m_poller s)) s).
Proof.
  apply idle_poller; [apply marks_events| |]; unfold events_set; cbn; by destruct (Poller.findPolled _ _ _).
Qed.
Lemma idle_update id ev s :
  idle s (update poller (Poller.update_entry id (fun q => Pollfd (fd q) ev (revents q)) (m_poller s)) s).
Proof.
  apply idle_poller; try done. unfold marks, Poller.update_entry. cbn [Poller.set_polled Poller.m_polled].
  rewrite map_map. apply map_ext. intros e. by destruct (Nat.eqb _ _).
Qed.
Lemma idle_copy_back rs s :
  idle s (update poller (Poller.set_polled (Poller.copy_back rs (Poller.m_polled (m_poller s))) (m_poller s)) s).
Proof.
  apply idle_poller; try done. unfold marks. cbn [Poller.set_polled Poller.m_polled]. generalize (Poller.m_polled (m_poller s)) as l. intros l.
  revert rs. induction l as [|e l IH]; intros [|r rs]; [done|done|done|]. cbn. f_equal. apply IH.
Qed.
Lemma idle_finish s : idle s (update poller (final (Poller.requestFinish (m_poller s)) (m_poller s)) s).
Proof. by apply idle_poller. Qed.

(** One of the process's own registrations goes. *)
Lemma filter_remove_own (o : O) f (l : list (obj O * Z)) : filter not_own (remove_first (POwn o, f) l) = filter not_own l.
Proof.
  induction l as [|x l IH]; [done|]. cbn [remove_first]. destruct (decide (x = (POwn o, f))) as [->|Hne].
  - by rewrite filter_cons_False by (by intros []).
  - rewrite !filter_cons. by destruct (decide (not_own x)); rewrite IH.
Qed.
Lemma idle_remove o f s : idle s (update poller (final (Poller.removePolled (POwn o) f (m_poller s)) (m_poller s)) s).
Proof.
  split; try done; [|apply own_remove|by cbn; destruct (Poller.findPolled _ _ _)].
  split; try done; cbn [m_poller update poller].
  - by rewrite watch_remove, filter_remove_own.
  - apply entries_ops, removePolled_ops.
Qed.
Lemma idle_signaled x s : idle s (update signaled_of x s).
Proof. by split. Qed.
Lemma idle_system o s : calm (system s) o -> idle s (update system_of o s).
Proof. by split. Qed.
End Fitness.

(** ** Joined to the other process *)

Section Running.
Context {P1 P2 : Posix} {R1 O1 R2 O2 : Type}.
Context `{EqDecision O1} `{!Role (P:=P1) R1 O1} `{!Reporter (R:=R1) (O:=O1)} `{!Hearer R1 O1} `{!Runner R1 O1}.
Context `{EqDecision O2} `{!Role (P:=P2) R2 O2} `{!Reporter (R:=R2) (O:=O2)} `{!Hearer R2 O2}.
Context (T1 : traffic P1) (rf1 wf1 : Z) `{!PosixLaws T1} `{!Pipe T1 rf1 wf1} `{!PipeLaws T1 rf1 wf1} `{!QuietRole T1 rf1 wf1 R1 O1}.
Context (T2 : traffic P2) (Out : tunnel (P:=P2) R2 O2 -> list byte -> list payload -> Prop) (wf2 : Z).
Abbreviation A := (tunnel (P:=P1) R1 O1).
Abbreviation B := (tunnel (P:=P2) R2 O2).
Implicit Types (a : A) (b : B).

(** [Out] says which payloads are on their way to the other process, of all
    that has been said. *)
Hypothesis Out_said : forall b s q ps, Out b s q -> Out b (s ++ concat (map frame ps)) (q ++ ps).

(** The worlds the processes may come to. *)
Context (W : world A B -> Prop).
Hypothesis W_step : forall reads w w', W w -> left_step reads w w' -> W w'.

(** What a process is in after it has taken a payload: what it has said, it
    has said in packets. *)
Record taken_well (k : Z) a a' (ps : list payload) : Prop := TakenWell {
  tk_base : base rf1 wf1 k a';
  tk_calm : calm (system a) (system a');
  tk_reader : m_read_stream a' = m_read_stream a;
  tk_packets : packets a' = packets a ++ map WriteStream.new_WritePacket ps
}.

(** The next payload is taken, or refused by an exception. *)
Definition takes_well : Prop := forall k a b q2 p q1, base rf1 wf1 k a -> W (World a b q2 (p :: q1)) -> to_read a = [] ->
  safely takes (unread p a) (fun _ a' => exists ps, taken_well k a a' ps).
Definition payloads_fit : Prop := forall w, W w -> Forall (fun p => zlen p < 4294967296) (to_first w).

Record joined a b (q2 q1 : list payload) : Prop := Joined {
  joined_world : W (World a b q2 q1);
  joined_out : Out b (said_all T1 wf1 a) q2;
  joined_in : flow T2 wf2 T1 rf1 b a q1;
  joined_read : to_read a = [];
  joined_stream : stream (system a) = sent T2 (system b) wf2
}.

Definition awake a b : Prop := exists q2 q1, joined a b q2 q1.

(** The loop is to end, and none of the entries [ids] would read. *)
Definition leaving (ids : list nat) a : Prop := Poller.m_finishing (m_poller a) = true /\
  forall i o, (i, POwn o, rf1) ∈ marks (m_poller a) -> i ∉ ids.

(** Between two callbacks of a round that has the entries [ids] to come;
    [start] has been written before the round. *)
Context (start : list byte).
Definition live (k : Z) (ids : list nat) a b : Prop := base rf1 wf1 k a /\
  start `prefix_of` sent T1 (system a) wf1 /\ (awake a b \/ leaving ids a).

Lemma live_less k k' ids ids' a b : k' <= k -> (forall i, i ∈ ids' -> i ∈ ids) -> live k ids a b -> live k' ids' a b.
Proof.
  intros Hk Hi (Ba & Hst & M). split_and!; [by eapply base_less|done|]. destruct M as [|[Hf Hl]]; [by left|right]. split; [done|].
  intros i o Hm Hn%Hi. by eapply Hl.
Qed.

Lemma leaving_kept ids a a' : (Poller.m_finishing (m_poller a) = true -> Poller.m_finishing (m_poller a') = true) ->
  own_kept (m_poller a) (m_poller a') -> leaving ids a -> leaving ids a'.
Proof. intros Hf Ho [H1 H2]. split; [auto|]. intros i o Hm. eapply H2. by eapply own_kept_elem. Qed.

(** Something is done beside. *)
Lemma joined_beside a a' b q2 q1 : joined a b q2 q1 -> beside a a' -> to_read a' = [] ->
  said_all T1 wf1 a' = said_all T1 wf1 a ->
  stream (system a') = stream (system a) -> flow T2 wf2 T1 rf1 b a' q1 -> joined a' b q2 q1.
Proof.
  intros [] Hb Hr Es Est Hf. split; [|by rewrite Es|done|done|by rewrite Est].
  eapply W_step; [exact joined_world0|]. rewrite <- (app_nil_r q2) at 2. by apply left_alone, turn_beside.
Qed.

Lemma live_idle k ids a a' b : live k ids a b -> idle T1 rf1 wf1 a a' -> live k ids a' b.
Proof.
  intros (Ba & Hst & M) I. split; [by eapply base_idle|]. destruct I as [Hb Hr Hw (C1 & C2 & C3) Ho Hf _]. split; [by rewrite C3|].
  destruct M as [(q2 & q1 & J)|L]; [left; exists q2, q1|right; by eapply leaving_kept].
  apply (joined_beside a a'); try done; [|unfold said_all; by rewrite C3, Hw|].
  - unfold to_read. rewrite Hr. apply J.
  - eapply flow_same; [apply J|done|done|done].
Qed.

(** Something is said. *)
Lemma live_acts k d ids a a' b ms : live (k + d) ids a b -> 0 <= creates ms <= d -> effect a a' ms -> undisturbed T1 rf1 wf1 a a' ->
  turn a None a' (map enc_message ms) -> (Poller.m_finishing (m_poller a) = true -> Poller.m_finishing (m_poller a') = true) ->
  live k ids a' b.
Proof.
  intros (Ba & Hst & M) Hd E U Ht Hf. split; [by eapply base_effect|].
  destruct (U (base_sockets _ _ _ _ Ba)) as [_ (C1 & C2 & C3)]. split; [by rewrite C3|].
  destruct M as [(q2 & q1 & [])|L]; [left|right; eapply leaving_kept; [done|apply E|done]].
  exists (q2 ++ map enc_message ms), q1. destruct E. split.
  - eapply W_step; [exact joined_world0|]. by apply left_alone.
  - rewrite (said_all_said T1 wf1 a a' (map enc_message ms)); [by apply Out_said|rewrite map_map; exact effect_packets|done].
  - eapply flow_same; [exact joined_in0|done|done|done].
  - unfold to_read. by rewrite effect_reader.
  - by rewrite C1.
Qed.

(** *** The callbacks of links and listeners *)

Context `{!Polled A (obj O1)} `{HB : !well_behaved (@poller P1 R1 O1)}.
Hypothesis polled_link : forall l id pf, polled (PLink l) id pf = link_polled (R:=R1) (O:=O1) l pf.
Hypothesis polled_listener : forall c id pf, polled (PListen c) id pf = listen_polled (R:=R1) (O:=O1) c.

(** [m] is safe, and [Q] holds of the state it returns in. *)
Abbreviation keeps m s Q := (safely m s (fun _ s' => Q s')).

Lemma polled_finishing o id pf a x a' : polled o id pf a = Ret x a' ->
  Poller.m_finishing (m_poller a) = true -> Poller.m_finishing (m_poller a') = true.
Proof. intros E. apply poller_ops_finishing. pose proof (HB o id pf a) as H. by rewrite E in H. Qed.

Lemma live_link k ids l id pf a b : l ∈ watched_links (memory_of a) -> live k ids a b ->
  keeps (polled (PLink l) id pf) a (fun a' => live k ids a' b).
Proof.
  intros Wl L. pose proof (link_polled_part T1 a l pf (base_sound _ _ _ _ (proj1 L)) Wl) as Pa.
  pose proof (quiet_link_polled T1 rf1 wf1 l pf a) as U. pose proof (polled_finishing (PLink l) id pf a) as Fi.
  unfold safely in *. rewrite polled_link in *. destruct (link_polled l pf a) as [[] a'| | |] eqn:E; try done.
  destruct Pa as (ms & [Ef _] & C & _). eapply (live_acts k 0); [by rewrite Z.add_0_r|by rewrite C|done|done| |by eapply Fi].
  eapply turn_link; [done|done|]. rewrite map_map. apply Ef.
Qed.

Lemma live_listener k ids c f id pf a b : (PListen c, f) ∈ watched (memory_of a) -> 0 <= k -> live (k + 1) ids a b ->
  keeps (polled (PListen c) id pf) a (fun a' => live k ids a' b).
Proof.
  intros Wl Hk (Ba & Hst & M). destruct (typed_listener _ (sound_typed a (base_sound _ _ _ _ Ba)) c f Wl) as (n & ni & N & Hs).
  pose proof (counted_free (k + 1) (connections a) c n f ni ltac:(lia) (base_counted _ _ _ _ Ba) N Hs) as Hf.
  pose proof (listen_polled_acts a c n f ni (base_sound _ _ _ _ Ba) N Hs Hf) as Pa.
  pose proof (quiet_listen_polled T1 rf1 wf1 c a) as U. pose proof (polled_finishing (PListen c) id pf a) as Fi.
  unfold safely in *. rewrite polled_listener in *. destruct (listen_polled c a) as [[] a'| | |] eqn:E; try done.
  destruct Pa as (ms & [Ef _] & C). eapply (live_acts k 1 _ _ _ _ ms); [exact (conj Ba (conj Hst M))|pose proof (creates_nonneg ms); lia|done|done| |by eapply Fi].
  eapply turn_listener; [done..|]. rewrite map_map. apply Ef.
Qed.

(** *** The process's own reading and writing *)

Lemma live_write k ids pf a b : fd pf = wf1 -> live k ids a b ->
  safely (zoom (lens_pair writer system_of) (WriteStream.empty pf)) a (fun pf' a' => fd pf' = fd pf /\ live k ids a' b).
Proof.
  intros Hf (Ba & Hpr & M). pose proof (empty_pipe T1 rf1 wf1 pf (m_write_stream a) (system a) Hf (base_writer _ _ _ _ Ba)) as H.
  unfold safely, zoom in *. cbn [view lens_pair writer system_of].
  destruct (WriteStream.empty pf _) as [pf' [w o]|e [w o]| |]; [|done..]. destruct H as (Hp & Hw & Hq & Hs & Hst & Hr & Hpr').
  cbn [fst snd update lens_pair writer system_of] in *. split; [done|]. set (a' := update system_of o (update writer w a)).
  assert (beside a a') as Bs by by split.
  split; [apply (base_beside rf1 wf1 k a); try done; apply Ba|]. split; [by etrans|].
  destruct M as [(q2 & q1 & J)|[L1 L2]]; [left; exists q2, q1|by right].
  apply (joined_beside a a'); try done; [apply J|]. eapply flow_same; [apply J|done|done|done].
Qed.

Hypothesis takes_nothing : forall a, to_read a = [] -> takes a = Ret tt a.
Hypothesis W_takes : takes_well.
Hypothesis W_fits : payloads_fit.

(** The packet that has come is the first on its way. *)
Lemma first_packet q1 taken pay (o : @os P1) (b : B) : Forall (fun p => zlen p < 4294967296) q1 -> zlen pay <= 50000000 ->
  received T1 o rf1 = taken ++ frame pay -> stream o = sent T2 (system b) wf2 ->
  sent T2 (system b) wf2 ++ unwritten (m_write_stream b) = taken ++ concat (map frame q1) -> exists q, q1 = pay :: q.
Proof.
  intros Hq Hp Hr Hs Hf. destruct (stream_received (rf:=rf1) (wf:=wf1) o) as [rest Hpre]. rewrite Hr, Hs in Hpre.
  rewrite Hpre, <- !app_assoc in Hf. apply app_inv_head in Hf.
  destruct (frames_prefix [pay] q1 []) as (ms & -> & _); [constructor; [lia|done]|done| |by exists ms].
  cbn. rewrite !app_nil_r, <- Hf. by apply prefix_app_r.
Qed.

(** [fill] and what is done then, on the pipe. *)
Lemma live_read k ids pf a b : fd pf = rf1 -> base rf1 wf1 k a -> start `prefix_of` sent T1 (system a) wf1 -> awake a b ->
  keeps (zoom (lens_pair reader system_of) (ReadStream.fill pf);; takes) a (fun a' => live k ids a' b).
Proof.
  intros Hf Ba Hpr (q2 & q1 & J). apply safely_bind.
  pose proof (fill_pipe T1 rf1 wf1 pf (m_read_stream a) (system a) Hf (base_reader _ _ _ _ Ba)) as H.
  unfold safely at 1, zoom. unfold safely in H. cbn [view lens_pair reader system_of].
  destruct (ReadStream.fill pf _) as [[] [r o]|e [r o]| |]; [|done..]. destruct H as [(Hw & bs & Hr & Hc) (Hst & Hse)].
  cbn [fst snd update lens_pair] in *. set (a1 := update system_of o (update reader r a)).
  pose proof J as [Jw Jo (taken & I1 & I2) Jr Js]. rewrite I1 in Hr. unfold to_read in Jr.
  destruct Hc as [[Hq Hb]|(pay & Hp & Hz & Hq & Hb)]; rewrite Jr in Hq.
  - rewrite <- app_assoc in Hr. rewrite <- Hb in Hr. apply (safely_at _ _ _ _ _ (takes_nothing a1 Hq)).
    assert (beside a a1) as Bs by by split.
    split; [apply (base_beside rf1 wf1 k a); try done; apply Ba|]. split; [cbn; by rewrite Hse|]. left. exists q2, q1.
    apply (joined_beside a a1); try done; [unfold said_all; cbn; by rewrite Hse|by exists taken].
  - rewrite <- app_assoc, Hp in Hr. set (a0 := unread [] a1).
    assert (beside a a0) as Bs by by split.
    assert (base rf1 wf1 k a0) as Ba0 by (apply (base_beside rf1 wf1 k a); try done; apply Ba).
    assert (W (World a0 b q2 q1)) as Jw0.
    { eapply W_step; [exact Jw|]. rewrite <- (app_nil_r q2) at 2. by apply left_alone, turn_beside. }
    destruct (first_packet q1 taken pay o b) as (q & ->); try done; [exact (W_fits _ Jw0)|by rewrite Hst|].
    replace a1 with (unread pay a0) by (unfold a0, unread, a1; cbn; destruct r; cbn in Hq; by rewrite Hq).
    pose proof (W_takes k a0 b q2 pay q Ba0 Jw0 eq_refl) as Ht. unfold safely in *.
    destruct (takes (unread pay a0)) as [[] a2| | |] eqn:Et; try done. destruct Ht as (ps & [Ba2 (C1 & C2 & C3) Rd Pa]).
    assert (W (World a2 b (q2 ++ ps) q)) as W2 by (eapply W_step; [exact Jw0|]; by apply left_reads, turn_read).
    split; [done|]. split; [rewrite C3; cbn; by rewrite Hse|]. left. exists (q2 ++ ps), q. split.
    + done.
    + rewrite (said_all_said T1 wf1 a0 a2 ps Pa C3). apply Out_said.
      assert (said_all T1 wf1 a0 = said_all T1 wf1 a) as ->; [|done]. unfold said_all. cbn. by rewrite Hse.
    + exists (taken ++ frame pay). split; [rewrite C2, Rd; cbn; by rewrite Hb, app_nil_r|].
      rewrite I2. cbn [map concat]. by rewrite app_assoc.
    + unfold to_read. by rewrite Rd.
    + rewrite C1. cbn. by rewrite Hst.
Qed.

(** The two parts of what every process does with its own descriptors. *)
Lemma live_reading k ids o id pf a b : (id, POwn o, fd pf) ∈ marks (m_poller a) -> fd pf = rf1 -> live k (id :: ids) a b ->
  keeps (zoom (lens_pair reader system_of) (ReadStream.fill pf);; takes) a (fun a' => live k ids a' b).
Proof.
  intros Hm Hf (Ba & Hpr & [Aw|[_ Hl]]); [by apply live_read|]. rewrite Hf in Hm. exfalso. apply (Hl id o Hm). by left.
Qed.

Lemma live_writing k ids (o : obj O1) id pf f a b : fd pf = wf1 -> live k ids a b ->
  keeps (pf' ← zoom (lens_pair writer system_of) (WriteStream.empty pf);
         zoom poller (modify (Poller.update_entry id (fun q => Pollfd (fd q) (events pf') (revents q))));;
         p ← gets (fun s => WriteStream.pendingWrite (m_write_stream s));
         when (negb p) (zoom poller (Poller.setEvents o f 0))) a (fun a' => live k ids a' b).
Proof.
  intros Hf L. apply safely_bind. eapply safely_mono; [|by apply (live_write k ids)]. intros pf' a1 [_ L1].
  do 2 (eapply safely_step; [reflexivity|]). cbn [view poller].
  set (a2 := update poller _ a1). assert (live k ids a2 b) as L2 by (eapply live_idle; [exact L1|apply idle_update]).
  destruct (negb _); cbn [when]; [|by apply safely_ret]. eapply safely_at; [reflexivity|].
  eapply live_idle; [exact L2|apply idle_events].
Qed.

(** *** A round *)

Hypothesis live_own : forall k ids o id pf a b, (id, POwn o, fd pf) ∈ marks (m_poller a) -> ascending (id :: ids) ->
  live k (id :: ids) a b -> keeps (polled (POwn o) id pf) a (fun a' => live k ids a' b).

Lemma entry_marked i e a : Poller.m_polled (m_poller a) !! i = Some e ->
  (Poller.e_id e, Poller.e_polled e, fd (Poller.e_pollfd e)) ∈ marks (m_poller a).
Proof. intros E. unfold marks. apply list_elem_of_In, in_map_iff. exists e. split; [done|]. apply list_elem_of_In. by eapply list_elem_of_lookup_2. Qed.

Lemma live_polled k ids e i a b : Poller.m_polled (m_poller a) !! i = Some e -> 0 <= k -> ascending (Poller.e_id e :: ids) ->
  live (k + 1) (Poller.e_id e :: ids) a b ->
  keeps (polled (Poller.e_polled e) (Poller.e_id e) (Poller.e_pollfd e)) a (fun a' => live k ids a' b).
Proof.
  intros E Hk Ha L. apply entry_marked in E as Hm.
  assert ((Poller.e_polled e, fd (Poller.e_pollfd e)) ∈ watched (memory_of a)) as Hw.
  { cbn. rewrite watch_marks. apply list_elem_of_In, in_map_iff. eexists. split; [|by apply list_elem_of_In]. done. }
  assert (live k (Poller.e_id e :: ids) a b) as L0 by (eapply live_less; [|done|exact L]; lia).
  assert (forall a', live k (Poller.e_id e :: ids) a' b -> live k ids a' b) as Hl.
  { intros a' L'. eapply live_less; [|intros j Hj; by right|exact L']. lia. }
  destruct (Poller.e_polled e) as [o|c|l] eqn:Eo.
  - by apply live_own.
  - apply (safely_mono _ _ (fun _ a' => live k (Poller.e_id e :: ids) a' b)); [by intros _ a' L'%Hl|by eapply live_listener].
  - apply (safely_mono _ _ (fun _ a' => live k (Poller.e_id e :: ids) a' b)); [by intros _ a' L'%Hl|apply live_link; [|exact L0]].
    apply elem_watched_links. by eexists.
Qed.

(** A round keeps what each callback keeps: [J k ids] holds with the entries
    [ids] to come and [k] more links to ask for. *)
Record callbacks_keep (J : Z -> list nat -> A -> Prop) : Prop := CallbacksKeep {
  ck_less k k' ids ids' a : k' <= k -> (forall i, i ∈ ids' -> i ∈ ids) -> J k ids a -> J k' ids' a;
  ck_index k ids i a : J k ids a -> J k ids (update poller (Poller.set_index i (m_poller a)) a);
  ck_polled k ids e i a : Poller.m_polled (m_poller a) !! i = Some e -> revents (Poller.e_pollfd e) <> 0 -> 0 <= k ->
    ascending (Poller.e_id e :: ids) -> J (k + 1) (Poller.e_id e :: ids) a ->
    keeps (polled (Poller.e_polled e) (Poller.e_id e) (Poller.e_pollfd e)) a (J k ids)
}.

Section Round.
Context (J : Z -> list nat -> A -> Prop) (HJ : callbacks_keep J).

Lemma visit_keeps ids k a : ascending ids -> 0 <= k -> J (k + zlen ids) ids a -> keeps (visit poller ids) a (J k []).
Proof.
  revert k a. induction ids as [|id ids IH]; intros k a Ha Hk L; cbn [visit].
  - eapply safely_at; [reflexivity|]. apply (ck_index J HJ). by rewrite Z.add_0_r in L.
  - apply StronglySorted_inv in Ha as [Hs Hid]. eapply safely_step; [reflexivity|]. cbn [view poller]. cbn [length] in L.
    destruct (list_find _ _) as [[i e]|] eqn:E.
    + apply list_find_Some in E as (E & He & _).
      eapply safely_step; [reflexivity|]. cbn [view poller update].
      set (a1 := update poller (Poller.set_index (Z.of_nat i) (m_poller a)) a).
      assert (J (k + zlen ids + 1) (id :: ids) a1) as L1 by (apply (ck_index J HJ); eapply (ck_less J HJ); [|done|exact L]; lia).
      apply safely_bind. apply (safely_mono _ _ (fun _ a2 => J (k + zlen ids) ids a2)); [intros _ a2 L2; by apply IH|].
      subst id. destruct (Z.eqb_spec (revents (Poller.e_pollfd e)) 0) as [|Hr]; cbn [negb when].
      * apply safely_ret. eapply (ck_less J HJ); [|intros j Hj; by right|exact L1]. lia.
      * by apply (ck_polled J HJ _ _ _ i); [| |lia|constructor|].
    + apply IH; [done..|]. eapply (ck_less J HJ); [|intros j Hj; by right|exact L]. lia.
Qed.

(** Before the round the process asks [poll], which answers with [rs]. *)
Definition polls a r o : Prop := let p := m_poller a in
  sys_poll (map (fun e => (fd (Poller.e_pollfd e), events (Poller.e_pollfd e))) (Poller.m_polled p)) (Poller.m_timeout p) (system a) = (r, o).
Definition asked (size : Z) (o : @os P1) a : A :=
  update system_of o (update poller (Poller.set_sizes size (zlen (Poller.m_polled (m_poller a))) (m_poller a)) a).
Definition answered (rs : list Z) a : A := update poller (Poller.set_polled (Poller.copy_back rs (Poller.m_polled (m_poller a))) (m_poller a)) a.

Lemma round_keeps k a : poller_wf (m_poller a) -> 0 <= k ->
  (forall size r o, polls a r o -> J k [] (asked size o a) /\
    forall n rs, r = SysOk (n, rs) -> J (k + zlen (Poller.m_polled (m_poller a))) (ids_of (m_poller a)) (answered rs (asked size o a))) ->
  keeps (Poller.pollOnce poller system_of) a (fun a' => J k [] a' /\ poller_wf (m_poller a')).
Proof.
  intros Hw Hk H. destruct (pollOnce_traverses poller system_of HB (fun _ _ => eq_refl) a Hw) as (size & _ & Hsize & Ep).
  pose proof (pollRound_wf poller system_of HB (fun _ _ => eq_refl) size a Hw Hsize) as Wf.
  assert (keeps (pollRound poller system_of size) a (J k [])) as Hr.
  2: { unfold safely in *. rewrite Ep. by destruct (pollRound _ _ _ a). }
  clear Wf Ep. unfold pollRound. do 2 (eapply safely_step; [reflexivity|]). cbn [view poller]. set (p := m_poller a) in *.
  apply safely_bind. unfold safely at 1, syscall. cbn [view system_of].
  destruct (sys_poll _ _ _) as [r o] eqn:Ep.
  destruct (H size r o Ep) as [H1 H2]. destruct r as [[n rs]|e]; [|by destruct (e =? EINTR)].
  apply safely_bind. apply (safely_mono _ _ (fun _ a' => J k [] a')); [by intros _ a' L'|].
  destruct (0 <? n); cbn [when]; [|by apply safely_ret]. eapply safely_step; [reflexivity|].
  apply visit_keeps; [apply Hw|done|]. unfold ids_of at 1. rewrite length_map.
  exact (ck_index J HJ _ _ 0 _ (H2 n rs eq_refl)).
Qed.
End Round.

Lemma live_callbacks b : callbacks_keep (fun k ids a => live k ids a b).
Proof.
  split.
  - intros k1 k2 ids1 ids2 a1 Hk Hi L. by eapply live_less.
  - intros k1 ids1 i a1 L. apply (live_idle _ _ a1); [done|apply idle_index].
  - intros k1 ids1 e i a1 E _ Hk Ha L. by apply (live_polled _ _ _ i).
Qed.

Lemma idle_asked size r o a : polls a r o -> idle T1 rf1 wf1 a (asked size o a).
Proof.
  intros E. etrans; [exact (idle_sizes (P:=P1) T1 rf1 wf1 size (zlen (Poller.m_polled (m_poller (P:=P1) a))) a)|]. apply idle_system. by eapply pipe_poll.
Qed.
Lemma idle_answered rs a : idle T1 rf1 wf1 a (answered rs a).
Proof. exact (idle_copy_back (P:=P1) T1 rf1 wf1 rs a). Qed.

Lemma live_polls k size r o a b : polls a r o -> 0 <= k -> live (k + zlen (Poller.m_polled (m_poller a))) (ids_of (m_poller a)) a b ->
  live k [] (asked size o a) b /\
  forall n rs, r = SysOk (n, rs) -> live (k + zlen (Poller.m_polled (m_poller a))) (ids_of (m_poller a)) (answered rs (asked size o a)) b.
Proof.
  intros E Hk L. assert (live (k + zlen (Poller.m_polled (m_poller a))) (ids_of (m_poller a)) (asked size o a) b) as L1
    by (eapply live_idle; [exact L|by eapply idle_asked]). split.
  - eapply (live_less _ _ _ []); [|by intros j Hj%elem_of_nil|exact L1]. lia.
  - intros n rs _. eapply live_idle; [exact L1|apply idle_answered].
Qed.

Hypothesis callback : pollCallback = poll_callback (R:=R1) (O:=O1).

Lemma callback_idle a : exists a', poll_callback a = Ret tt a' /\ idle T1 rf1 wf1 a a' /\ role a' = role a /\
  (poller_wf (m_poller a) -> poller_wf (m_poller a')).
Proof.
  unfold poll_callback, deliver_signals, syscall, mbind, M_bind, gets. cbn [view system_of].
  destruct (sys_signal (system a)) as [came o] eqn:E. apply pipe_signal in E.
  assert (idle T1 rf1 wf1 a (update system_of o a)) as I by by apply idle_system.
  destruct came; cbn -[Poller.requestFinish].
  - eexists. split; [reflexivity|]. split; [|split; [done|by intros [[] ]]].
    etrans; [exact I|]. etrans; [by apply (idle_signaled _ _ _ true)|]. exact (idle_finish _ _ _ _).
  - destruct (g_signaled a); cbn; (eexists; split; [reflexivity|]); (split; [|split; [done|by intros [[] ]]]); (etrans; [exact I|]).
    + etrans; [by apply (idle_signaled _ _ _ true)|]. exact (idle_finish _ _ _ _).
    + exact (idle_signaled _ _ _ false _).
Qed.

Lemma iteration_keeps J k a : callbacks_keep J ->
  (forall a a', J k [] a -> idle T1 rf1 wf1 a a' -> role a' = role a -> J k [] a') -> poller_wf (m_poller a) -> 0 <= k ->
  (forall size r o, polls a r o -> J k [] (asked size o a) /\
    forall n rs, r = SysOk (n, rs) -> J (k + zlen (Poller.m_polled (m_poller a))) (ids_of (m_poller a)) (answered rs (asked size o a))) ->
  keeps (Poller.iteration poller system_of) a (fun a' => J k [] a' /\ poller_wf (m_poller a')).
Proof.
  intros HJ Hc Hw Hk H. unfold Poller.iteration. apply safely_bind.
  eapply safely_mono; [|by apply (round_keeps J HJ k)]. intros r a1 [L1 W1]. eapply safely_step; [reflexivity|].
  apply safely_bind. destruct (negb _ && _); cbn [when]; [|by apply safely_ret].
  rewrite callback. destruct (callback_idle a1) as (a2 & E & I & Er & W2). apply (safely_at _ _ _ _ _ E).
  apply safely_ret. split; [by eapply Hc|by apply W2].
Qed.

Lemma live_iteration k a b : poller_wf (m_poller a) -> 0 <= k ->
  live (k + zlen (Poller.m_polled (m_poller a))) (ids_of (m_poller a)) a b ->
  keeps (Poller.iteration poller system_of) a (fun a' => live k [] a' b /\ poller_wf (m_poller a')).
Proof.
  intros Hw Hk L. apply (iteration_keeps (fun k ids a => live k ids a b)); try done.
  - apply live_callbacks.
  - intros a1 a2 L1 I _. by eapply live_idle.
  - intros size r o E. by apply live_polls.
Qed.
End Running.

(** ** In a session *)

(** What a process says fits a packet. *)
Lemma sayable_fits {P : Posix} {R O} `{EqDecision O} `{!Role (P:=P) R O} `{!Reporter (R:=R) (O:=O)} m : sayable (R:=R) (O:=O) m -> zlen (enc_message m) < 4294967296.
Proof.
  destruct m as [text| | | |c l m]; cbn [sayable message_ok enc_message]; try done.
  - intros [_ H]. unfold enc_string. rewrite !length_app, length_be32. cbn [enc_short length]. lia.
  - intros H. rewrite !length_app. cbn [enc_short length]. destruct m; cbn [enc_link_body] in *; rewrite ?length_app;
      cbn [enc_short length]; unfold BUFFER_SIZE in *; lia.
Qed.
Lemma sayables_fit {P : Posix} {R O} `{EqDecision O} `{!Role (P:=P) R O} `{!Reporter (R:=R) (O:=O)} ms :
  Forall (sayable (R:=R) (O:=O)) ms -> Forall (fun p => zlen p < 4294967296) (map enc_message ms).
Proof. intros H. apply Forall_map. eapply Forall_impl; [exact H|]. intros m. apply sayable_fits. Qed.

Section Taking.
Context {P1 P2 : Posix} {R1 O1 R2 O2 : Type}.
Context `{EqDecision O1} `{!Role (P:=P1) R1 O1} `{!Reporter (R:=R1) (O:=O1)} `{!Hearer R1 O1} `{!Runner R1 O1}.
Context `{EqDecision O2} `{!Role (P:=P2) R2 O2} `{!Reporter (R:=R2) (O:=O2)} `{!Hearer R2 O2}.
Context (T1 : traffic P1) (rf1 wf1 : Z) `{!Pipe T1 rf1 wf1}.
Context (Herr : reports (R:=R2) (O:=O2) = true -> hears_errors (R:=R1) (O:=O1) = true).
Hypothesis takes_quiet : forall a a' : tunnel (P:=P1) R1 O1, attentive (role a) -> takes a = Ret tt a' -> undisturbed T1 rf1 wf1 a a'.

Lemma unread_same {P : Posix} {R O} (a : tunnel (P:=P) R O) : to_read a = [] -> unread [] a = a.
Proof. intros E. unfold unread. rewrite <- E. by destruct a as [[] ? ? ? ? ? ? ? ? ? ? ? ? ?]. Qed.

(** The first payload on its way is taken well. *)
Lemma agreeing_taken k (a : tunnel (P:=P1) R1 O1) (b : tunnel (P:=P2) R2 O2) q2 p q1 m2 ms1 : base rf1 wf1 k a ->
  agreeing (World a b q2 (p :: q1)) m2 ms1 -> to_read a = [] ->
  safely takes (unread p a) (fun _ a' => exists ps, taken_well T1 rf1 wf1 k a a' ps).
Proof.
  intros Ba Ag Er. pose proof (ag_to_first _ _ _ Ag) as E1. cbn [to_first] in E1.
  destruct ms1 as [|m ms1]; [done|]. injection E1 as -> ->.
  destruct (agreeing_reads Herr _ m2 m ms1 Ag) as (a' & ms & Ht & _ & _ & Ef & Cr). cbn [first] in Ht, Ef.
  destruct (turn_reads _ _ _ _ Ht) as [Et Pa].
  pose proof (takes_quiet (unread (enc_message m) a) a' (ag_first_attentive _ _ _ Ag) Et) as U.
  destruct (U (base_sockets _ _ _ _ Ba)) as [Hk C]. rewrite (unread_same a Er) in Ef.
  apply (safely_at _ _ _ _ _ Et). exists (map enc_message ms). split; [|exact C|apply Ef|exact Pa].
  eapply (base_effect T1 rf1 wf1 k 0); [by rewrite Z.add_0_r|by rewrite Cr|done|by intros _].
Qed.
End Taking.
