(* ===== verification/Agreement.v ===== *)
(** * The local and the remote process agree

    System.v for the two processes of the program: [StdioTunnelLocal] hears
    everything, [StdioTunnelRemote] once it is connected; the remote process
    reports errors as messages, the local one prints them. *)

From stdpp Require Import base list tactics gmap strings relations.
From Stdlib Require Import ZArith Lia.
From S2P Require Import Prelude Posix Wire SockBuffer Poller Spec Magic Tunnel Connection Socks5 Local Remote Behaviour Protocol Links Session Memory Ends Hearing System.
Import StdioTunnel TunnelConnection.

Section Instances.
Context {P : Posix}.

(** A message that has come is there to be read. *)
Lemma told_available {R O : Type} m (s : tunnel R O) : ReadStream.available (m_read_stream (told m s)) = true.
Proof. by destruct m. Qed.
Lemma told_command {R O : Type} `{EqDecision O} `{!Role R O} z q (s : tunnel R O) :
  readShort (unread (enc_short z ++ q) s) = Ret (i16 z) (unread q s).
Proof. by rewrite (readShort_at z q (unread (enc_short z ++ q) s) eq_refl). Qed.

(** A message about a link, whatever is done with its command. *)
Lemma told_link {R O : Type} `{EqDecision O} `{!Role R O} c l m (s : tunnel R O) (f : Z -> M (tunnel R O) unit) :
  f CMD_CONNECTION (unread (enc_short c ++ enc_short (link_command m) ++ enc_short l ++ enc_link_body m) s) =
    (id ← readShort; connection_message id)
      (unread (enc_short c ++ enc_short (link_command m) ++ enc_short l ++ enc_link_body m) s) ->
  (cmd ← readShort; f cmd) (told (MLink c l m) s) = hear (told (MLink c l m) s).
Proof.
  intros Hf. unfold told, hear. cbn [enc_message].
  etrans; [exact (bind_step _ _ _ _ _ (told_command CMD_CONNECTION _ s))|]. etrans; [exact Hf|].
  symmetry. exact (bind_step _ _ _ _ _ (told_command CMD_CONNECTION _ s)).
Qed.

#[export] Program Instance local_hearer : Hearer (P:=P) StdioTunnelLocal.t unit :=
  {| takes := StdioTunnelLocal.message_in; attentive _ := True; keeps _ _ := True; hears_errors := true |}.
Next Obligation. done. Qed.
Next Obligation. done. Qed.
Next Obligation.
  intros c l m s _. unfold StdioTunnelLocal.message_in. rewrite bind_gets, told_available. by apply told_link.
Qed.
Next Obligation.
  intros text s _ Ht. unfold StdioTunnelLocal.message_in. rewrite bind_gets, told_available. cbn [when].
  unfold told. cbn [enc_message]. rewrite (bind_step _ _ _ _ _ (told_command _ _ s)).
  change (i16 CMD_ERROR =? CMD_ERROR) with true. cbn iota.
  destruct (local_report_at text (unread [] s)) as [o E]. exists o.
  rewrite (bind_step _ _ _ text (unread [] s)); [exact E|].
  unfold zoom. cbn [view reader]. rewrite (readString_enc _ text []); [done|by rewrite app_nil_r|done].
Qed.

#[export] Program Instance remote_hearer : Hearer (P:=P) StdioTunnelRemote.t StdioTunnelRemote.own :=
  {| takes := StdioTunnelRemote.message_in;
     attentive r := StdioTunnelRemote.m_state r = StdioTunnelRemote.CONNECTED;
     keeps r r' := StdioTunnelRemote.m_state r' = StdioTunnelRemote.m_state r; hears_errors := false |}.
Next Obligation. split; [done|]. intros r1 r2 r3. congruence. Qed.
Next Obligation. congruence. Qed.
Next Obligation.
  intros c l m s Ha. unfold StdioTunnelRemote.message_in. rewrite bind_gets, told_available. apply told_link.
  rewrite bind_gets. change (role (unread _ s)) with (role s). by rewrite Ha.
Qed.
Next Obligation. done. Qed.
End Instances.

(** ** The session *)

Section Session.
Context {P1 P2 : Posix} (T1 : traffic P1) (T2 : traffic P2) `{!PosixLaws T1} `{!PosixLaws T2}.
Abbreviation near := (tunnel (P:=P1) StdioTunnelLocal.t unit).
Abbreviation far := (tunnel (P:=P2) StdioTunnelRemote.t StdioTunnelRemote.own).
Implicit Types (w : world near far).

(** Both are connected and have their connections, each listened for by one
    end at most and then known to the other; there are no links. *)
Record starting w : Prop := Starting {
  st_first : sound (first w);
  st_second : sound (second w);
  st_connected : StdioTunnelRemote.m_state (role (second w)) = StdioTunnelRemote.CONNECTED;
  st_silent : to_second w = [] /\ to_first w = [];
  st_first_listens cid : side_at (first w) cid = Asking ->
    side_at (second w) cid = Answering /\ is_Some (m_connection_map (second w) !! cid);
  st_second_listens cid : side_at (second w) cid = Asking -> is_Some (m_connection_map (first w) !! cid);
  st_first_links c n : connections (first w) !! c = Some n -> m_link_map n = ∅;
  st_second_links c n : connections (second w) !! c = Some n -> m_link_map n = ∅
}.

(** Each hears what the other may report. *)
Lemma first_hears : reports (P:=P2) (R:=StdioTunnelRemote.t) (O:=StdioTunnelRemote.own) = true ->
  hears_errors (P:=P1) (R:=StdioTunnelLocal.t) (O:=unit) = true.
Proof. done. Qed.
Lemma second_hears : reports (P:=P1) (R:=StdioTunnelLocal.t) (O:=unit) = true ->
  hears_errors (P:=P2) (R:=StdioTunnelRemote.t) (O:=StdioTunnelRemote.own) = true.
Proof. done. Qed.

Lemma no_links {P : Posix} {R O : Type} `{EqDecision O} (s : tunnel R O) cid lid :
  (forall c n, connections s !! c = Some n -> m_link_map n = ∅) -> state_at s cid lid = Absent.
Proof.
  intros Hl. unfold state_at, look. destruct (find (memory_of s) cid lid) as [k|] eqn:E; [|done].
  apply find_inv in E as (c & n & _ & N & L). cbn in N. by rewrite (Hl c n N), lookup_empty in L.
Qed.

Lemma starting_agreeing w : starting w -> agreeing w [] [].
Proof.
  intros St. pose proof St as [So1 So2 Co [E2 E1] L1 L2 N1 N2]. split; try done.
  - intros cid Hs. by apply L1.
  - intros cid lid. rewrite !no_links by done. destruct (side_at (first w) cid) eqn:S1.
    + destruct (L1 cid S1) as [-> _]. apply ok_gone.
    + destruct (side_at (second w) cid); [apply ok_gone|done].
Qed.

Lemma reachable_agreeing w w' : starting w -> rtc moves_on w w' -> exists m2 m1, agreeing w' m2 m1.
Proof.
  intros St Hr. eapply (agreeing_reachable T1 T2); [done|done|exact Hr|by apply starting_agreeing].
Qed.

(** What may be called: every link and listener the poller watches, the
    listener while its next id is free. *)
Definition callable {P : Posix} {R O : Type} `{EqDecision O} `{!Role R O} (s : tunnel R O) (Q : tunnel R O -> Prop) : Prop :=
  (forall l pf, l ∈ watched_links (memory_of s) -> safely (link_polled l pf) s (fun _ s' => Q s')) /\
  (forall c f n ls ni, (PListen c, f) ∈ watched (memory_of s) -> connections s !! c = Some n ->
     m_side n = ListenSide ls ni -> m_link_map n !! i16 ni = None ->
     safely (listen_polled c) s (fun _ s' => Q s')).

Lemma sound_callable {P : Posix} {R O : Type} `{EqDecision O} `{!Role R O} `{!Reporter (R:=R) (O:=O)}
    (T : traffic P) `{!PosixLaws T} (s : tunnel R O) : sound s -> callable s (fun s' => typed (memory_of s')).
Proof.
  intros So. split.
  - intros l pf W. eapply safely_mono; [|exact (link_polled_part T s l pf So W)].
    intros ? s' (ms & [E _] & _). apply E.
  - intros c f n ls ni _ N Hs Hf. eapply safely_mono; [|exact (listen_polled_acts s c n ls ni So N Hs Hf)].
    intros ? s' (ms & [E _]). apply E.
Qed.

(** C4: no pointer ever dangles.  However the two processes take their turns
    and whatever their systems answer, the objects of both stay typed: the
    table of connections, the connections' tables of links, the links and
    what the poller watches all point at objects that are there and agree
    with each other; no callback reaches a freed object or does anything
    else undefined. *)
Theorem session_typed w0 w (St : starting w0) (Hr : rtc moves_on w0 w) :
  typed (memory_of (first w)) /\ typed (memory_of (second w)) /\
  callable (first w) (fun s => typed (memory_of s)) /\ callable (second w) (fun s => typed (memory_of s)).
Proof.
  destruct (reachable_agreeing w0 w St Hr) as (m2 & m1 & Ag).
  pose proof (ag_first _ _ _ Ag) as So1. pose proof (ag_second _ _ _ Ag) as So2.
  split_and!; [apply So1|apply So2|by apply (sound_callable T1)|by apply (sound_callable T2)].
Qed.

(** C5: no message is refused.  However the two processes have taken their
    turns, what comes next from the other process is taken without an
    exception: in particular a listener is never told of a link it does not
    have, which would throw.  And the two ends of every link are in states
    that go together, with what is on its way between them. *)
Theorem session_takes w0 w (St : starting w0) (Hr : rtc moves_on w0 w) :
  (forall p q, to_first w = p :: q -> exists s', StdioTunnelLocal.message_in (unread p (first w)) = Ret tt s') /\
  (forall p q, to_second w = p :: q -> exists s', StdioTunnelRemote.message_in (unread p (second w)) = Ret tt s') /\
  (exists m2 m1, to_second w = map enc_message m2 /\ to_first w = map enc_message m1 /\
     forall cid lid, fine (side_at (first w) cid) (side_at (second w) cid)
       (state_at (first w) cid lid) (state_at (second w) cid lid) (about cid lid m2) (about cid lid m1)).
Proof.
  destruct (reachable_agreeing w0 w St Hr) as (m2 & m1 & Ag). split_and!.
  - intros p q E. pose proof (ag_to_first _ _ _ Ag) as E1. rewrite E in E1. destruct m1 as [|m m1]; [done|].
    injection E1 as -> _. destruct (agreeing_reads first_hears w m2 m m1 Ag) as (a' & ms & Ht & _).
    apply turn_reads in Ht as [Ht _]. by exists a'.
  - intros p q E. pose proof (ag_to_second _ _ _ Ag) as E2. rewrite E in E2. destruct m2 as [|m m2]; [done|].
    injection E2 as -> _.
    destruct (agreeing_reads second_hears (swap w) m1 m m2 (agreeing_swap _ _ _ Ag)) as (b' & ms & Ht & _).
    apply turn_reads in Ht as [Ht _]. by exists b'.
  - exists m2, m1. split_and!; apply Ag.
Qed.

(** C2: the session settles.  Whatever has happened, if from now on the two
    processes only read what is on its way to them, in any order, then after
    finitely many steps nothing is on its way and the two ends have the same
    links: for any two ids, either both ends poll the link or neither knows
    it.  None is left half made or half closed. *)
Theorem session_settles w0 w (St : starting w0) (Hr : rtc moves_on w0 w) :
  settles (world_step true) agreed w.
Proof.
  destruct (reachable_agreeing w0 w St Hr) as (m2 & m1 & Ag).
  apply (agreeing_settles first_hears second_hears w m2 m1 Ag).
Qed.
End Session.

(** ** A session

    The local end of Links.v, with nothing but its listener, and a connected
    remote end; the local end accepts a socket. *)

Module SessionDemo.
Import Demo.

Definition listener_poller : Poller.t (obj unit) :=
  Poller.Mk [Poller.Entry 0 (POwn tt) (Pollfd 1 0 0); Poller.Entry 1 (PListen 0%nat) (Pollfd 8 1 0)] 2 10 0 0 (-1) false true.
Definition near (ans : list answer) : tunnel StdioTunnelLocal.t unit :=
  update poller listener_poller (local 0 ∅ ∅ [] ans).

Definition idle : Poller.t (obj StdioTunnelRemote.own) :=
  Poller.Mk [Poller.Entry 0 (POwn StdioTunnelRemote.OTunnel) (Pollfd 1 0 0)] 2 10 0 0 (-1) false true.
Definition far (ans : list answer) : tunnel StdioTunnelRemote.t StdioTunnelRemote.own :=
  update poller idle (update role_of (StdioTunnelRemote.set_state StdioTunnelRemote.CONNECTED StdioTunnelRemote.init)
    (remote 0 ∅ ∅ [] ans)).

Definition start_world (a b : list answer) := World (near a) (far b) [] [].

(** One connection and no link. *)
Lemma typed_bare {O : Type} `{EqDecision O} n (wl : list (obj O * Z)) : m_id n = 0 -> m_link_map n = ∅ -> host_fits n ->
  omap link_object wl = [] -> (forall c f, (PListen c, f) ∈ wl -> c = 0%nat /\ exists ni, m_side n = ListenSide f ni) ->
  typed (Memory {[0 := 0%nat]} {[0%nat := n]} ∅ 2 wl).
Proof.
  intros Hi Hl Hh Hw Hp. split; cbn [ids tables faces fresh watched].
  - intros cid c [<- <-]%lookup_singleton_Some. exists n. by rewrite lookup_singleton_eq.
  - intros c m [<- <-]%lookup_singleton_Some. rewrite Hi, lookup_singleton_eq. split_and!; [done..|lia].
  - intros c m lid k [<- <-]%lookup_singleton_Some. by rewrite Hl, lookup_empty.
  - intros k f. by rewrite lookup_empty.
  - intros k sock W. assert (k ∈ omap link_object wl) as H by (apply list_elem_of_omap; by exists (PLink k, sock)).
    rewrite Hw in H. by apply elem_of_nil in H.
  - intros c sock W. destruct (Hp c sock W) as (-> & ni & E). exists n, ni. by rewrite lookup_singleton_eq.
  - unfold watched_links. cbn [watched]. rewrite Hw. constructor.
  - intros k f m. by rewrite lookup_empty.
Qed.

Lemma starting_demo a b : starting (start_world a b).
Proof.
  split; try done.
  - split; [|by apply (bool_decide_unpack _); vm_compute|exact (map_Forall_empty _)|by exists (tt, 1)].
    apply (typed_bare (connection 0 listener ∅)); try done.
    intros c f [[=]|[[= -> ->]|H%elem_of_nil]%elem_of_cons]%elem_of_cons; [|done]. split; [done|by exists 502].
  - split; [|by apply (bool_decide_unpack _); vm_compute|exact (map_Forall_empty _)|by exists (StdioTunnelRemote.OTunnel, 1)].
    apply (typed_bare (connection 0 TunnelConnection.ConnectSide ∅)); try done.
    intros c f [[=]|H%elem_of_nil]%elem_of_cons. done.
  - intros cid. unfold side_at, side_of. cbn. destruct (decide (cid = 0)) as [->|Hne]; [by vm_compute; eauto|].
    by rewrite lookup_singleton_ne.
  - intros cid. unfold side_at, side_of. cbn. destruct (decide (cid = 0)) as [->|Hne]; [by vm_compute; eauto|].
    by rewrite lookup_singleton_ne.
  - intros c n N. cbn in N. by apply lookup_singleton_Some in N as [<- <-].
  - intros c n N. cbn in N. by apply lookup_singleton_Some in N as [<- <-].
Qed.

(** A socket is accepted, the remote end connects, the local end hears of
    it. *)
Definition near0 := near [Num 9; Num 0].
Definition far0 := far [Data [x7f; x00; x00; x01]; Num 7; Num 0; Num 0].
Definition asked : payload := enc_message (MLink 0 502 LCreate).
Definition answered : payload := enc_message (MLink 0 502 (LCreated LINK_SUCCESS)).
Definition near1 := final (listen_polled 0 near0) near0.
Definition far1 := final (StdioTunnelRemote.message_in (unread asked far0)) far0.
Definition near2 := final (StdioTunnelLocal.message_in (unread answered near1)) near1.
Definition open_world := World near2 far1 [] [].

Definition first_world := start_world [Num 9; Num 0] [Data [x7f; x00; x00; x01]; Num 7; Num 0; Num 0].

Lemma session_asks : rtc moves_on first_world (World near1 far0 ([] ++ [asked]) []).
Proof.
  apply rtc_once, first_alone. eapply turn_listener; [right; left|reflexivity|reflexivity|reflexivity| |]; vm_compute; reflexivity.
Qed.

Lemma session_runs : rtc moves_on first_world open_world.
Proof.
  etrans; [exact session_asks|]. apply (rtc_l _ _ (World near1 far1 [] ([] ++ [answered]))).
  { apply second_reads. eapply turn_read; vm_compute; reflexivity. }
  apply (rtc_l _ _ (World near2 far1 ([] ++ []) [])).
  { apply first_reads. eapply turn_read; vm_compute; reflexivity. }
  apply rtc_refl.
Qed.

Lemma session_typed_witness :
  typed (memory_of near2) /\ typed (memory_of far1) /\
  safely (link_polled 2 (Pollfd 9 POLLIN POLLIN)) near2 (fun _ s => typed (memory_of s)) /\
  safely (link_polled 2 (Pollfd 7 POLLIN POLLHUP)) far1 (fun _ s => typed (memory_of s)).
Proof.
  destruct (session_typed script_traffic script_traffic first_world open_world (starting_demo _ _) session_runs)
    as (H1 & H2 & [H3 _] & [H4 _]).
  split; [exact H1|]. split; [exact H2|].
  split; [apply (H3 2%nat)|apply (H4 2%nat)]; apply (bool_decide_unpack _); vm_compute; exact I.
Defined.

Lemma session_takes_witness : exists s', StdioTunnelRemote.message_in (unread asked far0) = Ret tt s'.
Proof.
  destruct (session_takes script_traffic script_traffic first_world _ (starting_demo _ _) session_asks) as (_ & H & _).
  exact (H asked [] eq_refl).
Defined.

Lemma session_settles_witness : settles (world_step true) agreed (World near1 far0 ([] ++ [asked]) []).
Proof. exact (session_settles script_traffic script_traffic first_world _ (starting_demo _ _) session_asks). Defined.

Lemma callbacks_refine_link_witness :
  safely (link_polled 2 (Pollfd 9 POLLIN POLLIN)) near2 (fun _ s' => exists ms, acts near2 s' ms).
Proof.
  assert (sound near2) as So.
  { destruct (reachable_agreeing script_traffic script_traffic first_world open_world (starting_demo _ _) session_runs)
      as (m2 & m1 & Ag). exact (ag_first _ _ _ Ag). }
  destruct (callbacks_refine_link script_traffic near2 So) as [H _]. apply (H 2%nat).
  apply (bool_decide_unpack _). vm_compute. exact I.
Defined.
End SessionDemo.
