(* ===== verification/Startup.v ===== *)
(** * From the handshake to the session

    After the handshake of Handshake.v the two processes are in a state from
    which the sessions of Agreement.v start.  What [CreateConnection] makes
    ([created]) is shared by the two ends: the remote one makes its side of
    the connections it is told of, and listens for those that go the other
    way ([settled], [started]). *)

From stdpp Require Import base list tactics gmap strings relations sorting.
From Stdlib Require Import ZArith Lia.
From S2P Require Import Prelude Posix Wire SockBuffer Poller Spec Options Magic Tunnel Connection Socks5 Local Remote Behaviour Protocol Links Handshake Session Memory Ends Hearing System Agreement.
Import StdioTunnel Heap TunnelConnection.

(** ** Two more changes of the memory *)

Section Memory.
Context {O : Type} `{EqDecision O}.

(** An object of the process's own is no longer polled. *)
Lemma typed_unwatch (m : memory O) o f : typed m ->
  typed (Memory (ids m) (tables m) (faces m) (fresh m) (remove_first (POwn o, f) (watched m))).
Proof.
  apply typed_others; try done. cbn [watched]. induction (watched m) as [|[o' f'] l IH]; [done|]. cbn [remove_first].
  destruct (decide _) as [[= -> ->]|]; [by rewrite filter_cons_False by auto|].
  rewrite !filter_cons. by destruct (decide _); rewrite IH.
Qed.

(** A connection without links that nobody polls. *)
Definition m_remember (cid : Z) (n : TunnelConnection.t) (m : memory O) : memory O :=
  Memory (<[cid := fresh m]> (ids m)) (<[fresh m := n]> (tables m)) (faces m) (S (fresh m)) (watched m).

Lemma typed_remember (m : memory O) n : typed m -> ids m !! m_id n = None -> i16 (m_id n) = m_id n -> host_fits n ->
  m_link_map n = ∅ -> typed (m_remember (m_id n) n m).
Proof.
  intros T I Hi Hh Hl.
  assert (forall c n', tables m !! c = Some n' -> c <> fresh m) as Hc.
  { intros c n' N ->. destruct (typed_tables m T _ _ N) as (_ & _ & _ & ?). lia. }
  split; cbn [m_remember ids tables faces fresh watched].
  - intros cid c [[<- <-]|[Hne I']]%lookup_insert_Some; [exists n; by rewrite lookup_insert_eq|].
    destruct (typed_ids m T _ _ I') as (n' & N & <-). exists n'.
    by rewrite lookup_insert_ne by (by apply not_eq_sym; eapply Hc).
  - intros c n' [[<- <-]|[Hne N]]%lookup_insert_Some; [rewrite lookup_insert_eq; split_and!; [done..|lia]|].
    destruct (typed_tables m T _ _ N) as (I' & ? & ? & ?). rewrite lookup_insert_ne by (intros E; rewrite E in I; congruence).
    split_and!; [done..|lia].
  - intros c n' lid k [[<- <-]|[Hne N]]%lookup_insert_Some; [by rewrite Hl, lookup_empty|]. by apply (typed_table m T).
  - intros k f F. destruct (typed_face m T _ _ F) as (? & n' & N & L). split; [lia|]. exists n'.
    by rewrite lookup_insert_ne by (by apply not_eq_sym; eapply Hc).
  - apply T.
  - intros c sock W. destruct (typed_listener m T _ _ W) as (n' & ni & N & E). exists n', ni.
    by rewrite lookup_insert_ne by (by apply not_eq_sym; eapply Hc).
  - apply T.
  - intros k f n' F Ho [[E <-]|[Hne N]]%lookup_insert_Some Hs; [|by apply (typed_made m T k f n')].
    destruct (typed_face m T _ _ F) as (_ & n0 & N0 & _). rewrite <- E in N0. by destruct (Hc _ _ N0).
Qed.

(** An object that has gone again. *)
Lemma typed_gone (m : memory O) k : (fresh m <= k)%nat -> typed m ->
  typed (Memory (ids m) (tables m) (faces m) k (watched m)).
Proof.
  intros Hk []. split; try done; cbn [ids tables faces fresh watched].
  - intros c n N. destruct (typed_tables c n N) as (? & ? & ? & ?). split_and!; [done..|lia].
  - intros l f F. destruct (typed_face l f F) as [? ?]. split; [lia|done].
Qed.

(** A listener is polled. *)
Definition m_listen (c : nat) (sock : Z) (m : memory O) : memory O :=
  Memory (ids m) (tables m) (faces m) (fresh m) (watched m ++ [(PListen c, sock)]).

Lemma typed_listen (m : memory O) c sock n ni : typed m -> tables m !! c = Some n -> m_side n = ListenSide sock ni ->
  typed (m_listen c sock m).
Proof.
  intros T N Hs. assert (watched_links (m_listen c sock m) = watched_links m) as El.
  { unfold watched_links. cbn [m_listen watched]. by rewrite omap_app, app_nil_r. }
  pose proof T as []. split; try done; cbn [m_listen ids tables faces fresh watched].
  - intros k f [W|[=]%list_elem_of_singleton]%elem_of_app. by apply typed_watched.
  - intros c' f [W|[= -> ->]%list_elem_of_singleton]%elem_of_app; [by apply typed_listener|eauto].
  - by rewrite El.
  - rewrite El. exact typed_made.
Qed.

(** The side of one connection alone is another one. *)
Lemma side_remember (m : memory O) id n : side_of (m_remember id n m) id = match m_side n with ListenSide _ _ => Asking | ConnectSide => Answering end.
Proof. unfold side_of, m_remember. cbn. rewrite lookup_insert_eq. cbn. by rewrite lookup_insert_eq. Qed.
Lemma side_remember_ne (m : memory O) id n cid : typed m -> cid <> id -> side_of (m_remember id n m) cid = side_of m cid.
Proof.
  intros T Hne. unfold side_of, m_remember. cbn. rewrite lookup_insert_ne by done.
  destruct (ids m !! cid) as [c|] eqn:I; [|done]. cbn. destruct (typed_ids m T _ _ I) as (n' & N & _).
  destruct (typed_tables m T _ _ N) as (_ & _ & _ & Hl). by rewrite lookup_insert_ne by lia.
Qed.
End Memory.

(** ** What makes a connection *)

Section Creating.
Context {P : Posix} {R O : Type} `{EqDecision O} `{!Role R O}.
Implicit Types (s : tunnel (P:=P) R O).

(** A listener: its socket, and the entry it has in the poller. *)
Definition listener (f id : Z) (spec : ConnectionSpec.t) : TunnelConnection.t := set_side (ListenSide f 501) (new_ListenSide spec id).

Lemma initialize_new c id spec s : connections s !! c = Some (new_ListenSide spec id) ->
  safely (initialize c) s (fun _ s' => exists f o,
    s' = update system_of o (update connection_heap (<[c := listener f id spec]> (connections s)) s)).
Proof.
  intros N. unfold initialize. eapply safely_step; [by apply connection_of_at|].
  assert (forall f o s', s' = update system_of o s ->
    set_connection (fun n => match m_side n with ListenSide _ next => set_side (ListenSide f next) n | ConnectSide => n end) c s' =
    Ret tt (update system_of o (update connection_heap (<[c := listener f id spec]> (connections s)) s))) as Hs.
  { intros f o s' ->. unfold set_connection, zoom, modify. cbn [view connection_heap update connections system_of].
    do 3 f_equal. apply map_eq. intros i. destruct (decide (c = i)) as [<-|Hne].
    - by rewrite lookup_alter_eq, N, lookup_insert_eq.
    - by rewrite lookup_alter_ne, lookup_insert_ne. }
  apply safely_bind. unfold safely at 1, syscall. cbn [view system_of]. destruct (sys_socket _) as [[f|e] o1].
  2: { eapply safely_step; [by eapply Hs|]. apply safely_ret. eauto. }
  eapply safely_step; [by eapply Hs|]. apply safely_bind. unfold safely at 1, syscall. cbn [view system_of update system].
  destruct (sys_bind _ _ _ _) as [[[]|e] o2]; [|done].
  apply safely_bind. unfold safely at 1, syscall. cbn [view system_of update system].
  destruct (sys_nonblock _ _) as [[[]|e] o3]; [|apply safely_ret; by exists f, o3].
  apply safely_bind. unfold safely at 1, syscall. cbn [view system_of update system].
  destruct (sys_listen _ _ _) as [r o4]. apply safely_ret. by exists f, o4.
Qed.

Lemma addPolled_listener_at c n f ni s : connections s !! c = Some n -> m_side n = ListenSide f ni ->
  addPolled (PListen c) s = Ret tt (update poller (register (PListen c) f POLLIN (m_poller s)) s).
Proof.
  intros N Hs. unfold addPolled, Poller.addPolled, Poller.on_poller. rewrite bind_gets.
  set (s1 := update poller (Poller.push (PListen c) (m_poller s)) s).
  rewrite (bind_step _ _ s tt s1) by done. rewrite (bind_step _ _ _ (f, POLLIN) s1); [done|].
  change (Poller.setPollfd (PListen c)) with (listen_setPollfd (R:=R) (O:=O) c).
  unfold listen_setPollfd, listener_of, mbind, M_bind. rewrite (connection_of_at c n s1 N : _ = _). by rewrite Hs.
Qed.

Lemma assign_fresh id c s : m_connection_map s !! id = None ->
  assign_connection id c s = Ret tt (update map_of (<[id := c]> (m_connection_map s)) s).
Proof.
  intros I. unfold assign_connection. rewrite bind_gets.
  rewrite (bind_step _ _ s tt (update map_of (<[id := c]> (m_connection_map s)) s)) by done. by rewrite I.
Qed.
Lemma free_connection_at c n s : connections s !! c = Some n -> m_link_map n = ∅ ->
  free_connection c s = Ret tt (update connection_heap (delete c (connections s)) s).
Proof.
  intros N Hl. unfold free_connection. rewrite bind_gets, N, Hl, map_to_list_empty. cbn [map foldr].
  by rewrite (bind_step _ _ s tt s) by (by destruct s).
Qed.
(** The end that listens for a connection. *)
Definition listens (b : bool) (spec : ConnectionSpec.t) : bool :=
  let ty := ConnectionSpec.m_connection_type spec in
  (b && (ty =? ConnectionSpec.CONNECT)) || (negb b && (ty =? ConnectionSpec.LISTEN)).

(** What [CreateConnection] makes: nothing when it cannot listen. *)
Definition created (b : bool) (id : Z) (spec : ConnectionSpec.t) (r : option nat) s s' : Prop :=
  match r with
  | None => listens b spec = true /\ exists o, s' = update system_of o (update next_of (S (next_object s)) s)
  | Some c => c = next_object s /\ exists n p o,
      s' = update poller p (update system_of o (update connection_heap (<[c := n]> (connections s)) (update next_of (S c) s))) /\
      m_id n = id /\ m_spec n = spec /\ m_link_map n = ∅ /\
      (m_side n = ConnectSide /\ listens b spec = false /\ p = m_poller s \/
       exists f, m_side n = ListenSide f 501 /\ listens b spec = true /\ p = register (PListen c) f POLLIN (m_poller s))
  end.

Lemma CreateConnection_created b id spec s : typed (memory_of s) ->
  safely (CreateConnection spec b id) s (fun r s' => created b id spec r s s').
Proof.
  intros Ty. unfold CreateConnection. fold (listens b spec). set (c := next_object s). destruct (listens b spec) eqn:Hb.
  - set (s1 := update connection_heap (<[c := new_ListenSide spec id]> (connections s)) (update next_of (S c) s)).
    eapply safely_step; [exact (eq_refl : new_connection _ s = Ret c s1)|].
    apply safely_bind. eapply safely_mono; [|apply (initialize_new c id spec); cbn; apply lookup_insert_eq].
    intros ok s2 (f & o & ->). cbn [connections s1 update connection_heap]. rewrite insert_insert_eq.
    set (n := listener f id spec). set (s2 := update system_of o (update connection_heap (<[c := n]> (connections s)) s1)).
    assert (connections s2 !! c = Some n) as N by apply lookup_insert_eq.
    destruct ok.
    + eapply safely_step; [exact (addPolled_listener_at c n f 501 s2 N eq_refl)|]. apply safely_ret. split; [done|].
      exists n, (register (PListen c) f POLLIN (m_poller s)), o. split_and!; try done. right. by exists f.
    + eapply safely_step; [exact (free_connection_at c n s2 N eq_refl)|]. apply safely_ret. split; [done|]. exists o.
      assert (delete c (connections s2) = connections s) as ->; [|by destruct s].
      change (connections s2) with (<[c := n]> (connections s)). rewrite delete_insert_eq. apply delete_id.
      destruct (connections s !! c) as [n'|] eqn:N'; [|done]. destruct (typed_tables _ Ty _ _ N') as (_ & _ & _ & Hlt).
      cbn in Hlt. unfold c in Hlt. lia.
  - eapply safely_step; [reflexivity|]. apply safely_ret. split; [done|].
    exists (new_ConnectSide spec id), (m_poller s), (system s). split_and!; try done. by left.
Qed.

(** The memory stays typed, and what the process polls of its own. *)
Record filed s s' : Prop := Filed {
  fl_typed : typed (memory_of s');
  fl_entries : entries_ok (m_poller s');
  fl_own : own_kept (m_poller s) (m_poller s')
}.

Lemma created_filed b id spec c s s' : created b id spec (Some c) s s' -> typed (memory_of s) -> entries_ok (m_poller s) ->
  m_connection_map s !! id = None -> i16 id = id -> zlen (ConnectionSpec.m_connect_host spec) < 4294967000 ->
  filed s (update map_of (<[id := c]> (m_connection_map s')) s').
Proof.
  intros (-> & n & p & o & -> & <- & <- & Hl & Hs) Ty En I Hi Hh.
  pose proof (typed_remember (memory_of s) n Ty I Hi Hh Hl) as Tr. destruct Hs as [(Hs & _ & ->)|(f & Hs & _ & ->)].
  - split; [exact Tr|exact En|apply own_refl].
  - pose proof (typed_listen _ _ f n 501 Tr (lookup_insert_eq _ _ _) Hs) as Tl.
    split; [|exact (entries_register _ _ _ _ En)|exact (own_register (PListen (next_object s)) f POLLIN (m_poller s) ltac:(by intros x) En)].
    unfold memory_of. cbn -[register]. rewrite (watch_register _ _ _ _ En). exact Tl.
Qed.
End Creating.

(** ** The remote end *)

Section Remote.
Context {P : Posix}.
Abbreviation far := (tunnel StdioTunnelRemote.t StdioTunnelRemote.own).
Implicit Types (s : far).

(** It has no links, and its listeners have accepted nothing. *)
Definition linkless s : Prop := sound s /\
  forall c n, connections s !! c = Some n -> m_link_map n = ∅ /\ forall ls ni, m_side n = ListenSide ls ni -> ni = 501.
(** It has no listeners either. *)
Definition bare s : Prop := sound s /\
  forall c n, connections s !! c = Some n -> m_link_map n = ∅ /\ m_side n = ConnectSide.

Lemma bare_linkless s : bare s -> linkless s.
Proof. intros [So Hb]. split; [done|]. intros c n N. destruct (Hb c n N) as [Hl Hs]. split; [done|]. intros ls ni. by rewrite Hs. Qed.

(** A specification the remote end can take: not one for its SOCKS server. *)
Definition plain (e : Z * ConnectionSpec.t) : Prop :=
  ConnectionSpec.isSocks5 e.2 = false /\ i16 e.1 = e.1 /\ zlen (ConnectionSpec.m_connect_host e.2) < 4294967000.

(** *** What taking a list of specifications changes *)

Record same_but_tables s s' : Prop := SameButTables {
  sbt_links : links s' = links s;
  sbt_own : own_kept (m_poller s) (m_poller s');
  sbt_role : role s' = role s;
  sbt_target : m_write_target s' = m_write_target s;
  sbt_writer : m_write_stream s' = m_write_stream s;
  sbt_reader : m_read_stream s' = m_read_stream s
}.
#[local] Instance same_but_tables_preorder : PreOrder same_but_tables.
Proof.
  split; [intros s; by split|]. intros s1 s2 s3 [] []. split; try congruence. unfold own_kept in *. by etrans.
Qed.

Record settled (l : list (Z * ConnectionSpec.t)) s s' : Prop := Settled {
  stl_linkless : linkless s';
  stl_others cid : cid ∉ map fst l -> m_connection_map s' !! cid = m_connection_map s !! cid /\ side_at s' cid = side_at s cid;
  stl_connects e : e ∈ l -> ConnectionSpec.m_connection_type e.2 <> ConnectionSpec.LISTEN ->
    is_Some (m_connection_map s' !! e.1) /\ side_at s' e.1 = Answering;
  stl_kept : same_but_tables s s'
}.

Lemma settled_nil s : linkless s -> settled [] s s.
Proof. intros Hl. split; [done|done| |done]. by intros e He%elem_of_nil. Qed.

Lemma settled_cons e l s s1 s2 : e.1 ∉ map fst l -> settled [e] s s1 -> settled l s1 s2 -> settled (e :: l) s s2.
Proof.
  intros Hn [H1 O1 C1 K1] [H2 O2 C2 K2]. split; [done| | |by etrans].
  - intros cid [Hne Hni]%not_elem_of_cons. destruct (O1 cid) as [E1 F1]; [cbn; by rewrite list_elem_of_singleton|].
    destruct (O2 cid Hni) as [E2 F2]. split; congruence.
  - intros e' [->|He]%elem_of_cons Ht; [|by apply C2]. destruct (C1 e ltac:(by left) Ht) as [[c I] Hs].
    destruct (O2 e.1 Hn) as [E2 F2]. rewrite E2, F2. eauto.
Qed.

(** *** One specification *)

Lemma settled_filed id spec n s s' : linkless s -> m_connection_map s !! id = None -> i16 id = id ->
  m_id n = id -> m_spec n = spec -> zlen (ConnectionSpec.m_connect_host spec) < 4294967000 -> m_link_map n = ∅ ->
  (forall ls ni, m_side n = ListenSide ls ni -> ni = 501) ->
  (m_side n = ConnectSide \/ ConnectionSpec.m_connection_type spec = ConnectionSpec.LISTEN) ->
  sound s' -> m_connection_map s' = <[id := next_object s]> (m_connection_map s) ->
  connections s' = <[next_object s := n]> (connections s) -> same_but_tables s s' -> settled [(id, spec)] s s'.
Proof.
  intros [So Hl] I Hi Hid Hsp Hh Hln Hn Hk So' Ei Ec Sb.
  assert (forall cid, side_at s' cid = side_of (m_remember id n (memory_of s)) cid) as Es.
  { intros cid. unfold side_at, side_of. cbn. by rewrite Ei, Ec. }
  split; [|intros cid Hc|intros e ->%list_elem_of_singleton Ht|done].
  - split; [done|]. intros c m. rewrite Ec. intros [[_ <-]|[_ N]]%lookup_insert_Some; [done|by eapply Hl].
  - cbn in Hc. rewrite list_elem_of_singleton in Hc. split.
    + by rewrite Ei, lookup_insert_ne.
    + rewrite Es. apply side_remember_ne; [apply So|done].
  - cbn [fst snd] in *. destruct Hk as [Hs|Hs]; [|done]. rewrite Ei, lookup_insert_eq, Es, side_remember, Hs. eauto.
Qed.

(** A listener that could not be made. *)
Lemma settled_nothing id spec s s' o : linkless s -> ConnectionSpec.m_connection_type spec = ConnectionSpec.LISTEN ->
  s' = update system_of o (update next_of (S (next_object s)) s) -> settled [(id, spec)] s s'.
Proof.
  intros [[Ty En Bu [t Re]] Hl] Ht ->. split; [|done|by intros e ->%list_elem_of_singleton|by split].
  split; [|exact Hl]. split; [|done|done|by exists t]. apply (typed_gone (memory_of s)); [cbn; lia|done].
Qed.

Lemma accept_one id spec s : linkless s -> m_connection_map s !! id = None -> plain (id, spec) ->
  safely (StdioTunnelRemote.accept_spec id spec) s (fun _ s' => settled [(id, spec)] s s').
Proof.
  intros Hl I (Hk & Hi & Hh). pose proof Hl as [[Ty En Bu [t Re]] Hc]. cbn [fst snd] in *. unfold StdioTunnelRemote.accept_spec. rewrite Hk.
  eapply safely_step; [reflexivity|]. apply safely_bind. eapply safely_mono; [|by apply CreateConnection_created].
  intros [c|] s1 Cr.
  - destruct (created_filed false id spec c s s1 Cr Ty En I Hi Hh) as [Ty' En' Ow].
    destruct Cr as (-> & n & p & o & -> & Hid & Hsp & Hln & Hs). set (s2 := update poller p _) in *.
    apply (safely_at _ _ _ _ _ (assign_fresh id _ s2 I)). apply (settled_filed id spec n); try done.
    + destruct Hs as [(-> & _)|(f & -> & _)]; [done|by intros ls ni [= _ <-]].
    + destruct Hs as [(Hs & _)|(f & _ & Hb & _)]; [by left|right]. unfold listens in Hb. cbn in Hb. lia.
    + split; [exact Ty'|exact En'|exact Bu|by exists t].
  - destruct Cr as [Hb [o ->]]. apply safely_ret. apply (settled_nothing id spec s _ o); try done. unfold listens in Hb. cbn in Hb. lia.
Qed.

(** The whole list. *)
Lemma accept_all_settled l s : linkless s -> Forall plain l -> NoDup (map fst l) ->
  Forall (fun e => m_connection_map s !! e.1 = None) l -> safely (accept_all l) s (fun _ s' => settled l s s').
Proof.
  revert s. induction l as [|[id spec] l IH]; intros s Hl Hp ND Hf; cbn [accept_all map fst snd] in *.
  - by apply safely_ret, settled_nil.
  - apply Forall_cons in Hp as [Hp1 Hp2], Hf as [Hf1 Hf2]. apply NoDup_cons in ND as [Hni ND].
    apply safely_bind. apply (safely_mono _ _ (fun _ s1 => settled [(id, spec)] s s1)); [|by apply accept_one]. intros _ s1 S1.
    apply (safely_mono _ _ (fun _ s2 => settled l s1 s2)); [|apply IH; try done; [by eapply stl_linkless|]].
    + intros _ s2 S2. by eapply settled_cons.
    + rewrite Forall_forall in Hf2. apply Forall_forall. intros e He.
      destruct (stl_others _ _ _ S1 e.1) as [-> _]; [|by apply Hf2]. cbn. rewrite list_elem_of_singleton.
      intros Heq. apply Hni. rewrite <- Heq. by apply (list_elem_of_fmap_2 fst).
Qed.

(** *** Reading the list of specifications *)

(** The remote end has taken the list. *)
Record started (specs : list (Z * ConnectionSpec.t)) s s' : Prop := Started {
  std_linkless : linkless s';
  std_connected : StdioTunnelRemote.m_state (role s') = StdioTunnelRemote.CONNECTED;
  std_packets : packets s' = packets s ++ [WriteStream.new_WritePacket (enc_message MReady)];
  std_connects e : e ∈ specs -> ConnectionSpec.m_connection_type (received_spec e.2) <> ConnectionSpec.LISTEN ->
    is_Some (m_connection_map s' !! i16 e.1) /\ side_at s' (i16 e.1) = Answering;
  std_others cid : cid ∉ map (fun e => i16 e.1) specs ->
    m_connection_map s' !! cid = m_connection_map s !! cid /\ side_at s' cid = side_at s cid;
  std_links : links s' = links s;
  std_own : own_kept (m_poller s) (m_poller s');
  std_reader : m_read_stream s' = m_read_stream (unread [] s)
}.

Lemma remote_starts specs s : bare s -> m_connection_map s = ∅ ->
  StdioTunnelRemote.m_state (role s) = StdioTunnelRemote.HANDSHAKING -> zlen specs < 32768 ->
  Forall (fun e => plain (arrived e) /\ spec_fits e) specs -> NoDup (map (fun e => i16 e.1) specs) ->
  safely StdioTunnelRemote.message_in (told (MCreate specs) s) (fun _ s' => started specs s s' /\
    exists s1, accept_all (map arrived specs) (told (MCreate specs) s) = Ret tt s1 /\ system s' = system s1).
Proof.
  intros Hb Hm Hst Hlen [Hp Hf]%Forall_and ND. destruct (sound_ready s (proj1 Hb)) as [t Hr].
  set (s0 := told (MCreate specs) s).
  assert (linkless s0) as Hl0 by (apply bare_linkless; split; [by apply sound_unread, Hb|apply Hb]).
  assert (Forall (fun e => m_connection_map s0 !! e.1 = None) (map arrived specs)) as Hno.
  { apply Forall_forall. intros e _. change (m_connection_map s0) with (m_connection_map s). by rewrite Hm, lookup_empty. }
  assert (NoDup (map fst (map arrived specs))) as ND' by (by rewrite map_map).
  pose proof (accept_all_settled (map arrived specs) s0 Hl0 ltac:(by apply Forall_map) ND' Hno) as H. unfold safely in H.
  destruct (accept_all (map arrived specs) s0) as [[] s1|e s1|u|] eqn:E; [| |done..].
  2: { destruct (handshake_message_throws specs [] e s0 s1 (to_read_told _ s) Hst Hlen Hf E) as [s' Es]. unfold safely. by rewrite Es. }
  destruct H as [[So1 Hl1] O1 C1 [K1 K2 K3 K4 K5 K6]].
  assert (ready s1 t) as Hr1 by (unfold ready; rewrite K4, K5; exact Hr).
  apply (safely_at _ _ _ _ _ (handshake_message_at specs [] t s0 s1 (to_read_told _ s) Hst Hlen Hf E Hr1)).
  set (s2 := update role_of _ (unread [] s1)). split; [|by exists s1].
  split.
  - split; [|exact Hl1]. destruct So1 as [Ty En Bu Re].
    split; [by rewrite memory_said|exact (entries_events _ _ _ _ En)|exact Bu|]. exists t. by apply ready_said.
  - done.
  - change (packets s) with (WriteStream.m_packet_queue (m_write_stream s0)). rewrite <- K5. done.
  - intros e He Ht. unfold side_at. rewrite memory_said. apply (C1 (arrived e)); [|done]. by apply (list_elem_of_fmap_2 arrived).
  - intros cid Hc. unfold side_at. rewrite memory_said. apply (O1 cid). by rewrite map_map.
  - exact K1.
  - etrans; [exact K2|]. exact (own_events (POwn t.1) t.2 POLLOUT (m_poller s1)).
  - exact (f_equal (ReadStream.set_queue []) K6).
Qed.
End Remote.

(** ** The local end *)

Section Local.
Context {P : Posix}.
Abbreviation near := (tunnel StdioTunnelLocal.t unit).
Implicit Types (s : near).

(** It has accepted nothing, and listens for the connections the remote end
    is to make. *)
Definition prepared s : Prop := sound s /\ forall c n, connections s !! c = Some n -> m_link_map n = ∅ /\
  forall ls ni, m_side n = ListenSide ls ni -> ConnectionSpec.m_connection_type (m_spec n) = ConnectionSpec.CONNECT.

(** [specs] is the list of its connections, and one the remote end can take. *)
Record announces s (specs : list (Z * ConnectionSpec.t)) : Prop := Announces {
  an_prepared : prepared s;
  an_ids : NoDup (map fst specs);
  an_fits e : e ∈ specs -> i16 e.1 = e.1 /\ zlen (ConnectionSpec.m_connect_host e.2) < 4294967000;
  an_known e : e ∈ specs -> is_Some (m_connection_map s !! e.1);
  an_asking cid : side_at s cid = Asking ->
    exists spec, (cid, spec) ∈ specs /\ ConnectionSpec.m_connection_type spec = ConnectionSpec.CONNECT;
  an_plain : Forall (fun e => ConnectionSpec.isSocks5 (received_spec e.2) = false) specs;
  an_count : zlen specs < 32768
}.

Lemma side_asking s cid : side_at s cid = Asking -> exists c n ls ni,
  m_connection_map s !! cid = Some c /\ connections s !! c = Some n /\ m_side n = ListenSide ls ni.
Proof.
  unfold side_at, side_of. cbn. destruct (m_connection_map s !! cid) as [c|] eqn:I; [|done]. cbn.
  destruct (connections s !! c) as [n|] eqn:N; [|done]. destruct (m_side n) as [ls ni|] eqn:Hs; [|done]. eauto 7.
Qed.

(** What is announced: every connection there is, by its id. *)
Lemma prepared_announces s specs : prepared s -> specs_of (StdioTunnelLocal.in_order (m_connection_map s)) s = Some specs ->
  Forall (fun e => ConnectionSpec.isSocks5 (received_spec e.2) = false) specs -> zlen specs < 32768 -> announces s specs.
Proof.
  intros Pr E Hp Hc. pose proof Pr as [So Hl]. unfold specs_of in E. apply mapM_Some_1 in E. set (l := StdioTunnelLocal.in_order _) in E.
  assert (l ≡ₚ map_to_list (m_connection_map s)) as Hperm by apply merge_sort_Permutation.
  assert (forall e, e ∈ l -> m_connection_map s !! e.1 = Some e.2) as Hin.
  { intros [cid c] He. rewrite Hperm in He. by apply elem_of_map_to_list in He. }
  assert (forall e e', e ∈ l -> (c ← connections s !! e.2; Some (TunnelConnection.m_id c, m_spec c)) = Some e' ->
    exists n, connections s !! e.2 = Some n /\ e' = (e.1, m_spec n) /\ i16 e.1 = e.1 /\ host_fits n) as Hone.
  { intros e e' He (n & N & [= <-])%bind_Some. destruct (typed_ids _ (sound_typed s So) _ _ (Hin e He)) as (n' & N' & Hi).
    cbn in N'. rewrite N in N'. injection N' as <-. destruct (typed_tables _ (sound_typed s So) _ _ N) as (_ & ? & ? & _).
    exists n. rewrite <- Hi. done. }
  assert (forall e', e' ∈ specs -> exists e n, e ∈ l /\ connections s !! e.2 = Some n /\ e' = (e.1, m_spec n) /\ i16 e.1 = e.1 /\ host_fits n) as Hall.
  { intros e' He'. apply list_elem_of_lookup in He' as [i Hi]. destruct (Forall2_lookup_r _ _ _ _ _ E Hi) as (e & He & Hf).
    apply list_elem_of_lookup_2 in He. destruct (Hone e e' He Hf) as (n & ?). by exists e, n. }
  split; try done.
  - assert (map fst specs = map fst l) as ->.
    { clearbody l. clear Hperm Hin Hall Hp Hc. induction E as [|e e' l specs He _ IH]; cbn; [done|].
      destruct (Hone e e' ltac:(by left) He) as (n & _ & -> & _). f_equal. apply IH.
      intros e0 e0' He0. apply Hone. by right. }
    change (map fst l) with (fst <$> l). rewrite Hperm. apply NoDup_fst_map_to_list.
  - intros e' (e & n & _ & _ & -> & Hi & Hh)%Hall. done.
  - intros e' (e & n & He & _ & -> & _)%Hall. cbn. rewrite (Hin e He). eauto.
  - intros cid (c & n & ls & ni & I & N & Hs)%side_asking. exists (m_spec n). split; [|by eapply Hl].
    assert ((cid, c) ∈ l) as He by (rewrite Hperm; by apply elem_of_map_to_list).
    apply list_elem_of_lookup in He as He2. destruct He2 as [i Hi]. destruct (Forall2_lookup_l _ _ _ _ _ E Hi) as (e' & He' & Hf).
    destruct (Hone _ _ He Hf) as (n' & N' & -> & _). cbn in N'. rewrite N in N'. injection N' as <-.
    by eapply list_elem_of_lookup_2.
Qed.

Lemma handshaken_prepared t specs s : prepared s -> ready s t -> prepared (handshaken t specs s).
Proof.
  intros [[Ty En Bu Re] Hl] Hr. split; [|exact Hl]. split; [| |exact Bu|exists t; exact (conj (proj1 Hr) eq_refl)].
  - unfold memory_of, handshaken. cbn -[final Poller.removePolled events_set]. rewrite watch_remove, watch_events.
    exact (typed_unwatch (memory_of s) tt STDIN_FD Ty).
  - cbn -[final Poller.removePolled events_set]. eapply entries_ops; [apply removePolled_ops|].
    exact (entries_events _ _ _ _ En).
Qed.

(** [startHandshaking] announces what there is. *)
Lemma startHandshaking_announces s t specs : ready s t ->
  specs_of (StdioTunnelLocal.in_order (m_connection_map s)) s = Some specs ->
  m_daemon (StdioTunnelLocal.m_config (role s)) = false -> announces s specs ->
  exists s', StdioTunnelLocal.startHandshaking s = Ret tt s' /\ announces s' specs /\
    packets s' = packets s ++ [WriteStream.new_WritePacket (enc_message (MCreate specs))].
Proof.
  intros Hr Hs Hd An. exists (handshaken t specs s). split; [by apply startHandshaking_at|]. split; [|done].
  destruct An. split; try done. by apply handshaken_prepared.
Qed.
End Local.

(** ** Both *)

Section Startup.
Context {P1 P2 : Posix}.
Implicit Types (a : tunnel (P:=P1) StdioTunnelLocal.t unit) (b : tunnel (P:=P2) StdioTunnelRemote.t StdioTunnelRemote.own).

(** Ends all of whose connections connect on demand ask for nothing. *)
Lemma bare_answers b cid : bare b -> side_at b cid = Answering.
Proof.
  intros [_ Hb]. unfold side_at, side_of. cbn. destruct (m_connection_map b !! cid) as [c|]; cbn; [|done].
  destruct (connections b !! c) as [n|] eqn:N; [|done]. by destruct (Hb c n N) as [_ ->].
Qed.

(** A remote end that waits for the list. *)
Definition waiting b : Prop := bare b /\ m_connection_map b = ∅ /\
  StdioTunnelRemote.m_state (role b) = StdioTunnelRemote.HANDSHAKING.

Lemma announces_arrive a specs : announces a specs ->
  Forall (fun e => plain (arrived e) /\ spec_fits e) specs /\ NoDup (map (fun e => i16 e.1) specs).
Proof.
  intros An. split.
  - pose proof (an_plain _ _ An) as Hp. rewrite Forall_forall in Hp. apply Forall_forall. intros e He.
    destruct (an_fits _ _ An e He) as [Hi Hh]. split; [|unfold spec_fits; lia].
    split_and!; [by apply Hp|apply i16_idemp|exact Hh].
  - replace (map (fun e => i16 e.1) specs) with (map fst specs); [apply An|].
    apply map_ext_in. intros e He. symmetry. apply (an_fits _ _ An). by apply list_elem_of_In.
Qed.

(** It takes the list, or throws. *)
Lemma waiting_takes a specs b : announces a specs -> waiting b ->
  safely StdioTunnelRemote.message_in (told (MCreate specs) b) (fun _ b' => started specs b b' /\
    exists b1, accept_all (map arrived specs) (told (MCreate specs) b) = Ret tt b1 /\ system b' = system b1).
Proof.
  intros An (Hb & Hm & Hst). destruct (announces_arrive a specs An). by apply remote_starts; [..|apply An| |].
Qed.

(** It returns when it need not listen. *)
Lemma waiting_returns a specs b : announces a specs -> waiting b ->
  Forall (fun e => ConnectionSpec.m_connection_type (received_spec e.2) <> ConnectionSpec.LISTEN) specs ->
  exists b', StdioTunnelRemote.message_in (told (MCreate specs) b) = Ret tt b'.
Proof.
  intros An (Hb & Hm & Hst) Hp. destruct (announces_arrive a specs An) as [[_ Hf]%Forall_and ND].
  destruct (sound_ready b (proj1 Hb)) as [t Hr]. set (b0 := told (MCreate specs) b).
  destruct (accept_all_passive (map arrived specs) b0) as (b1 & E & Et & Ew & _).
  - apply Forall_map. pose proof (an_plain _ _ An) as Hq. rewrite Forall_forall in Hp, Hq. apply Forall_forall.
    intros e He. exact (conj (Hq e He) (Hp e He)).
  - by rewrite map_map.
  - apply Forall_forall. intros e _. change (m_connection_map b0) with (m_connection_map b). by rewrite Hm, lookup_empty.
  - assert (ready b1 t) as Hr1 by (unfold ready; rewrite Et, Ew; exact Hr).
    eexists. exact (handshake_message_at specs [] t b0 b1 (to_read_told _ b) Hst (an_count _ _ An) Hf E Hr1).
Qed.

(** Then the two are where a session starts. *)
Lemma started_starting a specs b b' : announces a specs -> waiting b -> started specs b b' -> starting (World a b' [] []).
Proof.
  intros An (Hb & Hm & _) [[So' Hl'] Hc Hp Hk Ho _ _ _]. pose proof (an_prepared _ _ An) as [So Hl].
  split; cbn [first second to_first to_second]; try done.
  - intros cid (spec & Hin & Ht)%(an_asking _ _ An). destruct (an_fits _ _ An _ Hin) as [Hi _]. cbn in Hi.
    destruct (Hk (cid, spec) Hin) as [Hs Ha]; cbn in *; [by rewrite Ht|]. by rewrite Hi in Hs, Ha.
  - intros cid Hs. destruct (decide (cid ∈ map (fun e => i16 e.1) specs)) as [Hin|Hni].
    + apply list_elem_of_fmap in Hin as (e & -> & He). rewrite (proj1 (an_fits _ _ An e He)). by apply (an_known _ _ An).
    + destruct (Ho cid Hni) as [_ E]. by rewrite E, (bare_answers b cid Hb) in Hs.
  - intros c n N. by destruct (Hl c n N).
  - intros c n N. by destruct (Hl' c n N).
Qed.

(** C16: the handshake leads to a session.  A local end that has accepted no
    socket, and a remote end that is waiting for the list and has no
    connection, exchange one packet each: the list of the connections and the
    word that it has been taken.  The remote end throws, if it cannot bind a
    port it is to listen on, or else the local end is connected, every
    connection it listens for is known to the remote end and the other way
    round, no pointer dangles, and so a session starts, with all that holds of
    sessions.  It cannot throw when there is none it is to listen for. *)
Theorem handshake_starts a b specs t (Ha : announces a specs) (Hr : ready a t)
    (Hspecs : specs_of (StdioTunnelLocal.in_order (m_connection_map a)) a = Some specs)
    (Hd : m_daemon (StdioTunnelLocal.m_config (role a)) = false) (Hb : waiting b) :
  exists a1, StdioTunnelLocal.startHandshaking a = Ret tt a1 /\
    packets a1 = packets a ++ [WriteStream.new_WritePacket (enc_message (MCreate specs))] /\
    safely StdioTunnelRemote.message_in (told (MCreate specs) b) (fun _ b1 =>
      packets b1 = packets b ++ [WriteStream.new_WritePacket (enc_message MReady)] /\
      exists a2, StdioTunnelLocal.message_in (told MReady a1) = Ret tt a2 /\
        StdioTunnelLocal.m_state (role a2) = StdioTunnelLocal.CONNECTED /\ starting (World a2 b1 [] [])) /\
    (Forall (fun e => ConnectionSpec.m_connection_type (received_spec e.2) <> ConnectionSpec.LISTEN) specs ->
      exists b1, StdioTunnelRemote.message_in (told (MCreate specs) b) = Ret tt b1).
Proof.
  destruct (startHandshaking_announces a t specs Hr Hspecs Hd Ha) as (a1 & E1 & An & P1'). exists a1. split_and!; [done..| |].
  - eapply safely_mono; [|by apply (waiting_takes a1)]. intros _ b1 [St _]. split; [apply St|].
    exists (update role_of (StdioTunnelLocal.set_state StdioTunnelLocal.CONNECTED (role (told MReady a1))) (unread [] a1)).
    split_and!; [done..|]. eapply started_starting; [|exact Hb|exact St]. destruct An as [[[] ] ]. by split.
  - intros Hp. by apply (waiting_returns a1).
Qed.
End Startup.

(** A local end with two connections, one for each end to listen for, and a
    remote end that has nothing. *)
Module StartupDemo.
Import Demo HandshakeDemo SessionDemo.

Definition reverse : ConnectionSpec.t := ConnectionSpec.Mk ConnectionSpec.LISTEN (bytes_of "web") 80 9000 0.
Definition both_specs : list (Z * ConnectionSpec.t) := [(0, Demo.spec 0); (1, reverse)].
Definition two_ids : gmap Z nat := <[1 := 1%nat]> (<[0 := 0%nat]> ∅).
Definition two_connections : gmap nat TunnelConnection.t :=
  <[1%nat := TunnelConnection.new_ConnectSide reverse 1]> (<[0%nat := connection 0 (ListenSide 8 501) ∅]> ∅).

Definition offering : tunnel StdioTunnelLocal.t unit :=
  update map_of two_ids (update connection_heap two_connections (near [])).
Definition receiving : tunnel StdioTunnelRemote.t StdioTunnelRemote.own :=
  update system_of (Script [Num 7; Num 0; Num 0; Num 0] []) (update poller idle (receiver [])).

Lemma typed_empty {O : Type} `{EqDecision O} n (wl : list (obj O * Z)) : omap link_object wl = [] ->
  (forall c f, (PListen c, f) ∉ wl) -> typed (Memory ∅ ∅ ∅ n wl).
Proof.
  intros Hw Hp. split; cbn [ids tables faces fresh watched].
  - intros cid c. by rewrite lookup_empty.
  - intros c m. by rewrite lookup_empty.
  - intros c m lid k. by rewrite lookup_empty.
  - intros k f. by rewrite lookup_empty.
  - intros k sock W. assert (k ∈ omap link_object wl) as H by (apply list_elem_of_omap; by exists (PLink k, sock)).
    rewrite Hw in H. by apply elem_of_nil in H.
  - intros c sock W. by destruct (Hp c sock).
  - unfold watched_links. cbn [watched]. rewrite Hw. constructor.
  - intros k f m. by rewrite lookup_empty.
Qed.

(** The two connections, one of them polled. *)
Lemma typed_two {O : Type} `{EqDecision O} (wl : list (obj O * Z)) : omap link_object wl = [] ->
  (forall c f, (PListen c, f) ∉ wl) -> typed (Memory two_ids two_connections ∅ 2 (wl ++ [(PListen 0%nat, 8)])).
Proof.
  intros Hw Hp. pose proof (typed_empty 0 wl Hw Hp) as T0.
  pose proof (typed_remember _ (connection 0 (ListenSide 8 501) ∅) T0 (lookup_empty _) eq_refl eq_refl eq_refl) as T1.
  pose proof (typed_remember _ (TunnelConnection.new_ConnectSide reverse 1) T1 eq_refl eq_refl eq_refl eq_refl) as T2.
  exact (typed_listen _ 0%nat 8 (connection 0 (ListenSide 8 501) ∅) 501 T2 eq_refl eq_refl).
Qed.

Lemma two_connections_inv c n : two_connections !! c = Some n ->
  n = connection 0 (ListenSide 8 501) ∅ \/ n = TunnelConnection.new_ConnectSide reverse 1.
Proof. unfold two_connections. rewrite !lookup_insert_Some. by intros [[_ <-]|[_ [[_ <-]|[_ [=]]]]]; [right|left]. Qed.

Lemma waiting_receiving : waiting receiving.
Proof.
  split; [|done]. split; [split; [|by apply (bool_decide_unpack _); vm_compute|exact (map_Forall_empty _)|by exists (StdioTunnelRemote.OTunnel, 1)]|].
  - apply typed_empty; [done|]. intros c f [[=]|H%elem_of_nil]%elem_of_cons. done.
  - intros c n N. cbn in N. by rewrite lookup_empty in N.
Qed.

Lemma announces_offering : announces offering both_specs.
Proof.
  apply prepared_announces; [|by vm_compute|by repeat constructor|done]. split.
  - split; [|by apply (bool_decide_unpack _); vm_compute|exact (map_Forall_empty _)|by exists (tt, 1)].
    apply (typed_two [(POwn tt, 1)]); [done|]. by intros c f [[=]|H%elem_of_nil]%elem_of_cons.
  - by intros c n [-> | ->]%two_connections_inv.
Qed.

Definition received : tunnel StdioTunnelRemote.t StdioTunnelRemote.own :=
  final (StdioTunnelRemote.message_in (told (MCreate both_specs) receiving)) receiving.
Lemma receiving_takes : StdioTunnelRemote.message_in (told (MCreate both_specs) receiving) = Ret tt received.
Proof. vm_compute. reflexivity. Qed.
Lemma received_listens : side_at received 1 = Asking.
Proof. vm_compute. reflexivity. Qed.

Lemma handshake_starts_witness : exists a1 a2,
  StdioTunnelLocal.startHandshaking offering = Ret tt a1 /\ side_at received 1 = Asking /\
  StdioTunnelLocal.message_in (told MReady a1) = Ret tt a2 /\ starting (World a2 received [] []).
Proof.
  destruct (handshake_starts offering receiving both_specs (tt, 1) announces_offering (conj eq_refl eq_refl))
    as (a1 & E1 & _ & H & _); [vm_compute; reflexivity|reflexivity|exact waiting_receiving|].
  destruct (safely_returned _ _ _ _ _ H receiving_takes) as (_ & a2 & E2 & _ & St).
  exists a1, a2. split; [exact E1|]. split; [exact received_listens|]. split; [exact E2|exact St].
Defined.
End StartupDemo.
