(* ===== verification/Phases.v ===== *)
(** * From the handshake on

    What the two processes may come to from the moment the local one has
    called [startHandshaking]: the list of connections is on its way, then
    the remote process's word that it has taken it, then a session runs
    (Agreement.v).  The local process may ask for links at once; what it asks
    for comes after the list.  The remote process is to take the list as it
    is ([announces]). *)

From stdpp Require Import base list tactics gmap strings relations sorting.
From Stdlib Require Import ZArith Lia.
From S2P Require Import Prelude Posix Wire SockBuffer Poller Spec Options Magic Tunnel Connection Socks5 Local Remote Behaviour Protocol Links Handshake Session Memory Ends Hearing Pipes System Running Agreement Startup.
Import StdioTunnel TunnelConnection.

Section Phases.
Context {P1 P2 : Posix} (T1 : traffic P1) (T2 : traffic P2) `{!PosixLaws T1} `{!PosixLaws T2}.
Abbreviation near := (tunnel (P:=P1) StdioTunnelLocal.t unit).
Abbreviation far := (tunnel (P:=P2) StdioTunnelRemote.t StdioTunnelRemote.own).
Implicit Types (n : near) (f : far) (w : world near far).

Context (n0 : near) (specs : list (Z * ConnectionSpec.t)).

(** A session that has begun with the local process as it was. *)
Definition began w : Prop := exists f0, starting (World n0 f0 [] []) /\ rtc moves_on (World n0 f0 [] []) w.

(** What the local process does by itself does not depend on the other. *)
Definition small (q : list payload) : Prop := Forall (fun p => zlen p < 4294967296) q.
Record alone n (q2 : list payload) : Prop := Alone {
  al_moves f : rtc moves_on (World n0 f [] []) (World n f q2 []);
  al_sound : sound n;
  al_small : small q2
}.

Inductive phase : world near far -> Prop :=
| list_on_its_way n f q2 : alone n q2 -> waiting f -> phase (World n f (enc_message (MCreate specs) :: q2) [])
| word_on_its_way n f q2 q1 : began (World n f q2 q1) -> phase (World n f q2 (enc_message MReady :: q1))
| in_session w : began w -> phase w.

Context (Han : announces n0 specs) (Hsize : zlen (enc_message (MCreate specs)) < 4294967296).

(** *** What the processes may do *)

Lemma began_left reads w w' : began w -> left_step reads w w' -> began w'.
Proof. intros (f0 & St & Hr) Hs. exists f0. split; [done|]. eapply rtc_r; [exact Hr|]. exists reads. by left. Qed.
Lemma began_right reads w (w' : world far near) : began w -> left_step reads (swap w) w' -> began (swap w').
Proof.
  intros (f0 & St & Hr) Hs. exists f0. split; [done|]. eapply rtc_r; [exact Hr|]. exists reads. right. by rewrite swap_back.
Qed.
Lemma began_agrees w : began w -> exists m2 m1, agreeing w m2 m1.
Proof. intros (f0 & St & Hr). by eapply (reachable_agreeing T1 T2). Qed.

(** Hearing the word, the local process is connected. *)
Lemma near_ready n : exists n', StdioTunnelLocal.message_in (told MReady n) = Ret tt n' /\
  n' = update role_of (StdioTunnelLocal.set_state StdioTunnelLocal.CONNECTED (role n)) (unread [] n).
Proof. eexists. split; [exact (ready_message_at [] (told MReady n) (to_read_told MReady n))|done]. Qed.

Lemma ready_beside n : beside n (update role_of (StdioTunnelLocal.set_state StdioTunnelLocal.CONNECTED (role n)) (unread [] n)).
Proof. by split. Qed.

Lemma phase_near reads w w' : phase w -> left_step reads w w' -> phase w'.
Proof.
  intros Hp Hs. destruct Hp as [n f q2 Al Hw|n f q2 q1 Bg|w Bg]; [| |by eapply in_session, began_left].
  - inversion Hs as [? ? ? ? n' ps Ht|]; subst. apply (list_on_its_way n' f (q2 ++ ps)); [|done].
    destruct (turn_alone T1 n n' ps (al_sound _ _ Al) Ht) as (ms & -> & K & _). split.
    + intros f'. eapply rtc_r; [apply Al|]. by apply first_alone.
    + apply K.
    + apply Forall_app. split; [apply Al|]. exact (sayables_fit (P:=P1) ms (kept_sayable _ _ _ K)).
  - inversion Hs as [? ? ? ? n' ps Ht|? ? ? p ? n' ps Ht]; subst.
    + apply word_on_its_way. eapply began_left; [exact Bg|]. by apply left_alone.
    + apply turn_reads in Ht as [Et Pa]. destruct (near_ready n) as (n1 & E1 & ->).
      assert (Ret tt n' = Ret tt (update role_of (StdioTunnelLocal.set_state StdioTunnelLocal.CONNECTED (role n)) (unread [] n))) as [= ->] by (rewrite <- Et; exact E1).
      apply (packets_said n _ []) in Pa; [|by rewrite app_nil_r]. subst ps.
      apply in_session. eapply began_left; [exact Bg|]. by apply left_alone, turn_beside, ready_beside.
Qed.

(** The remote process, waiting, can only go on waiting: there is nothing
    the poller could call. *)
Lemma waiting_alone f f' ps : waiting f -> turn f None f' ps -> waiting f' /\ ps = [].
Proof.
  intros ([So Hb] & Hm & Hst) Ht. inversion Ht as [l ? ? ? Wl|c s n ls ni ? ? Wl N Hs|? B|]; subst.
  - apply elem_watched_links in Wl as [sock Wl]. destruct (typed_watched _ (sound_typed f So) _ _ Wl) as (k & F & _).
    destruct (typed_face _ (sound_typed f So) _ _ F) as (_ & n & N & L). cbn in N. destruct (Hb _ _ N) as [E _].
    by rewrite E, lookup_empty in L.
  - destruct (Hb _ _ N) as [_ E]. congruence.
  - split; [|done]. pose proof (kept_sound _ _ _ (beside_kept f f' So B)) as So'. destruct B as [Bm Bc _ _ _ _ _ _ Bk].
    split_and!; [split; [done|by rewrite Bc]|congruence|]. cbn in Bk. congruence.
Qed.

Lemma phase_far_from reads w (w' : world far near) : phase w -> left_step reads (swap w) w' -> phase (swap w').
Proof.
  intros Hp Hs. destruct Hp as [n f q2 Al Hw|n f q2 q1 Bg|w Bg]; cbn in Hs.
  - inversion Hs as [? ? ? ? f' ps Ht|? ? ? ? ? f' ps Ht]; subst.
    + destruct (waiting_alone f f' ps Hw Ht) as [Hw' ->]. by apply list_on_its_way.
    + apply turn_reads in Ht as [Et Pa]. destruct (safely_returned _ _ _ _ _ (waiting_takes n0 specs f Han Hw) Et) as [St _].
      apply (packets_said f _ [MReady]) in Pa as ->; [|exact (std_packets _ _ _ St)]. apply word_on_its_way. exists f'.
      split; [by eapply started_starting|apply Al].
  - inversion Hs as [? ? ? ? f' ps Ht|? ? ? p q f' ps Ht]; subst; apply word_on_its_way.
    + apply (began_right false _ (World f' n (q1 ++ ps) q2) Bg). by apply left_alone.
    + apply (began_right true _ (World f' n (q1 ++ ps) q) Bg). by apply left_reads.
  - by eapply in_session, began_right.
Qed.
Lemma phase_far reads (w w' : world far near) : phase (swap w) -> left_step reads w w' -> phase (swap w').
Proof. intros Hp Hs. eapply phase_far_from; [exact Hp|]. by rewrite swap_back. Qed.

(** What is on its way fits a packet. *)
Lemma began_fits w : began w -> small (to_second w) /\ small (to_first w).
Proof.
  intros (m2 & m1 & Ag)%began_agrees. rewrite (ag_to_second _ _ _ Ag), (ag_to_first _ _ _ Ag).
  split; [exact (sayables_fit (P:=P1) m2 (ag_first_said _ _ _ Ag))|exact (sayables_fit (P:=P2) m1 (ag_second_said _ _ _ Ag))].
Qed.
Lemma phase_fits w : phase w -> small (to_second w) /\ small (to_first w).
Proof.
  intros [n f q2 Al Hw|n f q2 q1 Bg|w' Bg]; [|apply began_fits in Bg as [H1 H2]; cbn in *|by apply began_fits].
  - split; [|constructor]. constructor; [exact Hsize|apply Al].
  - split; [done|]. by constructor.
Qed.

(** With nothing on its way a session runs. *)
Lemma phase_drained w : phase w -> to_second w = [] -> to_first w = [] -> began w.
Proof. by intros []. Qed.
End Phases.

(** ** Whatever the local process was *)

Section Course.
Context {P1 P2 : Posix} (T1 : traffic P1) (T2 : traffic P2) `{!PosixLaws T1} `{!PosixLaws T2}.
Abbreviation near := (tunnel (P:=P1) StdioTunnelLocal.t unit).
Abbreviation far := (tunnel (P:=P2) StdioTunnelRemote.t StdioTunnelRemote.own).
Implicit Types (n : near) (f : far) (w : world near far).
Context (specs : list (Z * ConnectionSpec.t)).

(** What may come of some local process that has announced [specs]. *)
Definition course w : Prop := exists n0, announces n0 specs /\ phase n0 specs w.

Lemma course_near reads w w' : course w -> left_step reads w w' -> course w'.
Proof. intros (n0 & An & Hp) Hs. exists n0. split; [done|]. by eapply phase_near. Qed.
Lemma course_far reads (w w' : world far near) : course (swap w) -> left_step reads w w' -> course (swap w').
Proof. intros (n0 & An & Hp) Hs. exists n0. split; [done|]. by eapply phase_far. Qed.

Lemma course_opens n f : announces n specs -> waiting f -> course (World n f [enc_message (MCreate specs)] []).
Proof.
  intros An Wa. exists n. split; [done|]. apply list_on_its_way; [|done].
  split; [intros f'; apply rtc_refl|by apply (an_prepared _ _ An)|constructor].
Qed.

Lemma course_fits w : zlen (enc_message (MCreate specs)) < 4294967296 -> course w ->
  Forall (fun p => zlen p < 4294967296) (to_second w) /\ Forall (fun p => zlen p < 4294967296) (to_first w).
Proof. intros Hsize (n0 & An & Hp). by apply (phase_fits T1 T2 n0 specs). Qed.

(** What comes to either process. *)
Lemma course_near_reads n f q2 p q1 : course (World n f q2 (p :: q1)) ->
  (exists m2 m1, agreeing (World n f q2 (p :: q1)) m2 m1) \/ p = enc_message MReady.
Proof.
  intros (n0 & An & Hp). assert (began n0 (World n f q2 (p :: q1)) \/ p = enc_message MReady) as [Bg| ->] by (inversion Hp; subst; auto).
  - left. by eapply (began_agrees T1 T2).
  - by right.
Qed.
Lemma course_far_reads n f p q2 q1 : course (World n f (p :: q2) q1) ->
  (exists q m2 m1, agreeing (World n f (p :: q2) q) m2 m1) \/
  (exists n0, announces n0 specs) /\ waiting f /\ p = enc_message (MCreate specs).
Proof.
  intros (n0 & An & Hp).
  assert ((exists q, began n0 (World n f (p :: q2) q)) \/ waiting f /\ p = enc_message (MCreate specs)) as [[q Bg]|[Wa ->]]
    by (inversion Hp; subst; eauto).
  - left. exists q. by eapply (began_agrees T1 T2).
  - right. eauto.
Qed.

(** With nothing on its way a session runs. *)
Lemma course_drained w : course w -> to_second w = [] -> to_first w = [] -> exists m2 m1, agreeing w m2 m1.
Proof. intros (n0 & An & Hp) E2 E1. eapply (began_agrees T1 T2). by eapply phase_drained. Qed.
End Course.
