(* ===== verification/Serving.v ===== *)
(** * The two processes' own callbacks

    What each process does with its own descriptors in the rounds of
    Running.v: [local_own] and [remote_own] keep [live], in any worlds in
    which the payloads are taken well, as they are in those of Phases.v
    ([near_takes], [far_takes]). *)

From stdpp Require Import base list tactics gmap strings relations sorting.
From Stdlib Require Import ZArith Lia.
From S2P Require Import Prelude Posix Wire SockBuffer Poller Spec Magic Tunnel Connection Socks5 Local Remote Behaviour Protocol Links Handshake Session Memory Ends Hearing Pipes System Running Agreement Startup Phases.
Import StdioTunnel Heap TunnelConnection ConnectionLink.

(** ** The local process *)

Section Near.
Context {P : Posix} (T : traffic P) (rf wf : Z) `{!PosixLaws T} `{!Pipe T rf wf} `{!PipeLaws T rf wf}.
Abbreviation S := (tunnel (P:=P) StdioTunnelLocal.t unit).
Implicit Types (s : S).

(** It speaks the protocol, on these descriptors. *)
Definition local_runner : Runner StdioTunnelLocal.t unit := {|
  alive r := (StdioTunnelLocal.m_state r = StdioTunnelLocal.HAND_SHAKE \/ StdioTunnelLocal.m_state r = StdioTunnelLocal.CONNECTED) /\
    StdioTunnelLocal.m_read_fd r = rf /\ StdioTunnelLocal.m_write_fd r = wf /\
    sb_wf (MagicStringDetector.buffer (StdioTunnelLocal.m_read_buffer r));
  owned _ := True
|}.
#[local] Existing Instance local_runner.

Lemma local_takes_nothing s : to_read s = [] -> StdioTunnelLocal.message_in s = Ret tt s.
Proof.
  intros E. unfold StdioTunnelLocal.message_in. rewrite bind_gets. unfold ReadStream.available, to_read in *.
  by rewrite E.
Qed.

Lemma local_takes_quiet : moves (undisturbed T rf wf) StdioTunnelLocal.message_in.
Proof.
  pose proof (quiet_readShort T rf wf (R:=StdioTunnelLocal.t) (O:=unit)).
  pose proof (fun text => quiet_reportError (QuietRole := local_quiet T rf wf) text) as Hr. cbn in Hr.
  pose proof (fun id => quiet_connection_message T rf wf (R:=StdioTunnelLocal.t) (O:=unit) id).
  unfold StdioTunnelLocal.message_in, StdioTunnelLocal.put_state, setShutdownByRequest. quiet.
Qed.

(** Pass-through data that is left is written to the standard output. *)
Lemma write_out_idle s : wf <> STDOUT_FD -> alive (role s) ->
  safely (StdioTunnelLocal.write_out StdioTunnelLocal.read_buffer STDOUT_FD) s (fun _ s' => idle T rf wf s s').
Proof.
  intros Hw (Hs & Hr & Hf & Hb). unfold StdioTunnelLocal.write_out. apply safely_bind. unfold safely, zoom.
  set (d := StdioTunnelLocal.m_read_buffer (role s)) in *.
  change (view (lens_pair StdioTunnelLocal.read_buffer system_of) s) with (MagicStringDetector.buffer d, system s).
  pose proof (writeData_effect T STDOUT_FD (MagicStringDetector.buffer d) (system s) Hb) as We.
  unfold SockBuffer.writeData in *. destruct (sys_write _ _ _) as [[n|e] o] eqn:E; [|done].
  destruct We as [Hb' _]. destruct (pipe_write _ _ _ _ _ E) as [E1 E2]. pose proof (pipe_write_apart _ _ _ _ _ E ltac:(done)) as E3.
  cbn -[SockBuffer.refill] in *. by split.
Qed.

(** *** Its own callbacks *)

Context {P2 : Posix} (T2 : traffic P2).
Abbreviation B := (tunnel (P:=P2) StdioTunnelRemote.t StdioTunnelRemote.own).
Context (Out : B -> list byte -> list payload -> Prop) (wf2 : Z).
Hypothesis Out_said : forall b bs q ps, Out b bs q -> Out b (bs ++ concat (map frame ps)) (q ++ ps).
Context (W : world S B -> Prop) (start : list byte).
Hypothesis W_step : forall reads w w', W w -> left_step reads w w' -> W w'.
Hypothesis W_takes : takes_well T rf wf W.
Hypothesis W_fits : payloads_fit W.
Abbreviation live := (live T rf wf T2 Out wf2 W start).

Lemma live_alive k ids (s : S) (b : B) : live k ids s b -> alive (role s).
Proof. intros [Ba _]. apply Ba. Qed.

Lemma local_own blocks k ids (o : unit) id pf (s : S) (b : B) : wf <> STDOUT_FD -> (id, POwn o, fd pf) ∈ marks (m_poller s) ->
  live k (id :: ids) s b -> safely (Poller.polled (Polled := StdioTunnelLocal.local_polled blocks) (POwn o) id pf) s (fun _ s' => live k ids s' b).
Proof.
  intros Hw Hm L. destruct (live_alive _ _ _ _ L) as (Hst & Hrf & Hwf & _). cbn. unfold StdioTunnelLocal.polled.
  eapply safely_step; [reflexivity|]. cbn beta.
  assert (safely (StdioTunnelLocal.connected id pf) s (fun _ s' => live k ids s' b)) as Hc; [|by destruct Hst as [-> | ->]].
  unfold StdioTunnelLocal.connected. eapply safely_step; [reflexivity|]. cbn beta. rewrite Hrf, Hwf.
  assert (live k ids s b) as L0 by (eapply live_less; [|intros j Hj; by right|exact L]; lia).
  apply safely_bind. apply (safely_mono _ _ (fun _ s1 => live k ids s1 b)).
  2: { destruct (Z.eqb_spec (fd pf) rf) as [Hf|]; cbn [when]; [|by apply safely_ret].
       destruct (StdioTunnelLocal.broken pf); [done|].
       apply (live_reading T rf wf T2 Out wf2 Out_said W W_step start local_takes_nothing W_takes W_fits k ids o id pf s b Hm Hf L). }
  intros _ s1 L1. apply safely_bind. apply (safely_mono _ _ (fun _ s2 => live k ids s2 b)).
  2: { destruct (Z.eqb_spec (fd pf) wf) as [Hf|]; cbn [when]; [|by apply safely_ret].
       destruct (StdioTunnelLocal.broken pf); [done|]. by apply (live_writing T rf wf T2 Out wf2 W W_step start). }
  intros _ s2 L2. destruct (Z.eqb_spec (fd pf) STDOUT_FD) as [Hf|]; cbn [when]; [|by apply safely_ret].
  eapply safely_step; [reflexivity|]. cbn beta. destruct (SockBuffer.unsentData _).
  - apply (safely_mono _ _ (fun _ s3 => idle T rf wf s2 s3)); [|by apply write_out_idle, (live_alive _ _ _ _ L2)].
    intros _ s3 I. by eapply live_idle.
  - eapply safely_at; [reflexivity|]. eapply live_idle; [done|exact L2|]. exact (idle_remove _ _ _ tt STDOUT_FD s2).
Qed.
End Near.

(** ** The remote process *)

Section Far.
Context {P : Posix} (T : traffic P) `{!PosixLaws T} `{!Pipe T STDIN_FD STDOUT_FD} `{!PipeLaws T STDIN_FD STDOUT_FD}.
Abbreviation S := (tunnel (P:=P) StdioTunnelRemote.t StdioTunnelRemote.own).
Abbreviation self := StdioTunnelRemote.OTunnel.
Implicit Types (s : S).

(** It has no SOCKS server. *)
Definition remote_runner : Runner StdioTunnelRemote.t StdioTunnelRemote.own := {| alive _ := True; owned o := o = self |}.
#[local] Existing Instance remote_runner.

Lemma remote_takes_nothing s : to_read s = [] -> StdioTunnelRemote.message_in s = Ret tt s.
Proof.
  intros E. unfold StdioTunnelRemote.message_in. rewrite bind_gets. unfold ReadStream.available, to_read in *.
  by rewrite E.
Qed.

Lemma connected_message s : StdioTunnelRemote.m_state (role s) = StdioTunnelRemote.CONNECTED ->
  StdioTunnelRemote.message_in s = (avail ← gets (fun s => ReadStream.available (m_read_stream s));
    when avail (command ← readShort; StdioTunnelRemote.connected command)) s.
Proof.
  intros E. unfold StdioTunnelRemote.message_in. rewrite !bind_gets. destruct (ReadStream.available _); [|done].
  cbn [when]. unfold readShort, zoom, mbind, M_bind. cbn [view reader].
  destruct (ReadStream.readShort _) as [c r| | |]; [|done..]. unfold gets. cbn [role update reader]. by rewrite E.
Qed.

Lemma remote_takes_quiet s s' : StdioTunnelRemote.m_state (role s) = StdioTunnelRemote.CONNECTED ->
  StdioTunnelRemote.message_in s = Ret tt s' -> undisturbed T STDIN_FD STDOUT_FD s s'.
Proof.
  intros Hc E. rewrite connected_message in E by done. eapply moves_at; [|exact E].
  pose proof (quiet_readShort T STDIN_FD STDOUT_FD (R:=StdioTunnelRemote.t) (O:=StdioTunnelRemote.own)).
  pose proof (remote_quiet T STDIN_FD STDOUT_FD) as Hq.
  pose proof (fun id => quiet_connection_message T STDIN_FD STDOUT_FD (R:=StdioTunnelRemote.t) (O:=StdioTunnelRemote.own) id).
  unfold StdioTunnelRemote.connected, setShutdownByRequest. quiet.
Qed.

(** The handshake makes no traffic of its own, without a SOCKS server. *)
Lemma quiet_accept_all l : Forall (fun e => ConnectionSpec.isSocks5 e.2 = false) l ->
  moves (undisturbed T STDIN_FD STDOUT_FD) (accept_all l).
Proof.
  pose proof (fun spec b id => quiet_CreateConnection T STDIN_FD STDOUT_FD (R:=StdioTunnelRemote.t) (O:=StdioTunnelRemote.own) spec b id).
  pose proof (fun id c => quiet_assign_connection T STDIN_FD STDOUT_FD (R:=StdioTunnelRemote.t) (O:=StdioTunnelRemote.own) id c).
  induction 1 as [|e l He Hl IH]; cbn [accept_all]; [quiet|]. apply moves_bind; [apply _| |intros _; exact IH].
  unfold StdioTunnelRemote.accept_spec. rewrite He. quiet.
Qed.

Context {P2 : Posix} (T2 : traffic P2).
Abbreviation B := (tunnel (P:=P2) StdioTunnelLocal.t unit).
Context (Out : B -> list byte -> list payload -> Prop) (wf2 : Z).
Hypothesis Out_said : forall b bs q ps, Out b bs q -> Out b (bs ++ concat (map frame ps)) (q ++ ps).
Context (W : world S B -> Prop) (start : list byte).
Hypothesis W_step : forall reads w w', W w -> left_step reads w w' -> W w'.
Hypothesis W_takes : takes_well T STDIN_FD STDOUT_FD W.
Hypothesis W_fits : payloads_fit W.
Abbreviation live := (live T STDIN_FD STDOUT_FD T2 Out wf2 W start).

(** The standard output has gone: the loop is to end. *)
Lemma live_shut k ids id (s : S) (b : B) : (id, POwn self, STDOUT_FD) ∈ marks (m_poller s) -> ascending (id :: ids) ->
  live k (id :: ids) s b ->
  safely (StdioTunnelRemote.put_state StdioTunnelRemote.SHUT_DOWN;; zoom poller Poller.requestFinish) s (fun _ s' => live k ids s' b).
Proof.
  intros Hm Ha ([So Co Sk Rd Wr _ Ow Or] & Hpr & _). apply StronglySorted_inv in Ha as [_ Hid].
  eapply safely_step; [reflexivity|]. eapply safely_at; [reflexivity|].
  split; [by split; [by destruct So|..]|]. split; [done|]. right. split; [done|].
  intros i o Hi Hin. rewrite Forall_forall in Hid. specialize (Hid i Hin). specialize (Or i id o self Hi Hm). lia.
Qed.

Lemma remote_own k ids (o : StdioTunnelRemote.own) id pf (s : S) (b : B) : (id, POwn o, fd pf) ∈ marks (m_poller s) ->
  ascending (id :: ids) -> live k (id :: ids) s b -> safely (Poller.polled (POwn o) id pf) s (fun _ s' => live k ids s' b).
Proof.
  intros Hm Ha L. assert (o = self) as -> by (destruct L as [Ba _]; exact (base_owned _ _ _ _ Ba id o (fd pf) Hm)).
  cbn. unfold StdioTunnelRemote.polled.
  assert (live k ids s b) as L0 by (eapply live_less; [|intros j Hj; by right|exact L]; lia).
  apply safely_bind. destruct (Z.eqb_spec (fd pf) STDIN_FD) as [Hf|Hf]; cbn [when].
  - destruct (has_bit _ _); [done|]. destruct (has_bit _ _); [|done].
    apply (safely_mono _ _ (fun _ s1 => live k ids s1 b)); [intros _ s1 L1; rewrite Hf; by apply safely_ret|].
    apply (live_reading T STDIN_FD STDOUT_FD T2 Out wf2 Out_said W W_step start remote_takes_nothing W_takes W_fits k ids self id pf s b Hm Hf L).
  - apply safely_ret. destruct (Z.eqb_spec (fd pf) STDOUT_FD) as [Hw|]; cbn [when]; [|by apply safely_ret].
    rewrite Hw in Hm. destruct (has_bit _ _); [by apply (live_shut k ids id)|].
    by apply (live_writing T STDIN_FD STDOUT_FD T2 Out wf2 W W_step start).
Qed.
End Far.

(** ** From the handshake on

    In the worlds of Phases.v whatever comes is taken well: [near_takes] and
    [far_takes] are what [local_own] and [remote_own] ask for. *)

Section Taken.
Context {P1 P2 : Posix} (T1 : traffic P1) (T2 : traffic P2) `{!PosixLaws T1} `{!PosixLaws T2}.
Context (rf wf : Z) `{!Pipe T1 rf wf} `{!PipeLaws T1 rf wf} `{!Pipe T2 STDIN_FD STDOUT_FD} `{!PipeLaws T2 STDIN_FD STDOUT_FD}.
Abbreviation near := (tunnel (P:=P1) StdioTunnelLocal.t unit).
Abbreviation far := (tunnel (P:=P2) StdioTunnelRemote.t StdioTunnelRemote.own).
Implicit Types (n : near) (f : far).
#[local] Instance near_runner : Runner StdioTunnelLocal.t unit := local_runner rf wf.
#[local] Existing Instance remote_runner.
Context (specs : list (Z * ConnectionSpec.t)).

Definition near_worlds : world near far -> Prop := course specs.
Definition far_worlds (w : world far near) : Prop := course specs (swap w).

Lemma near_takes : takes_well T1 rf wf near_worlds.
Proof.
  intros k a b q2 p q1 Ba Hp Er. destruct (course_near_reads T1 T2 specs a b q2 p q1 Hp) as [(m2 & m1 & Ag)| ->].
  - exact (agreeing_taken T1 rf wf first_hears (fun a a' _ => moves_at _ _ a tt a' (local_takes_quiet T1 rf wf)) k a b q2 p q1 m2 m1 Ba Ag Er).
  - destruct (near_ready a) as (a' & E & Ea). rewrite (unread_same a Er) in Ea. apply (safely_at _ _ _ _ _ E). exists []. subst a'.
    split; [|done|done|by rewrite app_nil_r].
    apply (base_beside rf wf k a); [done|by split|exact (base_reader _ _ _ _ Ba)|exact (base_writer _ _ _ _ Ba)|apply own_refl|].
    destruct (base_alive _ _ _ _ Ba) as (_ & ?). by split; [right|].
Qed.

(** The list is taken. *)
Lemma list_taken k n0 (a : far) : announces n0 specs -> base STDIN_FD STDOUT_FD k a -> waiting a -> to_read a = [] ->
  safely StdioTunnelRemote.message_in (told (MCreate specs) a) (fun _ a' => exists ps, taken_well T2 STDIN_FD STDOUT_FD k a a' ps).
Proof.
  intros An [_ Co Sk Rs Ws _ Oo Or] Wa Er. eapply safely_mono; [|exact (waiting_takes n0 specs a An Wa)].
  intros _ a' [[[So Hl] _ Pa _ _ Li Ow Rd] (s1 & Es & Ey)]. rewrite (unread_same a Er) in Rd.
  assert (calm (system a) (system a')) as C.
  { rewrite Ey. refine (proj2 (moves_at _ _ _ _ _ (quiet_accept_all T2 (map arrived specs) _) Es Sk)).
    apply Forall_map. exact (an_plain _ _ An). }
  exists [enc_message MReady]. split; try done. split; try done.
  - apply counted_anew; [apply Co|exact Hl].
  - unfold sockets. by rewrite Li.
  - by rewrite Rd.
  - exact (writer_said _ _ [enc_message MReady] Pa Ws).
  - by eapply own_kept_owned.
  - by eapply own_kept_order.
Qed.

Lemma far_takes : takes_well T2 STDIN_FD STDOUT_FD far_worlds.
Proof.
  intros k a b q2 p q1 Ba Hp Er.
  destruct (course_far_reads T1 T2 specs b a p q1 q2 Hp) as [(q & m2 & m1 & Ag)|((n0 & An) & Wa & ->)].
  - exact (agreeing_taken T2 STDIN_FD STDOUT_FD second_hears (remote_takes_quiet T2) k a b q p q1 m1 m2 Ba (agreeing_swap _ _ _ Ag) Er).
  - by eapply list_taken.
Qed.

Context (Hsize : zlen (enc_message (MCreate specs)) < 4294967296).
Lemma near_fits : payloads_fit near_worlds.
Proof. intros w Hp. by apply (course_fits T1 T2 specs w Hsize Hp). Qed.
Lemma far_fits : payloads_fit far_worlds.
Proof. intros w Hp. by apply (course_fits T1 T2 specs (swap w) Hsize Hp). Qed.
End Taken.
