(* ===== verification/Passing.v ===== *)
(** * Before the handshake

    The local process while it passes its input and output through: it reads
    what the command prints until the magic string is complete, and starts
    the handshake.  [passing] is what holds until then, [opened] what holds
    from then on to the end of the callback, where the two are on their way to
    a session ([opened_lives]).  The remote process waits meanwhile
    ([expectant]). *)

From stdpp Require Import base list tactics gmap strings relations sorting.
From Stdlib Require Import ZArith Lia.
From S2P Require Import Prelude Posix Wire SockBuffer Poller Spec Options Magic Tunnel Connection Socks5 Local Remote Behaviour Protocol Links Handshake Session Memory Ends Hearing Pipes System Running Agreement Startup Phases Serving.
Import StdioTunnel Heap TunnelConnection.

(** ** The detector in the local process *)

Section Detecting.
Import MagicStringDetector StdioTunnelLocal.
Context {P : Posix}.
Abbreviation S := (tunnel (P:=P) StdioTunnelLocal.t unit).
Implicit Types (s : S) (d : MagicStringDetector.t).

(** A detector of the magic string that has no command for a login prompt. *)
Definition detects (k : nat) d : Prop := matching d k /\ m_magic_string d = Magic.magic_string /\ m_remote_cmd d = [].

(** With another detector. *)
Definition detected d s : S := update detector d s.

Lemma match_magic_at b k s : detects k (view detector s) ->
  match_magic detector startHandshaking b s =
  if bool_decide (Magic.magic_string !! k = Some b)
  then if (Datatypes.S k =? length Magic.magic_string)%nat
       then (startHandshaking;; mret true) (detected (set_count (Z.of_nat (Datatypes.S k)) (view detector s)) s)
       else Ret false (detected (set_count (Z.of_nat (Datatypes.S k)) (view detector s)) s)
  else Ret false (detected (set_count 0 (view detector s)) s).
Proof.
  intros ([Hk Hlt] & Hm & _). unfold match_magic. rewrite bind_gets. set (d := view detector s) in *.
  assert (string_at (m_magic_string d) (m_recognized_count d) = Magic.magic_string !! k) as ->.
  { unfold string_at. rewrite Hk. destruct (Z.ltb_spec (Z.of_nat k) 0); [lia|].
    destruct (Z.eqb_spec (Z.of_nat k) (zlen (m_magic_string d))); [lia|]. by rewrite Nat2Z.id, Hm. }
  rewrite Hm in *. destruct (lookup_lt_is_Some_2 Magic.magic_string k Hlt) as [c Hc]. rewrite Hc.
  rewrite (bind_step _ _ s c s) by done. replace (m_recognized_count d + 1) with (Z.of_nat (Datatypes.S k)) by lia.
  rewrite (bool_decide_ext (b = c) (Some c = Some b)) by (split; congruence). case_bool_decide as Hb; [|done].
  rewrite (bind_step _ _ s tt (detected (set_count (Z.of_nat (Datatypes.S k)) d) s)) by done.
  destruct (Nat.eqb_spec (Datatypes.S k) (length Magic.magic_string)) as [E|E];
    destruct (Z.leb_spec (zlen Magic.magic_string) (Z.of_nat (Datatypes.S k))); [reflexivity|exfalso; lia|exfalso; lia|reflexivity].
Qed.

Lemma match_login_at b k s : detects k (view detector s) -> exists d,
  match_login detector remoteInit b s = Ret tt (detected d s) /\ detects k d /\ buffer d = buffer (view detector s).
Proof.
  intros (Hk & Hm & Hc). unfold match_login. rewrite bind_gets.
  replace (0 <? zlen (m_remote_cmd (view detector s))) with false by by rewrite Hc. cbn [andb].
  destruct (_ <? _); cbn [when].
  - by exists (set_login_count 0 (view detector s)).
  - exists (view detector s). split; [|done]. unfold detected. by destruct s as [? ? ? ? ? ? ? ? ? ? ? ? [] ?].
Qed.

(** All of [processReadData]. *)
Lemma process_at bs k s : detects k (view detector s) -> exists d, buffer d = buffer (view detector s) /\
  match matcher Magic.magic_string k bs with
  | inl k' => detects k' d /\ processReadData detector startHandshaking remoteInit bs s = Ret tt (detected d s)
  | inr _ => processReadData detector startHandshaking remoteInit bs s = startHandshaking (detected d s)
  end.
Proof.
  revert k s. induction bs as [|b bs IH]; intros k s Hd; cbn [matcher processReadData].
  - exists (view detector s). split_and!; [done..|]. unfold detected. by destruct s as [? ? ? ? ? ? ? ? ? ? ? ? [] ?].
  - pose proof (match_magic_at b k s Hd) as Em. pose proof Hd as ([Hk Hlt] & Hm & Hc). set (d := view detector s) in *.
    assert (forall k', (k' < length Magic.magic_string)%nat -> exists d', buffer d' = buffer d /\
      match matcher Magic.magic_string k' bs with
      | inl k2 => detects k2 d' /\ (match_login detector remoteInit b;; processReadData detector startHandshaking remoteInit bs)
          (detected (set_count (Z.of_nat k') d) s) = Ret tt (detected d' s)
      | inr _ => (match_login detector remoteInit b;; processReadData detector startHandshaking remoteInit bs)
          (detected (set_count (Z.of_nat k') d) s) = startHandshaking (detected d' s)
      end) as Go.
    { intros k' Hk'. set (s1 := detected (set_count (Z.of_nat k') d) s).
      assert (detects k' (view detector s1)) as Hd1 by (split_and!; [split; [done|change (k' < length (m_magic_string d))%nat; by rewrite Hm]|exact Hm|exact Hc]).
      destruct (match_login_at b k' s1 Hd1) as (d1 & E1 & Hd1' & Eb1). rewrite (bind_step _ _ _ _ _ E1).
      destruct (IH k' (detected d1 s1) Hd1') as (d2 & Eb2 & H2). exists d2. split; [by rewrite Eb2|].
      destruct (matcher _ k' bs); exact H2. }
    case_bool_decide as Hb; [destruct (Nat.eqb_spec (Datatypes.S k) (length Magic.magic_string)) as [E|E]|].
    + exists (set_count (Z.of_nat (Datatypes.S k)) d). split; [done|]. unfold mbind at 1, M_bind at 1. rewrite Em.
      unfold mbind, M_bind. by destruct (startHandshaking _) as [[]| | |].
    + rewrite (bind_step _ _ _ _ _ Em). apply Go. rewrite Hm in Hlt. lia.
    + rewrite (bind_step _ _ _ _ _ Em). apply (Go 0%nat). rewrite Hm in Hlt. lia.
Qed.
End Detecting.

(** ** The local process until the handshake *)

Section Passing.
Context {P : Posix} (T : traffic P) (rf wf : Z) `{!PosixLaws T} `{!Pipe T rf wf} `{!PipeLaws T rf wf}.
Abbreviation S := (tunnel (P:=P) StdioTunnelLocal.t unit).
Implicit Types (s : S).

(** It listens for [specs]; [all] is what comes through the pipe before the
    remote process waits for the list, and [came] what has come of it. *)
Context (specs : list (Z * ConnectionSpec.t)) (all came : list byte) (blocks : nat).
Hypothesis fds_apart : NoDup [STDIN_FD; STDOUT_FD; rf; wf].
Hypothesis came_all : came `prefix_of` all.
Hypothesis all_magic : matcher Magic.magic_string 0 all = inr [].
Hypothesis all_fits : zlen all < Z.of_nat blocks * SockBuffer.BUFFER_SIZE.

Lemma fds_differ : rf <> STDIN_FD /\ rf <> STDOUT_FD /\ rf <> wf /\ wf <> STDIN_FD /\ wf <> STDOUT_FD.
Proof. pose proof fds_apart as H. rewrite !NoDup_cons, !not_elem_of_cons in H. intuition congruence. Qed.

Definition detector_of s : MagicStringDetector.t := StdioTunnelLocal.m_read_buffer (role s).

(** Nothing has been typed that has not been written. *)
Definition passing_runner : Runner StdioTunnelLocal.t unit := {|
  alive r := StdioTunnelLocal.m_state r = StdioTunnelLocal.PASS_THROUGH /\
    StdioTunnelLocal.m_read_fd r = rf /\ StdioTunnelLocal.m_write_fd r = wf /\
    m_daemon (StdioTunnelLocal.m_config r) = false /\ sb_wf (MagicStringDetector.buffer (StdioTunnelLocal.m_read_buffer r)) /\
    sb_wf (StdioTunnelLocal.m_write_buffer r) /\ pending (StdioTunnelLocal.m_write_buffer r) = [];
  owned _ := True
|}.
Abbreviation before := (base (Runner0 := passing_runner) rf wf).
Abbreviation after := (base (Runner0 := local_runner rf wf) rf wf).

(** The detector has seen what has been read. *)
Definition heard s : Prop := exists k, detects k (detector_of s) /\ matcher Magic.magic_string 0 (received T (system s) rf) = inl k.

Record passing (k : Z) s : Prop := Passing {
  pa_base : before k s;
  pa_announces : announces s specs;
  pa_specs : specs_of (StdioTunnelLocal.in_order (m_connection_map s)) s = Some specs;
  pa_heard : heard s;
  pa_reader : m_read_stream s = ReadStream.init;
  pa_writer : m_write_stream s = WriteStream.init;
  pa_target : m_write_target s = Some (tt, wf);
  pa_sent : sent T (system s) wf = [];
  pa_stream : stream (system s) = came
}.

(** The handshake has been started. *)
Record opened (k : Z) s : Prop := Opened {
  od_base : after k s;
  od_announces : announces s specs;
  od_packets : packets s = [WriteStream.new_WritePacket (enc_message (MCreate specs))];
  od_reader : m_read_stream s = ReadStream.init;
  od_sent : sent T (system s) wf = [];
  od_received : received T (system s) rf = all;
  od_stream : stream (system s) = came
}.

(** *** What does not matter *)

Lemma announces_beside s s' : announces s specs -> sound s' -> beside s s' -> announces s' specs.
Proof.
  intros [[So Hl] ? ? Hk Ha ? ?] So' []. split; try done.
  - split; [done|]. by rewrite bs_connections.
  - by rewrite bs_map.
  - intros cid. unfold side_at, side_of. cbn. rewrite bs_map, bs_connections. exact (Ha cid).
Qed.

Lemma specs_beside s s' : beside s s' ->
  specs_of (StdioTunnelLocal.in_order (m_connection_map s')) s' = specs_of (StdioTunnelLocal.in_order (m_connection_map s)) s.
Proof. intros []. unfold specs_of. by rewrite bs_map, bs_connections. Qed.

Lemma passing_less k k' s : k' <= k -> passing k s -> passing k' s.
Proof. intros Hk []. split; try done. by eapply base_less. Qed.

Lemma passing_beside k s s' : passing k s -> beside s s' -> m_read_stream s' = m_read_stream s -> m_write_stream s' = m_write_stream s ->
  own_kept (m_poller s) (m_poller s') -> alive (Runner := passing_runner) (role s') -> heard s' ->
  stream (system s') = stream (system s) -> sent T (system s') wf = sent T (system s) wf -> passing k s'.
Proof.
  intros [Ba An Sp He Rd Wr Tg Se St] Hb Er Ew Ho Ha He' Es Ese.
  assert (before k s') as Ba'.
  { apply (base_beside (Runner0 := passing_runner) rf wf k s); [done|done|rewrite Er; apply Ba|rewrite Ew; apply Ba|done|done]. }
  split; try done; try congruence.
  - apply (announces_beside s); [done|apply Ba'|done].
  - by rewrite (specs_beside s s' Hb).
  - destruct Hb. congruence.
Qed.

Lemma passing_idle k s s' : passing k s -> idle (Runner0 := passing_runner) T rf wf s s' -> detector_of s' = detector_of s -> passing k s'.
Proof.
  intros Pa [Hb Er Ew (C1 & C2 & C3) Ho _ Ha] Ed. apply (passing_beside k s); try done; [apply Ha, Pa|].
  unfold heard. rewrite Ed, C2. apply Pa.
Qed.

Lemma opened_idle k s s' : opened k s -> idle (Runner0 := local_runner rf wf) T rf wf s s' -> opened k s'.
Proof.
  intros [Ba An Pk Rd Se Re St] I. pose proof (base_idle (Runner0 := local_runner rf wf) T rf wf k s s' Ba I) as Ba'.
  destruct I as [Hb Er Ew (C1 & C2 & C3) Ho _ Ha]. split; try congruence.
  - apply (announces_beside s); [done|apply Ba'|done].
  - unfold packets. by rewrite Ew.
Qed.

(** *** Reading from the pipe *)

Lemma received_all s : stream (system s) = came -> received T (system s) rf `prefix_of` all.
Proof. intros E. etrans; [|exact came_all]. rewrite <- E. apply stream_received. Qed.

Lemma matcher_all got more : got ++ more = all -> forall rest, matcher Magic.magic_string 0 got = inr rest -> rest = [] /\ more = [].
Proof.
  intros E rest Em. pose proof all_magic as H. rewrite <- E, matcher_app, Em in H. injection H as H. by apply app_eq_nil.
Qed.

(** What a block that has been read leaves of the system. *)
Definition brought (bs : list byte) (o o' : os) : Prop :=
  received T o' rf = received T o rf ++ bs /\ stream o' = stream o /\ sent T o' wf = sent T o wf.

Lemma read_block_brings s : safely (SockBuffer.read_block system_of rf) s (fun bs s1 => zlen bs <= SockBuffer.BUFFER_SIZE /\
  exists o, s1 = update system_of o s /\ brought bs (system s) o).
Proof.
  unfold SockBuffer.read_block. apply safely_bind. unfold safely at 1, syscall. cbn [view system_of].
  destruct (sys_read rf SockBuffer.BUFFER_SIZE (system s)) as [[bs|e] o] eqn:E; destruct (pipe_read _ _ _ _ _ E) as [E1 E2].
  - apply (read_ok (T:=T)) in E as [Hz Hr]. eapply safely_at; [reflexivity|]. split; [unfold SockBuffer.BUFFER_SIZE in *; lia|]. by exists o.
  - apply (read_err (T:=T)) in E. destruct (_ || _); [|done]. eapply safely_at; [reflexivity|]. split; [done|]. exists o. split; [done|].
    split_and!; [by rewrite app_nil_r|done..].
Qed.

(** The state with a block that the detector has seen in the buffer. *)
Definition seen_block (bs : list byte) d (o : os) s : S :=
  detected (MagicStringDetector.set_buffer (final (SockBuffer.pushOnBuffer bs (MagicStringDetector.buffer d)) (MagicStringDetector.buffer d)) d)
    (update system_of o s).

Lemma passing_reads k s bs d o : passing k s -> brought bs (system s) o -> MagicStringDetector.buffer d = MagicStringDetector.buffer (detector_of s) ->
  (exists k', detects k' d /\ matcher Magic.magic_string 0 (received T o rf) = inl k') -> passing k (seen_block bs d o s).
Proof.
  intros Pa (Br & Bst & Bse) Ed (k' & (Hm & Hs & Hc) & Hk). pose proof (base_alive _ _ _ _ (pa_base _ _ Pa)) as (A1 & A2 & A3 & A4 & A5 & A6).
  apply (passing_beside k s); try done.
  - refine (conj A1 (conj A2 (conj A3 (conj A4 (conj _ A6))))). cbn. rewrite Ed. exact A5.
  - exists k'. by split.
Qed.

(** The handshake begins. *)
Lemma handshaken_calm s1 : calm (system s1) (handshaking_terminal s1).
Proof. unfold handshaking_terminal. destruct (m_is_terminal s1); [apply pipe_tcsetattr|done]. Qed.

Lemma handshaken_opens k s s1 : passing k s -> beside s s1 -> m_poller s1 = m_poller s -> alive (Runner := passing_runner) (role s1) ->
  m_read_stream s1 = ReadStream.init -> m_write_stream s1 = WriteStream.init ->
  stream (system s1) = came -> received T (system s1) rf = all -> sent T (system s1) wf = [] ->
  exists s', StdioTunnelLocal.startHandshaking s1 = Ret tt s' /\ opened k s'.
Proof.
  intros Pa Hb Ep (A1 & A2 & A3 & A4 & A5 & A6 & A7) Rd Wr St Re Se. pose proof Pa as [Ba An Sp _ _ _ Tg _ _].
  pose proof (bs_target _ _ Hb) as Tg1. rewrite Tg in Tg1.
  assert (before k s1) as Ba1.
  { apply (base_beside (Runner0 := passing_runner) rf wf k s); [done|done|rewrite Rd; apply rs_wf_init|rewrite Wr; constructor| |done].
    rewrite Ep. apply own_refl. }
  assert (announces s1 specs) as An1 by (apply (announces_beside s); [done|apply Ba1|done]).
  assert (ready s1 (tt, wf)) as Hr by (split; [exact Tg1|by rewrite Wr]).
  assert (specs_of (StdioTunnelLocal.in_order (m_connection_map s1)) s1 = Some specs) as Sp1 by by rewrite (specs_beside s s1 Hb).
  destruct (startHandshaking_announces s1 (tt, wf) specs Hr Sp1 A4 An1) as (s' & E & An' & Pk). exists s'. split; [done|].
  pose proof (startHandshaking_at specs (tt, wf) s1 Hr Sp1 A4) as E'. rewrite E in E'. injection E' as ->.
  unfold packets in Pk at 2. rewrite Wr in Pk. destruct (handshaken_calm s1) as (C1 & C2 & C3).
  split; [|done|exact Pk|exact Rd|exact (eq_trans C3 Se)|exact (eq_trans C2 Re)|exact (eq_trans C1 St)].
  destruct Ba1 as [_ Co Sk Rs Ws _ _ Or]. split; [apply An'|exact Co|exact Sk|exact Rs| | |done|].
  - unfold ws_wf. unfold packets in Pk. rewrite Pk. repeat constructor; unfold WriteStream.m_size; cbn; lia.
  - split_and!; [by left|done..].
  - eapply own_kept_order; [|exact Or]. etrans; [exact (own_events (POwn tt) wf POLLOUT (m_poller s1))|]. exact (own_remove _ _ _).
Qed.

(** Once the handshake has begun nothing more comes. *)
Lemma opened_drained k s bs o : opened k s -> brought bs (system s) o -> bs = [].
Proof.
  intros Od (Br & Bst & _). pose proof (stream_received (rf:=rf) (wf:=wf) o) as H.
  rewrite Br, Bst, (od_received _ _ Od), (od_stream _ _ Od) in H. destruct (transitivity H came_all) as [more E].
  rewrite <- app_assoc in E. apply (f_equal length) in E. rewrite !length_app in E. destruct bs; [done|cbn in E; lia].
Qed.

(** Its part of the role changes, in a way that does not matter. *)
Lemma opened_role k s r o : opened k s -> calm (system s) o -> alive (Runner := local_runner rf wf) r ->
  opened k (update system_of o (update role_of r s)).
Proof.
  intros Od Hc Ha. apply (opened_idle k s); [done|]. by split.
Qed.

Abbreviation read_loop := (SockBuffer.read_loop StdioTunnelLocal.read_buffer system_of
  (MagicStringDetector.processReadData StdioTunnelLocal.detector StdioTunnelLocal.startHandshaking StdioTunnelLocal.remoteInit)).
Abbreviation push bs := (zoom StdioTunnelLocal.read_buffer (SockBuffer.pushOnBuffer bs)).

Lemma opened_pushed k s bs o : opened k s -> calm (system s) o ->
  exists s', push bs (update system_of o s) = Ret tt s' /\ opened k s'.
Proof.
  intros Od Hc. eexists. split; [reflexivity|]. 
  destruct (base_alive _ _ _ _ (od_base _ _ Od)) as (A1 & A2 & A3 & A4).
  exact (opened_role k s (StdioTunnelLocal.set_read_buffer (MagicStringDetector.set_buffer
    (final (SockBuffer.pushOnBuffer bs (MagicStringDetector.buffer (detector_of s))) (MagicStringDetector.buffer (detector_of s))) (detector_of s)) (role s)) o
    Od Hc (conj A1 (conj A2 (conj A3 A4)))).
Qed.

Lemma read_loop_opened fuel total k s : (0 < fuel)%nat -> opened k s -> safely (read_loop fuel rf total) s (fun _ s' => opened k s').
Proof.
  destruct fuel as [|fuel]; [lia|]. intros _ Od. cbn [SockBuffer.read_loop]. apply safely_bind.
  eapply safely_mono; [|apply read_block_brings]. intros bs s1 (_ & o & -> & B). pose proof (opened_drained k s bs o Od B) as ->.
  destruct B as (Br & Bst & Bse). rewrite app_nil_r in Br.
  destruct (opened_pushed k s [] o Od ltac:(by split_and!)) as (s' & E & Od').
  eapply safely_step; [reflexivity|]. eapply safely_step; [exact E|]. by eapply safely_at; [reflexivity|].
Qed.

Lemma read_loop_passing fuel total k s : passing k s -> zlen all - zlen (received T (system s) rf) < Z.of_nat fuel * SockBuffer.BUFFER_SIZE ->
  safely (read_loop fuel rf total) s (fun _ s' => passing k s' /\ m_poller s' = m_poller s \/ opened k s').
Proof.
  revert total s. induction fuel as [|fuel IH]; intros total s Pa Hz.
  { pose proof (received_all s (pa_stream _ _ Pa)) as [more E]. rewrite E, length_app in Hz. lia. }
  cbn [SockBuffer.read_loop]. apply safely_bind. eapply safely_mono; [|apply read_block_brings]. intros bs s1 (Hbs & o & -> & B).
  pose proof (pa_heard _ _ Pa) as (j & Hj & Ej). set (s1 := update system_of o s).
  pose proof B as (Br & Bst & Bse).
  pose proof (process_at bs j s1 Hj) as (d & Ed & H).
  assert (matcher Magic.magic_string 0 (received T o rf) = matcher Magic.magic_string j bs) as Em by (rewrite Br, matcher_app, Ej; done).
  apply safely_bind. destruct (matcher Magic.magic_string j bs) as [k'|rest].
  - destruct H as [Hd Ep]. apply (safely_at _ _ _ _ _ Ep). eapply safely_step; [reflexivity|].
    pose proof (passing_reads k s bs d o Pa B Ed (ex_intro _ k' (conj Hd Em))) as Pa'.
    destruct (Z.eqb_spec (zlen bs) SockBuffer.BUFFER_SIZE) as [Eb|Eb].
    + eapply safely_mono; [|apply (IH _ (seen_block bs d o s) Pa')]; [done|]. cbn. rewrite Br, length_app.
      unfold SockBuffer.BUFFER_SIZE in *. lia.
    + eapply safely_at; [reflexivity|]. left. by split.
  - pose proof (received_all s1 ltac:(cbn; rewrite Bst; apply Pa)) as [more E]. cbn in E.
    destruct (matcher_all _ more (eq_sym E) rest Em) as [-> ->]. rewrite app_nil_r in E.
    destruct (handshaken_opens k s (detected d s1) Pa) as (s2 & E2 & Od); try done.
    { destruct (base_alive _ _ _ _ (pa_base _ _ Pa)) as (A1 & A2 & A3 & A4 & A5 & A6).
      refine (conj A1 (conj A2 (conj A3 (conj A4 (conj _ A6))))). cbn. rewrite Ed. exact A5. }
    { apply Pa. } { apply Pa. } { cbn. rewrite Bst. apply Pa. } { cbn. rewrite Bse. apply Pa. }
    rewrite <- H in E2. apply (safely_at _ _ _ _ _ E2).
    destruct (opened_pushed k s2 bs (system s2) Od ltac:(done)) as (s3 & E3 & Od3).
    replace (update system_of (system s2) s2) with s2 in E3 by by destruct s2.
    eapply safely_step; [exact E3|].
    destruct (Z.eqb_spec (zlen bs) SockBuffer.BUFFER_SIZE) as [Eb|Eb]; [|by eapply safely_at; [reflexivity|]; right].
    eapply safely_mono; [|apply (read_loop_opened _ _ k s3); [|done]]; [by right|].
    rewrite E, Br, length_app in Hz. unfold SockBuffer.BUFFER_SIZE in *. lia.
Qed.

(** *** Its own callbacks *)

(** What the last [poll] has reported. *)
Definition report (e : Poller.entry (obj unit)) : nat * obj unit * Z * Z :=
  (Poller.e_id e, Poller.e_polled e, fd (Poller.e_pollfd e), revents (Poller.e_pollfd e)).
Definition reports (p : Poller.t (obj unit)) : list (nat * obj unit * Z * Z) := map report (Poller.m_polled p).

Lemma reports_events o f ev p : reports (events_set o f ev p) = reports p.
Proof.
  unfold reports, events_set. cbn. destruct (Poller.findPolled o f p) as [j|]; [|done]. cbn.
  generalize (Poller.m_polled p) as l. intros l. revert j. induction l as [|e l IH]; intros [|j]; [done|done|done|]. cbn. f_equal. apply IH.
Qed.

Definition still k s s' : Prop := passing k s' /\ reports (m_poller s') = reports (m_poller s).

Lemma passing_events k f ev s : passing k s ->
  safely (StdioTunnelLocal.setEvents f ev) s (fun _ s' => still k s s').
Proof.
  intros Pa. eapply safely_at; [reflexivity|]. split; [|apply reports_events].
  apply (passing_idle k s); [done|exact (idle_events (Runner0 := passing_runner) T rf wf (POwn tt) f ev s)|done].
Qed.
Lemma passing_events_when k b f ev s : passing k s ->
  safely (u ← StdioTunnelLocal.unsent b; when u (StdioTunnelLocal.setEvents f ev)) s (fun _ s' => still k s s').
Proof.
  intros Pa. eapply safely_step; [reflexivity|]. destruct (SockBuffer.unsentData _); [by apply passing_events|].
  by eapply safely_at; [reflexivity|].
Qed.
Lemma passing_events_unless k b f ev s : passing k s ->
  safely (u ← StdioTunnelLocal.unsent b; when (negb u) (StdioTunnelLocal.setEvents f ev)) s (fun _ s' => still k s s').
Proof.
  intros Pa. eapply safely_step; [reflexivity|]. destruct (negb _); [by apply passing_events|].
  by eapply safely_at; [reflexivity|].
Qed.

Lemma write_pipe_passing k s : passing k s ->
  safely (StdioTunnelLocal.write_out StdioTunnelLocal.write_buffer wf) s (fun _ s' => still k s s').
Proof.
  intros Pa. destruct (base_alive _ _ _ _ (pa_base _ _ Pa)) as (A1 & A2 & A3 & A4 & A5 & A6 & A7).
  unfold StdioTunnelLocal.write_out. apply safely_bind. unfold safely, zoom. set (b := StdioTunnelLocal.m_write_buffer (role s)) in *.
  change (view (lens_pair StdioTunnelLocal.write_buffer system_of) s) with (b, system s).
  pose proof (writeData_effect T wf b (system s) A6) as We. unfold SockBuffer.writeData in *.
  destruct (sys_write _ _ _) as [[n|e] o] eqn:E; [|done]. destruct (pipe_write _ _ _ _ _ E) as [E1 E2].
  destruct We as (Wb & _ & Hs). rewrite (pa_sent _ _ Pa), A7 in Hs. apply app_eq_nil in Hs as [Hs Hp].
  cbn -[SockBuffer.refill] in *. split; [|done].
  apply (passing_beside k s); try done.
  - destruct (pa_heard _ _ Pa) as (j & Hj & Em). exists j. split; [exact Hj|]. cbn. by rewrite E2.
  - cbn. by rewrite Hs, (pa_sent _ _ Pa).
Qed.

Lemma write_terminal_passing k s : passing k s ->
  safely (StdioTunnelLocal.write_out StdioTunnelLocal.read_buffer STDOUT_FD) s (fun _ s' => still k s s').
Proof.
  intros Pa. destruct (base_alive _ _ _ _ (pa_base _ _ Pa)) as (A1 & A2 & A3 & A4 & A5 & A6 & A7).
  unfold StdioTunnelLocal.write_out. apply safely_bind. unfold safely, zoom. set (d := StdioTunnelLocal.m_read_buffer (role s)) in *.
  change (view (lens_pair StdioTunnelLocal.read_buffer system_of) s) with (MagicStringDetector.buffer d, system s).
  pose proof (writeData_effect T STDOUT_FD (MagicStringDetector.buffer d) (system s) A5) as We. unfold SockBuffer.writeData in *.
  destruct (sys_write _ _ _) as [[n|e] o] eqn:E; [|done]. destruct (pipe_write _ _ _ _ _ E) as [E1 E2].
  assert (STDOUT_FD <> wf) as Hw by (intros Ew; by apply fds_differ).
  pose proof (pipe_write_apart _ _ _ _ _ E Hw) as E3.
  destruct We as (Wb & _ & _). cbn -[SockBuffer.refill] in *. split; [|done].
  apply (passing_beside k s); try done.
  destruct (pa_heard _ _ Pa) as (j & Hj & Em). exists j. split; [exact Hj|]. cbn. by rewrite E2.
Qed.

Lemma still_trans k s s1 s2 : still k s s1 -> still k s1 s2 -> still k s s2.
Proof. intros [_ E1] [P2 E2]. split; [done|congruence]. Qed.

Lemma pass_own k (o : unit) id pf s : fd pf <> STDIN_FD -> passing k s ->
  safely (Poller.polled (Polled := StdioTunnelLocal.local_polled blocks) (POwn o) id pf) s (fun _ s' => still k s s' \/ opened k s').
Proof.
  intros Hin Pa. destruct (base_alive _ _ _ _ (pa_base _ _ Pa)) as (A1 & A2 & A3 & _). cbn. unfold StdioTunnelLocal.polled.
  eapply safely_step; [reflexivity|]. cbn beta. rewrite A1. unfold StdioTunnelLocal.pass_through.
  eapply safely_step; [reflexivity|]. cbn beta. rewrite A2, A3.
  destruct fds_differ as (_ & N1 & N2 & _ & _). destruct (Z.eqb_spec (fd pf) STDIN_FD) as [|_]; [done|].
  destruct (Z.eqb_spec (fd pf) rf) as [Er|Hr].
  - destruct (Z.eqb_spec (fd pf) wf) as [|_]; [congruence|]. destruct (Z.eqb_spec (fd pf) STDOUT_FD) as [|_]; [congruence|].
    apply safely_bind. apply (safely_mono _ _ (fun _ s' => still k s s' \/ opened k s')); [by intros _ s' H; do 2 (eapply safely_step; [reflexivity|]); apply safely_ret|].
    cbn [when]. apply safely_bind. unfold StdioTunnelLocal.detector_readData, SockBuffer.readData.
    eapply safely_mono; [|apply (read_loop_passing blocks 0 k s Pa)].
    + intros n s1 H. destruct (n =? 0); [done|]. destruct H as [[Pa1 Ep]|Od].
      * eapply safely_mono; [|by apply passing_events_when]. intros _ s2 [Pa2 Er2]. left. split; [done|]. by rewrite Er2, Ep.
      * eapply safely_step; [reflexivity|]. destruct (SockBuffer.unsentData _); [|by eapply safely_at; [reflexivity|]; right].
        eapply safely_at; [reflexivity|]. right.
        apply (opened_idle k s1); [done|exact (idle_events (Runner0 := local_runner rf wf) T rf wf (POwn tt) STDOUT_FD POLLOUT s1)].
    + lia.
  - eapply safely_step; [reflexivity|]. apply safely_bind. apply (safely_mono _ _ (fun _ s1 => still k s s1)).
    2: { destruct (Z.eqb_spec (fd pf) wf) as [Ew|]; cbn [when]; [|by apply safely_ret].
         destruct (negb _); [done|]. apply safely_bind. eapply safely_mono; [|by apply (write_pipe_passing k)].
         intros [] s1 H1. eapply safely_mono; [|by apply passing_events_unless, H1]. intros [] s2 H2. by eapply still_trans. }
    intros [] s1 H1. eapply safely_step; [reflexivity|].
    destruct (Z.eqb_spec (fd pf) STDOUT_FD) as [Ew|]; cbn [when]; [|by apply safely_ret; left].
    destruct (negb _); [done|]. apply safely_bind. eapply safely_mono; [|by apply (write_terminal_passing k), H1].
    intros [] s2 H2. eapply safely_mono; [|by apply passing_events_unless, H2]. intros [] s3 H3. left.
    eapply still_trans; [exact H1|]. by eapply still_trans.
Qed.

(** *** Its rounds *)

Context {P2 : Posix} (T2 : traffic P2) `{!PosixLaws T2} `{!Pipe T2 STDIN_FD STDOUT_FD}.
Abbreviation far := (tunnel (P:=P2) StdioTunnelRemote.t StdioTunnelRemote.own).
Hypothesis specs_fit : zlen (enc_message (MCreate specs)) < 4294967296.

(** The remote process has said all it says before the handshake. *)
Record expectant (f : far) : Prop := Expectant {
  ex_waiting : waiting f;
  ex_taken : taken_of T2 STDIN_FD f [] [];
  ex_said : said_all T2 STDOUT_FD f = all
}.

Context (f : far) (Hf : expectant f) (Hcame : came = sent T2 (system f) STDOUT_FD).
Definition lives (k : Z) (ids : list nat) s : Prop := live (R1:=StdioTunnelLocal.t) (O1:=unit) (Runner0 := local_runner rf wf) T rf wf T2 (taken_of T2 STDIN_FD) STDOUT_FD (near_worlds specs) [] k ids s f.

(** The handshake having begun, the two are on their way to a session. *)
Lemma opened_lives k ids s : opened k s -> lives k ids s.
Proof.
  intros [Ba An Pk Rd Se Re St]. destruct Hf as [Wa Ta Fs]. split; [done|]. split; [by rewrite Se|]. left.
  exists [enc_message (MCreate specs)], []. split.
  - by apply course_opens.
  - assert (said_all T wf s = [] ++ concat (map frame [enc_message (MCreate specs)])) as ->.
    { unfold said_all. rewrite Se. by apply (unwritten_said WriteStream.init (m_write_stream s) [enc_message (MCreate specs)]). }
    exact (taken_of_said T2 STDIN_FD f [] [] [enc_message (MCreate specs)] Ta).
  - exists all. split; [rewrite Re, Rd; cbn; by rewrite app_nil_r|]. by rewrite Fs, app_nil_r.
  - unfold to_read. by rewrite Rd.
  - by rewrite St, Hcame.
Qed.

(** Nothing to call but its own callbacks: nobody types and no client comes. *)
Definition spared (x : nat * obj unit * Z * Z) : Prop := x.2 = 0 \/ x.1.1.2 = POwn tt /\ x.1.2 <> STDIN_FD.
Definition spares (ids : list nat) (p : Poller.t (obj unit)) : Prop := Forall (fun x => x.1.1.1 ∈ ids -> spared x) (reports p).
Definition unattended s : Prop := forall n rs o, polls s (SysOk (n, rs)) o ->
  Forall spared (map report (Poller.copy_back rs (Poller.m_polled (m_poller s)))).

Definition serving k ids s : Prop := passing k s /\ spares ids (m_poller s) \/ lives k ids s.

Lemma still_serves k ids s s' : spares ids (m_poller s) -> still k s s' -> serving k ids s'.
Proof. intros Hq [Pa Er]. left. split; [done|]. unfold spares. by rewrite Er. Qed.

(** What [idle] asks of the role, where it stays. *)
Lemma idle_role (r1 r2 : Runner StdioTunnelLocal.t unit) s s' : idle (Runner0 := r1) T rf wf s s' -> role s' = role s ->
  idle (Runner0 := r2) T rf wf s s'.
Proof. intros [] E. split; try done. by rewrite E. Qed.

Lemma lives_callbacks : callbacks_keep (Polled0 := StdioTunnelLocal.local_polled blocks) lives.
Proof.
  apply (live_callbacks (HB := local_well_behaved blocks) (Runner0 := local_runner rf wf) T rf wf T2 (taken_of T2 STDIN_FD) STDOUT_FD (taken_of_said T2 STDIN_FD)
    (near_worlds specs) (course_near T specs) [] (fun _ _ _ => eq_refl) (fun _ _ _ => eq_refl)).
  intros k ids o id pf a b Hm _ L.
  exact (local_own T rf wf T2 (taken_of T2 STDIN_FD) STDOUT_FD (taken_of_said T2 STDIN_FD) (near_worlds specs) [] (course_near T specs)
    (near_takes T T2 rf wf specs) (near_fits T T2 specs specs_fit) blocks k ids o id pf a b (proj2 (proj2 (proj2 (proj2 fds_differ)))) Hm L).
Qed.

Lemma serving_idle k ids s s' : serving k ids s -> idle (Runner0 := local_runner rf wf) T rf wf s s' -> role s' = role s ->
  (spares ids (m_poller s) -> spares ids (m_poller s')) -> serving k ids s'.
Proof.
  intros [[Pa Sp]|L] I Er Hs; [left; split; [|by apply Hs]|right; by eapply (live_idle _ _ _ _ _ _ _ (course_near T specs))].
  apply (passing_idle k s); [done|by eapply idle_role|]. unfold detector_of. by rewrite Er.
Qed.

Lemma serving_callbacks : callbacks_keep (Polled0 := StdioTunnelLocal.local_polled blocks) serving.
Proof.
  split.
  - intros k k' ids ids' s Hk Hi [[Pa Sp]|L]; [left|right; by eapply live_less]. split; [by eapply passing_less|].
    eapply Forall_impl; [exact Sp|]. intros x Hx Hin. by apply Hx, Hi.
  - intros k ids i s H. apply (serving_idle k ids s); [done|exact (idle_index (Runner0 := local_runner rf wf) T rf wf i s)|done|done].
  - intros k ids e i s E Hr Hk Ha [[Pa Sp]|L].
    2: { eapply safely_mono; [|by apply (ck_polled _ lives_callbacks k ids e i)]. intros [] s' L'. by right. }
    unfold spares in Sp. rewrite Forall_forall in Sp.
    destruct (Sp (report e)) as [H0|[Eo Hin]]; [|by left|done|].
    { unfold reports. apply list_elem_of_fmap_2. by eapply list_elem_of_lookup_2. }
    cbn in Eo. rewrite Eo. eapply safely_mono; [|apply (pass_own k tt); [exact Hin|eapply passing_less; [|exact Pa]; lia]].
    intros [] s' [St|Od]; [|right; by apply opened_lives]. apply (still_serves k ids s); [|done].
    apply Forall_forall. intros x Hx Hi. apply Sp; [done|by right].
Qed.

(** An iteration of the loop. *)
Lemma passing_iterates s : poller_wf (m_poller s) -> passing (zlen (Poller.m_polled (m_poller s))) s -> unattended s ->
  safely (Poller.iteration (Polled0 := StdioTunnelLocal.local_polled blocks) poller system_of) s (fun _ s' => serving 0 [] s' /\ poller_wf (m_poller s')).
Proof.
  intros Hw Pa La. apply (iteration_keeps (HB := local_well_behaved blocks) (Runner0 := local_runner rf wf) T rf wf eq_refl serving 0 s serving_callbacks); try done.
  - intros s1 s2 H I Er. apply (serving_idle 0 [] s1); try done. intros _. apply Forall_forall. by intros x _ Hx%elem_of_nil.
  - intros size r o E.
    assert (passing (zlen (Poller.m_polled (m_poller s))) (asked size o s)) as Pa1.
    { apply (passing_idle _ s); [done|exact (idle_asked (Runner0 := passing_runner) T rf wf size r o s E)|done]. }
    split.
    + left. split; [eapply passing_less; [|exact Pa1]; lia|]. apply Forall_forall. by intros x _ Hx%elem_of_nil.
    + intros n rs ->. left. split.
      * apply (passing_idle _ (asked size o s)); [exact Pa1|exact (idle_answered (Runner0 := passing_runner) T rf wf rs (asked size o s))|done].
      * eapply Forall_impl; [exact (La n rs o E)|]. by intros x Hx _.
Qed.
End Passing.

(** ** The remote process until the handshake *)

Section Expecting.
Context {P1 P2 : Posix} (T1 : traffic P1) (T2 : traffic P2) `{!PosixLaws T2} `{!Pipe T2 STDIN_FD STDOUT_FD} `{!PipeLaws T2 STDIN_FD STDOUT_FD}.
Context (wf : Z) (all : list byte).
Abbreviation near := (tunnel (P:=P1) StdioTunnelLocal.t unit).
Abbreviation far := (tunnel (P:=P2) StdioTunnelRemote.t StdioTunnelRemote.own).
Implicit Types (n : near) (f : far).
#[local] Existing Instance remote_runner.

(** It has nothing to read, and says nothing. *)
Definition silent (w : world far near) : Prop :=
  waiting (first w) /\ to_second w = [] /\ to_first w = [].

Lemma silent_step reads w w' : silent w -> left_step reads w w' -> silent w'.
Proof.
  intros (Wa & E2 & E1) Hs. inversion Hs as [f n q2 q1 f' ps Ht|]; subst; cbn in *; [|done]. subst.
  by destruct (waiting_alone f f' ps Wa Ht) as [Wa' ->].
Qed.

(** What the pipe to the local process holds. *)
Definition after_all (n : near) (s : list byte) (q : list payload) : Prop := s = all ++ concat (map frame q).

Lemma after_all_said n s q ps : after_all n s q -> after_all n (s ++ concat (map frame ps)) (q ++ ps).
Proof. unfold after_all. intros ->. by rewrite map_app, concat_app, app_assoc. Qed.

Lemma silent_takes : takes_well T2 STDIN_FD STDOUT_FD silent.
Proof. by intros k f n q2 p q1 _ (_ & _ & E). Qed.
Lemma silent_fits : payloads_fit silent.
Proof. intros w (_ & _ & ->). constructor. Qed.

Lemma expectant_iterates n f : poller_wf (m_poller f) -> base STDIN_FD STDOUT_FD (zlen (Poller.m_polled (m_poller f))) f ->
  expectant all T2 f -> to_read f = [] -> said_all T1 wf n = [] -> stream (system f) = sent T1 (system n) wf ->
  safely (Poller.iteration poller system_of) f (fun _ f' => base STDIN_FD STDOUT_FD 0 f' /\ poller_wf (m_poller f') /\
    sent T2 (system f) STDOUT_FD `prefix_of` sent T2 (system f') STDOUT_FD /\
    (Poller.m_finishing (m_poller f') = true \/ expectant all T2 f' /\ to_read f' = [] /\ stream (system f') = sent T1 (system n) wf)).
Proof.
  intros Hw Ba [Wa Ta Es] Rd Sa St.
  eapply safely_mono.
  2: { apply (live_iteration (HB := remote_well_behaved) T2 STDIN_FD STDOUT_FD T1 after_all wf after_all_said silent silent_step
         (sent T2 (system f) STDOUT_FD) (fun _ _ _ => eq_refl) (fun _ _ _ => eq_refl)
         (remote_own T2 T1 after_all wf after_all_said silent _ silent_step silent_takes silent_fits)
         eq_refl 0 f n Hw); [done|].
       split; [exact Ba|]. split; [done|]. left. exists [], []. split; try done.
       - unfold after_all. by rewrite Es, app_nil_r.
       - unfold flow. by rewrite Sa. }
  intros r f' ((Ba' & Hpre & M) & Hw'). split_and!; [done..|]. destruct M as [(q2 & q1 & [(Wa' & E2 & E1) Jo Ji Jr Js])|[L _]]; [right|by left].
  cbn in Wa', E2, E1. subst q2 q1. split; [|done]. split; try done.
  - unfold flow in Ji. by rewrite Sa in Ji.
  - unfold after_all in Jo. by rewrite app_nil_r in Jo.
Qed.
End Expecting.
