(* ===== verification/Setup.v ===== *)
(** * What the two programs set up

    [start_tunnel] of both processes, from the constructor on: what it makes
    is where their event loops start, [passing] for the local process and
    [expectant] for the remote one (Passing.v). *)

From stdpp Require Import base list tactics gmap strings relations sorting.
From Stdlib Require Import ZArith Lia.
From S2P Require Import Prelude Posix Wire SockBuffer Poller Spec Options Magic Tunnel Connection Socks5 Local Remote Behaviour Protocol Links Handshake Session Memory Ends Hearing Pipes System Running Agreement Startup Phases Serving Passing.
Import StdioTunnel Heap TunnelConnection.

(** ** Registering the process itself *)

Lemma register_wf {O} `{EqDecision O} (o : obj O) f ev (p : Poller.t (obj O)) : poller_wf p -> poller_wf (register o f ev p).
Proof.
  set (all := Lens (fun q : Poller.t (obj O) => q) (fun q _ => q)). assert (LensLaws all) by by split.
  apply (poller_ops_wf all p (register o f ev p)). etrans; [apply (push_ops o p)|].
  apply (update_entry_ops (Poller.m_next p) _ (Poller.push o p)).
Qed.

Section Registering.
Context {P : Posix} {R O : Type} `{EqDecision O} `{!Role R O}.
Implicit Types (s : tunnel (P:=P) R O).

(** [addPolled] of an object that says what it is polled for. *)
Lemma addPolled_at (o : obj O) f ev s s1 : Poller.setPollfd o (update poller (Poller.push o (m_poller s)) s) = Ret (f, ev) s1 ->
  m_poller s1 = Poller.push o (m_poller s) ->
  addPolled o s = Ret tt (update poller (register o f ev (m_poller s)) s1).
Proof.
  intros E Ep. unfold addPolled, Poller.addPolled, Poller.on_poller. rewrite bind_gets.
  rewrite (bind_step _ _ s tt (update poller (Poller.push o (m_poller s)) s)) by done.
  rewrite (bind_step _ _ _ (f, ev) s1) by done. unfold zoom, modify. cbn [view poller]. by rewrite Ep.
Qed.

(** A process of whose own nothing else changes. *)
Lemma typed_registered (o : O) f ev s r x : typed (memory_of s) -> entries_ok (m_poller s) ->
  typed (memory_of (update poller (register (POwn o) f ev (m_poller s)) (update role_of r (update system_of x s)))).
Proof.
  intros Ty En. apply (typed_others (memory_of s)); try done. unfold memory_of. cbn -[register]. rewrite (watch_register _ _ _ _ En).
  by rewrite filter_app, filter_cons_False, filter_nil, app_nil_r by (by intros []).
Qed.

(** What registering keeps; [l] are the registrations of the process. *)
Record booked (o : O) (l : list (nat * Z)) s : Prop := Booked {
  bk_typed : typed (memory_of s);
  bk_entries : entries_ok (m_poller s);
  bk_poller : poller_wf (m_poller s);
  bk_own : own_marks (m_poller s) = map (fun x => (x.1, POwn o, x.2)) l
}.

Lemma booked_reg o l f ev r s : booked o l s ->
  booked o (l ++ [(Poller.m_next (m_poller s), f)]) (update poller (register (POwn o) f ev (m_poller s)) (update role_of r s)).
Proof.
  intros [Ty En Pw Ow]. split.
  - exact (typed_registered o f ev s r (system s) Ty En).
  - exact (entries_register _ _ _ _ En).
  - by apply register_wf.
  - unfold own_marks. cbn [m_poller update poller]. rewrite marks_register, filter_app by done.
    fold (own_marks (m_poller s)). by rewrite Ow, map_app, filter_cons_True.
Qed.

(** The process's own descriptors, in the order they are polled. *)
Definition own_fds (p : Poller.t (obj O)) : list Z := map snd (own_marks p).

Lemma booked_fds o l s : booked o l s -> own_fds (m_poller s) = map snd l.
Proof. intros B. unfold own_fds. rewrite (bk_own _ _ _ B), map_map. by apply map_ext. Qed.

Lemma typed_nothing : typed (O:=O) (Memory ∅ ∅ ∅ 0 []).
Proof.
  split; cbn [ids tables faces fresh watched].
  - intros cid i. by rewrite lookup_empty.
  - intros i m. by rewrite lookup_empty.
  - intros i m lid k. by rewrite lookup_empty.
  - intros k f. by rewrite lookup_empty.
  - by intros k sock W%elem_of_nil.
  - by intros i sock W%elem_of_nil.
  - constructor.
  - intros k f m. by rewrite lookup_empty.
Qed.
Lemma booked_nothing o s : memory_of s = Memory ∅ ∅ ∅ 0 [] -> Poller.m_polled (m_poller s) = [] -> 1 <= Poller.m_size (m_poller s) -> booked o [] s.
Proof.
  intros E Ep Hs. split.
  - rewrite E. exact typed_nothing.
  - unfold entries_ok, ids_of. rewrite Ep. constructor.
  - split; [|done]. unfold ids_wf, ids_of. rewrite Ep. split; constructor.
  - unfold own_marks, marks. by rewrite Ep.
Qed.
End Registering.

(** ** The local process *)

Section Local.
Context {P : Posix} (T : traffic P) (rf wf : Z) `{!PosixLaws T} `{!Pipe T rf wf} `{!PipeLaws T rf wf}.
Abbreviation S := (tunnel (P:=P) StdioTunnelLocal.t unit).
Implicit Types (s : S) (specs : list ConnectionSpec.t).

(** While the connections are made: [id] is the next id. *)
Record laid specs (r0 : StdioTunnelLocal.t) (id : Z) s : Prop := Laid {
  ld_typed : typed (memory_of s);
  ld_entries : entries_ok (m_poller s);
  ld_poller : poller_wf (m_poller s);
  ld_links : links s = ∅;
  ld_tables c n : connections s !! c = Some n -> m_link_map n = ∅ /\ m_spec n ∈ specs /\
    forall ls ni, m_side n = ListenSide ls ni -> ni = 501 /\ ConnectionSpec.m_connection_type (m_spec n) = ConnectionSpec.CONNECT;
  ld_ids cid : is_Some (m_connection_map s !! cid) -> 0 <= cid < id;
  ld_count : Z.of_nat (size (m_connection_map s)) <= id;
  ld_own : own_marks (m_poller s) = [];
  ld_streams : m_read_stream s = ReadStream.init /\ m_write_stream s = WriteStream.init;
  ld_role : role s = StdioTunnelLocal.set_g_id id r0
}.

(** A specification the two ends can share. *)
Definition shareable (spec : ConnectionSpec.t) : Prop :=
  ConnectionSpec.isSocks5 (received_spec spec) = false /\ zlen (ConnectionSpec.m_connect_host spec) < 65536.

(** The turn of the loop for one specification. *)
Definition create_one (spec : ConnectionSpec.t) : M S unit :=
  r ← gets role;
  let id := StdioTunnelLocal.g_id r in
  zoom role_of (modify (StdioTunnelLocal.set_g_id (i16 (id + 1))));;
  pConn ← CreateConnection spec true id;
  match pConn with
  | Some c => n ← connection_of c; assign_connection (m_id n) c
  | None => mret tt
  end.

Lemma laid_next specs r0 id spec s : laid specs r0 id s -> spec ∈ specs -> 0 <= id -> id + 1 < 32768 -> shareable spec ->
  safely (create_one spec) s (fun _ s' => laid specs r0 (id + 1) s').
Proof.
  intros [Ty En Pw Li Tb Id Ct Ow St Ro] Hin H0 H1 (_ & Hh). unfold create_one. eapply safely_step; [reflexivity|]. cbn beta.
  rewrite Ro. cbn [StdioTunnelLocal.g_id StdioTunnelLocal.set_g_id]. eapply safely_step; [reflexivity|].
  set (s1 := update role_of _ s). assert (role s1 = StdioTunnelLocal.set_g_id (id + 1) r0) as Ro1.
  { cbn. rewrite Ro. unfold StdioTunnelLocal.set_g_id. cbn. by rewrite i16_id by lia. }
  assert (m_connection_map s !! id = None) as I.
  { apply eq_None_not_Some. intros H%Id. lia. }
  apply safely_bind. eapply safely_mono; [|by apply (CreateConnection_created true id spec s1)]. intros [c|] s2 Cr.
  - destruct (created_filed true id spec c s1 s2 Cr Ty En I ltac:(apply i16_id; lia) ltac:(lia)) as [Ty' En' Ow'].
    destruct Cr as (-> & n & p & o & -> & Hid & Hsp & Hln & Hs). set (s2 := update poller p _) in *.
    eapply safely_step; [apply (connection_of_at (next_object s1) n s2), lookup_insert_eq|]. rewrite Hid.
    apply (safely_at _ _ _ _ _ (assign_fresh id _ s2 I)). split; try done.
    + destruct Hs as [(_ & _ & ->)|(f & _ & _ & ->)]; [done|by apply register_wf].
    + intros c m. cbn. intros [[_ <-]|[_ N]]%lookup_insert_Some; [|by eapply Tb]. split_and!; [done|by rewrite Hsp|].
      intros ls ni E. destruct Hs as [(Hs & _)|(f & Hs & Hb & _)]; rewrite Hs in E; [done|]. injection E as <- <-.
      split; [done|]. rewrite Hsp. unfold listens in Hb. cbn in Hb. lia.
    + intros cid. cbn. intros [c [[<- _]|[_ Hc]]%lookup_insert_Some]; [lia|]. assert (0 <= cid < id) by (apply Id; eauto). lia.
    + cbn. rewrite map_size_insert_None by done. lia.
    + apply sublist_nil_r. rewrite <- Ow. exact Ow'.
  - destruct Cr as [Hb [o ->]]. apply safely_ret. split; try done.
    + apply (typed_gone (memory_of s)); [cbn; lia|done].
    + intros cid Hc%Id. lia.
    + cbn. lia.
Qed.

Lemma create_connections_cons spec specs s : StdioTunnelLocal.create_connections (spec :: specs) s =
  (create_one spec;; StdioTunnelLocal.create_connections specs) s.
Proof.
  cbn [StdioTunnelLocal.create_connections]. unfold create_one, mbind, M_bind, gets, zoom, modify. cbn [view update role_of].
  destruct (CreateConnection _ _ _ _) as [[c|] s1| | |]; [|done..]. by destruct (connection_of c s1) as [n s2| | |].
Qed.

Lemma laid_all all r0 specs id s : laid all r0 id s -> (forall spec, spec ∈ specs -> spec ∈ all /\ shareable spec) ->
  0 <= id -> id + zlen specs < 32768 ->
  safely (StdioTunnelLocal.create_connections specs) s (fun _ s' => laid all r0 (id + zlen specs) s').
Proof.
  revert id s. induction specs as [|spec specs IH]; intros id s L Hs H0 H1.
  - apply safely_ret. cbn. by rewrite Z.add_0_r.
  - unfold safely. rewrite create_connections_cons. cbn [length] in *. apply (safely_bind (create_one spec)).
    destruct (Hs spec ltac:(by left)) as [Hin Hsh].
    eapply safely_mono; [|apply (laid_next all r0 id spec s); [done..|lia|done]]. intros [] s1 L1.
    replace (id + Z.of_nat (Datatypes.S (length specs))) with (id + 1 + zlen specs) by lia.
    apply IH; [done| |lia|lia]. intros spec' Hin'. apply Hs. by right.
Qed.

(** *** The pipe *)

#[local] Hint Resolve quiet_CreateConnection quiet_connection_of quiet_assign_connection : pipes.

Lemma quiet_create_connections specs : moves (undisturbed T rf wf) (StdioTunnelLocal.create_connections specs).
Proof.
  pose proof (fun spec b id => quiet_CreateConnection T rf wf (R:=StdioTunnelLocal.t) (O:=unit) spec b id).
  pose proof (fun id c => quiet_assign_connection T rf wf (R:=StdioTunnelLocal.t) (O:=unit) id c).
  pose proof (fun c => quiet_connection_of T rf wf (R:=StdioTunnelLocal.t) (O:=unit) c).
  induction specs; cbn [StdioTunnelLocal.create_connections]; quiet.
Qed.

Lemma set_nonblocking_calms fds s : safely (StdioTunnelLocal.set_nonblocking fds) s (fun _ s' =>
  exists o, s' = update system_of o s /\ calm (system s) o).
Proof.
  revert s. induction fds as [|fd fds IH]; intros s; cbn [StdioTunnelLocal.set_nonblocking].
  - apply safely_ret. exists (system s). split; [by destruct s|done].
  - apply safely_bind. unfold safely at 1, syscall. cbn [view system_of]. destruct (sys_nonblock fd (system s)) as [[[]|e] o] eqn:E; [|done].
    apply pipe_nonblock in E. eapply safely_mono; [|apply IH]. intros [] s' (o' & -> & C). exists o'. split; [done|]. by etrans.
Qed.

(** *** What is announced *)

Lemma laid_specs all r0 id s : laid all r0 id s -> exists l, specs_of (StdioTunnelLocal.in_order (m_connection_map s)) s = Some l /\
  zlen l <= id /\ Forall (fun e => e.2 ∈ all) l.
Proof.
  intros [Ty En Pw Li Tb Id Ct Ow St Ro]. set (l := StdioTunnelLocal.in_order (m_connection_map s)).
  assert (l ≡ₚ map_to_list (m_connection_map s)) as Hperm by apply merge_sort_Permutation.
  assert (Forall (fun e : Z * nat => exists n, connections s !! e.2 = Some n) l) as Hl.
  { apply Forall_forall. intros [cid c] He. rewrite Hperm in He. apply elem_of_map_to_list in He.
    destruct (typed_ids _ Ty _ _ He) as (n & N & _). by exists n. }
  assert (length l = size (m_connection_map s)) as Hlen by (by rewrite Hperm, length_map_to_list).
  unfold specs_of. fold l.
  destruct (mapM_is_Some_2 (fun e : Z * nat => c ← connections s !! e.2; Some (TunnelConnection.m_id c, m_spec c)) l) as [es E].
  { eapply Forall_impl; [exact Hl|]. intros e (n & N). red. cbn. rewrite N. cbn. eauto. }
  exists es. split; [exact E|]. apply mapM_Some_1 in E. split; [rewrite <- (Forall2_length _ _ _ E); lia|].
  apply Forall_forall. intros e He. apply list_elem_of_lookup in He as [i Hi].
  destruct (Forall2_lookup_r _ _ _ _ _ E Hi) as (x & _ & (n & N & [= <-])%bind_Some). cbn. by destruct (Tb _ _ N) as (_ & H & _).
Qed.

(** The list fits a packet. *)
Lemma length_enc_spec spec : zlen (enc_spec spec) = 12 + zlen (ConnectionSpec.m_connect_host spec).
Proof.
  unfold enc_spec, values_of. cbn [map concat enc_value]. rewrite !length_app. unfold enc_string. rewrite length_app, length_be32.
  cbn [enc_short length]. lia.
Qed.

Lemma list_fits (l : list (Z * ConnectionSpec.t)) : zlen l < 32768 -> Forall (fun e => shareable e.2) l -> zlen (enc_message (MCreate l)) < 4294967296.
Proof.
  intros Hl Hs. cbn [enc_message]. rewrite !length_app. cbn [enc_short length].
  enough (zlen (enc_specs l) <= 65600 * zlen l) by lia. clear Hl. unfold enc_specs.
  induction Hs as [|e l (_ & He) _ IH]; [done|]. cbn [map concat]. rewrite !length_app. pose proof (length_enc_spec e.2).
  cbn [enc_short length] in *. lia.
Qed.

(** *** The process itself *)

Definition reg (f ev : Z) (st : StdioTunnelLocal.state) s : S :=
  update poller (register (POwn tt) f ev (m_poller s)) (update role_of (StdioTunnelLocal.set_state st (role s)) s).

Lemma addPolled_self f ev st s :
  (let s1 := update poller (Poller.push (POwn tt) (m_poller s)) s in
   StdioTunnelLocal.setPollfd s1 = Ret (f, ev) (update role_of (StdioTunnelLocal.set_state st (role s)) s1)) ->
  addPolled (POwn tt) s = Ret tt (reg f ev st s).
Proof. intros E. exact (addPolled_at (POwn tt) f ev s _ E eq_refl). Qed.

(** The four registrations, in the order the code makes them. *)
Lemma addPolled_all r0 s l : booked tt l s -> role s = StdioTunnelLocal.set_fds rf wf r0 -> StdioTunnelLocal.m_state r0 = StdioTunnelLocal.INITIAL ->
  exists s', (addPolled (POwn tt);; addPolled (POwn tt);; addPolled (POwn tt);; addPolled (POwn tt)) s = Ret tt s' /\
    (let i := Poller.m_next (m_poller s) in booked tt (l ++ [(i, STDIN_FD); (Datatypes.S i, STDOUT_FD); (Datatypes.S (Datatypes.S i), rf); (Datatypes.S (Datatypes.S (Datatypes.S i)), wf)]) s') /\
    s' = update poller (m_poller s') (update role_of (StdioTunnelLocal.set_state StdioTunnelLocal.PASS_THROUGH (role s)) s).
Proof.
  intros B Er Es.
  set (s1 := reg STDIN_FD POLLIN StdioTunnelLocal.SET_STDIO_READ s). set (s2 := reg STDOUT_FD 0 StdioTunnelLocal.SET_STDIO_WRITE s1).
  set (s3 := reg rf POLLIN StdioTunnelLocal.SET_PIPE_READ s2). set (s4 := reg wf 0 StdioTunnelLocal.PASS_THROUGH s3).
  exists s4. split_and!.
  - rewrite (bind_step _ _ s tt s1).
    2: { apply addPolled_self. unfold StdioTunnelLocal.setPollfd. rewrite bind_gets. cbn [role update poller]. rewrite Er. cbn [StdioTunnelLocal.m_state StdioTunnelLocal.set_fds]. by rewrite Es. }
    rewrite (bind_step _ _ s1 tt s2) by by apply addPolled_self.
    rewrite (bind_step _ _ s2 tt s3).
    2: { apply addPolled_self. unfold StdioTunnelLocal.setPollfd. rewrite bind_gets. cbn. by rewrite Er. }
    apply addPolled_self. unfold StdioTunnelLocal.setPollfd. rewrite bind_gets. cbn. by rewrite Er.
  - pose proof (booked_reg tt l STDIN_FD POLLIN (role s1) s B : booked tt _ s1) as B1.
    pose proof (booked_reg tt _ STDOUT_FD 0 (role s2) s1 B1 : booked tt _ s2) as B2.
    pose proof (booked_reg tt _ rf POLLIN (role s3) s2 B2 : booked tt _ s3) as B3.
    pose proof (booked_reg tt _ wf 0 (role s4) s3 B3 : booked tt _ s4) as B4. rewrite <- !app_assoc in B4. exact B4.
  - by destruct s.
Qed.

(** *** All of [start_tunnel] *)

Context (c : config) (memory : (termios * bool) * (Z * Z)) (o_new o : @os P).

(** The object as [spawn] leaves it in the parent: constructed on [o_new],
    with the pipe of the process it has made. *)
Definition local_new : S := update system_of o (update role_of (StdioTunnelLocal.set_fds rf wf (StdioTunnelLocal.configured c))
  (new_StdioTunnel (StdioTunnelLocal.configured c) memory o_new)).

Hypothesis fds_apart : NoDup [STDIN_FD; STDOUT_FD; rf; wf].
Hypothesis no_login : m_remote_cmd c = [].
Hypothesis no_daemon : m_daemon c = false.
Hypothesis few_specs : zlen (m_connection_specs c) < 32768.
Hypothesis specs_shareable : Forall shareable (m_connection_specs c).
Hypothesis unread_yet : received T o rf = [].
Hypothesis unsent_yet : sent T o wf = [].

Lemma local_new_laid : laid (m_connection_specs c) (role local_new) 0 local_new.
Proof.
  unfold local_new, new_StdioTunnel. destruct (sys_tcgetattr STDIN_FD o_new) as [[t|e] o1].
  all: split; try done; [exact typed_nothing|constructor|by split; [split; constructor|]|].
  all: intros cid [i H]; cbn in H; by rewrite lookup_empty in H.
Qed.

(** The order in which it polls its descriptors. *)
Lemma booked_order i s : booked tt [(i, STDIN_FD); (Datatypes.S i, STDOUT_FD); (Datatypes.S (Datatypes.S i), rf); (Datatypes.S (Datatypes.S (Datatypes.S i)), wf)] s ->
  in_order rf wf (m_poller s).
Proof.
  intros [_ _ _ Ow]. destruct (fds_differ rf wf fds_apart) as (D1 & D2 & D3 & D4 & D5).
  assert (forall j u f, (j, POwn u, f) ∈ marks (m_poller s) -> f = STDIN_FD \/ f = STDOUT_FD \/
    (j = Datatypes.S (Datatypes.S i) /\ f = rf) \/ (j = Datatypes.S (Datatypes.S (Datatypes.S i)) /\ f = wf)) as Hm.
  { intros j u f Hj. assert ((j, POwn u, f) ∈ own_marks (m_poller s)) as H by by apply elem_own_marks.
    rewrite Ow in H. cbn in H. rewrite !elem_of_cons, elem_of_nil in H. naive_solver. }
  intros j1 j2 u1 u2 H1%Hm H2%Hm. destruct H1 as [?|[?|[[-> _]|[_ ?]]]], H2 as [?|[?|[[_ ?]|[-> _]]]]; congruence || lia.
Qed.

(** The state the connections and the registrations make. *)
Definition ready_to_pass (o2 : @os P) (id : Z) s1 s : Prop :=
  s = update poller (m_poller s) (update role_of
    (StdioTunnelLocal.set_state StdioTunnelLocal.PASS_THROUGH (StdioTunnelLocal.set_g_id id (StdioTunnelLocal.set_fds rf wf (StdioTunnelLocal.configured c))))
    (update target_of (Some (tt, wf)) (update system_of o2 s1))).

Lemma passes r0 id s1 o2 i s : laid (m_connection_specs c) r0 id s1 -> id < 32768 -> calm o o2 -> ready_to_pass o2 id s1 s ->
  booked tt [(i, STDIN_FD); (Datatypes.S i, STDOUT_FD); (Datatypes.S (Datatypes.S i), rf); (Datatypes.S (Datatypes.S (Datatypes.S i)), wf)] s ->
  exists l, passing T rf wf l (stream o) 0 s /\ zlen (enc_message (MCreate l)) < 4294967296.
Proof.
  intros L Hid (C1 & C2 & C3) E B. pose proof (booked_order i s B) as Or.
  destruct (laid_specs _ _ _ _ L) as (l & El & Hl & Hs). destruct L as [_ _ _ Li Tb _ _ _ [Rd Wr] _]. destruct B as [Ty En Pw _].
  assert (Forall (fun e => shareable e.2) l) as Hsh.
  { eapply Forall_impl; [exact Hs|]. intros e He. by eapply (Forall_forall _ (m_connection_specs c)). }
  assert (m_connection_map s = m_connection_map s1 /\ connections s = connections s1 /\ links s = ∅ /\
    m_read_stream s = ReadStream.init /\ m_write_stream s = WriteStream.init /\ m_write_target s = Some (tt, wf) /\ system s = o2 /\
    role s = StdioTunnelLocal.set_state StdioTunnelLocal.PASS_THROUGH (StdioTunnelLocal.set_g_id id (StdioTunnelLocal.set_fds rf wf (StdioTunnelLocal.configured c)))) as (Em & Ec & El' & Er & Ew & Et & Es & Ero)
    by (rewrite E; split_and!; done).
  assert (sound s) as So by (split; [done|done|unfold buffers_ok; rewrite El'; apply map_Forall_empty|by exists (tt, wf); split; [|rewrite Ew]]).
  exists l. split; [|apply list_fits; [lia|done]].
  assert (specs_of (StdioTunnelLocal.in_order (m_connection_map s)) s = Some l) as Sp by (unfold specs_of; by rewrite Em, Ec).
  split; try done.
  - split; try done.
    + apply counted_anew; [done|]. intros k n. rewrite Ec. intros N. destruct (Tb _ _ N) as (? & _ & Hn). split; [done|].
      intros ls ni Hsd. by apply (Hn ls ni).
    + unfold sockets. rewrite El'. apply map_Forall_empty.
    + rewrite Er. apply rs_wf_init.
    + rewrite Ew. constructor.
    + rewrite Ero. split_and!; try done; apply sb_wf_init.
  - apply prepared_announces; [|done| |lia].
    + split; [done|]. intros k n. rewrite Ec. intros N. destruct (Tb _ _ N) as (? & _ & Hn). split; [done|].
      intros ls ni Hsd. by apply (Hn ls ni).
    + eapply Forall_impl; [exact Hsh|]. by intros e [? _].
  - exists 0%nat. rewrite Es, C2, unread_yet. split; [|done]. unfold detector_of. rewrite Ero.
    split_and!; [split; [done|cbn; lia]|done|exact no_login].
  - by rewrite Es, C3.
  - by rewrite Es, C1.
Qed.

Lemma local_sets_up : safely StdioTunnelLocal.start_tunnel local_new (fun _ s => exists l,
  passing T rf wf l (stream o) 0 s /\ poller_wf (m_poller s) /\ zlen (enc_message (MCreate l)) < 4294967296 /\
  own_fds (m_poller s) = [STDIN_FD; STDOUT_FD; rf; wf]).
Proof.
  pose proof local_new_laid as L0. set (r0 := role local_new) in *.
  assert (r0 = StdioTunnelLocal.set_fds rf wf (StdioTunnelLocal.configured c)) as Er0 by done.
  unfold StdioTunnelLocal.start_tunnel. eapply safely_step; [reflexivity|]. cbn beta. fold r0. rewrite Er0.
  change (StdioTunnelLocal.m_config _) with c. change (StdioTunnelLocal.m_read_fd _) with rf. change (StdioTunnelLocal.m_write_fd _) with wf.
  pose proof (laid_all (m_connection_specs c) r0 (m_connection_specs c) 0 local_new L0) as La.
  pose proof (quiet_create_connections (m_connection_specs c) local_new) as Q.
  apply safely_bind. unfold safely at 1. unfold safely in La.
  destruct (StdioTunnelLocal.create_connections _ local_new) as [[] s1|e s1|u|]; [|done|..].
  2, 3: exfalso; apply La; [|done|done]; intros spec Hin; split; [done|]; by eapply Forall_forall.
  assert (laid (m_connection_specs c) r0 (0 + zlen (m_connection_specs c)) s1) as L.
  { apply La; [|done|done]. intros spec Hin. split; [done|]. by eapply Forall_forall. }
  clear La. destruct Q as [_ C1]; [unfold sockets; rewrite (ld_links _ _ _ _ L0); apply map_Forall_empty|].
  apply safely_bind. eapply safely_mono; [|apply set_nonblocking_calms]. intros [] s2 (o2 & -> & C2).
  set (s3 := update target_of (Some (tt, wf)) (update system_of o2 s1)).
  eapply safely_step; [exact (eq_refl : _ = Ret tt s3)|].
  destruct (addPolled_all (StdioTunnelLocal.set_g_id (0 + zlen (m_connection_specs c)) (StdioTunnelLocal.configured c)) s3 []) as (s4 & E4 & B4 & S4).
  - destruct L as [Ty En Pw _ _ _ _ Ow _ _]. by split.
  - cbn. by rewrite (ld_role _ _ _ _ L), Er0.
  - done.
  - apply (safely_at _ _ _ _ _ E4). cbn zeta in B4. cbn [app] in B4.
    destruct (passes r0 (0 + zlen (m_connection_specs c)) s1 o2 (Poller.m_next (m_poller s3)) s4) as (l & Pa & Hz); [done|lia| | |done|].
    + etrans; [exact C1|exact C2].
    + unfold ready_to_pass. rewrite S4 at 1. cbn [role s3 update target_of system_of]. by rewrite (ld_role _ _ _ _ L), Er0.
    + exists l. split_and!; [done|apply B4|done|exact (booked_fds tt _ s4 B4)].
Qed.
End Local.

(** [spawn] leaves the parent so, whichever way it makes the process. *)
Lemma spawn_leaves {P : Posix} (c : config) memory (o_new : @os P) pid s :
  StdioTunnelLocal.spawn (new_StdioTunnel (StdioTunnelLocal.configured c) memory o_new) = Ret pid s -> 0 < pid ->
  exists rf wf o, s = local_new rf wf c memory o_new o.
Proof.
  set (s0 := new_StdioTunnel (StdioTunnelLocal.configured c) memory o_new).
  assert (role s0 = StdioTunnelLocal.configured c) as Er by (unfold s0, new_StdioTunnel; by destruct (sys_tcgetattr _ _) as [[] ]).
  assert (forall rf wf o, update system_of o (update role_of (StdioTunnelLocal.set_fds rf wf (role s0)) s0) = local_new rf wf c memory o_new o) as Hs.
  { intros rf wf o. by rewrite Er. }
  unfold StdioTunnelLocal.spawn, StdioTunnelLocal.forkpipe, StdioTunnelLocal.set_pipe_fds, syscall, syscall_, zoom, modify, gets, mbind, M_bind, mret, M_ret, when, throw.
  cbn -[new_StdioTunnel]. destruct (m_force_pipe _).
  - destruct (sys_pipe _) as [[[r0 r1]|e] o1]; cbn; [|done]. destruct (sys_pipe o1) as [[[w0 w1]|e] o2]; cbn; [|done].
    destruct (sys_fork o2) as [[pid'|e] o3]; cbn; [|done]. destruct (0 <? pid') eqn:Hp; cbn.
    all: rewrite Hp; cbn; intros [= <- <-] H; [lia || (eexists _, _, _; apply Hs)].
  - destruct (sys_forkpty _ _) as [[[pid' master]|e] o1]; cbn; [|done]. destruct (pid' =? 0); cbn; [intros [= <- <-]; lia|].
    destruct (sys_dup master o1) as [[wf|e] o2]; cbn; [|done]. intros [= <- <-] _. eexists _, _, _. apply Hs.
Qed.

(** ** The remote process *)

Section Remote.
Context {P : Posix} (T : traffic P) `{!PosixLaws T} `{!Pipe T STDIN_FD STDOUT_FD} `{!PipeLaws T STDIN_FD STDOUT_FD}.
Abbreviation S := (tunnel (P:=P) StdioTunnelRemote.t StdioTunnelRemote.own).
Abbreviation self := StdioTunnelRemote.OTunnel.
Implicit Types (s : S).
#[local] Existing Instance remote_runner.
Context (memory : (termios * bool) * (Z * Z)) (o : @os P).
Definition remote_new : S := new_StdioTunnel StdioTunnelRemote.init memory o.
Hypothesis unread_yet : received T o STDIN_FD = [].

Definition remote_reg (f ev : Z) (st : StdioTunnelRemote.state) s : S :=
  update poller (register (POwn self) f ev (m_poller s)) (update role_of (StdioTunnelRemote.set_state st (role s)) s).

(** The members of a tunnel that has its two registrations and nothing else. *)
Definition set_up (o' : @os P) s : Prop := exists p i, booked self [(i, STDIN_FD); (Datatypes.S i, STDOUT_FD)] s /\
  s = update poller p (update role_of (StdioTunnelRemote.set_state StdioTunnelRemote.HANDSHAKING StdioTunnelRemote.init)
    (update target_of (Some (self, STDOUT_FD)) (update system_of o' remote_new))).

Lemma remote_members : memory_of remote_new = Memory ∅ ∅ ∅ 0 [] /\
  Poller.m_polled (m_poller remote_new) = [] /\ Poller.m_next (m_poller remote_new) = 0%nat /\ 1 <= Poller.m_size (m_poller remote_new) /\
  role remote_new = StdioTunnelRemote.init /\ m_read_stream remote_new = ReadStream.init /\ m_write_stream remote_new = WriteStream.init /\
  links remote_new = ∅ /\ connections remote_new = ∅ /\ m_connection_map remote_new = ∅ /\ calm o (system remote_new).
Proof.
  unfold remote_new, new_StdioTunnel. destruct (sys_tcgetattr STDIN_FD o) as [[t|e] o1] eqn:E; apply pipe_tcgetattr in E; split_and!; try done.
  etrans; [exact E|]. apply pipe_tcsetattr.
Qed.

Lemma set_up_expectant o' s : set_up o' s -> received T o' STDIN_FD = [] ->
  expectant (sent T o' STDOUT_FD) T s /\ base STDIN_FD STDOUT_FD 0 s /\ poller_wf (m_poller s) /\ to_read s = [] /\ system s = o' /\
  own_fds (m_poller s) = [STDIN_FD; STDOUT_FD].
Proof.
  intros (p & i & B & E) Hr. pose proof (booked_fds self _ s B) as Of. destruct B as [Ty En Pw Ow].
  destruct remote_members as (_ & _ & _ & _ & _ & Rd & Wr & Li & Cs & Mp & _).
  assert (m_connection_map s = ∅ /\ connections s = ∅ /\ links s = ∅ /\ m_read_stream s = ReadStream.init /\
    m_write_stream s = WriteStream.init /\ m_write_target s = Some (self, STDOUT_FD) /\ system s = o' /\
    role s = StdioTunnelRemote.set_state StdioTunnelRemote.HANDSHAKING StdioTunnelRemote.init) as (Em & Ec & El & Er & Ew & Et & Es & Ero)
    by (rewrite E; split_and!; done).
  assert (sound s) as So by (split; [done|done|unfold buffers_ok; rewrite El; apply map_Forall_empty|by exists (self, STDOUT_FD); split; [|rewrite Ew]]).
  assert (forall j u f, (j, POwn u, f) ∈ marks (m_poller s) -> u = self /\ ((j = i /\ f = STDIN_FD) \/ (j = Datatypes.S i /\ f = STDOUT_FD))) as Hm.
  { intros j u f Hi. assert ((j, POwn u, f) ∈ own_marks (m_poller s)) as H by by apply elem_own_marks.
    rewrite Ow in H. cbn in H. rewrite !elem_of_cons, elem_of_nil in H. naive_solver. }
  split_and!; try done.
  - split.
    + split; [|by rewrite Ero]. split; [done|]. intros c n. by rewrite Ec, lookup_empty.
    + exists []. by rewrite Es, Er, Hr.
    + unfold said_all. by rewrite Es, Ew, app_nil_r.
  - split; try done.
    + apply counted_anew; [done|]. intros k n. by rewrite Ec, lookup_empty.
    + unfold sockets. rewrite El. apply map_Forall_empty.
    + rewrite Er. apply rs_wf_init.
    + rewrite Ew. constructor.
    + intros j u f Hi. by apply (Hm j u f).
    + intros j1 j2 u v Hi%Hm Hj%Hm. destruct Hi as [_ [[-> _]|[_ [=]]]], Hj as [_ [[_ [=]]|[-> _]]]. lia.
  - unfold to_read. by rewrite Er.
Qed.

Lemma remote_addPolled_one f ev st s :
  (let s1 := update poller (Poller.push (POwn self) (m_poller s)) s in
   StdioTunnelRemote.setPollfd s1 = Ret (f, ev) (update role_of (StdioTunnelRemote.set_state st (role s)) s1)) ->
  addPolled (POwn self) s = Ret tt (remote_reg f ev st s).
Proof. intros E. exact (addPolled_at (POwn self) f ev s _ E eq_refl). Qed.

Lemma remote_addPolled s : role s = StdioTunnelRemote.init ->
  (addPolled (POwn self);; addPolled (POwn self)) s =
  Ret tt (remote_reg STDOUT_FD 0 StdioTunnelRemote.HANDSHAKING (remote_reg STDIN_FD POLLIN StdioTunnelRemote.SET_STDIO_READ s)).
Proof.
  intros Er. rewrite (bind_step _ _ s tt (remote_reg STDIN_FD POLLIN StdioTunnelRemote.SET_STDIO_READ s)).
  - apply remote_addPolled_one. unfold StdioTunnelRemote.setPollfd. rewrite bind_gets. cbn. by rewrite Er.
  - apply remote_addPolled_one. unfold StdioTunnelRemote.setPollfd. rewrite bind_gets. cbn. by rewrite Er.
Qed.

Lemma remote_registers o' :
  let s := update target_of (Some (self, STDOUT_FD)) (update system_of o' remote_new) in
  exists s', (addPolled (POwn self);; addPolled (POwn self)) s = Ret tt s' /\ set_up o' s'.
Proof.
  intros s. destruct remote_members as (Me & Pl & Nx & Sz & Ro & _ & _ & Li & Cs & Mp & _).
  eexists. split; [by apply remote_addPolled|]. eexists _, (Poller.m_next (m_poller s)). split; [|by rewrite <- Ro].
  assert (booked self [] s) as B by by apply booked_nothing.
  pose proof (booked_reg self [] STDIN_FD POLLIN (StdioTunnelRemote.set_state StdioTunnelRemote.SET_STDIO_READ (role s)) s B) as B1.
  exact (booked_reg self _ STDOUT_FD 0 (StdioTunnelRemote.set_state StdioTunnelRemote.HANDSHAKING (StdioTunnelRemote.set_state StdioTunnelRemote.SET_STDIO_READ (role s))) _ B1).
Qed.

Lemma remote_sets_up : safely StdioTunnelRemote.start_tunnel remote_new (fun _ s =>
  expectant (sent T o STDOUT_FD ++ Magic.magic_string) T s /\ base STDIN_FD STDOUT_FD 0 s /\ poller_wf (m_poller s) /\
  to_read s = [] /\ stream (system s) = stream o /\ sent T (system s) STDOUT_FD = sent T o STDOUT_FD ++ Magic.magic_string /\
  own_fds (m_poller s) = [STDIN_FD; STDOUT_FD]).
Proof.
  destruct remote_members as (_ & _ & _ & _ & _ & _ & _ & _ & _ & _ & (C1 & C2 & C3)).
  unfold StdioTunnelRemote.start_tunnel. apply safely_bind. unfold safely at 1, syscall. cbn [view system_of].
  destruct (sys_write _ _ _) as [[k|e] o1] eqn:E1; [|done]. destruct (pipe_write _ _ _ _ _ E1) as [F1 F2].
  apply (write_ok (T:=T)) in E1 as [_ F3]. destruct (Z.eqb_spec k (zlen Magic.magic_string)) as [->|]; [|done]. cbn [negb].
  rewrite Nat2Z.id, firstn_all in F3.
  apply safely_bind. unfold safely at 1, syscall. cbn [view system_of update system].
  destruct (sys_nonblock STDIN_FD o1) as [[[]|e] o2] eqn:E2; [|by apply safely_bind, safely_ret]. apply pipe_nonblock in E2 as (G1 & G2 & G3).
  apply safely_bind. unfold safely at 1, syscall. cbn [view system_of update system].
  destruct (sys_nonblock STDOUT_FD o2) as [[[]|e] o3] eqn:E3; [|done]. apply pipe_nonblock in E3 as (K1 & K2 & K3).
  eapply safely_step; [reflexivity|].
  destruct (remote_registers o3) as (s & Es & Su). apply (safely_at _ _ _ _ _ Es).
  destruct (set_up_expectant o3 s Su) as (Ex & Ba & Pw & Rd & Sy & Of); [congruence|].
  assert (sent T o STDOUT_FD ++ Magic.magic_string = sent T o3 STDOUT_FD) as -> by congruence.
  split_and!; try done; congruence.
Qed.
End Remote.
