(* ===== verification/Loops.v ===== *)
(** * The two event loops

    The loops of both programs, each iteration as the code runs it, joined
    by their two pipes, from the moment both have set up what they poll
    ([opening]; [tunnels_open] comes there from [start_tunnel]).  Passing.v has
    what happens until the magic string has come, Running.v and Serving.v show
    that a round keeps what holds between callbacks from then on, Phases.v
    what the two may come to.  Here is the system of both ([loop_step]) and
    what holds of all its runs: no iteration goes wrong, and what the loops do
    is what the processes of System.v may do. *)

From stdpp Require Import base list tactics gmap strings relations sorting.
From Stdlib Require Import ZArith Lia.
From S2P Require Import Prelude Posix Wire SockBuffer Poller Spec Options Magic Tunnel Connection Socks5 Local Remote Behaviour Protocol Links Handshake Session Memory Ends Hearing Pipes System Running Serving Agreement Startup Phases Passing Setup.
Import StdioTunnel Heap TunnelConnection ConnectionLink.

(** ** Both *)

Section Both.
Context {P1 P2 : Posix} (T1 : traffic P1) (T2 : traffic P2) `{!PosixLaws T1} `{!PosixLaws T2}.
Context (rf wf : Z) `{!Pipe T1 rf wf} `{!PipeLaws T1 rf wf} `{!Pipe T2 STDIN_FD STDOUT_FD} `{!PipeLaws T2 STDIN_FD STDOUT_FD}.
Context (blocks : nat).
Abbreviation near := (tunnel (P:=P1) StdioTunnelLocal.t unit).
Abbreviation far := (tunnel (P:=P2) StdioTunnelRemote.t StdioTunnelRemote.own).
Implicit Types (n : near) (f : far).
#[local] Instance near_runner : Runner StdioTunnelLocal.t unit := local_runner rf wf.
#[local] Existing Instance remote_runner.

Definition near_iteration : M near Z := Poller.iteration (Polled0 := StdioTunnelLocal.local_polled blocks) poller system_of.
Definition far_iteration : M far Z := Poller.iteration poller system_of.

(** What has been written from one state to another. *)
Definition written {P : Posix} {R O} (T : traffic P) (w : Z) (s s' : tunnel (P:=P) R O) : list byte :=
  drop (length (sent T (system s) w)) (sent T (system s') w).
(** It comes to the other process. *)
Definition fed {P : Posix} {R O} {T : traffic P} {r w} `{!Pipe T r w} (bs : list byte) (s : tunnel (P:=P) R O) : tunnel (P:=P) R O :=
  update system_of (feed bs (system s)) s.

Definition running {P : Posix} {R O} (s : tunnel (P:=P) R O) : Prop := Poller.m_finishing (m_poller s) = false.
(** The listeners have ids left for the next round. *)
Definition roomy {P : Posix} {R O} (s : tunnel (P:=P) R O) : Prop := zlen (Poller.m_polled (m_poller s)) <= 65536 /\
  forall c k ls ni, connections s !! c = Some k -> m_side k = ListenSide ls ni ->
    ni + zlen (Poller.m_polled (m_poller s)) <= 501 + 65536.

(** While both loops run, one of them iterates. *)
Inductive loop_step : near * far -> near * far -> Prop :=
| near_iterates n f r n' : running n -> running f -> roomy n ->
    (StdioTunnelLocal.m_state (role n) = StdioTunnelLocal.PASS_THROUGH -> unattended n) ->
    near_iteration n = Ret r n' -> r <> 0 ->
    loop_step (n, f) (n', fed (written T1 wf n n') f)
| far_iterates n f r f' : running n -> running f -> roomy f -> far_iteration f = Ret r f' -> r <> 0 ->
    loop_step (n, f) (fed (written T2 STDOUT_FD f f') n, f').

(** What is on its way, of one process to the other. *)
Abbreviation flows_far := (flow T1 wf T2 STDIN_FD).
Abbreviation flows_near := (flow T2 STDOUT_FD T1 rf).

Context (specs : list (Z * ConnectionSpec.t)) (all : list byte).

(** Where the two loops start, when both programs have set up what they
    poll: the local process passes its input and output through and has
    nothing to write, the remote process waits for the list of connections.
    [all] is what comes through the pipe before: it ends in the magic
    string. *)
Record opening n f : Prop := Opening {
  op_fds : NoDup [STDIN_FD; STDOUT_FD; rf; wf];
  op_magic : matcher Magic.magic_string 0 all = inr [];
  op_blocks : zlen all < Z.of_nat blocks * SockBuffer.BUFFER_SIZE;
  op_size : zlen (enc_message (MCreate specs)) < 4294967296;
  op_near : passing T1 rf wf specs (sent T2 (system f) STDOUT_FD) 0 n;
  op_far : base STDIN_FD STDOUT_FD 0 f;
  op_expectant : expectant all T2 f;
  op_pollers : poller_wf (m_poller n) /\ poller_wf (m_poller f);
  op_read : to_read f = [];
  op_stream : stream (system f) = []
}.

(** *** Between two iterations *)

Record going n f (q2 q1 : list payload) : Prop := Going {
  go_course : course specs (World n f q2 q1);
  go_flows : flows_far n f q2 /\ flows_near f n q1;
  go_read : to_read n = [] /\ to_read f = [];
  go_streams : stream (system n) = sent T2 (system f) STDOUT_FD /\ stream (system f) = sent T1 (system n) wf
}.

(** Before the handshake and after it; a loop that ends need not keep its
    part. *)
Inductive stage n f : Prop :=
| passing_through : passing T1 rf wf specs (sent T2 (system f) STDOUT_FD) 0 n ->
    (running f -> expectant all T2 f /\ to_read f = [] /\ stream (system f) = []) -> stage n f
| speaking : base rf wf 0 n -> (running n -> running f -> exists q2 q1, going n f q2 q1) -> stage n f.

Record fit n f : Prop := Fit {
  fit_stage : stage n f;
  fit_far : base STDIN_FD STDOUT_FD 0 f;
  fit_pollers : poller_wf (m_poller n) /\ poller_wf (m_poller f)
}.

Lemma roomy_counted {P : Posix} {R O} (s : tunnel (P:=P) R O) : roomy s -> counted 0 (connections s) ->
  counted (0 + zlen (Poller.m_polled (m_poller s))) (connections s).
Proof.
  intros [Hz Hr] [_ C]. split; [lia|]. intros c k ls ni N Hs. destruct (C c k ls ni N Hs) as [H1 H2]. specialize (Hr c k ls ni N Hs).
  split; [lia|done].
Qed.
Lemma base_roomy {P : Posix} {R O} `{EqDecision O} `{!Role R O} `{!Reporter (R:=R) (O:=O)} `{!Runner R O} (r w : Z) (s : tunnel (P:=P) R O) :
  roomy s -> base r w 0 s -> base r w (0 + zlen (Poller.m_polled (m_poller s))) s.
Proof. intros Hr []. split; try done. by apply roomy_counted. Qed.
Lemma passing_roomy came n : roomy n -> passing T1 rf wf specs came 0 n -> passing T1 rf wf specs came (zlen (Poller.m_polled (m_poller n))) n.
Proof.
  intros Hr Pa. pose proof (base_roomy (Runner0 := passing_runner rf wf) rf wf n Hr (pa_base _ _ _ _ _ _ _ Pa)) as B.
  destruct Pa. by split.
Qed.

Lemma passing_state came k n : passing T1 rf wf specs came k n -> StdioTunnelLocal.m_state (role n) = StdioTunnelLocal.PASS_THROUGH.
Proof. intros Pa. apply (pa_base _ _ _ _ _ _ _ Pa). Qed.
Lemma speaking_state k n : base rf wf k n -> StdioTunnelLocal.m_state (role n) <> StdioTunnelLocal.PASS_THROUGH.
Proof. intros B E. destruct (base_alive _ _ _ _ B) as ([H|H] & _); rewrite E in H; done. Qed.

(** *** An iteration *)

Context (Hfds : NoDup [STDIN_FD; STDOUT_FD; rf; wf]) (Hmagic : matcher Magic.magic_string 0 all = inr []).
Context (Hblocks : zlen all < Z.of_nat blocks * SockBuffer.BUFFER_SIZE) (Hsize : zlen (enc_message (MCreate specs)) < 4294967296).

Lemma wf_apart : wf <> STDOUT_FD.
Proof. by apply (fds_differ rf wf Hfds). Qed.

Definition near_live (start : list byte) n f : Prop := live T1 rf wf T2 (taken_of T2 STDIN_FD) STDOUT_FD (near_worlds specs) start 0 [] n f.
Definition far_live (start : list byte) f n : Prop := live T2 STDIN_FD STDOUT_FD T1 (taken_of T1 rf) wf (far_worlds specs) start 0 [] f n.

Lemma near_speaks n f q2 q1 : base rf wf 0 n -> poller_wf (m_poller n) -> going n f q2 q1 -> roomy n ->
  safely near_iteration n (fun _ n' => near_live (sent T1 (system n) wf) n' f /\ poller_wf (m_poller n')).
Proof.
  intros Bn Pn [Gw [G2 G1] [Gr _] [Gs _]] Ro.
  apply (live_iteration (HB := local_well_behaved blocks) T1 rf wf T2 (taken_of T2 STDIN_FD) STDOUT_FD (taken_of_said T2 STDIN_FD)
    (near_worlds specs) (course_near T1 specs)
    (sent T1 (system n) wf) (fun _ _ _ => eq_refl) (fun _ _ _ => eq_refl)
    (fun k ids o id pf s b Hm _ L => local_own T1 rf wf T2 (taken_of T2 STDIN_FD) STDOUT_FD (taken_of_said T2 STDIN_FD) (near_worlds specs) _
       (course_near T1 specs) (near_takes T1 T2 rf wf specs) (near_fits T1 T2 specs Hsize) blocks k ids o id pf s b wf_apart Hm L)
    eq_refl 0 n f Pn); [done|].
  split; [by apply base_roomy|]. split; [done|]. left. by exists q2, q1.
Qed.

Lemma far_speaks n f q2 q1 : base STDIN_FD STDOUT_FD 0 f -> poller_wf (m_poller f) -> going n f q2 q1 -> roomy f ->
  safely far_iteration f (fun _ f' => far_live (sent T2 (system f) STDOUT_FD) f' n /\ poller_wf (m_poller f')).
Proof.
  intros Bf Pf [Gw [G2 G1] [_ Gr] [_ Gs]] Ro.
  apply (live_iteration (HB := remote_well_behaved) T2 STDIN_FD STDOUT_FD T1 (taken_of T1 rf) wf (taken_of_said T1 rf)
    (far_worlds specs) (course_far specs)
    (sent T2 (system f) STDOUT_FD) (fun _ _ _ => eq_refl) (fun _ _ _ => eq_refl)
    (remote_own T2 T1 (taken_of T1 rf) wf (taken_of_said T1 rf) (far_worlds specs) _ (course_far specs)
       (far_takes T1 T2 specs) (far_fits T1 T2 specs Hsize))
    eq_refl 0 f n Pf); [done|].
  split; [by apply base_roomy|]. split; [done|]. left. by exists q1, q2.
Qed.

(** Either stage: from the state before, what [n'] is in. *)
Lemma near_passes n f : passing T1 rf wf specs (sent T2 (system f) STDOUT_FD) 0 n -> expectant all T2 f -> poller_wf (m_poller n) ->
  roomy n -> unattended n -> safely near_iteration n (fun _ n' =>
    (passing T1 rf wf specs (sent T2 (system f) STDOUT_FD) 0 n' \/ near_live [] n' f) /\ poller_wf (m_poller n')).
Proof.
  intros Pa Ex Pn Ro Un.
  assert (sent T2 (system f) STDOUT_FD `prefix_of` all) as Hpre by (rewrite <- (ex_said _ _ _ Ex); by apply prefix_app_r).
  eapply safely_mono; [|exact (passing_iterates T1 rf wf specs all (sent T2 (system f) STDOUT_FD) blocks Hfds Hpre Hmagic Hblocks T2
    Hsize f Ex eq_refl n Pn (passing_roomy _ n Ro Pa) Un)].
  intros r n' ([[Pa' _]|L] & Pn'); (split; [|done]); [by left|by right].
Qed.

Lemma said_nothing came k n : passing T1 rf wf specs came k n -> said_all T1 wf n = [].
Proof. intros Pa. unfold said_all. by rewrite (pa_sent _ _ _ _ _ _ _ Pa), (pa_writer _ _ _ _ _ _ _ Pa). Qed.

(** *** What has been written arrives *)

Lemma sent_written {P : Posix} {R O} (T : traffic P) w (s s' : tunnel (P:=P) R O) :
  sent T (system s) w `prefix_of` sent T (system s') w -> sent T (system s) w ++ written T w s s' = sent T (system s') w.
Proof. intros [rest E]. unfold written. by rewrite E, drop_app_length. Qed.
Lemma written_nothing {P : Posix} {R O} (T : traffic P) w (s s' : tunnel (P:=P) R O) : sent T (system s') w = [] -> written T w s s' = [].
Proof. intros E. unfold written. by rewrite E, drop_nil. Qed.

Lemma beside_fed {P : Posix} {R O} `{EqDecision O} `{!Role R O} `{!Reporter (R:=R) (O:=O)} `{!Hearer R O} {T : traffic P} {r w}
    `{!Pipe T r w} bs (s : tunnel (P:=P) R O) : beside s (fed bs s).
Proof. by split. Qed.
Lemma base_fed {P : Posix} {R O} `{EqDecision O} `{!Role R O} `{!Runner R O} {T : traffic P} {r w} `{!Pipe T r w} bs k (s : tunnel (P:=P) R O) :
  base r w k s -> base r w k (fed bs s).
Proof. intros [[] ]. by split; [split|..]. Qed.

Lemma fed_far n f q2 q1 bs : course specs (World n f q2 q1) -> course specs (World n (fed bs f) q2 q1).
Proof.
  intros H. apply (course_far specs false (World f n q1 q2) (World (fed bs f) n q1 q2) H).
  rewrite <- (app_nil_r q1) at 2. by apply left_alone, turn_beside, beside_fed.
Qed.
Lemma fed_near n f q2 q1 bs : course specs (World n f q2 q1) -> course specs (World (fed bs n) f q2 q1).
Proof.
  intros H. apply (course_near T1 specs false _ _ H). rewrite <- (app_nil_r q2) at 2. by apply left_alone, turn_beside, beside_fed.
Qed.

Lemma expectant_fed f bs : expectant all T2 f -> expectant all T2 (fed bs f).
Proof.
  intros [Wa Ta Sa]. destruct (feed_traffic bs (system f)) as [F1 F2]. split.
  - destruct Wa as ([[] Hb] & Wm & Ws). split_and!; [|done..]. by split.
  - destruct Ta as (taken & E1 & E2). exists taken. cbn. by rewrite F1.
  - unfold said_all. cbn. by rewrite F2.
Qed.
Lemma passing_fed came n bs : passing T1 rf wf specs came 0 n -> passing T1 rf wf specs (came ++ bs) 0 (fed bs n).
Proof.
  intros [Ba An Sp (k & Hk & Hm) Rd Wr Tg Se St]. destruct (feed_traffic bs (system n)) as [F1 F2]. split; try done.
  - exact (base_fed (T:=T1) (Runner0 := passing_runner rf wf) bs 0 n Ba).
  - refine (announces_beside specs n _ An _ (beside_fed (T:=T1) bs n)). destruct Ba as [[] ]. by split.
  - exists k. split; [done|]. cbn. by rewrite F1.
  - cbn. by rewrite F2.
  - cbn. by rewrite feed_stream, St.
Qed.

(** After an iteration of the local process. *)
Lemma spoken_near start n n' f : start = sent T1 (system n) wf -> stream (system f) = start -> to_read f = [] ->
  near_live start n' f -> stage n' (fed (written T1 wf n n') f).
Proof.
  intros -> Gs Gr (Bn' & Hpre & M). pose proof (sent_written T1 wf n n' Hpre) as Hw. apply speaking; [done|]. intros Rn' _.
  destruct M as [(q2 & q1 & [Jw Jo Ji Jr Js])|[L _]]; [|unfold running in Rn'; congruence].
  destruct (feed_traffic (written T1 wf n n') (system f)) as [F1 F2]. exists q2, q1. split.
  - by apply fed_far.
  - split; [eapply flow_same; [exact Jo|done..]|eapply flow_same; [exact Ji| |done|done]]. unfold said_all. cbn. by rewrite F2.
  - done.
  - split; [cbn; by rewrite F2|]. cbn. by rewrite feed_stream, Gs.
Qed.

(** And of the remote one. *)
Lemma spoken_far n f f' q2 q1 : going n f q2 q1 -> base rf wf 0 n -> far_live (sent T2 (system f) STDOUT_FD) f' n ->
  stage (fed (written T2 STDOUT_FD f f') n) f'.
Proof.
  intros [_ _ [Gr _] [Gs _]] Bn (Bf' & Hpre & M). pose proof (sent_written T2 STDOUT_FD f f' Hpre) as Hw.
  apply speaking; [by apply base_fed|]. intros _ Rf'.
  destruct M as [(r1 & r2 & [Jw Jo Ji Jr Js])|[L _]]; [|unfold running in Rf'; congruence].
  destruct (feed_traffic (written T2 STDOUT_FD f f') (system n)) as [F1 F2]. exists r2, r1. split.
  - by apply fed_near.
  - split; [eapply flow_same; [exact Ji| |done|done]|eapply flow_same; [exact Jo|done..]]. unfold said_all. cbn. by rewrite F2.
  - done.
  - split; [|cbn; by rewrite F2]. cbn. by rewrite feed_stream, Gs.
Qed.

Lemma fit_step n f n' f' : fit n f -> loop_step (n, f) (n', f') -> fit n' f'.
Proof.
  intros [St Bf [Pn Pf]] Hs. inversion Hs as [? ? r ? Rn Rf Ro Un E _|? ? r ? Rn Rf Ro E _]; subst.
  - enough (stage n' (fed (written T1 wf n n') f) /\ poller_wf (m_poller n')) as [? ?] by (split; [done|by apply base_fed|done]).
    destruct St as [Pa Ex|Bn Hg].
    + destruct (Ex Rf) as (Ex' & Gr & Gs). pose proof (near_passes n f Pa Ex' Pn Ro (Un (passing_state _ _ _ Pa))) as H.
      unfold safely in H. rewrite E in H. destruct H as [[Pa'|L] Pn']; (split; [|done]).
      * rewrite (written_nothing T1 wf n n' (pa_sent _ _ _ _ _ _ _ Pa')).
        destruct (feed_traffic [] (system f)) as [F1 F2]. apply passing_through; [cbn; by rewrite F2|].
        intros _. split_and!; [by apply expectant_fed|done|]. cbn. by rewrite feed_stream, Gs.
      * eapply (spoken_near []); [by rewrite (pa_sent _ _ _ _ _ _ _ Pa)|done..].
    + destruct (Hg Rn Rf) as (q2 & q1 & G). pose proof (near_speaks n f q2 q1 Bn Pn G Ro) as H.
      unfold safely in H. rewrite E in H. destruct H as [L Pn']. split; [|done].
      eapply spoken_near; [done|apply G|apply G|done].
  - enough (stage (fed (written T2 STDOUT_FD f f') n) f' /\ base STDIN_FD STDOUT_FD 0 f' /\ poller_wf (m_poller f')) as (? & ? & ?) by by split.
    destruct St as [Pa Ex|Bn Hg].
    + destruct (Ex Rf) as (Ex' & Gr & Gs).
      assert (stream (system f) = sent T1 (system n) wf) as Es by (by rewrite Gs, (pa_sent _ _ _ _ _ _ _ Pa)).
      pose proof (expectant_iterates T1 T2 wf all n f Pf (base_roomy _ _ f Ro Bf) Ex' Gr (said_nothing _ _ _ Pa) Es) as H.
      unfold far_iteration in E. unfold safely in H. rewrite E in H. destruct H as (Bf' & Pf' & Hpre & M).
      split; [|done]. apply passing_through.
      * rewrite <- (sent_written T2 STDOUT_FD f f' Hpre). by apply passing_fed.
      * intros Rf'. destruct M as [L|(Ex2 & Gr2 & Gs2)]; [unfold running in Rf'; congruence|].
        split_and!; [done..|]. by rewrite Gs2, (pa_sent _ _ _ _ _ _ _ Pa).
    + destruct (Hg Rn Rf) as (q2 & q1 & G). pose proof (far_speaks n f q2 q1 Bf Pf G Ro) as H.
      unfold safely in H. rewrite E in H. destruct H as [L Pf']. split; [by eapply spoken_far|]. split; [apply L|done].
Qed.

Lemma fit_steps s s' : fit s.1 s.2 -> rtc loop_step s s' -> fit s'.1 s'.2.
Proof.
  intros F Hs. induction Hs as [|[n f] [n1 f1] s' Hs _ IH]; [done|]. apply IH. by eapply fit_step.
Qed.
End Both.

Section Runs.
Context {P1 P2 : Posix} (T1 : traffic P1) (T2 : traffic P2) `{!PosixLaws T1} `{!PosixLaws T2}.
Context (rf wf : Z) `{!Pipe T1 rf wf} `{!PipeLaws T1 rf wf} `{!Pipe T2 STDIN_FD STDOUT_FD} `{!PipeLaws T2 STDIN_FD STDOUT_FD}.
Abbreviation near := (tunnel (P:=P1) StdioTunnelLocal.t unit).
Abbreviation far := (tunnel (P:=P2) StdioTunnelRemote.t StdioTunnelRemote.own).
Implicit Types (n : near) (f : far).
Abbreviation steps blocks := (rtc (loop_step T1 T2 rf wf blocks)).
Context (blocks : nat) (specs : list (Z * ConnectionSpec.t)) (all : list byte).

Lemma steps_fit n0 f0 n f : opening T1 T2 rf wf blocks specs all n0 f0 -> steps blocks (n0, f0) (n, f) ->
  fit T1 T2 rf wf specs all n f.
Proof.
  intros [Hfds Hm Hb Hz Pa Bf Ex Pw Er Es] Hs.
  apply (fit_steps T1 T2 rf wf blocks specs all Hfds Hm Hb Hz (n0, f0) (n, f)); [|exact Hs].
  split; [|done..]. by apply passing_through.
Qed.


(** C1: the event loops implement the session.  However the two loops run,
    the local process is still passing through, nothing has gone to the
    remote one and that waits for the list; or the state they have come to is
    one of the handshake or of a session of the two processes (Phases.v,
    Agreement.v), and the two pipes hold exactly the payloads that are on
    their way there, as whole packets, of which the reader may have a part: so
    all that is proved of sessions holds of the programs that run. *)
Theorem loops_refine_session n0 f0 n f (Hopening : opening T1 T2 rf wf blocks specs all n0 f0)
    (Hs : steps blocks (n0, f0) (n, f)) (Hn : running n) (Hf : running f) :
  (StdioTunnelLocal.m_state (role n) = StdioTunnelLocal.PASS_THROUGH /\ said_all T1 wf n = [] /\ waiting f) \/
  exists q2 q1, course specs (World n f q2 q1) /\
    flow T1 wf T2 STDIN_FD n f q2 /\ flow T2 STDOUT_FD T1 rf f n q1.
Proof.
  destruct (fit_stage _ _ _ _ _ _ _ _ (steps_fit n0 f0 n f Hopening Hs)) as [Pa Ex|Bn Hg].
  - left. split_and!; [by eapply passing_state|by eapply said_nothing|]. by apply (Ex Hf).
  - right. destruct (Hg Hn Hf) as (q2 & q1 & [Gw [G2 G1] _ _]). by exists q2, q1.
Qed.

(** A pipe that is empty has no packet in it. *)
Lemma flow_empty {Pa Pb : Posix} {Ra Oa Rb Ob} (Ta : traffic Pa) w (Tb : traffic Pb) r
    (a : tunnel (P:=Pa) Ra Oa) (b : tunnel (P:=Pb) Rb Ob) q : flow Ta w Tb r a b q -> packets a = [] ->
  received Tb (system b) r = sent Ta (system a) w -> rs_wf (m_read_stream b) -> Forall (fun p => zlen p < 4294967296) q -> q = [].
Proof.
  intros (taken & H1 & H2) Hp E W Hq. unfold said_all, unwritten in H2. unfold packets in Hp. rewrite Hp, app_nil_r, <- E, H1 in H2.
  apply app_inv_head in H2. by eapply partial_not_frame.
Qed.

(** C6: when the pipes are empty the session has begun and the two ends
    agree.  Whenever the loops have come past the magic string to a state in
    which each process has written all its packets and the other has read all
    of it, then the handshake is over, and for any two ids either both ends
    poll the link or neither knows it. *)
Theorem loops_agree n0 f0 n f (Hopening : opening T1 T2 rf wf blocks specs all n0 f0)
    (Hs : steps blocks (n0, f0) (n, f)) (Hn : running n) (Hf : running f)
    (Hpast : StdioTunnelLocal.m_state (role n) <> StdioTunnelLocal.PASS_THROUGH)
    (Hout : packets n = [] /\ received T2 (system f) STDIN_FD = sent T1 (system n) wf)
    (Hin : packets f = [] /\ received T1 (system n) rf = sent T2 (system f) STDOUT_FD) :
  StdioTunnelRemote.m_state (role f) = StdioTunnelRemote.CONNECTED /\ forall cid lid,
  state_at n cid lid = state_at f cid lid /\ (state_at n cid lid = Absent \/ state_at n cid lid = Open).
Proof.
  pose proof (steps_fit n0 f0 n f Hopening Hs) as [St Bf _]. destruct St as [Pa _|Bn Hg]; [by apply passing_state in Pa|].
  destruct (Hg Hn Hf) as (q2 & q1 & [Gw [G2 G1] _ _]).
  destruct (course_fits T1 T2 specs _ (op_size _ _ _ _ _ _ _ _ _ Hopening) Gw) as [F2 F1].
  apply flow_empty in G2; [|apply Hout|apply Hout|apply (base_reader _ _ _ _ Bf)|exact F2].
  apply flow_empty in G1; [|apply Hin|apply Hin|apply (base_reader _ _ _ _ Bn)|exact F1].
  subst q2 q1. destruct (course_drained T1 T2 specs _ Gw eq_refl eq_refl) as (m2 & m1 & Ag).
  split; [exact (ag_second_attentive _ _ _ Ag)|]. intros cid lid.
  pose proof (ag_to_second _ _ _ Ag) as E2. pose proof (ag_to_first _ _ _ Ag) as E1. cbn in E1, E2.
  symmetry in E1, E2. apply map_eq_nil in E1 as ->, E2 as ->. eapply fine_quiet, (ag_links _ _ _ Ag cid lid).
Qed.
End Runs.

(** ** From [start_tunnel] on *)

Section Started.
Context {P1 P2 : Posix} (T1 : traffic P1) (T2 : traffic P2) `{!PosixLaws T1} `{!PosixLaws T2}.
Context (rf wf : Z) `{!Pipe T1 rf wf} `{!PipeLaws T1 rf wf} `{!Pipe T2 STDIN_FD STDOUT_FD} `{!PipeLaws T2 STDIN_FD STDOUT_FD}.
Context (blocks : nat) (c : config) (memory1 memory2 : (termios * bool) * (Z * Z)) (o_new o1 : @os P1) (o2 : @os P2).
Abbreviation near0 := (local_new rf wf c memory1 o_new o1).
Abbreviation far0 := (remote_new memory2 o2).

(** What the two systems are when the programs start: the remote one may have
    printed [before] (what it prints as it is logged in), and there is nothing
    else in the pipes. *)
Record fresh_pipes (before : list byte) : Prop := FreshPipes {
  fp_fds : NoDup [STDIN_FD; STDOUT_FD; rf; wf];
  fp_near : received T1 o1 rf = [] /\ sent T1 o1 wf = [] /\ stream o1 = before;
  fp_far : received T2 o2 STDIN_FD = [] /\ stream o2 = [] /\ sent T2 o2 STDOUT_FD = before;
  fp_before : matcher Magic.magic_string 0 before = inl 0%nat;
  fp_blocks : zlen (before ++ Magic.magic_string) < Z.of_nat blocks * SockBuffer.BUFFER_SIZE
}.

(** A configuration whose connections the remote end can take. *)
Record plain_config : Prop := PlainConfig {
  pc_login : m_remote_cmd c = [];
  pc_daemon : m_daemon c = false;
  pc_few : zlen (m_connection_specs c) < 32768;
  pc_shareable : Forall shareable (m_connection_specs c)
}.

Lemma starts_near before : fresh_pipes before -> plain_config -> safely StdioTunnelLocal.start_tunnel near0 (fun _ n => exists l,
  passing T1 rf wf l before 0 n /\ poller_wf (m_poller n) /\ zlen (enc_message (MCreate l)) < 4294967296 /\
  own_fds (m_poller n) = [STDIN_FD; STDOUT_FD; rf; wf]).
Proof.
  intros [Hf (H1 & H2 & <-) _ _ _] []. by apply local_sets_up.
Qed.

Lemma opens before l n f : fresh_pipes before -> passing T1 rf wf l before 0 n -> poller_wf (m_poller n) ->
  zlen (enc_message (MCreate l)) < 4294967296 ->
  expectant (before ++ Magic.magic_string) T2 f -> base (Runner0 := remote_runner) STDIN_FD STDOUT_FD 0 f -> poller_wf (m_poller f) ->
  to_read f = [] -> stream (system f) = stream o2 -> sent T2 (system f) STDOUT_FD = before ++ Magic.magic_string ->
  opening T1 T2 rf wf blocks l (before ++ Magic.magic_string) (fed (written T2 STDOUT_FD far0 f) n) f.
Proof.
  intros [Hf Hn (F1 & F2 & F3) Hb Hk] Pa Pn Hz Ex Bf Pf Rd St Se.
  destruct (remote_members T2 memory2 o2) as (_ & _ & _ & _ & _ & _ & _ & _ & _ & _ & (_ & _ & C3)).
  assert (written T2 STDOUT_FD far0 f = Magic.magic_string) as -> by (unfold written; by rewrite C3, F3, Se, drop_app_length).
  split; try done.
  - by rewrite matcher_app, Hb.
  - rewrite Se. by apply passing_fed.
  - by rewrite St.
Qed.

(** C7: both programs come to their loops.  From the constructors on, with a
    configuration without a login command and a daemon, whose connections
    are not for the SOCKS server of the remote end, and with nothing in the
    pipes but what the remote system has printed, [start_tunnel] of each end
    throws or returns, and then each polls its own descriptors in the order of
    the code, and the two are where their event loops start, the local one
    with the list of the connections it could make: so what is proved of the
    loops is proved of the programs. *)
Theorem tunnels_open before (Hpipes : fresh_pipes before) (Hconfig : plain_config) :
  safely StdioTunnelLocal.start_tunnel near0 (fun _ n => safely StdioTunnelRemote.start_tunnel far0 (fun _ f =>
    own_fds (m_poller n) = [STDIN_FD; STDOUT_FD; rf; wf] /\ own_fds (m_poller f) = [STDIN_FD; STDOUT_FD] /\
    exists l, opening T1 T2 rf wf blocks l (before ++ Magic.magic_string) (fed (written T2 STDOUT_FD far0 f) n) f)).
Proof.
  eapply safely_mono; [|by apply (starts_near before)]. intros _ n (l & Pa & Pn & Hz & On).
  pose proof (fp_far _ Hpipes) as (F1 & _ & F3).
  eapply safely_mono; [|exact (remote_sets_up T2 memory2 o2 F1)]. intros _ f (Ex & Bf & Pf & Rd & St & Se & Of). rewrite F3 in *.
  split_and!; [done..|]. exists l. by apply opens.
Qed.
End Started.

(** ** A run

    The two connections of StartupDemo.  The local end has its pipe on 5 and 6
    and listens on descriptor 8.  The magic string has come: it reads it and
    starts the handshake.  It writes the list, accepts a socket and asks for
    its link; the remote end takes the list, listens for the other connection
    and says so; then it hears of the link, connects and answers, and the local
    end hears it.  Then a socket comes to the remote end's listener, and the
    local end connects. *)

Module LoopsDemo.
Import Demo StartupDemo.

Abbreviation PNear := (PipeOS 5 6).
Abbreviation PFar := (PipeOS STDIN_FD STDOUT_FD).
Abbreviation TNear := (pipe_traffic 5 6).
Abbreviation TFar := (pipe_traffic STDIN_FD STDOUT_FD).
Abbreviation near_state := (tunnel (P:=PNear) StdioTunnelLocal.t unit).
Abbreviation far_state := (tunnel (P:=PFar) StdioTunnelRemote.t StdioTunnelRemote.own).

Definition demo_config : config := with_specs [Demo.spec 0; reverse] config_init.
Definition demo_memory : (termios * bool) * (Z * Z) := ((Termios 0 0 0 0, false), (0, 0)).

(** What [start_tunnel] is answered, and then the number of descriptors of
    each round that are ready and what they are ready for. *)
Definition near_system : @os PNear := Piped (Script
  [Num 8; Num 0; Num 0; Num 0; Num 0; Num 0; Num 0; Num 0;
   Ready 1 [0; 0; 0; 1; 0];
   Ready 1 [0; 0; 0; 4]; Num 100; Ready 1 [1; 0; 0; 0]; Num 9; Num 0; Ready 1 [0; 0; 1; 0]; Ready 1 [0; 0; 0; 4]; Num 100; Ready 1 [0; 0; 1; 0];
   Ready 1 [0; 0; 1; 0]; Data [x7f; x00; x00; x01]; Num 13; Num 0; Num 0; Ready 1 [0; 0; 0; 4]; Num 100] []) [] [].
Definition far_system : @os PFar := Piped (Script
  [Err 25; Num 31; Num 0; Num 0;
   Ready 1 [1; 0]; Num 7; Num 0; Num 0; Num 0; Ready 1 [0; 4; 0]; Num 100; Ready 1 [1; 0; 0]; Data [x7f; x00; x00; x01]; Num 11; Num 0; Num 0;
   Ready 1 [0; 4; 0; 0]; Num 100; Ready 1 [0; 0; 1; 0]; Num 12; Num 0; Ready 1 [0; 4; 0; 0]; Num 100; Ready 1 [1; 0; 0; 0]] []) [] [].

Definition no_system : @os PNear := Piped (Script [] []) [] [].
Definition near_new : near_state := local_new 5 6 demo_config demo_memory no_system near_system.
Definition far_new : far_state := remote_new demo_memory far_system.
Definition near_set_up : near_state := final (StdioTunnelLocal.start_tunnel near_new) near_new.

Abbreviation step := (loop_step TNear TFar 5 6 1).

Definition near_turn (n : near_state) := final (near_iteration 1 n) n.
Definition far_turn (f : far_state) := final (far_iteration f) f.
Definition to_far (n n' : near_state) (f : far_state) := fed (T:=TFar) (r:=STDIN_FD) (w:=STDOUT_FD) (written TNear 6 n n') f.
Definition to_near (f f' : far_state) (n : near_state) := fed (T:=TNear) (r:=5) (w:=6) (written TFar STDOUT_FD f f') n.

Definition far0 : far_state := final (StdioTunnelRemote.start_tunnel far_new) far_new.
Definition near0 := to_near far_new far0 near_set_up.
Definition near1 := near_turn near0.
Definition far1 := to_far near0 near1 far0.
Definition near2 := near_turn near1.
Definition far2 := to_far near1 near2 far1.
Definition near3 := near_turn near2.
Definition far3 := to_far near2 near3 far2.
Definition far4 := far_turn far3.
Definition near4 := to_near far3 far4 near3.
Definition far5 := far_turn far4.
Definition near5 := to_near far4 far5 near4.
Definition near6 := near_turn near5.
Definition far6 := to_far near5 near6 far5.
Definition near7 := near_turn near6.
Definition far7 := to_far near6 near7 far6.
Definition far8 := far_turn far7.
Definition near8 := to_near far7 far8 near7.
Definition far9 := far_turn far8.
Definition near9 := to_near far8 far9 near8.
Definition near10 := near_turn near9.
Definition far10 := to_far near9 near10 far9.
Definition far11 := far_turn far10.
Definition near11 := to_near far10 far11 near10.
Definition far12 := far_turn far11.
Definition near12 := to_near far11 far12 near11.
Definition near13 := near_turn near12.
Definition far13 := to_far near12 near13 far12.
Definition near14 := near_turn near13.
Definition far14 := to_far near13 near14 far13.
Definition far15 := far_turn far14.
Definition near15 := to_near far14 far15 near14.

(** What a step needs, as it is computed. *)
Definition turns {S} (x : outcome S Z) : bool := match x with Ret r _ => negb (r =? 0) | _ => false end.
Definition has_room {P : Posix} {R O} (s : tunnel (P:=P) R O) : bool := (zlen (Poller.m_polled (m_poller s)) <=? 65536) && forallb (fun k => match m_side k.2 with
  | ListenSide _ ni => ni + zlen (Poller.m_polled (m_poller s)) <=? 501 + 65536 | ConnectSide => true end) (map_to_list (connections s)).
Definition spares_all (n : near_state) : bool :=
  match sys_poll (map (fun e => (fd (Poller.e_pollfd e), events (Poller.e_pollfd e))) (Poller.m_polled (m_poller n))) (Poller.m_timeout (m_poller n)) (system n) with
  | (SysOk (k, rs), _) => forallb (fun x => (x.2 =? 0) || (bool_decide (x.1.1.2 = POwn tt) && negb (x.1.2 =? STDIN_FD))) (map report (Poller.copy_back rs (Poller.m_polled (m_poller n))))
  | _ => true end.
Definition may_turn (n : near_state) : bool := match StdioTunnelLocal.m_state (role n) with StdioTunnelLocal.PASS_THROUGH => spares_all n | _ => true end.

Lemma has_room_roomy {P : Posix} {R O} (s : tunnel (P:=P) R O) : has_room s = true -> roomy s.
Proof.
  intros [Hz H]%andb_prop. split; [lia|]. intros c k ls ni N Hs. rewrite forallb_forall in H.
  specialize (H (c, k) ltac:(apply list_elem_of_In; by apply elem_of_map_to_list)). cbn in H. rewrite Hs in H. lia.
Qed.
Lemma spares_all_unattended (n : near_state) : spares_all n = true -> unattended n.
Proof.
  unfold spares_all, unattended, polls. intros H k rs o E. cbn zeta in E. rewrite E in H. rewrite forallb_forall in H.
  apply Forall_forall. intros x Hx%list_elem_of_In. apply H in Hx. unfold spared.
  apply orb_prop in Hx as [Hx|[H1%bool_decide_eq_true H2%negb_true_iff]%andb_prop]; [left; lia|right]. split; [done|lia].
Qed.
Lemma near_step (n : near_state) (f : far_state) :
  turns (near_iteration 1 n) && has_room n && may_turn n && negb (Poller.m_finishing (m_poller n)) && negb (Poller.m_finishing (m_poller f)) = true ->
  step (n, f) (near_turn n, to_far n (near_turn n) f).
Proof.
  intros [[[[Ht Hr]%andb_prop Hm]%andb_prop Hn]%andb_prop Hf]%andb_prop. apply negb_true_iff in Hn, Hf.
  unfold near_turn, turns in *. destruct (near_iteration 1 n) as [r n'| | |] eqn:E; try done.
  cbn [final]. eapply near_iterates; [exact Hn|exact Hf|by apply has_room_roomy| |exact E|].
  - intros Hp. apply spares_all_unattended. unfold may_turn in Hm. by rewrite Hp in Hm.
  - intros ->. done.
Qed.
Lemma far_step (n : near_state) (f : far_state) : turns (far_iteration f) && has_room f && negb (Poller.m_finishing (m_poller n)) && negb (Poller.m_finishing (m_poller f)) = true ->
  step (n, f) (to_near f (far_turn f) n, far_turn f).
Proof.
  intros [[[Ht Hr]%andb_prop Hn]%andb_prop Hf]%andb_prop. apply negb_true_iff in Hn, Hf.
  unfold far_turn, turns in *. destruct (far_iteration f) as [r f'| | |] eqn:E; try done.
  cbn [final]. eapply far_iterates; [exact Hn|exact Hf|by apply has_room_roomy|exact E|].
  intros ->. done.
Qed.

Lemma run : rtc step (near0, far0) (near15, far15).
Proof.
  apply (rtc_l _ _ (near1, far1)). { apply (near_step near0 far0). vm_compute. reflexivity. }
  apply (rtc_l _ _ (near2, far2)). { apply (near_step near1 far1). vm_compute. reflexivity. }
  apply (rtc_l _ _ (near3, far3)). { apply (near_step near2 far2). vm_compute. reflexivity. }
  apply (rtc_l _ _ (near4, far4)). { apply (far_step near3 far3). vm_compute. reflexivity. }
  apply (rtc_l _ _ (near5, far5)). { apply (far_step near4 far4). vm_compute. reflexivity. }
  apply (rtc_l _ _ (near6, far6)). { apply (near_step near5 far5). vm_compute. reflexivity. }
  apply (rtc_l _ _ (near7, far7)). { apply (near_step near6 far6). vm_compute. reflexivity. }
  apply (rtc_l _ _ (near8, far8)). { apply (far_step near7 far7). vm_compute. reflexivity. }
  apply (rtc_l _ _ (near9, far9)). { apply (far_step near8 far8). vm_compute. reflexivity. }
  apply (rtc_l _ _ (near10, far10)). { apply (near_step near9 far9). vm_compute. reflexivity. }
  apply (rtc_l _ _ (near11, far11)). { apply (far_step near10 far10). vm_compute. reflexivity. }
  apply (rtc_l _ _ (near12, far12)). { apply (far_step near11 far11). vm_compute. reflexivity. }
  apply (rtc_l _ _ (near13, far13)). { apply (near_step near12 far12). vm_compute. reflexivity. }
  apply (rtc_l _ _ (near14, far14)). { apply (near_step near13 far13). vm_compute. reflexivity. }
  apply rtc_once, (far_step near14 far14). vm_compute. reflexivity.
Qed.

Lemma pipes_demo : fresh_pipes TNear TFar 5 6 1 near_system far_system [].
Proof. split; [by apply (bool_decide_unpack _); vm_compute|done..]. Qed.
Lemma config_demo : plain_config demo_config.
Proof. split; try done. repeat constructor. Qed.

Lemma near_sets_up : StdioTunnelLocal.start_tunnel near_new = Ret tt near_set_up.
Proof. vm_compute. reflexivity. Qed.
Lemma far_sets_up : StdioTunnelRemote.start_tunnel far_new = Ret tt far0.
Proof. vm_compute. reflexivity. Qed.

Lemma opening_demo : exists l, opening TNear TFar 5 6 1 l Magic.magic_string near0 far0.
Proof.
  destruct (safely_returned _ _ _ _ _ (starts_near TNear TFar 5 6 1 demo_config demo_memory no_system near_system far_system [] pipes_demo config_demo)
    near_sets_up) as (l & Pa & Pn & Hz & _).
  destruct (safely_returned _ _ _ _ _ (remote_sets_up TFar demo_memory far_system eq_refl) far_sets_up) as (Ex & Bf & Pf & Rd & St & Se & _).
  exists l. by apply (opens TNear TFar 5 6 1 demo_memory near_system far_system [] l near_set_up far0 pipes_demo).
Qed.

Lemma tunnels_open_witness : own_fds (m_poller near_set_up) = [0; 1; 5; 6] /\ own_fds (m_poller far0) = [0; 1] /\
  exists l, opening TNear TFar 5 6 1 l Magic.magic_string near0 far0.
Proof.
  pose proof (tunnels_open TNear TFar 5 6 1 demo_config demo_memory demo_memory no_system near_system far_system [] pipes_demo config_demo) as H.
  exact (safely_returned _ _ _ _ _ (safely_returned _ _ _ _ _ H near_sets_up) far_sets_up).
Defined.


Lemma loops_refine_session_witness : exists l q2 q1, course l (World near15 far15 q2 q1).
Proof.
  destruct opening_demo as [l Op].
  destruct (loops_refine_session TNear TFar 5 6 1 l Magic.magic_string near0 far0 near15 far15) as [(E & _)|(q2 & q1 & H & _)];
    [exact Op|exact run|vm_compute; reflexivity..| |by exists l, q2, q1].
  exfalso. vm_compute in E. discriminate E.
Defined.

(** The links that have been made, one asked for by each end, are open at
    both ends. *)
Lemma loops_agree_witness : state_at near15 0 501 = state_at far15 0 501 /\ state_at near15 1 501 = state_at far15 1 501 /\
  state_at near15 0 501 = Open /\ state_at far15 1 501 = Open.
Proof.
  destruct opening_demo as [l Op].
  destruct (loops_agree TNear TFar 5 6 1 l Magic.magic_string near0 far0 near15 far15) as [_ H];
    [exact Op|exact run|vm_compute; reflexivity..| |split; vm_compute; reflexivity|split; vm_compute; reflexivity|].
  { intros E. vm_compute in E. discriminate E. }
  split; [apply (H 0 501)|]. split; [apply (H 1 501)|]. split; vm_compute; reflexivity.
Defined.
End LoopsDemo.
