(* ===== verification/Socks5Service.v ===== *)
(** * What the SOCKS server promises

    RFC 1928 requests and what becomes of them, the conversation with a
    client, the copying between the two sockets, and the collection of the
    threads that are over. *)

From stdpp Require Import base list tactics gmap strings.
From Stdlib Require Import ZArith Lia.
From S2P Require Import Prelude Posix Sblist Socks5.
Import Socks5Server.

(** ** Requests *)

(** A destination address, as RFC 1928 has it. *)
Inductive address : Type :=
| IPv4 (ip : list byte)
| IPv6 (ip : list byte)
| Domain (name : list byte).

Definition address_ok (a : address) : Prop :=
  match a with
  | IPv4 ip => length ip = 4%nat
  | IPv6 ip => length ip = 16%nat
  | Domain name => (length name < 256)%nat
  end.

Definition enc_address (a : address) : list byte :=
  match a with
  | IPv4 ip => x01 :: ip
  | IPv6 ip => x04 :: ip
  | Domain name => x03 :: byte_of_Z (zlen name) :: name
  end.

Definition enc_port (port : Z) : list byte := [byte_of_Z (port / 256); byte_of_Z port].

(** VER, CMD = CONNECT, RSV, ATYP, DST.ADDR, DST.PORT. *)
Definition enc_request (a : address) (port : Z) : list byte :=
  [x05; x01; x00] ++ enc_address a ++ enc_port port.

(** The name of the host asked for, as the resolver gets it. *)
Definition host {P : Posix} (a : address) : option (list byte) :=
  match a with
  | IPv4 ip => inet_ntop AF_INET ip
  | IPv6 ip => inet_ntop AF_INET6 ip
  | Domain name => Some (c_string name)
  end.

(** The error code for what is no request, from the first part that is
    wrong. *)
Definition refusal (buf : list byte) : Z :=
  match buf with
  | v :: c :: r :: ty :: _ :: _ =>
      if negb (Z_of_byte v =? 5) then EC_GENERAL_FAILURE
      else if negb (Z_of_byte c =? 1) then EC_COMMAND_NOT_SUPPORTED
      else if negb (Z_of_byte r =? 0) then EC_GENERAL_FAILURE
      else if bool_decide (Z_of_byte ty ∈ [1; 3; 4]) then EC_GENERAL_FAILURE
      else EC_ADDRESSTYPE_NOT_SUPPORTED
  | _ => EC_GENERAL_FAILURE
  end.

Section Requests.
Context {P : Posix}.
Implicit Types (buf : list byte) (o : os).

Lemma byte_at_lookup buf i b : 0 <= i -> buf !! Z.to_nat i = Some b -> byte_at buf i = mret (Z_of_byte b).
Proof. intros Hi E. unfold byte_at. destruct (Z.ltb_spec i 0); [lia|]. by rewrite E. Qed.

Lemma byte_at_middle buf pre b post i : buf = pre ++ b :: post -> i = zlen pre ->
  byte_at buf i = mret (Z_of_byte b).
Proof. intros -> ->. apply byte_at_lookup; [lia|]. rewrite Nat2Z.id. by rewrite list_lookup_middle. Qed.

Lemma slice_middle buf pre mid post off n : buf = pre ++ mid ++ post -> off = zlen pre -> n = zlen mid ->
  slice buf off n = mret mid.
Proof.
  intros -> -> ->. unfold slice. rewrite !length_app, !Nat2Z.id.
  rewrite drop_app_exact, take_app_exact by done.
  destruct (Z.leb_spec 0 (zlen pre)); [|lia]. destruct (Z.leb_spec 0 (zlen mid)); [|lia].
  by destruct (Z.leb_spec (zlen pre + zlen mid) (Z.of_nat (length pre + (length mid + length post)))); [|lia].
Qed.

Lemma port_value port : 0 <= port < 65536 ->
  u16 (Z.lor (Z.shiftl (Z_of_byte (byte_of_Z (port / 256))) 8) (Z_of_byte (byte_of_Z port))) = port.
Proof.
  intros H. rewrite !Z_of_byte_of_Z, (Z.mod_small (port / 256)) by (split; [apply Z.div_pos|apply Z.div_lt_upper_bound]; lia).
  assert (Z.land (Z.shiftl (port / 256) 8) (port mod 256) = 0) as L.
  { change 256 with (2 ^ 8) at 2. rewrite <- Z.land_ones, (Z.land_comm port), Z.land_assoc by lia.
    rewrite Z.land_ones, Z.shiftl_mul_pow2, Z_mod_mult by lia. apply Z.land_0_l. }
  pose proof (Z.add_lor_land (Z.shiftl (port / 256) 8) (port mod 256)) as A.
  rewrite L, Z.add_0_r in A. rewrite A, Z.shiftl_mul_pow2 by lia. change (2 ^ 8) with 256.
  unfold u16. pose proof (Z.div_mod port 256). rewrite Z.mod_small; lia.
Qed.

Lemma enc_port_bytes hi lo : [hi; lo] = enc_port (256 * Z_of_byte hi + Z_of_byte lo).
Proof.
  unfold enc_port. pose proof (Z_of_byte_range lo). repeat f_equal.
  - rewrite Z.mul_comm, Z.div_add_l, Z.div_small, Z.add_0_r, byte_of_Z_of_byte by lia. done.
  - rewrite <- (byte_of_Z_of_byte lo) at 1. apply byte_of_Z_mod.
    by rewrite Z.mul_comm, Z.add_comm, Z_mod_plus_full.
Qed.

Lemma Z_of_byte_eqb b z : 0 <= z < 256 -> (Z_of_byte b =? z) = bool_decide (b = byte_of_Z z).
Proof.
  intros Hz. destruct (Z.eqb_spec (Z_of_byte b) z) as [<-|H].
  - by rewrite byte_of_Z_of_byte, bool_decide_true.
  - rewrite bool_decide_false; [done|]. intros ->. by rewrite Z_of_byte_of_Z, Z.mod_small in H.
Qed.

Lemma length_enc_address a : address_ok a -> (3 <= length (enc_address a) + 1)%nat.
Proof. destruct a; simpl; lia. Qed.

Lemma request_address_enc a port extra o : address_ok a ->
  request_address (enc_request a port ++ extra) o =
  match host a with
  | Some name => Ret (inr (name, zlen (enc_request a port))) o
  | None => Ret (inl EC_GENERAL_FAILURE) o
  end.
Proof.
  intros Ha. unfold enc_request.
  destruct a as [ip|ip|name]; cbn [enc_address address_ok host] in *; unfold request_address;
    rewrite <- !app_assoc; cbn [app].
  - rewrite (byte_at_lookup _ 3 x01) by (done || lia). rewrite bind_ret. change (Z_of_byte x01) with 1.
    cbn [Z.eqb Pos.eqb orb]; cbv beta iota zeta.
    destruct (Z.ltb_spec (zlen (x05 :: x01 :: x00 :: x01 :: ip ++ enc_port port ++ extra)) (4 + 4 + 2)) as [H|_];
      [cbn [length] in H; rewrite !length_app in H; cbn [enc_port length] in H; lia|].
    rewrite (slice_middle _ [x05; x01; x00; x01] ip (enc_port port ++ extra)) by (done || lia).
    rewrite bind_ret. destruct (inet_ntop _ _); [|done]. unfold mret, M_ret. do 3 f_equal.
    cbn [length]. rewrite length_app. cbn [enc_port length]. lia.
  - rewrite (byte_at_lookup _ 3 x04) by (done || lia). rewrite bind_ret. change (Z_of_byte x04) with 4.
    cbn [Z.eqb Pos.eqb orb]; cbv beta iota zeta.
    destruct (Z.ltb_spec (zlen (x05 :: x01 :: x00 :: x04 :: ip ++ enc_port port ++ extra)) (4 + 2 + 16)) as [H|_];
      [cbn [length] in H; rewrite !length_app in H; cbn [enc_port length] in H; lia|].
    rewrite (slice_middle _ [x05; x01; x00; x04] ip (enc_port port ++ extra)) by (done || lia).
    rewrite bind_ret. destruct (inet_ntop _ _); [|done]. unfold mret, M_ret. do 3 f_equal.
    cbn [length]. rewrite length_app. cbn [enc_port length]. lia.
  - rewrite (byte_at_lookup _ 3 x03) by (done || lia). rewrite bind_ret. change (Z_of_byte x03) with 3.
    cbn [Z.eqb Pos.eqb orb]; cbv beta iota zeta.
    rewrite (byte_at_lookup _ 4 (byte_of_Z (zlen name))) by (done || lia).
    rewrite bind_ret, Z_of_byte_of_Z, Z.mod_small by lia. cbv beta zeta.
    destruct (Z.ltb_spec (zlen (x05 :: x01 :: x00 :: x03 :: byte_of_Z (zlen name) :: name ++ enc_port port ++ extra))
                (4 + 2 + zlen name + 1)) as [H|_];
      [cbn [length] in H; rewrite !length_app in H; cbn [enc_port length] in H; lia|].
    rewrite (slice_middle _ [x05; x01; x00; x03; byte_of_Z (zlen name)] name (enc_port port ++ extra)) by (done || lia).
    rewrite bind_ret. unfold mret, M_ret. do 3 f_equal.
    cbn [length]. rewrite length_app. cbn [enc_port length]. lia.
Qed.

Lemma length_request a port : address_ok a -> 7 <= zlen (enc_request a port).
Proof. intros. unfold enc_request. rewrite !length_app. destruct a; simpl in *; lia. Qed.

Lemma request_accepted a port extra o : address_ok a -> 0 <= port < 65536 ->
  connect_socks_target (enc_request a port ++ extra) o =
  match host a with
  | Some name => dial name port o
  | None => Ret (- EC_GENERAL_FAILURE) o
  end.
Proof.
  intros Ha Hp. pose proof (length_request a port Ha) as L. unfold connect_socks_target.
  destruct (Z.ltb_spec (zlen (enc_request a port ++ extra)) 5) as [H|_]; [rewrite length_app in H; lia|].
  rewrite (byte_at_lookup _ 0 x05), (byte_at_lookup _ 1 x01), (byte_at_lookup _ 2 x00) by (done || lia).
  do 3 rewrite bind_ret. cbn [Z.eqb negb Z_of_byte Byte.to_N Z.of_N Pos.eqb].
  pose proof (request_address_enc a port extra o Ha) as E. destruct (host a) as [name|].
  - rewrite (bind_step _ _ _ _ _ E). set (n := zlen (enc_request a port)) in *.
    set (pre := [x05; x01; x00] ++ enc_address a).
    assert (zlen pre = n - 2) as L'
      by (unfold n, pre, enc_request; rewrite !length_app; cbn [length enc_port]; lia).
    rewrite (byte_at_middle _ pre (byte_of_Z (port / 256)) (byte_of_Z port :: extra) (n - 2))
      by (by rewrite L' || (unfold pre, enc_request, enc_port; by rewrite <- !app_assoc)).
    rewrite bind_ret, (byte_at_middle _ (pre ++ [byte_of_Z (port / 256)]) (byte_of_Z port) extra (n - 1))
      by (first [rewrite length_app, Nat2Z.inj_add, L'; cbn [length]; lia | unfold pre, enc_request, enc_port; by rewrite <- !app_assoc]).
    by rewrite bind_ret, port_value.
  - by rewrite (bind_step _ _ _ _ _ E).
Qed.

Lemma Z_of_byte_inj b z : Z_of_byte b = z -> b = byte_of_Z z.
Proof. intros <-. by rewrite byte_of_Z_of_byte. Qed.

Lemma split_address (l : list byte) (k : nat) : (k + 2 <= length l)%nat ->
  exists mid port extra, l = mid ++ enc_port port ++ extra /\ length mid = k /\ 0 <= port < 65536.
Proof.
  intros H. rewrite <- (take_drop k l).
  destruct (drop k l) as [|hi [|lo extra]] eqn:E;
    apply (f_equal length) in E; rewrite length_drop in E; cbn [length] in E; try lia.
  exists (take k l). eexists _, extra. rewrite <- enc_port_bytes. split; [done|].
  pose proof (Z_of_byte_range hi). pose proof (Z_of_byte_range lo). rewrite length_take. lia.
Qed.

Definition is_request buf : Prop := exists a port extra,
  address_ok a /\ 0 <= port < 65536 /\ buf = enc_request a port ++ extra.

Lemma address_cases ty b4 rest o :
  let buf := x05 :: x01 :: x00 :: ty :: b4 :: rest in
  is_request buf \/ request_address buf o = Ret (inl (refusal buf)) o.
Proof.
  intros buf. unfold request_address. rewrite (byte_at_lookup buf 3 ty) by (done || lia). rewrite bind_ret.
  change (refusal buf) with
    (if bool_decide (Z_of_byte ty ∈ [1; 3; 4]) then EC_GENERAL_FAILURE else EC_ADDRESSTYPE_NOT_SUPPORTED).
  assert (zlen buf = 5 + zlen rest) as L by (unfold buf; cbn [length]; lia).
  destruct (Z.eqb_spec (Z_of_byte ty) 4) as [E|E4]; [|destruct (Z.eqb_spec (Z_of_byte ty) 1) as [E|E1];
    [|destruct (Z.eqb_spec (Z_of_byte ty) 3) as [E|E3]]]; cbn [orb]; cbv beta iota.
  - rewrite E, bool_decide_true by set_solver. apply Z_of_byte_inj in E as ->.
    destruct (Z.ltb_spec (zlen buf) (4 + 2 + 16)); [by right|left].
    destruct (split_address (b4 :: rest) 16) as (ip & port & extra & Er & Li & Hp); [cbn [length]; lia|].
    exists (IPv6 ip), port, extra. split_and!; [done|lia..|]. unfold buf. rewrite Er.
    unfold enc_request. by rewrite <- !app_assoc.
  - rewrite E, bool_decide_true by set_solver. apply Z_of_byte_inj in E as ->.
    destruct (Z.ltb_spec (zlen buf) (4 + 4 + 2)); [by right|left].
    destruct (split_address (b4 :: rest) 4) as (ip & port & extra & Er & Li & Hp); [cbn [length]; lia|].
    exists (IPv4 ip), port, extra. split_and!; [done|lia..|]. unfold buf. rewrite Er.
    unfold enc_request. by rewrite <- !app_assoc.
  - rewrite E, bool_decide_true by set_solver. apply Z_of_byte_inj in E as ->.
    rewrite (byte_at_lookup buf 4 b4) by (done || lia). rewrite bind_ret. cbv zeta.
    destruct (Z.ltb_spec (zlen buf) (4 + 2 + Z_of_byte b4 + 1)); [by right|left].
    pose proof (Z_of_byte_range b4).
    destruct (split_address rest (Z.to_nat (Z_of_byte b4))) as (name & port & extra & Er & Ln & Hp); [lia|].
    exists (Domain name), port, extra. split_and!; [simpl; lia|lia..|]. unfold buf. rewrite Er.
    unfold enc_request. cbn [enc_address]. rewrite Ln, Z2Nat.id, byte_of_Z_of_byte by lia.
    by rewrite <- !app_assoc.
  - right. rewrite bool_decide_false; [done|]. rewrite !elem_of_cons, elem_of_nil. tauto.
Qed.

Lemma request_cases buf o : is_request buf \/ connect_socks_target buf o = Ret (- refusal buf) o.
Proof.
  destruct buf as [|v [|c [|r [|ty [|b4 rest]]]]]; [by right..|].
  unfold connect_socks_target.
  destruct (Z.ltb_spec (zlen (v :: c :: r :: ty :: b4 :: rest)) 5) as [L|_]; [cbn [length] in L; lia|].
  rewrite (byte_at_lookup _ 0 v), (byte_at_lookup _ 1 c), (byte_at_lookup _ 2 r) by (done || lia).
  do 3 rewrite bind_ret.
  destruct (Z.eqb_spec (Z_of_byte v) 5) as [Ev|Ev];
    [|right; unfold refusal; by rewrite (proj2 (Z.eqb_neq _ _) Ev)].
  destruct (Z.eqb_spec (Z_of_byte c) 1) as [Ec|Ec];
    [|right; unfold refusal; by rewrite Ev, (proj2 (Z.eqb_neq _ _) Ec)].
  destruct (Z.eqb_spec (Z_of_byte r) 0) as [Er|Er];
    [|right; unfold refusal; by rewrite Ev, Ec, (proj2 (Z.eqb_neq _ _) Er)].
  apply Z_of_byte_inj in Ev as ->, Ec as ->, Er as ->. cbn [negb].
  destruct (address_cases ty b4 rest o) as [H|H]; [by left|right].
  by rewrite (bind_step _ _ _ _ _ H).
Qed.

(** C32: a request is understood exactly when it is one.  The bytes received
    are a CONNECT request of RFC 1928, with whatever follows it, and the
    server goes on to connect to that host and port; or they are no such
    request, and it answers with the error code of the first part that is
    wrong, without a system call.  No byte outside the ones received is
    read. *)
Theorem socks_requests buf o :
  (forall a port extra, address_ok a -> 0 <= port < 65536 -> buf = enc_request a port ++ extra ->
     connect_socks_target buf o =
     match host a with Some name => dial name port o | None => Ret (- EC_GENERAL_FAILURE) o end) /\
  ((forall a port extra, address_ok a -> buf <> enc_request a port ++ extra) ->
     connect_socks_target buf o = Ret (- refusal buf) o).
Proof.
  split.
  - intros a port extra Ha Hp ->. by apply request_accepted.
  - intros H. destruct (request_cases buf o) as [(a & port & extra & Ha & _ & E)|E]; [|done].
    by destruct (H a port extra Ha).
Qed.
End Requests.

(** ** The conversation with a client *)

(** What the client is sent: the choice of no authentication, then the
    reply. *)
Definition transcript (code : Z) : list byte := [x05; x00] ++ reply (- code).

Section Conversation.
Context {P : Posix} (T : traffic P) `{!PosixLaws T, !SocketLaws T}.
Implicit Types o : os.

#[local] Instance quiet_preorder : PreOrder (quiet T).
Proof.
  split; [by intros o g|]. intros o1 o2 o3 H1 H2 g.
  destruct (H2 g) as [-> ->], (H1 g) as [-> ->]. done.
Qed.

Lemma eval_errno_range e : 1 <= eval_errno e <= 8.
Proof. unfold eval_errno. repeat case_match; vm_compute; split; discriminate. Qed.

Lemma refusal_range buf : 1 <= refusal buf <= 8.
Proof. unfold refusal. repeat case_match; vm_compute; split; discriminate. Qed.

(** A descriptor, or minus an error code that is not 0. *)
Definition answer_ok (r : Z) : Prop := 0 <= r \/ exists code, r = - code /\ 1 <= code <= 8.

Lemma dial_answers name port o : exists r o', dial name port o = Ret r o' /\ quiet T o o' /\ answer_ok r.
Proof.
  assert (answer_ok (- EC_GENERAL_FAILURE)) as G by (right; exists EC_GENERAL_FAILURE; vm_compute; intuition discriminate).
  assert (forall e, answer_ok (- eval_errno e)) as E
    by (intros e; right; exists (eval_errno e); split; [done|apply eval_errno_range]).
  unfold dial, syscall, syscall_, mbind, M_bind, mret, M_ret. mstep. unfold id.
  destruct (sys_getaddrinfo name port o) as [a o1] eqn:E1. apply getaddrinfo_quiet in E1 as Q1.
  destruct a as [[|ai l]|]; eauto.
  destruct (sys_socket_ai ai o1) as [r o2] eqn:E2. apply socket_ai_quiet in E2 as Q2.
  destruct r as [f|e]; [|do 2 eexists; split_and!; [done|by etransitivity|done]].
  destruct (sys_connect_ai f ai o2) as [c o3] eqn:E3. apply connect_ai_quiet in E3 as Q3.
  destruct c as [|e]; do 2 eexists; split_and!; try done.
  - do 2 (etransitivity; [done|]). done.
  - left. by eapply socket_ai_fd.
  - do 3 (etransitivity; [done|]). apply close_quiet.
Qed.

Lemma target_answers buf o : exists r o', connect_socks_target buf o = Ret r o' /\ quiet T o o' /\ answer_ok r.
Proof.
  destruct (request_cases buf o) as [(a & port & extra & Ha & Hp & ->)|E].
  - rewrite request_accepted by done. destruct (host a) as [name|]; [apply dial_answers|].
    do 2 eexists. split_and!; [done..|]. right. exists EC_GENERAL_FAILURE. vm_compute; intuition discriminate.
  - do 2 eexists. split_and!; [done..|]. right. exists (refusal buf). split; [done|apply refusal_range].
Qed.

(** Nothing goes through other descriptors than [client]. *)
Definition only (client : Z) (o o' : os) : Prop := forall g, g <> client ->
  sent T o' g = sent T o g /\ received T o' g = received T o g.

#[local] Instance only_preorder client : PreOrder (only client).
Proof.
  split; [by intros o g|]. intros o1 o2 o3 H1 H2 g Hg.
  destruct (H2 g Hg) as [-> ->], (H1 g Hg) as [-> ->]. done.
Qed.

Lemma only_quiet client o o' : quiet T o o' -> only client o o'.
Proof. intros H g _. apply H. Qed.

Lemma only_read f n o r o' : sys_read f n o = (r, o') -> only f o o' /\ sent T o' f = sent T o f.
Proof. intros E. destruct (read_quiet (T:=T) _ _ _ _ _ E) as [H1 H2]. split; [intros g Hg; auto|auto]. Qed.

Lemma write_all_effect f bs o : bs <> [] -> exists ok o' w,
  write_all f bs o = Ret ok o' /\ only f o o' /\
  sent T o' f = sent T o f ++ w /\ w `prefix_of` bs /\ (ok = true <-> w = bs).
Proof.
  intros Hbs. unfold write_all, syscall, mbind, M_bind, mret, M_ret. mstep. unfold id.
  destruct (sys_write f bs o) as [r o'] eqn:E. destruct (write_quiet (T:=T) _ _ _ _ _ E) as [H1 H2].
  assert (only f o o') as Ho by (intros g Hg; auto). destruct r as [k|e].
  - destruct (write_ok (T:=T) _ _ _ _ _ E) as [Hk Hs]. exists (k =? zlen bs), o', (take (Z.to_nat k) bs).
    split_and!; try done; [apply prefix_take|]. rewrite Z.eqb_eq. split.
    + intros ->. by rewrite Nat2Z.id, firstn_all.
    + intros Ew. apply (f_equal length) in Ew. rewrite length_take in Ew. lia.
  - exists false, o', []. rewrite app_nil_r. split_and!; try done; [by eapply write_err|apply prefix_nil].
Qed.

Lemma transcript_greeting w code : w `prefix_of` [x05; x00] -> w `prefix_of` transcript code /\ w <> transcript 0.
Proof.
  intros H. split; [unfold transcript; by apply prefix_app_r|].
  intros ->. apply prefix_length in H. cbn in H. lia.
Qed.

Lemma reply_answer r : answer_ok r -> exists code, reply r = reply (- code) /\ 0 <= code <= 8 /\ (0 <= r <-> code = 0).
Proof.
  intros [H|(code & -> & H)].
  - exists 0. split_and!; try lia. unfold reply. by destruct (Z.ltb_spec r 0), (Z.ltb_spec (- 0) 0); try lia.
  - exists code. split_and!; try lia. done.
Qed.

Lemma transcript_inj code : 0 <= code <= 8 -> transcript code = transcript 0 -> code = 0.
Proof.
  intros H E. unfold transcript, reply in E. cbn [app] in E. injection E as E.
  apply (f_equal Z_of_byte) in E. rewrite !Z_of_byte_of_Z in E.
  destruct (Z.ltb_spec (- code) 0); [|lia]. destruct (Z.ltb_spec (- 0) 0); [lia|].
  rewrite Z.mod_small in E by lia. change (EC_SUCCESS mod 256) with 0 in E. lia.
Qed.

Definition talk (client : Z) (o o' : os) (r : Z) : Prop := exists code w,
  0 <= code <= 8 /\ w `prefix_of` transcript code /\
  sent T o' client = sent T o client ++ w /\ only client o o' /\
  (r = -1 /\ w <> transcript 0 \/ 0 <= r /\ code = 0 /\ w = transcript code).

Lemma handshake_authed fuel client o w0 o0 : w0 = [x05; x00] ->
  sent T o client = sent T o0 client ++ w0 -> only client o0 o ->
  exists r o', socks5_handshake (S fuel) client SS_3_AUTHED o = Ret r o' /\ talk client o0 o' r.
Proof.
  intros -> Hs Ho. cbn [socks5_handshake]. unfold syscall at 1, mbind at 1, M_bind at 1. mstep. unfold id.
  destruct (sys_read client 1024 o) as [rd o1] eqn:E1. destruct (only_read _ _ _ _ _ E1) as [O1 S1].
  assert (only client o0 o1) as O01 by (by etransitivity).
  assert (exists r o', Ret (-1) o1 = Ret r o' /\ talk client o0 o' r) as Early.
  { do 2 eexists. split; [done|]. exists 0, [x05; x00].
    destruct (transcript_greeting [x05; x00] 0) as [Hp Hn]; [done|]. rewrite S1, Hs.
    split_and!; try done; try lia. by left. }
  destruct rd as [[|b bs]|e]; [exact Early| |exact Early].
  destruct (target_answers (b :: bs) o1) as (r & o2 & E2 & Q2 & A2).
  rewrite (bind_step _ _ _ _ _ E2). destruct (Q2 client) as [S2 _]. apply only_quiet with (client := client) in Q2.
  destruct (reply_answer r A2) as (code & Er & Hc & Hz). rewrite Er.
  destruct (write_all_effect client (reply (- code)) o2 ltac:(done)) as (ok & o3 & w & E3 & O3 & S3 & P3 & K3).
  rewrite (bind_step _ _ _ _ _ E3).
  assert (only client o0 o3) as O03 by (do 2 (etransitivity; [done|]); done).
  assert (sent T o3 client = sent T o0 client ++ [x05; x00] ++ w) as S03
    by (by rewrite S3, S2, S1, Hs, <- app_assoc).
  assert ([x05; x00] ++ w `prefix_of` transcript code) as Pw by (unfold transcript; by apply prefix_app).
  assert ([x05; x00] ++ w = transcript 0 -> ok = true /\ code = 0) as Full.
  { intros Ew. assert (w = reply (- code)) as Hw.
    { apply app_inv_head in Ew. destruct P3 as [k Hk]. assert (length (reply (- code)) = length w) as Hl by (by rewrite Ew).
      rewrite Hk, length_app in Hl. destruct k; [by rewrite app_nil_r in Hk|cbn [length] in Hl; lia]. }
    split; [by apply K3|]. apply transcript_inj; [done|]. by rewrite <- Ew, Hw. }
  destruct ok; [destruct (Z.ltb_spec r 0)|]; do 2 eexists; (split; [done|]); exists code, ([x05; x00] ++ w);
    split_and!; try done; try lia; auto.
  - left. split; [done|]. intros Ew. apply Full in Ew as [_ ->]. lia.
  - right. rewrite (proj1 K3) by done. split_and!; [done|by apply Hz|done].
  - left. split; [done|]. by intros [? _]%Full.
Qed.

(** C33: the conversation with a client ends, and the client gets either the
    choice of no authentication and one reply, or the part of that which
    could be written before an error.  The handshake returns a descriptor
    when the whole transcript of a success went out, and -1 in every other
    case; nothing goes through another descriptor, whatever the client
    sends. *)
Theorem socks_conversation client fuel o : (2 <= fuel)%nat ->
  exists r o' code w, socks5_handshake fuel client SS_1_CONNECTED o = Ret r o' /\
    0 <= code <= 8 /\ w `prefix_of` transcript code /\
    sent T o' client = sent T o client ++ w /\
    (forall g, g <> client -> sent T o' g = sent T o g /\ received T o' g = received T o g) /\
    (r = -1 /\ w <> transcript 0 \/ 0 <= r /\ code = 0 /\ w = transcript code).
Proof.
  intros Hf. destruct fuel as [|[|fuel]]; [lia..|].
  assert (exists r o', socks5_handshake (S (S fuel)) client SS_1_CONNECTED o = Ret r o' /\ talk client o o' r)
    as (r & o' & E & code & w & H); [|by exists r, o', code, w].
  destruct (sys_read client 1024 o) as [rd o1] eqn:E1. destruct (only_read _ _ _ _ _ E1) as [O1 S1].
  cbn [socks5_handshake]. rewrite (bind_step _ _ _ _ _ (syscall_step _ _ _ _ _ E1)). cbn [update].
  assert (exists r o', Ret (-1) o1 = Ret r o' /\ talk client o o' r) as Early.
  { do 2 eexists. split; [done|]. exists 0, []. rewrite S1, app_nil_r.
    split_and!; try done; try lia; [apply prefix_nil|by left]. }
  destruct rd as [[|b bs]|e]; [exact Early| |exact Early].
  destruct (write_all_effect client [x05; byte_of_Z AM_NO_AUTH] o1 ltac:(done)) as (ok & o2 & w & E2 & O2 & S2 & P2 & K2).
  rewrite (bind_step _ _ _ _ _ E2). rewrite S1 in S2.
  assert (only client o o2) as O02 by (by etransitivity). destruct ok.
  - by apply (handshake_authed fuel client o2 w o); [apply K2| |].
  - do 2 eexists. split; [done|]. destruct (transcript_greeting w 0 P2). exists 0, w.
    split_and!; try done; try lia. by left.
Qed.

(** C35: the end of a client's thread.  Once a request has been answered by a
    connection [d]: if the reply goes out, the thread copies between the two
    sockets and then closes both; if the reply cannot be written whole, the
    thread closes the client and returns without closing [d]. *)
Theorem socks_thread_end client fuel o o1 o2 o3 o4 greeting buf d :
  sys_read client 1024 o = (SysOk greeting, o1) -> greeting <> [] ->
  sys_write client [x05; x00] o1 = (SysOk 2, o2) ->
  sys_read client 1024 o2 = (SysOk buf, o3) -> buf <> [] ->
  connect_socks_target buf o3 = Ret d o4 -> 0 <= d ->
  socks5_clientthread fuel client o =
  match sys_write client (reply d) o4 with
  | (SysOk 10, o5) =>
      match copyloop fuel client d o5 with
      | Ret _ o6 => Ret tt (sys_close client (sys_close d o6))
      | x => x
      end
  | (_, o5) => Ret tt (sys_close client o5)
  end.
Proof.
  intros E1 Hg E2 E3 Hb E4 Hd. unfold socks5_clientthread.
  assert (socks5_handshake 2 client SS_1_CONNECTED o =
          match sys_write client (reply d) o4 with (SysOk 10, o5) => Ret d o5 | (_, o5) => Ret (-1) o5 end) as E.
  { cbn [socks5_handshake]. rewrite (bind_step _ _ _ _ _ (syscall_step _ _ _ _ _ E1)). cbn [update].
    destruct greeting as [|g gs]; [done|].
    rewrite (bind_step _ _ _ true o2) by
      (unfold write_all; rewrite (bind_step _ _ _ _ _ (syscall_step (Lens id (fun o _ => o)) _ _ _ _ E2)); done).
    rewrite (bind_step _ _ _ _ _ (syscall_step _ _ _ _ _ E3)). cbn [update].
    destruct buf as [|b bs]; [done|]. rewrite (bind_step _ _ _ _ _ E4).
    unfold write_all, syscall. munfold. cbn [view update id].
    destruct (sys_write client (reply d) o4) as [[k|e] o5]; [|done].
    change (zlen (reply d)) with 10. destruct (Z.ltb_spec d 0); [lia|].
    destruct (Z.eqb_spec k 10) as [->|Hk]; [done|].
    repeat (case_match; try done). }
  destruct (sys_write client (reply d) o4) as [r o5].
  destruct (decide (r = SysOk 10)) as [->|Hr].
  - rewrite (bind_step _ _ _ _ _ E). destruct (Z.eqb_spec d (-1)); [lia|]. cbn [negb when].
    munfold. by destruct (copyloop fuel client d o5) as [[] o6| | |].
  - assert (socks5_handshake 2 client SS_1_CONNECTED o = Ret (-1) o5) as E'.
    { rewrite E. by repeat (case_match; try done). }
    rewrite (bind_step _ _ _ _ _ E').
    transitivity (Ret tt (sys_close client o5) : outcome os unit); [done|].
    by repeat (case_match; try done).
Qed.

(** ** Copying *)

(** [a] and [b] have been read from the two descriptors and [a'] and [b']
    written to the other one. *)
Definition moved (fd1 fd2 : Z) (o o' : os) (a a' b b' : list byte) : Prop :=
  received T o' fd1 = received T o fd1 ++ a /\ sent T o' fd2 = sent T o fd2 ++ a' /\
  received T o' fd2 = received T o fd2 ++ b /\ sent T o' fd1 = sent T o fd1 ++ b' /\
  forall g, g <> fd1 -> g <> fd2 -> sent T o' g = sent T o g /\ received T o' g = received T o g.

Lemma moved_nil fd1 fd2 o o' : quiet T o o' -> moved fd1 fd2 o o' [] [] [] [].
Proof.
  intros Q. unfold moved. rewrite !app_nil_r.
  split_and!; try apply Q. intros g _ _. apply Q.
Qed.

Lemma moved_trans fd1 fd2 o o1 o2 a a' b b' c c' d d' :
  moved fd1 fd2 o o1 a a' b b' -> moved fd1 fd2 o1 o2 c c' d d' ->
  moved fd1 fd2 o o2 (a ++ c) (a' ++ c') (b ++ d) (b' ++ d').
Proof.
  intros (R1 & S1 & R2 & S2 & H) (R1' & S1' & R2' & S2' & H'). unfold moved.
  rewrite R1', R1, S1', S1, R2', R2, S2', S2, !app_assoc. split_and!; try done.
  intros g H1 H2. destruct (H' g H1 H2) as [-> ->]. auto.
Qed.

Lemma moved_sym fd1 fd2 o o' a a' b b' : moved fd1 fd2 o o' a a' b b' -> moved fd2 fd1 o o' b b' a a'.
Proof. intros (R1 & S1 & R2 & S2 & H). unfold moved. split_and!; auto. Qed.

Lemma write_out_effect f bs : forall fuel o, (length bs <= fuel)%nat -> exists ok o' w,
  write_out fuel f bs o = Ret ok o' /\ (forall g, received T o' g = received T o g) /\
  (forall g, g <> f -> sent T o' g = sent T o g) /\
  sent T o' f = sent T o f ++ w /\ w `prefix_of` bs /\ (ok = true -> w = bs).
Proof.
  induction bs as [bs IH] using (induction_ltof1 _ (@length byte)); unfold ltof in IH.
  intros fuel o Hf. destruct bs as [|b bs].
  - exists true, o, []. rewrite app_nil_r. destruct fuel; by split_and!.
  - destruct fuel as [|fuel]; [cbn [length] in Hf; lia|]. cbn [write_out].
    destruct (sys_write f (b :: bs) o) as [r o1] eqn:E.
    destruct (write_quiet (T:=T) _ _ _ _ _ E) as [Hr Hg].
    rewrite (bind_step _ _ _ _ _ (syscall_step _ _ _ _ _ E)). cbn [update]. destruct r as [m|e].
    + destruct (write_ok (T:=T) _ _ _ _ _ E) as [Hm Hs].
      pose proof (write_progress (T:=T) _ _ _ _ _ E ltac:(done)) as Hpos.
      assert (length (drop (Z.to_nat m) (b :: bs)) < length (b :: bs))%nat as Hlt
        by (rewrite length_drop; cbn [length]; lia).
      destruct (IH _ Hlt fuel o1 ltac:(lia)) as (ok & o' & w & E' & Hr' & Hg' & Hs' & [k Hk] & Hok).
      exists ok, o', (take (Z.to_nat m) (b :: bs) ++ w). split_and!; [done|..].
      * intros g. by rewrite Hr', Hr.
      * intros g Hne. rewrite Hg', Hg; auto.
      * by rewrite Hs', Hs, app_assoc.
      * exists k. by rewrite <- app_assoc, <- Hk, take_drop.
      * intros Ho. by rewrite (Hok Ho), take_drop.
    + exists false, o1, []. rewrite app_nil_r.
      split_and!; try done; [by eapply write_err|apply prefix_nil].
Qed.

(** Reading a block from one and writing it to the other. *)
Lemma relay_effect infd outfd fuel o : infd <> outfd -> (Z.to_nat COPY_SIZE <= fuel)%nat ->
  exists more o' a a',
    (n ← syscall (Lens id (fun o _ => o)) (sys_read infd COPY_SIZE);
     match n with
     | SysErr _ | SysOk [] => mret false
     | SysOk buf => write_out fuel outfd buf
     end) o = Ret more o' /\
    moved infd outfd o o' a a' [] [] /\ a' `prefix_of` a /\ (more = true -> a' = a).
Proof.
  intros Hne Hf. destruct (sys_read infd COPY_SIZE o) as [n o1] eqn:E.
  destruct (read_quiet (T:=T) _ _ _ _ _ E) as [Hs Hg].
  rewrite (bind_step _ _ _ _ _ (syscall_step _ _ _ _ _ E)). cbn [update].
  assert (received T o1 infd = received T o infd -> moved infd outfd o o1 [] [] [] []) as Stop.
  { intros Hr. unfold moved. rewrite !app_nil_r. split_and!; auto. }
  destruct n as [bs|e]; [|exists false, o1, [], []; split_and!; try done; apply Stop; by eapply read_err].
  destruct (read_ok (T:=T) _ _ _ _ _ E) as [Hl Hr].
  destruct bs as [|x bs]; [exists false, o1, [], []; split_and!; try done; apply Stop; by rewrite Hr, app_nil_r|].
  destruct (write_out_effect outfd (x :: bs) fuel o1) as (ok & o' & w & E' & Hr' & Hg' & Hs' & Hp & Hok);
    [unfold COPY_SIZE in *; lia|].
  exists ok, o', (x :: bs), w. split; [done|]. split; [|done]. unfold moved. rewrite !app_nil_r.
  split_and!.
  - by rewrite Hr', Hr.
  - by rewrite Hs', Hs.
  - rewrite Hr'. by apply Hg.
  - rewrite Hg', Hs; done.
  - intros g H1 H2. rewrite Hr', Hg', Hs, Hg; done.
Qed.

(** What a turn does: it moves one block in one direction. *)
Lemma copy_turn_effect fd1 fd2 fuel o : fd1 <> fd2 -> (Z.to_nat COPY_SIZE <= fuel)%nat ->
  exists more o' a a' b b', copy_turn fuel fd1 fd2 o = Ret more o' /\ moved fd1 fd2 o o' a a' b b' /\
    a' `prefix_of` a /\ b' `prefix_of` b /\ (more = true -> a' = a /\ b' = b).
Proof.
  intros Hne Hf. unfold copy_turn.
  destruct (sys_poll [(fd1, POLLIN); (fd2, POLLIN)] (60 * 15 * 1000) o) as [r o1] eqn:E1.
  rewrite (bind_step _ _ _ _ _ (syscall_step _ _ _ _ _ E1)). cbn [update].
  apply poll_quiet in E1. apply moved_nil with (fd1 := fd1) (fd2 := fd2) in E1 as M1.
  destruct r as [[k rs]|e]; [|eexists _, o1, [], [], [], []; by split_and!].
  destruct (k =? 0); [eexists _, o1, [], [], [], []; by split_and!|]. cbv zeta.
  destruct (has_bit (nth 0 rs 0) POLLIN).
  - rewrite (proj2 (Z.eqb_neq fd1 fd2) Hne).
    destruct (relay_effect fd1 fd2 fuel o1 Hne Hf) as (more & o' & a & a' & E & M & Hp & Hm).
    exists more, o', a, a', [], []. split_and!; try done; [|intros H; by rewrite Hm].
    exact (moved_trans _ _ _ _ _ _ _ _ _ _ _ _ _ M1 M).
  - rewrite Z.eqb_refl.
    destruct (relay_effect fd2 fd1 fuel o1 (not_eq_sym Hne) Hf) as (more & o' & b & b' & E & M & Hp & Hm).
    exists more, o', [], [], b, b'. split_and!; try done; [|intros H; by rewrite Hm].
    exact (moved_trans _ _ _ _ _ _ _ _ _ _ _ _ _ M1 (moved_sym _ _ _ _ _ _ _ _ M)).
Qed.

(** C31: the two sockets are joined faithfully.  After any number of turns of
    the copy loop, what has been written to each socket is exactly what has
    been read from the other, in order; a turn always ends, and the turn
    that ends the loop, on the end of a stream, a time-out or an error,
    leaves a prefix of it.  The loop returns as soon as such a turn comes,
    and nothing goes through another descriptor. *)
Theorem socks_copy fd1 fd2 n o o1 (Hne : fd1 <> fd2)
    (Hturns : nsteps (fun s s' => copy_turn (Z.to_nat COPY_SIZE) fd1 fd2 s = Ret true s') n o o1) :
  (exists a b, moved fd1 fd2 o o1 a a b b) /\
  exists more o2 a a' b b', copy_turn (Z.to_nat COPY_SIZE) fd1 fd2 o1 = Ret more o2 /\
    moved fd1 fd2 o o2 a a' b b' /\ a' `prefix_of` a /\ b' `prefix_of` b /\
    (more = true -> a' = a /\ b' = b) /\
    (more = false -> forall fuel, (n < fuel)%nat -> copyloop fuel fd1 fd2 o = Ret tt o2).
Proof.
  assert (exists a b, moved fd1 fd2 o o1 a a b b) as (a & b & M).
  { clear -Hturns Hne PosixLaws0 SocketLaws0. induction Hturns as [o|n o o1 o2 H1 _ (a & b & M)].
    - exists [], []. by apply moved_nil.
    - destruct (copy_turn_effect fd1 fd2 (Z.to_nat COPY_SIZE) o Hne ltac:(lia))
        as (more & o' & c & c' & d & d' & E & M' & _ & _ & Hm). rewrite H1 in E. simplify_eq.
      destruct (Hm eq_refl) as [-> ->]. do 2 eexists. by eapply moved_trans. }
  split; [by exists a, b|].
  destruct (copy_turn_effect fd1 fd2 (Z.to_nat COPY_SIZE) o1 Hne ltac:(lia))
    as (more & o2 & c & c' & d & d' & E & M' & Hc & Hd & Hm).
  exists more, o2, (a ++ c), (a ++ c'), (b ++ d), (b ++ d').
  split_and!; [done|by eapply moved_trans|by apply prefix_app|by apply prefix_app| |].
  - intros H. by destruct (Hm H) as [-> ->].
  - intros ->. clear -Hturns E. induction Hturns as [o|n o o1 o3 H1 _ IH]; intros fuel Hfuel;
      (destruct fuel as [|fuel]; [lia|]); cbn [copyloop].
    + by rewrite (bind_step _ _ _ _ _ E).
    + rewrite (bind_step _ _ _ _ _ H1). apply IH; [done|lia].
Qed.
End Conversation.

(** ** The threads *)

Section Server.
Context {P : Posix}.
Implicit Types (s : t) (ps : list Z).

(** The server's list holds the pointers [ps], each to a thread of its
    own. *)
Definition serves s ps : Prop :=
  represents (m_threads s) (map pointer ps) /\ Sblist.itemsize (m_threads s) = 8 /\
  NoDup ps /\ Forall (fun p => 0 <= p < 18446744073709551616) ps /\
  forall p, is_Some (threads s !! p) <-> p ∈ ps.

Definition over (m : gmap Z thread) (p : Z) : bool :=
  match m !! p with Some th => done th | None => false end.

(** Joining and freeing the threads [ps]. *)
Definition reap (m : gmap Z thread) (ps : list Z) (o : os) : os :=
  fold_left (fun o p => sys_free p (sys_thread_join (default 0 (pt <$> m !! p)) o)) ps o.

Definition dead (m : gmap Z thread) ps : list Z := filter (fun p => over m p = true) ps.
Definition alive (m : gmap Z thread) ps : list Z := filter (fun p => over m p = false) ps.

Lemma pointer_value p : 0 <= p < 18446744073709551616 -> le_combine (pointer p) = p.
Proof. intros. unfold pointer. rewrite le_combine_split. by rewrite Z.mod_small. Qed.

Lemma serves_size s ps : serves s ps -> Sblist.sblist_getsize (m_threads s) = zlen ps.
Proof. intros ((_ & _ & Hc & _) & _). unfold Sblist.sblist_getsize. by rewrite Hc, length_map. Qed.

Lemma thread_at_spec s pre p post o : serves s (pre ++ p :: post) ->
  thread_at (zlen pre) (s, o) = Ret p (s, o).
Proof.
  intros (R & I & _ & HF & _). unfold thread_at. rewrite bind_gets. cbn [fst].
  pose proof (sblist_get_spec _ _ (zlen pre) R ltac:(lia)) as G.
  rewrite Nat2Z.id, map_app in G. cbn [map] in G. rewrite list_lookup_middle in G by (by rewrite length_map).
  destruct (Sblist.sblist_get _ _) as [off|]; [|done]. destruct G as [G _]. rewrite I in G.
  cbn [deref]. rewrite bind_ret, G. cbn [deref]. rewrite bind_ret, pointer_value; [done|].
  rewrite Forall_app, Forall_cons in HF. tauto.
Qed.

(** The room an array has and grows by. *)
Definition same_room (l l' : Sblist.sblist) : Prop :=
  Sblist.capa l' = Sblist.capa l /\ Sblist.blockitems l' = Sblist.blockitems l.

Lemma serves_delete s pre p post o' : serves s (pre ++ p :: post) ->
  exists l, zoom (Lens (fun so : t * os => (m_threads so.1, so.2))
                    (fun lo so => (Mk (fd so.1) lo.1 (threads so.1), lo.2)))
              (zoom lens_fst (Sblist.sblist_delete (zlen pre))) (s, o') = Ret tt (Mk (fd s) l (threads s), o') /\
    same_room (m_threads s) l /\ serves (Mk (fd s) l (delete p (threads s))) (pre ++ post).
Proof.
  intros (R & I & N & HF & D). destruct (delete_spec _ _ (zlen pre) R ltac:(lia)) as (l & E & R').
  exists l. split; [unfold zoom; cbn; by rewrite E|].
  destruct (delete_shape _ _ _ E) as (I' & B' & C'). split; [by split|]. unfold serves. cbn [m_threads threads].
  assert (delete (Z.to_nat (zlen pre)) (map pointer (pre ++ p :: post)) = map pointer (pre ++ post)) as Ed.
  { rewrite Nat2Z.id, !map_app, delete_take_drop. cbn [map]. 
    rewrite take_app_exact by (by rewrite length_map). f_equal.
    change (pointer p :: map pointer post) with ([pointer p] ++ map pointer post).
    rewrite app_assoc, drop_app_exact; [done|]. rewrite length_app, length_map. cbn [length]. lia. }
  rewrite Ed in R'. apply NoDup_app in N as (N1 & N2 & N3). apply NoDup_cons in N3 as [N3 N4].
  apply Forall_app in HF as [F1 F2]. apply Forall_cons in F2 as [_ F2]. split_and!; [done|congruence|..].
  - apply NoDup_app. split_and!; try done. intros q Hq ?. apply (N2 q Hq). by right.
  - by apply Forall_app.
  - intros q. rewrite lookup_delete_is_Some, D, !elem_of_app, elem_of_cons.
    split; [naive_solver|]. intros [Hq|Hq]; (split; [intros ->|tauto]); [apply (N2 q Hq); by left|done].
Qed.
Lemma over_delete m p q : p <> q -> over (delete p m) q = over m q.
Proof. intros H. unfold over. by rewrite lookup_delete_ne. Qed.

Lemma filter_delete_ps (b : bool) m p ps : p ∉ ps ->
  filter (fun q => over (delete p m) q = b) ps = filter (fun q => over m q = b) ps.
Proof.
  intros H. apply filter_ext_in. intros q Hq. rewrite over_delete; [done|set_solver].
Qed.

Lemma reap_delete m p ps o : p ∉ ps -> reap (delete p m) ps o = reap m ps o.
Proof.
  unfold reap. revert o. induction ps as [|q ps IH]; intros o H; [done|]. cbn [fold_left].
  rewrite lookup_delete_ne by set_solver. apply IH. set_solver.
Qed.
(** From an index on: the threads before it are not over. *)
Lemma collect_from_spec fuel : forall pre post s o, serves s (pre ++ post) ->
  Forall (fun p => over (threads s) p = false) pre -> (length post < fuel)%nat ->
  exists s', collect_from fuel (zlen pre) (s, o) = Ret tt (s', reap (threads s) (dead (threads s) post) o) /\
    serves s' (pre ++ alive (threads s) post) /\ fd s' = fd s /\ same_room (m_threads s) (m_threads s') /\
    threads s' = filter (fun kv => done kv.2 = false) (threads s).
Proof.
  induction fuel as [|fuel IH]; intros pre post s o HS Hpre Hfuel; [lia|]. cbn [collect_from].
  rewrite bind_gets. cbn [fst]. rewrite (serves_size _ _ HS), length_app.
  destruct post as [|p post]; cbn [length] in *.
  - destruct (Z.ltb_spec (zlen pre) (Z.of_nat (length pre + 0))); [lia|].
    exists s. split_and!; [done..|]. symmetry. apply map_filter_id. intros p th Hp. cbn.
    destruct HS as (_ & _ & _ & _ & D). rewrite app_nil_r in D. rewrite Forall_forall in Hpre.
    specialize (Hpre p ltac:(apply D; by eexists)). unfold over in Hpre. by rewrite Hp in Hpre.
  - destruct (Z.ltb_spec (zlen pre) (Z.of_nat (length pre + S (length post)))); [|lia].
    rewrite (bind_step _ _ _ _ _ (thread_at_spec s pre p post o HS)), bind_gets. cbn [fst].
    pose proof HS as (_ & _ & N & _ & D). apply NoDup_app in N as (_ & N2 & N3). apply NoDup_cons in N3 as [N3 _].
    destruct (proj2 (D p) (proj2 (elem_of_app pre (p :: post) p) (or_intror (list_elem_of_here p post)))) as [th Hth]. rewrite Hth. cbn [deref]. rewrite bind_ret.
    assert (over (threads s) p = done th) as Ov by (unfold over; by rewrite Hth).
    unfold dead, alive. rewrite !filter_cons, Ov. destruct (done th) eqn:Hd.
    + rewrite decide_True, decide_False by done.
      rewrite (bind_step _ _ _ _ _ (syscall_step_ _ _ _)). cbn [view update].
      destruct (serves_delete s pre p post (sys_thread_join (pt th) o) HS) as (l & E & Room & HS').
      rewrite (bind_step _ _ _ _ _ E), (bind_step _ _ _ _ _ (syscall_step_ _ _ _)).
      destruct (IH pre post (Mk (fd s) l (delete p (threads s))) (sys_free p (sys_thread_join (pt th) o)) HS')
        as (s' & E' & HS'' & F' & Room' & T'); [|lia|].
      { rewrite Forall_forall in Hpre |- *. intros q Hq. cbn [threads]. rewrite over_delete; [by apply Hpre|].
        intros ->. apply (N2 q Hq). by left. }
      cbn [threads fd] in *. unfold dead, alive in E', HS''.
      rewrite !filter_delete_ps in E', HS'' by done. rewrite reap_delete in E' by (intros [_ ?]%list_elem_of_filter; done).
      exists s'. split_and!; [|done|done|by destruct Room, Room'; split; etransitivity|].
      * unfold reap at 1. cbn [fold_left]. rewrite Hth. exact E'.
      * rewrite T'. apply map_filter_delete_not. intros th' Hth'. cbn. congruence.
    + rewrite decide_False, decide_True by done.
      assert (zlen pre + 1 = zlen (pre ++ [p])) as -> by (rewrite length_app; cbn [length]; lia).
      destruct (IH (pre ++ [p]) post s o) as (s' & E' & HS' & F' & Room & T'); [by rewrite <- app_assoc| |lia|].
      { apply Forall_app. split; [done|]. apply Forall_singleton. by rewrite Ov. }
      exists s'. rewrite <- app_assoc in HS'. by split_and!.
Qed.

Lemma collect_spec s ps o : serves s ps ->
  exists s', collect (s, o) = Ret tt (s', reap (threads s) (dead (threads s) ps) o) /\
    serves s' (alive (threads s) ps) /\ fd s' = fd s /\ same_room (m_threads s) (m_threads s') /\
    threads s' = filter (fun kv => done kv.2 = false) (threads s).
Proof.
  intros HS. unfold collect. rewrite bind_gets. cbn [fst]. rewrite (serves_size _ _ HS), Nat2Z.id.
  apply (collect_from_spec (S (length ps)) [] ps s o HS); [constructor|lia].
Qed.

Lemma serves_add s ps p th o : serves s ps -> 0 <= p < 18446744073709551616 -> p ∉ ps ->
  (Sblist.capa (m_threads s) + 2 * Sblist.blockitems (m_threads s)) * 8 < 18446744073709551616 ->
  exists ok l o', Sblist.sblist_add (pointer p) (m_threads s, o) = Ret ok (l, o') /\
    if ok : bool then serves (Mk (fd s) l (<[p := th]> (threads s))) (ps ++ [p]) else serves (Mk (fd s) l (threads s)) ps.
Proof.
  intros (R & I & N & HF & D) Hp Hnew Hb.
  pose proof (add_spec (m_threads s) (map pointer ps) (pointer p) o R) as A.
  rewrite I in A. specialize (A (f_equal Z.of_nat (length_le_split 8 p)) Hb).
  destruct (Sblist.sblist_add _ _) as [[] [l o']| | |] eqn:E; try done;
    destruct (add_shape _ _ _ _ _ _ E) as [I' _]; do 3 eexists; (split; [done|]);
    unfold serves; cbn [m_threads threads].
  - rewrite map_app. split_and!; [done|congruence| |apply Forall_app; split; [done|by apply Forall_singleton]|].
    + apply NoDup_app. split_and!; [done| |apply NoDup_singleton]. intros q Hq ->%list_elem_of_singleton. done.
    + intros q. rewrite lookup_insert_is_Some, D, elem_of_app, list_elem_of_singleton.
      destruct (decide (p = q)); naive_solver.
  - split_and!; [done|congruence|done..].
Qed.

Lemma serves_alter f l m ps p g : serves (Mk f l m) ps -> serves (Mk f l (alter g p m)) ps.
Proof.
  intros (R & I & N & HF & D). split_and!; [done..|]. intros q. cbn [threads] in *. by rewrite lookup_alter_is_Some.
Qed.

(** C34: serving a connection.  The threads that are over are joined and
    freed, in the order of the list, and exactly they; then there is one
    thread more, for the client accepted, or none when there is no memory or
    no client.  The list keeps holding the pointers of the threads there
    are, each once: no thread is lost, read after it was freed, or freed
    twice. *)
Theorem socks_server s ps o (HS : serves s ps)
    (o1 := reap (threads s) (dead (threads s) ps) o)
    (Hroom : (Sblist.capa (m_threads s) + 2 * Sblist.blockitems (m_threads s)) * 8 < 18446744073709551616)
    (Hfresh : forall p o', sys_malloc THREAD_SIZE o1 = (Some p, o') ->
       0 <= p < 18446744073709551616 /\ p ∉ alive (threads s) ps) :
  let rest := filter (fun kv => done kv.2 = false) (threads s) in
  exists s' o', polled (s, o) = Ret tt (s', o') /\ fd s' = fd s /\
    ((serves s' (alive (threads s) ps) /\ threads s' = rest) \/
     exists p c id o2 o3, sys_malloc THREAD_SIZE o1 = (Some p, o2) /\ sys_accept (fd s) o2 = (SysOk c, o3) /\
       serves s' (alive (threads s) ps ++ [p]) /\ threads s' = <[p := Thread id c false]> rest).
Proof.
  intros rest. destruct (collect_spec s ps o HS) as (s1 & E1 & HS1 & F1 & [Rc Rb] & T1). fold o1 in E1.
  unfold polled. rewrite (bind_step _ _ _ _ _ E1). clear E1.
  destruct (sys_malloc THREAD_SIZE o1) as [r o2] eqn:E2.
  rewrite (bind_step _ _ _ _ _ (syscall_step (@lens_snd t os) _ _ _ (s1, o1) E2)).
  destruct r as [p|]; [|exists s1, o2; split_and!; [done..|by left]].
  destruct (Hfresh p o2 eq_refl) as [Hp Hnew]. cbn [update lens_snd fst]. rewrite bind_gets. cbn [fst].
  destruct (sys_accept (fd s1) o2) as [a o3] eqn:E3.
  assert (zoom (@lens_snd t os) (Server.server_waitclient (fd s1)) (s1, o2) =
          Ret (match a with SysErr _ => (-1, -1) | SysOk c => (0, c) end) (s1, o3)) as W.
  { unfold zoom, Server.server_waitclient, syscall, mbind, M_bind, mret, M_ret. cbn [view update lens_snd snd].
    unfold id. by rewrite E3. }
  rewrite (bind_step _ _ _ _ _ W). destruct a as [c|e]; cbn [fst snd Z.eqb negb].
  2: { do 2 eexists. split_and!; [done..|by left]. }
  set (s2 := Mk (fd s1) (m_threads s1) (<[p := Thread 0 c false]> (threads s1))).
  rewrite (bind_step _ _ _ tt (s2, o3)) by done.
  destruct (serves_add s1 (alive (threads s) ps) p (Thread 0 c false) o3 HS1 Hp Hnew) as (ok & l & o4 & E4 & HS2);
    [by rewrite Rc, Rb|].
  rewrite (bind_step _ _ _ ok (Mk (fd s1) l (<[p := Thread 0 c false]> (threads s1)), o4))
    by (unfold zoom; cbn [view update fst snd m_threads s2]; by rewrite E4).
  assert (threads s1 !! p = None) as Hnone.
  { apply eq_None_not_Some. intros Hs. destruct HS1 as (_ & _ & _ & _ & D). by apply D in Hs. }
  destruct ok.
  - destruct (sys_thread_create o4) as [r o5] eqn:E5.
    rewrite (bind_step _ _ _ _ _ (syscall_step (@lens_snd t os) _ _ _ (_, o4) E5)).
    destruct r as [id|e]; do 2 eexists; (split_and!; [done..|]); right.
    + exists p, c, id, o2, o3. rewrite <- F1. split_and!; [done..| |].
      * by apply serves_alter.
      * cbn. by rewrite alter_insert_eq, T1.
    + exists p, c, 0, o2, o3. rewrite <- F1. split_and!; [done..|]. cbn. by rewrite T1.
  - exists (Mk (fd s1) l (threads s1)). eexists. split_and!; [|done|by left].
    munfold. cbn. by rewrite delete_insert_id by done.
Qed.
End Server.

(** ** Witnesses *)

Module SocksDemo.

(** A connection to the host named h, port 80, with a byte of payload that
    came early. *)
Definition request : list byte := enc_request (Domain (bytes_of "h")) 80.

Lemma socks_requests_witness :
  connect_socks_target (P:=ScriptOS) (request ++ [x41]) (Script [Data [x0a]; Num 7; Num 0] []) =
  dial (bytes_of "h") 80 (Script [Data [x0a]; Num 7; Num 0] []) /\
  connect_socks_target (P:=ScriptOS) [x05; x02; x00; x01; x00] (Script [] []) = Ret (-7) (Script [] []).
Proof.
  split.
  - refine (proj1 (socks_requests (P:=ScriptOS) _ _) (Domain (bytes_of "h")) 80 [x41] _ _ eq_refl); simpl; lia.
  - refine (proj2 (socks_requests (P:=ScriptOS) [x05; x02; x00; x01; x00] _) _).
    intros a port extra _ E. discriminate E.
Defined.

Definition greeting : list byte := [x05; x01; x00].

(** The client reads only the first byte of the reply. *)
Definition short_reply : script :=
  Script [Data greeting; Num 2; Data request; Data [x0a]; Num 7; Num 0; Num 1] [].

Lemma socks_conversation_witness : exists r o' code w,
  socks5_handshake (P:=ScriptOS) 2 4 SS_1_CONNECTED short_reply = Ret r o' /\
  0 <= code <= 8 /\ w `prefix_of` transcript code /\
  script_sent o' 4 = script_sent short_reply 4 ++ w /\
  (forall g, g <> 4 -> script_sent o' g = script_sent short_reply g /\
                       script_received o' g = script_received short_reply g) /\
  (r = -1 /\ w <> transcript 0 \/ 0 <= r /\ code = 0 /\ w = transcript code).
Proof. apply (socks_conversation script_traffic). lia. Defined.

Definition after (k : nat) (cs : list call) : script :=
  Script (drop k (answers short_reply)) cs.

(** The socket 7, connected to the host, stays open. *)
Lemma socks_thread_end_witness :
  socks5_clientthread (P:=ScriptOS) 5 4 short_reply =
  Ret tt (Script [] [CRead 4 greeting; CWrite 4 [x05; x00]; CRead 4 request; COther; COther; COther;
                     CWrite 4 [x05]; CClose 4]).
Proof.
  refine (socks_thread_end (P:=ScriptOS) 4 5 short_reply
    (after 1 [CRead 4 greeting]) (after 2 [CRead 4 greeting; CWrite 4 [x05; x00]])
    (after 3 [CRead 4 greeting; CWrite 4 [x05; x00]; CRead 4 request])
    (after 6 [CRead 4 greeting; CWrite 4 [x05; x00]; CRead 4 request; COther; COther; COther])
    greeting request 7 _ _ _ _ _ _ _); (vm_compute; congruence) || reflexivity.
Defined.

(** One turn that passes three bytes on in two writes, then the end of the
    stream. *)
Definition chat : script :=
  Script [Ready 1 [1; 0]; Data (bytes_of "abc"); Num 2; Num 1; Ready 1 [1; 0]; Data []] [].

Lemma socks_copy_witness : exists o1 o2, copyloop (P:=ScriptOS) 2 4 7 chat = Ret tt o2 /\
  (exists a b, moved script_traffic 4 7 chat o1 a a b b).
Proof.
  set (o1 := Script [Ready 1 [1; 0]; Data []]
    [COther; CRead 4 (bytes_of "abc"); CWrite 7 (bytes_of "ab"); CWrite 7 (bytes_of "c")]).
  assert (copy_turn (P:=ScriptOS) (Z.to_nat COPY_SIZE) 4 7 chat = Ret true o1) as H1 by (vm_compute; reflexivity).
  destruct (socks_copy script_traffic 4 7 1 chat o1 ltac:(lia)
              ltac:(econstructor; [exact H1|constructor])) as (M & more & o2 & a & a' & b & b' & E & _ & _ & _ & _ & H).
  exists o1, o2. split; [|exact M]. apply H; [|lia].
  assert (forall x, copy_turn (P:=ScriptOS) (Z.to_nat COPY_SIZE) 4 7 o1 = Ret true x -> False) as H2
    by (intros x; vm_compute; discriminate).
  destruct more; [by destruct (H2 _ E)|done].
Defined.

(** Two threads, the first of them over. *)
Definition server : t :=
  let add item lo := final (Sblist.sblist_add (P:=ScriptOS) item lo) lo in
  Mk 9 (add (pointer 200) (add (pointer 100) (Sblist.sblist_init 8 8, Script [Num 1] []))).1
    (<[100 := Thread 1 5 true]> (<[200 := Thread 2 6 false]> ∅)).

Lemma server_serves : serves server [100; 200].
Proof.
  unfold serves. split_and!; [|vm_compute; reflexivity| | |].
  - unfold represents. split_and!; try (vm_compute; congruence); [repeat constructor|].
    exists (replicate 48 x00). vm_compute. reflexivity.
  - by apply (bool_decide_unpack _).
  - repeat constructor; lia.
  - intros p. unfold server. cbn [threads]. rewrite !lookup_insert_is_Some', lookup_empty, !elem_of_cons, elem_of_nil.
    split; [intros [?|[?|[? [=]]]]|intros [?|[?|[]]]]; auto.
Qed.

(** The first is collected, and the client 7 gets a thread at 300. *)
Lemma socks_server_witness : exists s' o',
  polled (P:=ScriptOS) (server, Script [Num 300; Num 7; Num 3] []) = Ret tt (s', o') /\ fd s' = 9 /\
  (serves s' [200] \/ serves s' [200; 300]).
Proof.
  assert (alive (threads server) [100; 200] = [200]) as Al by (vm_compute; reflexivity).
  set (o := Script [Num 300; Num 7; Num 3] []).
  assert (sys_malloc (Posix:=ScriptOS) THREAD_SIZE (reap (threads server) (dead (threads server) [100; 200]) o) =
          (Some 300, Script [Num 7; Num 3] [COther; COther; COther])) as Em by (vm_compute; reflexivity).
  assert (forall p o', sys_malloc (Posix:=ScriptOS) THREAD_SIZE
            (reap (threads server) (dead (threads server) [100; 200]) o) = (Some p, o') ->
          0 <= p < 18446744073709551616 /\ p ∉ alive (threads server) [100; 200]) as Fresh.
  { rewrite Al, Em. intros p o' [= <- <-]. split; [lia|]. rewrite list_elem_of_singleton. lia. }
  destruct (socks_server (P:=ScriptOS) server [100; 200] o server_serves ltac:(vm_compute; reflexivity) Fresh)
    as (s' & o' & E & F & H).
  exists s', o'. split; [exact E|]. split; [exact F|]. rewrite Al, Em in H.
  destruct H as [[H _]|(p & c & id & o2 & o3 & Hm & _ & H & _)]; [by left|right].
  injection Hm as <- _. exact H.
Defined.
End SocksDemo.
