(* ===== verification/Diagnostics.v ===== *)
(** * Diagnostics

    src/src/com/antlersoft/Trace.cpp, MyException.cpp and StderrEndl.h: the
    stack of the functions that are running, and the text of an exception
    with the trace printed when one is made.  [errno] is part of the state
    here, because ending a line on the standard error stream asks for the
    mode of the terminal and so may change it. *)

From stdpp Require Import base list tactics strings.
From Stdlib Require Import ZArith Lia.
From S2P Require Import Prelude Posix Spec Tunnel.

Record diagnostics {P : Posix} : Type := Diagnostics {
  scope_stack : list (list byte);   (* innermost first *)
  print_it : bool;
  errno : Z;
  system : os
}.
Arguments diagnostics P : clear implicits.

Section Components.
Context {P : Posix}.
Abbreviation state := (diagnostics P).

Definition stack_of : lens state (list (list byte)) :=
  Lens scope_stack (fun x d => Diagnostics P x (print_it d) (errno d) (system d)).
Definition print_of : lens state bool :=
  Lens print_it (fun x d => Diagnostics P (scope_stack d) x (errno d) (system d)).
Definition errno_of : lens state Z :=
  Lens errno (fun x d => Diagnostics P (scope_stack d) (print_it d) x (system d)).
Definition system_of : lens state os :=
  Lens system (fun x d => Diagnostics P (scope_stack d) (print_it d) (errno d) x).

(** StderrEndl.h. *)
Definition cerr_endl : M state (list byte) :=
  termios_now ← syscall system_of (sys_tcgetattr 2);
  match termios_now with
  | SysErr e => modify (update errno_of e);; mret [x0a]
  | SysOk t => mret (if has_bit (c_oflag t) Terminal.OPOST then [x0a] else [x0d; x0a])
  end.

(** [cerr << text << cerr_endl() << flush]: the text is out when
    [cerr_endl] asks for the mode of the terminal. *)
Definition line (text : list byte) : M state unit :=
  syscall_ system_of (sys_cerr text);;
  endl ← cerr_endl;
  syscall_ system_of (sys_cerr endl).
End Components.

Module Trace.
Section Trace.
Context {P : Posix}.

(** The constructor and the destructor. *)
Definition new_Trace (s : list byte) : M (diagnostics P) unit :=
  modify (fun d => update stack_of (s :: scope_stack d) d);;
  p ← gets print_it;
  when p (line (bytes_of "into " ++ s)).

Definition front : M (diagnostics P) (list byte) :=
  st ← gets scope_stack; deref EmptyDeque (head st).
Definition pop_front : M (diagnostics P) unit :=
  st ← gets scope_stack;
  match st with [] => undefined EmptyDeque | _ :: rest => modify (update stack_of rest) end.

Definition destroy : M (diagnostics P) unit :=
  p ← gets print_it;
  when p (s ← front; line (bytes_of "out of " ++ s));;
  pop_front.

Definition setPrint (p : bool) : M (diagnostics P) bool :=
  old_p ← gets print_it;
  modify (update print_of p);;
  mret old_p.

Definition getTrace : M (diagnostics P) unit :=
  st ← gets scope_stack;
  (fix from (st : list (list byte)) : M (diagnostics P) unit := match st with
   | [] => mret tt
   | i :: st => line (bytes_of "  from " ++ i);; from st
   end) st.
End Trace.
End Trace.

Module MyException.
(** An exception is its message. *)
Record t : Type := Mk { m_msg : list byte }.

(** An [int] in a stream. *)
Definition put_int (n : Z) : list byte := if n <? 0 then x2d :: decimal (- n) else decimal n.

(** What [MY_EXCEPTION] adds to the message. *)
Definition located (text file : list byte) (l : Z) : list byte :=
  text ++ bytes_of " at " ++ file ++ x3a :: put_int l.

Section Constructors.
Context {P : Posix}.
(** [strerror]. *)
Context (strerror : Z -> list byte).

Definition of_stream (msg_stream file : list byte) (l : Z) : M (diagnostics P) t :=
  let m_msg := located msg_stream file l in
  line m_msg;;
  Trace.getTrace;;
  mret (Mk m_msg).

Definition of_msg (msg file : list byte) (l : Z) : M (diagnostics P) t := of_stream (c_string msg) file l.

(** The operands of the stream are taken from left to right. *)
Definition errno_stream : M (diagnostics P) (list byte) :=
  n ← gets errno;
  endl ← cerr_endl;
  m ← gets errno;
  mret (bytes_of "Error: " ++ put_int n ++ endl ++
        (if (1 <=? m) && (m <? 500) then strerror m else bytes_of " errno not set")).

Definition of_errno (file : list byte) (l : Z) : M (diagnostics P) t :=
  msg ← errno_stream;
  of_stream msg file l.
End Constructors.

Definition what (e : t) : list byte := c_string (m_msg e).
End MyException.

(** ** Functions with a trace *)

Section Scopes.
Context {P : Posix}.
Implicit Types (d : diagnostics P) (name : list byte).

(** A block that begins with [Trace trace(name)]: the object is destroyed
    when the block is left, also by an exception. *)
Definition scope {A} name (body : M (diagnostics P) A) : M (diagnostics P) A := fun d =>
  match (Trace.new_Trace name;; body) d with
  | Ret a d' => (Trace.destroy;; mret a) d'
  | Throw e d' => (Trace.destroy;; throw e) d'
  | Undef u => Undef u
  | NoFuel => NoFuel
  end.

(** A block in the blocks [names], the outermost first. *)
Definition scopes {A} (names : list (list byte)) (body : M (diagnostics P) A) : M (diagnostics P) A :=
  foldr scope body names.

(** [throw] of an exception made there. *)
Definition raise {A} (make : M (diagnostics P) MyException.t) : M (diagnostics P) A :=
  x ← make;
  throw (ExnMsg (String.string_of_list_byte (MyException.what x))).

(** What lines written do: they take the system and [errno] along. *)
Definition after_line (text : list byte) (s : Z * os) : Z * os :=
  match sys_tcgetattr 2 (sys_cerr text s.2) with
  | (SysErr e, o) => (e, sys_cerr [x0a] o)
  | (SysOk t, o) => (s.1, sys_cerr (if has_bit (c_oflag t) Terminal.OPOST then [x0a] else [x0d; x0a]) o)
  end.
Definition after_lines (texts : list (list byte)) (s : Z * os) : Z * os := foldl (fun s text => after_line text s) s texts.

Definition with_lines (texts : list (list byte)) d : diagnostics P :=
  let s := after_lines texts (errno d, system d) in Diagnostics P (scope_stack d) (print_it d) s.1 s.2.

Lemma with_lines_nil d : with_lines [] d = d.
Proof. by destruct d. Qed.
Lemma with_lines_app l k d : with_lines (l ++ k) d = with_lines k (with_lines l d).
Proof.
  unfold with_lines. cbn. unfold after_lines. rewrite foldl_app.
  by destruct (foldl _ (errno d, system d) l).
Qed.
Lemma with_lines_stack l st d : with_lines l (update stack_of st d) = update stack_of st (with_lines l d).
Proof. done. Qed.

Lemma line_with text d : line text d = Ret tt (with_lines [text] d).
Proof.
  unfold line, cerr_endl, mbind, M_bind, syscall, syscall_, modify, mret, M_ret, with_lines, after_lines, after_line.
  cbn. destruct (sys_tcgetattr 2 (sys_cerr text (system d))) as [[t|e] o]; done.
Qed.

Lemma getTrace_with d : Trace.getTrace d = Ret tt (with_lines (map (app (bytes_of "  from ")) (scope_stack d)) d).
Proof.
  unfold Trace.getTrace. rewrite bind_gets. generalize (scope_stack d). intros st. revert d.
  induction st as [|i st IH]; intros d; [by rewrite with_lines_nil|].
  rewrite (bind_step _ _ _ _ _ (line_with _ d)), IH.
  change (map (app (bytes_of "  from ")) (i :: st)) with ([bytes_of "  from " ++ i] ++ map (app (bytes_of "  from ")) st).
  by rewrite with_lines_app.
Qed.

Definition traced d (word : string) (names : list (list byte)) : list (list byte) :=
  if print_it d then map (app (bytes_of word)) names else [].

Lemma new_Trace_with name d :
  Trace.new_Trace name d = Ret tt (with_lines (traced d "into " [name]) (update stack_of (name :: scope_stack d) d)).
Proof.
  unfold Trace.new_Trace, modify, traced. unfold mbind at 1, M_bind at 1. rewrite bind_gets. cbn [print_it update stack_of].
  destruct (print_it d); cbn [when map]; [apply line_with|]. by rewrite with_lines_nil.
Qed.

Lemma destroy_with name st d : scope_stack d = name :: st ->
  Trace.destroy d = Ret tt (with_lines (traced d "out of " [name]) (update stack_of st d)).
Proof.
  intros E. unfold Trace.destroy, traced. rewrite bind_gets. destruct (print_it d); cbn [when map].
  - erewrite bind_step; [|unfold Trace.front; rewrite bind_assoc, bind_gets, E; cbn; apply line_with].
    unfold Trace.pop_front. rewrite bind_gets. cbn [scope_stack with_lines]. by rewrite E.
  - rewrite bind_ret. unfold Trace.pop_front. rewrite bind_gets, E, with_lines_nil. done.
Qed.

(** A block that is left with a value or an exception. *)
Definition leave {A} (r : A + exn) d : outcome (diagnostics P) A :=
  match r with inl a => Ret a d | inr e => Throw e d end.

Lemma scope_with {A} name (body : M (diagnostics P) A) r lines d :
  let d1 := with_lines (traced d "into " [name]) (update stack_of (name :: scope_stack d) d) in
  body d1 = leave r (with_lines lines d1) ->
  scope name body d = leave r (with_lines (traced d "into " [name] ++ lines ++ traced d "out of " [name]) d).
Proof.
  intros d1 E. unfold scope. rewrite (bind_step _ _ _ _ _ (new_Trace_with name d)). fold d1. rewrite E.
  assert (Trace.destroy (with_lines lines d1) =
    Ret tt (with_lines (traced d "into " [name] ++ lines ++ traced d "out of " [name]) d)) as Ed.
  { rewrite (destroy_with name (scope_stack d)) by done. f_equal.
    change (traced (with_lines lines d1) "out of " [name]) with (traced d "out of " [name]).
    rewrite !with_lines_app. unfold d1. rewrite !with_lines_stack. done. }
  destruct r; cbn [leave]; by rewrite (bind_step _ _ _ _ _ Ed).
Qed.

Lemma scopes_with {A} names (body : M (diagnostics P) A) r lines d :
  (forall d', scope_stack d' = rev names ++ scope_stack d -> print_it d' = print_it d ->
              body d' = leave r (with_lines lines d')) ->
  scopes names body d =
  leave r (with_lines (traced d "into " names ++ lines ++ traced d "out of " (rev names)) d).
Proof.
  revert d. induction names as [|name names IH]; intros d H; cbn [scopes foldr].
  - rewrite (H d) by done. unfold traced. by destruct (print_it d); cbn; rewrite app_nil_r.
  - set (d1 := with_lines (traced d "into " [name]) (update stack_of (name :: scope_stack d) d)).
    rewrite (scope_with name _ r (traced d "into " names ++ lines ++ traced d "out of " (rev names))).
    + f_equal. f_equal. unfold traced. destruct (print_it d); cbn; [|by rewrite app_nil_r].
      by rewrite map_app, <- !app_assoc.
    + fold d1. change (traced d) with (traced d1). apply IH. intros d' Hs Hp. apply H; [|done].
      rewrite Hs. cbn. by rewrite <- app_assoc.
Qed.

(** C38: what an exception tells.  Made in any number of blocks with a trace,
    it is thrown with its message and the place; the standard error stream
    gets the message and then the blocks it is in, the innermost first, with
    those that were open before; the blocks are left one by one, and the
    stack is as it was.  With [print_it], the blocks are announced as they
    are entered and left.

    The message of an exception from [errno] has the number, but only on a
    terminal the text of that number: elsewhere the question for the mode of
    the terminal fails in between, and the text is that of its error. *)
Theorem exception_report {A} (strerror : Z -> list byte) names text file l d
    (Herrno : 1 <= errno d < 500) :
  scopes names (raise (A:=A) (MyException.of_stream text file l)) d =
    Throw (ExnMsg (String.string_of_list_byte (c_string (MyException.located text file l))))
      (with_lines (traced d "into " names ++
                   (MyException.located text file l :: map (app (bytes_of "  from ")) (rev names ++ scope_stack d)) ++
                   traced d "out of " (rev names)) d) /\
  match sys_tcgetattr 2 (system d) with
  | (SysOk t, _) => exists endl d', MyException.errno_stream strerror d =
      Ret (bytes_of "Error: " ++ MyException.put_int (errno d) ++ endl ++ strerror (errno d)) d' /\ errno d' = errno d
  | (SysErr e, _) => 1 <= e < 500 -> exists endl d', MyException.errno_stream strerror d =
      Ret (bytes_of "Error: " ++ MyException.put_int (errno d) ++ endl ++ strerror e) d' /\ errno d' = e
  end.
Proof.
  assert (forall e, 1 <= e < 500 -> (1 <=? e) && (e <? 500) = true) as In by (intros; apply andb_true_intro; lia).
  split.
  - apply (scopes_with names _ (inr _)). intros d' Hs _. unfold raise, MyException.of_stream.
    rewrite !bind_assoc, (bind_step _ _ _ _ _ (line_with _ d')), !bind_assoc.
    rewrite (bind_step _ _ _ _ _ (getTrace_with _)). cbn [scope_stack with_lines]. rewrite Hs.
    rewrite <- with_lines_app. done.
  - unfold MyException.errno_stream, cerr_endl, syscall, mbind, M_bind, gets, modify, mret, M_ret. cbn.
    destruct (sys_tcgetattr 2 (system d)) as [[t|e] o]; [|intros He]; cbn [scope_stack print_it errno system update system_of errno_of];
      rewrite In by done; [eexists (if has_bit (c_oflag t) _ then _ else _)|exists [x0a]]; eexists; by split.
Qed.
End Scopes.

(** A failed write, on a standard error stream that is no terminal. *)
Module DiagnosticsDemo.
Definition strerror (e : Z) : list byte :=
  if e =? 25 then bytes_of "Inappropriate ioctl for device" else bytes_of "Broken pipe".
Definition broken_pipe : diagnostics ScriptOS :=
  Diagnostics ScriptOS [bytes_of "main"] false 32 (Script [Err 25] []).

Lemma exception_report_witness :
  exists endl d', MyException.errno_stream strerror broken_pipe =
    Ret (bytes_of "Error: 32" ++ endl ++ bytes_of "Inappropriate ioctl for device") d'.
Proof.
  destruct (proj2 (exception_report (A:=unit) strerror [] [] [] 0 broken_pipe ltac:(cbn; lia)) ltac:(lia)) as (endl & d' & E & _).
  exists endl, d'. rewrite E. reflexivity.
Defined.
End DiagnosticsDemo.
